(* ===== verification/_CoqProject ===== *)
-Q . S2P
Prelude.v
Mips32.v
Tools.v
Cpu.v
Exception.v
Io.v
Bus.v
Mem.v
Decode.v
Execute.v
Memstage.v
Writeback.v
Forward.v
Fetch.v
Sim.v
Elf.v
Disasm.v
Debug.v
DebugText.v
Simulate.v
Main.v
MemProps.v
MemTheorems.v
DeviceTheorems.v
ElfTheorems.v
ElfTotal.v
Registers.v
Encoding.v
Wellformed.v
Faults.v
Isa.v
Merge.v
Unaligned.v
Machine.v
DecodeExecute.v
Refine.v
Program.v
Types.v
Interrupts.v
DisasmTheorems.v
DebugTheorems.v
DebugTextTheorems.v
SimulateTheorems.v
Multicore.v
MainTheorems.v
HelpText.v
Validation.v
Deviations.v
