(* ===== verification/Prelude.v ===== *)
(** * A verification development for the pipelined MIPS32 simulator

    The program is a simulator of a five-stage MIPS32 processor: a host process loads an
    executable into the memory of a machine made of cores, a memory unit and devices, and
    advances the machine one clock tick at a time until a program makes the exit system
    call. This library translates its implementation (src/src) into Rocq and proves what
    makes it correct: that the pipeline, its forwarding unit and its hazard control
    compute what a one-instruction-at-a-time specification of the instruction set says,
    from the bytes of the executable to the value the simulator returns.

    ** Conventions

    A [uint32_t] is a [Z] between 0 and 2^32, every store followed by the wrap-around the
    type makes ([wrap8], [wrap16], [wrap32]); [s32] is the conversion to [int32_t]. Signed
    arithmetic that overflows wraps around, as on the hosts the program is built for. A
    C function is a Rocq function from the state it reads to an [outcome]: [Ret] with
    the new state, [Exit] when it ends the process, [Crash] when it performs an access C
    does not define (a null pointer, an index outside an array): such accesses are not
    assumed away, several theorems say where they happen and others that they do not. A
    loop without a bound of its own has a [fuel] argument and gives [None] when it runs
    out; each has a theorem that says how much is enough.

    ** Parts of the program and of the library

    Definitions, one file for each part:
    - Mips32: opcodes, function codes, fields, formats, mnemonics (mips32.h, mips32.c).
    - Tools: overflow predicates, byte order (tools.h, tools.c).
    - Cpu: registers, coprocessor 0, pipeline registers, cores (cpu.h, cpu.c, cp0.h,
      cp0.c). A core is the record [core_t]: two register arrays and the four pipeline
      registers between the five stages.
    - Exception: the Cause register (exception.h, exception.c).
    - Io: devices, descriptors, the shutdown and the terminal device (io.h, io.c,
      shutdown_dev.h, shutdown_dev.c, tty.h, tty.c).
    - Mem: the memory unit (mem.h, mem.c): segments, translation, big-endian accesses to
      the host's bytes (a finite map [pmem]; bytes without an entry are zero), the device
      list and the descriptor area.
    - Bus: the interface between the pipeline and the memory unit, a class [Bus] of two
      operations and the laws [BusSpec] the pipeline relies on. The pipeline's theorems
      are proved for every instance; MemProps shows that [mmu_read] and [mmu_write] are
      one.
    - Decode, Execute, Memstage, Writeback, Forward, Fetch: the pipeline stages, the
      exception entry and the forwarding unit (sim.c), one file each.
    - Sim: the clock tick, the loop over the cores, [hw_init], [run] without debugger and
      log (sim.h, sim.c).
    - Elf: the loader (elf.h, elf.c), on a stream over the bytes of a file.
    - Disasm: the disassembler (disasm.h, disasm.c).
    - Debug: the debugger's commands (debug.c) and the complete loop of [run]. DebugText:
      what is printed, as text: [printf] with the formats the source uses, the register,
      pipeline, coprocessor, device and memory dumps (debug.c, cp0.c, mips32.c), and the
      output of a whole stop of the debugger.
    - Simulate: [simulate] (sim.c).
    - Main: options, numbers and [main] (main.c). HelpText: the help text, and the options
      it documents against those [main] accepts.

    A tick runs the stages of a core in reverse order (write back first) and then the
    forwarding unit, so that each stage reads the pipeline register its predecessor left
    in the tick before: [tick_core]. The cores share the memory unit and the flag
    [g_finished], in the order of the loop: [tick_cores].

    Specifications and theorems:
    - Isa: the instruction-set specification, a step relation [isa_step] on registers,
      memory and two program counters (the branch delay slot), for the subset of
      instructions the pipeline implements as the architecture defines them (the
      unaligned loads LWL and LWR included); [uop] is what an instruction does to
      registers and memory. SUB, JAL, LL, SC, the coprocessor moves and the unaligned
      stores are outside the subset: what SUB, JAL, LL and SC do instead, on the
      operands the forwarding unit gives them, is in Deviations; the unaligned stores and the exceptions have theorems of their own.
      Merge: the masks and shifts of LWL and LWR as the arithmetic of Isa.
    - DecodeExecute: the decode stage implements the control table, the execute stage
      the specified operation; the exceptions it raises.
    - Refine: the simulation. The relation [inv] ties a core to a specification state:
      its pipeline holds the instructions about to retire, and [pending] says which
      register writes are still on their way. [pipeline_refines_isa] is one instruction,
      a tick, or two exactly when it is a load the next one uses; [program_runs] is any number of them from an empty pipeline.
    - Program: whole programs up to the exit system call; an executable form of the
      specification ([isa_run]) for concrete programs.
    - Multicore: the loop of [tick] over several cores. The specification interleaves
      instructions of Isa on a common memory ([mc_step], one core at a time); [safe n]
      says that no interleaving of [n] instructions goes wrong. The relation [lag] ties a
      core to the specification state before the memory access of the instruction in
      EX/MEM, so that the accesses of the cores happen in both in the same order:
      [multicore_sequentially_consistent] and, as no core waits longer than two ticks
      for an instruction, [multicore_progress]. [multicore_crashes] is what [simulate]
      makes of more than one core.
    - Types: every field of a core keeps the C type its struct declares.
    - Wellformed, Machine: the invariant of cores and machine ([core_ok],
      [hardware_ok]), preserved by every tick; what [hw_init] builds; the run loop.
      Faults: a tick that fails does so in a memory call of one core ([core_fault]).
    - MemProps, MemTheorems: loads and stores as big-endian numerals over bytes, round
      trips, frames, bounds, unmapped segments. DeviceTheorems: the devices, and the
      descriptor area byte by byte.
    - Unaligned: LWL, LWR, SWL, SWR. Interrupts: exception entry, ERET, preciseness.
    - Encoding: instruction formats, overflow predicate, byte order, tables. Registers: the
      register constants against the tables of names.
    - ElfTheorems: reading a header back, the verdict on every header, the memory a
      loaded file leaves. ElfTotal: a specification of the loader on the bytes of the
      file ([load_table], [segment_load]) and its equality with [elf_dump] on every file.
    - DisasmTheorems: the buffer of the disassembler. DebugTheorems: the transparency of
      the debugger and the log; the specification of a stop, command by command
      ([prompts], [stop_ends]), and that every stop meets it. DebugTextTheorems: what the
      debugger prints (no access outside a table, a dump that can be read back), and what
      naming a register does. MainTheorems: the meaning of every command line
      ([settings_of]) and its equality with what [main] reads.
    - SimulateTheorems: end to end, from the file to the returned value. Validation: the
      programs of tests/ run on the definitions, with the exit status their .test files
      expect.

    ** Bounds and fuel

    A program of [n] instructions and the exit system call ends within [5 + 2 * n] ticks:
    an instruction takes one tick, or two when it uses the load before it, two ticks fill
    the pipeline and three bring the system call to write back. The result of a run does
    not depend on the bound ([run_fuel_mono]). One stop of the debugger ends within as
    many commands as its input has bytes, and one more, or never. The option loop has
    the number of characters of the command line as its bound, which is always enough. A
    core executes at least [n] instructions in [2 * n + 2] ticks; [k] ticks of [p] cores
    execute at most [k * p], and fetch two ahead, hence the bound [k * p + 2] of [safe].

    ** Not modelled

    The DEBUG and ERROR macros of error.h, which only print, and the stream of the log
    file; the release of memory at the end ([hw_free], [mmu_free], [cpu_free]);
    [cpu_tick], which is empty; the bytes of a shared-memory segment of the terminal
    device beyond its address (whether the host grants the segment is an argument of the
    model). tools/tty.c is another process, of host calls only; it uses a variable it does
    not declare and does not compile. Host answers (allocations, files, standard input) are
    arguments. *)

From stdpp Require Export base numbers list gmap strings.
From Stdlib Require Export ZArith Lia.
From Stdlib Require Import Btauto.

#[global] Set Default Proof Using "Type".
#[global] Open Scope Z_scope.

(** ** Machine integers

    A [uint32_t] (and every narrower unsigned type) is a [Z] in range; a store
    into such an object is followed by the matching wrap-around. *)

Definition wrap8 (z : Z) : Z := z mod 2 ^ 8.
Definition wrap16 (z : Z) : Z := z mod 2 ^ 16.
Definition wrap32 (z : Z) : Z := z mod 2 ^ 32.

(** [(int32_t)z] and [(int16_t)z]: two's complement reinterpretation. *)
Definition s32 (z : Z) : Z := (z + 2 ^ 31) mod 2 ^ 32 - 2 ^ 31.
Definition s16 (z : Z) : Z := (z + 2 ^ 15) mod 2 ^ 16 - 2 ^ 15.

Definition u8 (z : Z) : Prop := 0 <= z < 2 ^ 8.
Definition u32 (z : Z) : Prop := 0 <= z < 2 ^ 32.

Definition INT_MAX : Z := 2147483647.
Definition INT_MIN : Z := -2147483648.

(** ** What a call of a C function can do

    A call returns, terminates the process through [exit], or performs an
    access the C language does not define (and the host process dies of). *)

Inductive fault :=
  | NullDeref      (** a null data pointer is dereferenced *)
  | NullCall       (** a null function pointer is called *)
  | OutOfBounds.   (** an access outside the allocated object *)

Inductive outcome (A : Type) :=
  | Ret (a : A)
  | Exit (code : Z)
  | Crash (f : fault).
Arguments Ret {A} a.
Arguments Exit {A} code.
Arguments Crash {A} f.

#[export] Instance fault_eq_dec : EqDecision fault.
Proof. solve_decision. Defined.

#[export] Instance outcome_bind : MBind outcome := λ A B k m,
  match m with
  | Ret a => k a
  | Exit c => Exit c
  | Crash f => Crash f
  end.
#[export] Instance outcome_ret : MRet outcome := λ A, Ret.

(** Array accesses [a[i]] with a bounds check: C has none, so an access outside
    the object is a [Crash]. *)
Definition aget {A} (a : list A) (i : Z) : outcome A :=
  if i <? 0 then Crash OutOfBounds
  else match a !! Z.to_nat i with Some x => Ret x | None => Crash OutOfBounds end.

Definition aset {A} (a : list A) (i : Z) (x : A) : outcome (list A) :=
  if (0 <=? i) && (i <? Z.of_nat (length a)) then Ret (<[Z.to_nat i := x]> a)
  else Crash OutOfBounds.

(** [a[i]] where the index is a masked instruction field, so never outside [a]. *)
Definition aread (a : list Z) (i : Z) : Z := nth (Z.to_nat i) a 0.

#[global] Arguments aread : simpl never.
#[global] Arguments aget : simpl never.
#[global] Arguments aset : simpl never.

(** The labels of a [switch] that share one body. *)
Definition one_of (x : Z) (labels : list Z) : bool := existsb (Z.eqb x) labels.

(** ** Record update

    [r <| f := v |>] is [r] with the field [f] set to [v]: the model's [r.f = v].
    A record type declares its eta expansion once ([Eta]); the setter of any of
    its fields is computed from it. *)

Class Eta (R : Type) := { eta : R -> R }.
Class Update {R E : Type} (proj : R -> E) := { update : (E -> E) -> R -> R }.
Arguments update {R E} proj {_} f r.

Ltac derive_update R proj :=
  let h := constr:(_ : Eta R) in
  let e := eval hnf in (@eta R h) in
  match eval pattern proj in e with
  | ?mk _ => let t := eval cbv beta in (λ f, mk (λ r, f (proj r))) in exact (Build_Update R _ proj t)
  end.

#[export] Hint Extern 1 (@Update ?R _ ?proj) => derive_update R proj : typeclass_instances.

Declare Scope record_scope.
Delimit Scope record_scope with record.
Notation "r <| f := v |>" := (update f (λ _, v) r)
  (at level 1, f at level 1, left associativity, format "r  <| f  :=  v |>") : record_scope.
#[global] Open Scope record_scope.

(** ** Generic lemmas *)

Create HintDb mach discriminated.
#[export] Hint Constants Opaque : mach.
Create Rewrite HintDb wrap.

Section Words.
Implicit Types x y z n i : Z.

Lemma wrap32_u32 z : u32 (wrap32 z).
Proof. apply Z.mod_pos_bound. lia. Qed.

Lemma u32_0 : u32 0.
Proof. unfold u32. lia. Qed.

Lemma wrap32_small z : u32 z → wrap32 z = z.
Proof. intros. by apply Z.mod_small. Qed.

Lemma wrap8_u8 z : u8 (wrap8 z).
Proof. apply Z.mod_pos_bound. lia. Qed.

Lemma wrap8_small z : u8 z → wrap8 z = z.
Proof. intros. by apply Z.mod_small. Qed.

Lemma u8_u32 z : u8 z → u32 z.
Proof. unfold u8, u32. lia. Qed.

Lemma s32_range z : - 2 ^ 31 <= s32 z < 2 ^ 31.
Proof. unfold s32. pose proof (Z.mod_pos_bound (z + 2 ^ 31) (2 ^ 32)). lia. Qed.

Lemma s32_small z : - 2 ^ 31 <= z < 2 ^ 31 → s32 z = z.
Proof. intros. unfold s32. rewrite Z.mod_small; lia. Qed.

Lemma s32_high z : 2 ^ 31 <= z < 2 ^ 32 → s32 z = z - 2 ^ 32.
Proof.
  intros. unfold s32. replace (z + 2 ^ 31) with (z - 2 ^ 31 + 1 * 2 ^ 32) by lia.
  rewrite Z.mod_add, Z.mod_small; lia.
Qed.

Lemma wrap32_s32 z : wrap32 (s32 z) = wrap32 z.
Proof. unfold wrap32, s32. Z.div_mod_to_equations. lia. Qed.

Lemma wrap32_add_s32 x y : wrap32 (s32 x + s32 y) = wrap32 (x + y).
Proof. unfold wrap32, s32. Z.div_mod_to_equations. lia. Qed.

Lemma wrap32_idemp z : wrap32 (wrap32 z) = wrap32 z.
Proof. apply wrap32_small, wrap32_u32. Qed.

Lemma wrap32_add_l x y : wrap32 (wrap32 x + y) = wrap32 (x + y).
Proof. unfold wrap32. by rewrite Zplus_mod_idemp_l. Qed.

Lemma wrap32_add_r x y : wrap32 (x + wrap32 y) = wrap32 (x + y).
Proof. unfold wrap32. by rewrite Zplus_mod_idemp_r. Qed.

(** A natural number is below [2 ^ n] exactly when its bits from [n] on are clear. *)
Lemma below_pow2_bits n z :
  0 <= n → 0 <= z → (∀ i, n <= i → Z.testbit z i = false) → 0 <= z < 2 ^ n.
Proof.
  intros Hn Hz Hb. split; [done|].
  enough (z = z mod 2 ^ n) as -> by (apply Z.mod_pos_bound; lia).
  apply Z.bits_inj'; intros i Hi. destruct (Z.ltb_spec i n).
  - by rewrite Z.mod_pow2_bits_low.
  - rewrite Z.mod_pow2_bits_high by lia. by apply Hb.
Qed.

Lemma bits_above n z i : 0 <= z < 2 ^ n → 0 <= n <= i → Z.testbit z i = false.
Proof. intros Hz Hi. rewrite <-(Z.mod_small z (2 ^ n)) by done. by apply Z.mod_pow2_bits_high. Qed.

Lemma lor_range n x y : 0 <= n → 0 <= x < 2 ^ n → 0 <= y < 2 ^ n → 0 <= Z.lor x y < 2 ^ n.
Proof.
  intros Hn Hx Hy. apply below_pow2_bits; [done| |].
  - apply Z.lor_nonneg. lia.
  - intros i Hi. rewrite Z.lor_spec, (bits_above n x), (bits_above n y); done || lia.
Qed.

Lemma land_range_l n x y : 0 <= n → 0 <= x < 2 ^ n → 0 <= Z.land x y < 2 ^ n.
Proof.
  intros Hn Hx. apply below_pow2_bits; [done| |].
  - apply Z.land_nonneg. lia.
  - intros i Hi. rewrite Z.land_spec, (bits_above n x); done || lia.
Qed.

Lemma shiftr_range n x k : 0 <= k → 0 <= x < 2 ^ n → 0 <= Z.shiftr x k < 2 ^ n.
Proof.
  intros Hk Hx. rewrite Z.shiftr_div_pow2 by done.
  assert (0 < 2 ^ k) by lia.
  split; [apply Z.div_pos; lia|].
  apply Z.le_lt_trans with x; [|lia]. apply Z.div_le_upper_bound; nia.
Qed.

Lemma u32_lor x y : u32 x → u32 y → u32 (Z.lor x y).
Proof. by apply lor_range. Qed.

Lemma u32_land x y : u32 x → u32 (Z.land x y).
Proof. by apply land_range_l. Qed.

Lemma u32_land_r x y : u32 y → u32 (Z.land x y).
Proof. rewrite Z.land_comm. by apply land_range_l. Qed.

Lemma u32_shiftr x k : 0 <= k → u32 x → u32 (Z.shiftr x k).
Proof. by apply shiftr_range. Qed.

(** Masking with [2 ^ n - 1] keeps the low [n] bits. *)
Lemma land_mask_range n x : 0 <= n → 0 <= Z.land x (2 ^ n - 1) < 2 ^ n.
Proof.
  intros. replace (2 ^ n - 1) with (Z.ones n) by (rewrite Z.ones_equiv; lia).
  rewrite Z.land_ones by done. apply Z.mod_pos_bound. lia.
Qed.

Lemma lor_shiftl_add n x y : 0 <= n → 0 <= y < 2 ^ n → Z.lor (Z.shiftl x n) y = x * 2 ^ n + y.
Proof.
  intros Hn Hy. rewrite <-Z.shiftl_mul_pow2 by done.
  assert (Z.land (Z.shiftl x n) y = 0) as Hd.
  { apply Z.bits_inj'; intros i Hi. rewrite Z.land_spec, Z.bits_0, Z.shiftl_spec by done.
    destruct (Z.ltb_spec i n); [by rewrite Z.testbit_neg_r by lia|].
    rewrite (bits_above n y i) by (done || lia). by rewrite andb_false_r. }
  by rewrite <-Z.lxor_lor, Z.add_nocarry_lxor.
Qed.

(** A [uint32_t] is determined by its four bytes. *)
Lemma u32_bytes_eq x y :
  u32 x → u32 y → (∀ k, 0 <= k < 4 → wrap8 (Z.shiftr x (8 * k)) = wrap8 (Z.shiftr y (8 * k))) →
  x = y.
Proof.
  unfold u32, wrap8. intros Hx Hy Hk.
  pose proof (Hk 0 ltac:(lia)) as H0. pose proof (Hk 1 ltac:(lia)) as H1.
  pose proof (Hk 2 ltac:(lia)) as H2. pose proof (Hk 3 ltac:(lia)) as H3.
  rewrite !Z.shiftr_div_pow2 in H0, H1, H2, H3 by lia. cbn in H0, H1, H2, H3.
  Z.div_mod_to_equations. lia.
Qed.

Lemma land_mask_mod n x : 0 <= n → Z.land x (2 ^ n - 1) = x mod 2 ^ n.
Proof.
  intros. replace (2 ^ n - 1) with (Z.ones n) by (rewrite Z.ones_equiv; lia).
  by apply Z.land_ones.
Qed.
End Words.

#[export] Hint Resolve wrap32_u32 wrap8_u8 u8_u32 u32_lor u32_land u32_land_r u32_shiftr : mach.
#[export] Hint Extern 0 (u32 0) => exact u32_0 : mach.
#[export] Hint Extern 1 (u32 1) => (unfold u32; lia) : mach.
#[export] Hint Rewrite wrap32_idemp wrap32_add_l wrap32_add_r wrap32_s32 : wrap.

Section Arrays.
Context {A : Type}.
Implicit Types (a : list A) (i : Z) (x : A).

Lemma aget_Ret a i x : aget a i = Ret x ↔ 0 <= i ∧ a !! Z.to_nat i = Some x.
Proof.
  unfold aget. destruct (Z.ltb_spec i 0).
  - split; [done|lia].
  - destruct (a !! Z.to_nat i) as [y|]; [|by split; [|intros [_ ?]]]. split; [by intros [= <-]|].
    intros [_ E]. congruence.
Qed.

Lemma aget_in_range a i : 0 <= i < Z.of_nat (length a) → ∃ x, aget a i = Ret x.
Proof.
  intros Hi. destruct (lookup_lt_is_Some_2 a (Z.to_nat i)) as [x Hx]; [lia|].
  exists x. apply aget_Ret. split; [lia|done].
Qed.

Lemma aset_in_range a i x :
  0 <= i < Z.of_nat (length a) → aset a i x = Ret (<[Z.to_nat i := x]> a).
Proof.
  intros. unfold aset.
  by rewrite (proj2 (Z.leb_le _ _)), (proj2 (Z.ltb_lt _ _)) by lia.
Qed.

Lemma alter_lookup_insert (f : A → A) a k x :
  a !! k = Some x → alter f k a = <[k := f x]> a.
Proof.
  revert k. induction a as [|y a IH]; intros [|k]; cbn; intros H; [done|done| |].
  - by injection H as ->.
  - f_equal. by apply IH.
Qed.

Lemma aset_Ret a i x a' :
  aset a i x = Ret a' → 0 <= i < Z.of_nat (length a) ∧ a' = <[Z.to_nat i := x]> a.
Proof.
  unfold aset. destruct (Z.leb_spec 0 i), (Z.ltb_spec i (Z.of_nat (length a))); cbn; intros [= <-]; done.
Qed.
End Arrays.

Section RegisterArrays.
Implicit Types (a : list Z) (i j x : Z).

Lemma aread_insert_eq a i x :
  0 <= i < Z.of_nat (length a) → aread (<[Z.to_nat i := x]> a) i = x.
Proof.
  intros. unfold aread. apply nth_lookup_Some, list_lookup_insert_eq. lia.
Qed.

Lemma aget_aread a i : 0 <= i < Z.of_nat (length a) → aget a i = Ret (aread a i).
Proof.
  intros Hi. destruct (aget_in_range a i Hi) as [x Hx]. rewrite Hx.
  apply aget_Ret in Hx as [_ Hx]. unfold aread. by rewrite (nth_lookup_Some _ _ _ _ Hx).
Qed.

Lemma aread_insert_ne a i j x :
  0 <= i → 0 <= j → i ≠ j → aread (<[Z.to_nat i := x]> a) j = aread a j.
Proof. intros. unfold aread. rewrite !nth_lookup, list_lookup_insert_ne; [done|lia]. Qed.

Lemma aread_Forall (P : Z → Prop) a i : P 0 → Forall P a → P (aread a i).
Proof.
  intros H0 Ha. unfold aread. rewrite nth_lookup.
  destruct (a !! Z.to_nat i) eqn:E; [|done]. cbn. by eapply Forall_lookup_1.
Qed.

Lemma aread_u32 a i : Forall u32 a → u32 (aread a i).
Proof. apply aread_Forall. unfold u32. lia. Qed.
End RegisterArrays.

#[export] Hint Resolve aread_u32 : mach.

(** ** Inversion of successful calls *)

Lemma bind_Ret_inv {A B} (m : outcome A) (k : A → outcome B) b :
  (m ≫= k) = Ret b → ∃ a, m = Ret a ∧ k a = Ret b.
Proof. destruct m; naive_solver. Qed.

Lemma bind_Crash_inv {A B} (m : outcome A) (k : A → outcome B) f :
  (m ≫= k) = Crash f → m = Crash f ∨ ∃ a, m = Ret a ∧ k a = Crash f.
Proof. destruct m; naive_solver. Qed.

(** [inv_ret H]: [H : (x ← m; k) = Ret r] gives the intermediate results. *)
Ltac inv_ret H :=
  match type of H with
  | (_ ≫= _) = Ret _ =>
    let x := fresh "r" in let Hx := fresh "Hr" in
    apply bind_Ret_inv in H as (x & Hx & H); cbn beta in H; inv_ret H
  | (let '(_, _) := ?p in _) = Ret _ => destruct p eqn:?; inv_ret H
  | Ret _ = Ret _ => injection H as H
  | _ => idtac
  end.

(** Case analysis on the boolean comparisons of [Z] in the goal, innermost first. *)
Ltac no_if x := lazymatch x with context [if _ then _ else _] => fail | _ => idtac end.
Ltac case_Z :=
  repeat match goal with
  | |- context [?a =? ?b] => no_if a; no_if b; destruct (Z.eqb_spec a b)
  | |- context [?a <? ?b] => no_if a; no_if b; destruct (Z.ltb_spec a b)
  | |- context [?a <=? ?b] => no_if a; no_if b; destruct (Z.leb_spec a b)
  | |- context [?a >=? ?b] => rewrite (Z.geb_leb a b)
  | |- context [?a >? ?b] => rewrite (Z.gtb_ltb a b)
  end.

(** [name_let y]: in a goal [P (let x := v in b)], names the bound value. *)
Ltac name_let y :=
  match goal with
  | |- ?P (let x := ?v in @?b x) =>
    pose (y := v); let t := eval cbv beta in (b y) in change (P t)
  end.
