(* ===== verification/Mips32.v ===== *)
(** * Instruction encoding (src/mips32.h, src/mips32.c)

    Opcodes, function codes, the field-extraction macros, the exception codes
    and the mnemonic tables. *)

From S2P Require Import Prelude.
From coqutil Require Import Z.bitblast.

(** ** Opcodes, function codes and special encodings *)

Definition OPCODE_R : Z := 0x0.
Definition OPCODE_J : Z := 0x2.
Definition OPCODE_JAL : Z := 0x3.
Definition OPCODE_BEQ : Z := 0x4.
Definition OPCODE_BNE : Z := 0x5.
Definition OPCODE_ADDI : Z := 0x8.
Definition OPCODE_ADDIU : Z := 0x9.
Definition OPCODE_SLTI : Z := 0xa.
Definition OPCODE_SLTIU : Z := 0xb.
Definition OPCODE_ANDI : Z := 0xc.
Definition OPCODE_ORI : Z := 0xd.
Definition OPCODE_LUI : Z := 0xf.
Definition OPCODE_LWL : Z := 0x22.
Definition OPCODE_LW : Z := 0x23.
Definition OPCODE_LBU : Z := 0x24.
Definition OPCODE_LHU : Z := 0x25.
Definition OPCODE_LWR : Z := 0x26.
Definition OPCODE_LL : Z := 0x30.
Definition OPCODE_SW : Z := 0x2b.
Definition OPCODE_SB : Z := 0x28.
Definition OPCODE_SC : Z := 0x38.
Definition OPCODE_SH : Z := 0x29.
Definition OPCODE_SWR : Z := 0x2a.
Definition OPCODE_SWL : Z := 0x2e.
Definition OPCODE_CP0 : Z := 0x10.
Definition FUNCT_JR : Z := 0x8.
Definition FUNCT_SYSCALL : Z := 0xc.
Definition FUNCT_ADD : Z := 0x20.
Definition FUNCT_ADDU : Z := 0x21.
Definition FUNCT_SUB : Z := 0x22.
Definition FUNCT_SUBU : Z := 0x23.
Definition FUNCT_AND : Z := 0x24.
Definition FUNCT_OR : Z := 0x25.
Definition FUNCT_NOR : Z := 0x27.
Definition FUNCT_SLT : Z := 0x2a.
Definition FUNCT_SLTU : Z := 0x2b.
Definition FUNCT_SLL : Z := 0x0.
Definition FUNCT_SRL : Z := 0x2.
Definition CP0_MFC0 : Z := 0x0.
Definition CP0_MTC0 : Z := 0x4.
Definition INSTRUCTION_ERET : Z := 0x42000018.

(** ** Field extraction

    Least-significant bit masks [LS_nB] and the [GET_x] macros, on a [uint32_t]
    instruction word. *)

Definition LS_5B : Z := Z.shiftl 1 5 - 1.
Definition LS_6B : Z := Z.shiftl 1 6 - 1.
Definition LS_16B : Z := Z.shiftl 1 16 - 1.
Definition LS_26B : Z := Z.shiftl 1 26 - 1.

Definition GET_OPCODE (inst : Z) : Z := Z.shiftr inst 26.
Definition GET_RS (inst : Z) : Z := Z.land (Z.shiftr inst 21) LS_5B.
Definition GET_RT (inst : Z) : Z := Z.land (Z.shiftr inst 16) LS_5B.
Definition GET_RD (inst : Z) : Z := Z.land (Z.shiftr inst 11) LS_5B.
Definition GET_SHAMT (inst : Z) : Z := Z.land (Z.shiftr inst 6) LS_5B.
Definition GET_FUNCT (inst : Z) : Z := Z.land inst LS_6B.
Definition GET_IMM (inst : Z) : Z := Z.land inst LS_16B.
Definition GET_ADDRESS (inst : Z) : Z := Z.land inst LS_26B.

(** [(int32_t)(int16_t)value] *)
Definition SIGN_EXTEND (value : Z) : Z := s16 value.
Definition ZERO_EXTEND_MASK : Z := 0x0000FFFF.

(** ** Exception codes *)

Inductive exception_t :=
  | EXC_None
  | EXC_Interrupt
  | EXC_AddressErrorLoad
  | EXC_AddressErrorStore
  | EXC_BusErrorInstructionFetch
  | EXC_BusErrorLoadStore
  | EXC_Syscall
  | EXC_Breakpoint
  | EXC_Reserved
  | EXC_CpUnavailable
  | EXC_ArithmeticOverflow
  | EXC_Trap
  | EXC_FloatingPoint.

#[export] Instance exception_t_eq_dec : EqDecision exception_t.
Proof. solve_decision. Defined.

(** ** Mnemonic tables (without their terminating null pointers) *)

Definition op_codes : list string := [
  "SPECIAL"; "REGIMM"; "J"; "JAL"; "BEQ"; "BNE"; "BLEZ"; "BGTZ"; "ADDI"; "ADDIU";
  "SLTI"; "SLTIU"; "ANDI"; "ORI"; "XORI"; "LUI"; "COP0"; "COP1"; "COP2"; "COP3";
  "BEQL"; "BNEL"; "BLEZL"; "BGTZL"; "Invalid instruction"; "Invalid instruction";
  "Invalid instruction"; "Invalid instruction"; "SPECIAL2"; "Invalid instruction";
  "Invalid instruction"; "Invalid instruction"; "LB"; "LH"; "LWL"; "LW"; "LBU";
  "LHU"; "LWR"; "Invalid instruction"; "SB"; "SH"; "SWL"; "SW";
  "Invalid instruction"; "Invalid instruction"; "SWR"; "CACHE"; "LL"; "LWC1";
  "LWC2"; "PREF"; "Invalid instruction"; "LDC1"; "LDC2"; "Invalid instruction";
  "SC"; "SWC1"; "SWC2"; "Invalid instruction"; "Invalid instruction"; "SDC1";
  "SDC2"; "Invalid instruction"]%string.

Definition funct_codes : list string := [
  "SLL"; "MOVC1"; "SRL"; "SRA"; "SLLV"; "Invalid function"; "SRLV"; "SRAV"; "JR";
  "JALR"; "MOVZ"; "MOVN"; "SYSCALL"; "BREAK"; "Invalid function"; "SYNC"; "MFHI";
  "MTHI"; "MFLO"; "MTLO"; "Invalid function"; "Invalid function";
  "Invalid function"; "Invalid function"; "MULT"; "MULTU"; "DIV"; "DIVU";
  "Invalid function"; "Invalid function"; "Invalid function"; "Invalid function";
  "ADD"; "ADDU"; "SUB"; "SUBU"; "AND"; "OR"; "XOR"; "NOR"; "Invalid function";
  "Invalid function"; "SLT"; "SLTU"; "Invalid function"; "Invalid function";
  "Invalid function"; "Invalid function"; "TGE"; "TGEU"; "TLT"; "TLTU"; "TEQ";
  "Invalid function"; "TNE"; "Invalid function"; "Invalid function";
  "Invalid function"; "Invalid function"; "Invalid function"; "Invalid function";
  "Invalid function"; "Invalid function"; "Invalid function"]%string.

Definition cp0_codes : list string := [
  "MFC0"; "UNKNOWN"; "UNKNOWN"; "UNKNOWN"; "MTC0"]%string.

(** ** Instruction formats (the unions of src/cpu.h)

    The bit-field structs of the three formats and the word ([raw]) each denotes:
    bit-fields are allocated from the least significant bit, as gcc does on the
    little-endian hosts the simulator is built for. *)

Record instr_r_t := InstrR {
  r_funct : Z; r_shamt : Z; r_rd : Z; r_rt : Z; r_rs : Z; r_opcode : Z }.
Record instr_i_t := InstrI { i_immediate : Z; i_rt : Z; i_rs : Z; i_opcode : Z }.
Record instr_j_t := InstrJ { j_address : Z; j_opcode : Z }.

Definition instr_r_raw (r : instr_r_t) : Z :=
  Z.lor (Z.shiftl (r_opcode r) 26) (Z.lor (Z.shiftl (r_rs r) 21)
    (Z.lor (Z.shiftl (r_rt r) 16) (Z.lor (Z.shiftl (r_rd r) 11)
      (Z.lor (Z.shiftl (r_shamt r) 6) (r_funct r))))).
Definition instr_i_raw (r : instr_i_t) : Z :=
  Z.lor (Z.shiftl (i_opcode r) 26) (Z.lor (Z.shiftl (i_rs r) 21)
    (Z.lor (Z.shiftl (i_rt r) 16) (i_immediate r))).
Definition instr_j_raw (r : instr_j_t) : Z :=
  Z.lor (Z.shiftl (j_opcode r) 26) (j_address r).

(** Every field within its declared width. *)
Definition instr_r_wf (r : instr_r_t) : Prop :=
  0 <= r_funct r < 2 ^ 6 ∧ 0 <= r_shamt r < 2 ^ 5 ∧ 0 <= r_rd r < 2 ^ 5 ∧
  0 <= r_rt r < 2 ^ 5 ∧ 0 <= r_rs r < 2 ^ 5 ∧ 0 <= r_opcode r < 2 ^ 6.
Definition instr_i_wf (r : instr_i_t) : Prop :=
  0 <= i_immediate r < 2 ^ 16 ∧ 0 <= i_rt r < 2 ^ 5 ∧ 0 <= i_rs r < 2 ^ 5 ∧
  0 <= i_opcode r < 2 ^ 6.
Definition instr_j_wf (r : instr_j_t) : Prop :=
  0 <= j_address r < 2 ^ 26 ∧ 0 <= j_opcode r < 2 ^ 6.

(** The struct of a format that an instruction word is read as, through the [GET_x]
    macros. *)
Definition decode_r (inst : Z) : instr_r_t :=
  InstrR (GET_FUNCT inst) (GET_SHAMT inst) (GET_RD inst) (GET_RT inst) (GET_RS inst)
    (GET_OPCODE inst).
Definition decode_i (inst : Z) : instr_i_t :=
  InstrI (GET_IMM inst) (GET_RT inst) (GET_RS inst) (GET_OPCODE inst).
Definition decode_j (inst : Z) : instr_j_t :=
  InstrJ (GET_ADDRESS inst) (GET_OPCODE inst).

(** ** Lemmas *)

(** The masks as powers of two, and the fields as quotients and remainders. *)
Lemma field_arith inst k n :
  0 <= k → 0 <= n →
  Z.land (Z.shiftr inst k) (Z.shiftl 1 n - 1) = (inst / 2 ^ k) mod 2 ^ n.
Proof.
  intros. rewrite Z.shiftl_1_l, land_mask_mod, Z.shiftr_div_pow2 by lia. done.
Qed.

Section Fields.
Context (inst : Z).

Lemma GET_RS_range : 0 <= GET_RS inst < 32.
Proof. unfold GET_RS, LS_5B. rewrite field_arith by lia. apply Z.mod_pos_bound. lia. Qed.
Lemma GET_RT_range : 0 <= GET_RT inst < 32.
Proof. unfold GET_RT, LS_5B. rewrite field_arith by lia. apply Z.mod_pos_bound. lia. Qed.
Lemma GET_RD_range : 0 <= GET_RD inst < 32.
Proof. unfold GET_RD, LS_5B. rewrite field_arith by lia. apply Z.mod_pos_bound. lia. Qed.
Lemma GET_SHAMT_range : 0 <= GET_SHAMT inst < 32.
Proof. unfold GET_SHAMT, LS_5B. rewrite field_arith by lia. apply Z.mod_pos_bound. lia. Qed.
Lemma GET_FUNCT_range : 0 <= GET_FUNCT inst < 64.
Proof. unfold GET_FUNCT, LS_6B. rewrite Z.shiftl_1_l. apply (land_mask_range 6). lia. Qed.
Lemma GET_IMM_range : 0 <= GET_IMM inst < 65536.
Proof. unfold GET_IMM, LS_16B. rewrite Z.shiftl_1_l. apply (land_mask_range 16). lia. Qed.
Lemma GET_ADDRESS_range : 0 <= GET_ADDRESS inst < 67108864.
Proof. unfold GET_ADDRESS, LS_26B. rewrite Z.shiftl_1_l. apply (land_mask_range 26). lia. Qed.
Lemma GET_OPCODE_range : u32 inst → 0 <= GET_OPCODE inst < 64.
Proof. unfold u32, GET_OPCODE. intros. rewrite Z.shiftr_div_pow2 by lia.
  Z.div_mod_to_equations. lia. Qed.

Lemma SIGN_EXTEND_range : - 2 ^ 15 <= SIGN_EXTEND inst < 2 ^ 15.
Proof. unfold SIGN_EXTEND, s16. pose proof (Z.mod_pos_bound (inst + 2 ^ 15) (2 ^ 16)). lia. Qed.
End Fields.

(** The formats as positional notation. *)
Lemma instr_r_raw_arith r :
  instr_r_wf r →
  instr_r_raw r = r_opcode r * 2 ^ 26 + (r_rs r * 2 ^ 21 + (r_rt r * 2 ^ 16 +
    (r_rd r * 2 ^ 11 + (r_shamt r * 2 ^ 6 + r_funct r)))).
Proof.
  unfold instr_r_wf, instr_r_raw. intros. rewrite !(lor_shiftl_add 6) by lia.
  rewrite (lor_shiftl_add 11), (lor_shiftl_add 16), (lor_shiftl_add 21), (lor_shiftl_add 26) by lia.
  done.
Qed.

Lemma instr_i_raw_arith r :
  instr_i_wf r →
  instr_i_raw r = i_opcode r * 2 ^ 26 + (i_rs r * 2 ^ 21 + (i_rt r * 2 ^ 16 + i_immediate r)).
Proof.
  unfold instr_i_wf, instr_i_raw. intros.
  by rewrite (lor_shiftl_add 16), (lor_shiftl_add 21), (lor_shiftl_add 26) by lia.
Qed.

Lemma instr_j_raw_arith r :
  instr_j_wf r → instr_j_raw r = j_opcode r * 2 ^ 26 + j_address r.
Proof. unfold instr_j_wf, instr_j_raw. intros. by rewrite (lor_shiftl_add 26) by lia. Qed.

(** Unfolds the field macros to quotients and remainders. *)
Ltac fields_arith :=
  unfold GET_OPCODE, GET_RS, GET_RT, GET_RD, GET_SHAMT, GET_FUNCT, GET_IMM, GET_ADDRESS,
    LS_5B, LS_6B, LS_16B, LS_26B;
  rewrite ?field_arith, ?Z.shiftl_1_l, ?land_mask_mod, ?Z.shiftr_div_pow2 by lia;
  Z.div_mod_to_equations; lia.

Lemma decode_r_raw r : instr_r_wf r → decode_r (instr_r_raw r) = r.
Proof.
  intros Hr. unfold decode_r. rewrite instr_r_raw_arith by done.
  destruct r; unfold instr_r_wf in *; cbn in *. f_equal; fields_arith.
Qed.

Lemma decode_i_raw r : instr_i_wf r → decode_i (instr_i_raw r) = r.
Proof.
  intros Hr. unfold decode_i. rewrite instr_i_raw_arith by done.
  destruct r; unfold instr_i_wf in *; cbn in *. f_equal; fields_arith.
Qed.

Lemma decode_j_raw r : instr_j_wf r → decode_j (instr_j_raw r) = r.
Proof.
  intros Hr. unfold decode_j. rewrite instr_j_raw_arith by done.
  destruct r; unfold instr_j_wf in *; cbn in *. f_equal; fields_arith.
Qed.

(** A word is determined by its fields, in each format. *)
Lemma decode_r_wf inst : u32 inst → instr_r_wf (decode_r inst).
Proof.
  intros. unfold instr_r_wf; cbn.
  pose proof (GET_FUNCT_range inst); pose proof (GET_SHAMT_range inst);
    pose proof (GET_RD_range inst); pose proof (GET_RT_range inst);
    pose proof (GET_RS_range inst); pose proof (GET_OPCODE_range inst). auto 10.
Qed.

Lemma decode_i_wf inst : u32 inst → instr_i_wf (decode_i inst).
Proof.
  intros. unfold instr_i_wf; cbn.
  pose proof (GET_IMM_range inst); pose proof (GET_RT_range inst);
    pose proof (GET_RS_range inst); pose proof (GET_OPCODE_range inst). auto.
Qed.

Lemma decode_j_wf inst : u32 inst → instr_j_wf (decode_j inst).
Proof.
  intros. unfold instr_j_wf; cbn.
  pose proof (GET_ADDRESS_range inst); pose proof (GET_OPCODE_range inst). auto.
Qed.

Lemma raw_decode_r inst : u32 inst → instr_r_raw (decode_r inst) = inst.
Proof.
  intros. rewrite instr_r_raw_arith by by apply decode_r_wf. cbn. fields_arith.
Qed.

Lemma raw_decode_i inst : u32 inst → instr_i_raw (decode_i inst) = inst.
Proof.
  intros. rewrite instr_i_raw_arith by by apply decode_i_wf. cbn. fields_arith.
Qed.

Lemma raw_decode_j inst : u32 inst → instr_j_raw (decode_j inst) = inst.
Proof.
  intros. rewrite instr_j_raw_arith by by apply decode_j_wf. cbn. fields_arith.
Qed.

#[export] Hint Resolve GET_RS_range GET_RT_range GET_RD_range GET_SHAMT_range
  GET_FUNCT_range GET_IMM_range GET_ADDRESS_range GET_OPCODE_range : mach.
