(* ===== verification/Tools.v ===== *)
(** * Arithmetic helpers (src/tools.c, src/tools.h)

    Overflow predicates and the byte-order switch. *)

From S2P Require Import Prelude.
From coqutil Require Import Z.bitblast.

(** [check_uoverflow(uint32_t a, uint32_t b)]: the operands are unsigned, so the
    comparisons against [INT_MAX - a] and [INT_MIN - a] are unsigned too. *)
Definition check_uoverflow (a b : Z) : Z :=
  if (0 <? a) && (wrap32 (INT_MAX - a) <? b) then 1
  else if (a <? 0) && (b <? wrap32 (INT_MIN - a)) then 0
  else 0.

(** [check_soverflow(int32_t a, int32_t b)] *)
Definition check_soverflow (a b : Z) : Z :=
  if ((0 <? b) && (INT_MAX - b <? a)) || ((b <? 0) && (a <? INT_MIN - b)) then 1 else 0.

(** [REVERSE(x)] on a [uint32_t]. *)
Definition REVERSE (x : Z) : Z :=
  Z.lor (Z.lor (Z.lor (Z.land (Z.shiftr x 24) 0x000000ff)
                      (Z.land (wrap32 (Z.shiftl x 8)) 0x00ff0000))
               (Z.land (Z.shiftr x 8) 0x0000ff00))
        (Z.land (wrap32 (Z.shiftl x 24)) 0xff000000).

(** [BIT(x)] *)
Definition BIT (x : Z) : Z := wrap32 (Z.shiftl 1 x).

(** ** Lemmas *)

Lemma check_soverflow_spec a b :
  INT_MIN <= a <= INT_MAX → INT_MIN <= b <= INT_MAX →
  check_soverflow a b = if decide (INT_MIN <= a + b <= INT_MAX) then 0 else 1.
Proof.
  unfold check_soverflow, INT_MIN, INT_MAX. intros.
  case_decide; case_Z; cbn; lia.
Qed.

(** [REVERSE] exchanges byte [k] and byte [3 - k]. *)
Lemma REVERSE_byte x k :
  0 <= k < 4 → wrap8 (Z.shiftr (REVERSE x) (8 * k)) = wrap8 (Z.shiftr x (8 * (3 - k))).
Proof.
  intros Hk. unfold REVERSE, wrap8, wrap32.
  change 0x000000ff with (Z.ones 8). change 0x00ff0000 with (Z.shiftl (Z.ones 8) 16).
  change 0x0000ff00 with (Z.shiftl (Z.ones 8) 8). change 0xff000000 with (Z.shiftl (Z.ones 8) 24).
  assert (k = 0 ∨ k = 1 ∨ k = 2 ∨ k = 3) as [-> | [-> | [-> | ->]]] by lia;
    cbn [Z.mul Z.sub]; Z.bitblast.
Qed.

Lemma REVERSE_u32 x : u32 (REVERSE x).
Proof.
  unfold REVERSE, u32. repeat apply (lor_range 32); try lia;
    rewrite Z.land_comm; apply (land_range_l 32); lia.
Qed.
#[export] Hint Resolve REVERSE_u32 : mach.

Lemma REVERSE_involutive x : u32 x → REVERSE (REVERSE x) = x.
Proof.
  intros Hx. apply u32_bytes_eq; [auto with mach..|]. intros k Hk.
  rewrite !REVERSE_byte by lia. do 2 f_equal. lia.
Qed.
