(* ===== verification/Cpu.v ===== *)
(** * The processor state (src/cpu.h, src/cpu.c, src/cp0.h, src/cp0.c)

    Register numbers, the pipeline registers, the core and the processor. *)

From S2P Require Import Prelude Mips32.

(** ** General-purpose registers *)

Definition NUM_REGISTERS : Z := 33.

Definition REG_ZERO : Z := 0.
Definition REG_AT : Z := 1.
Definition REG_V0 : Z := 2.
Definition REG_V1 : Z := 3.
Definition REG_A0 : Z := 4.
Definition REG_A1 : Z := 5.
Definition REG_A2 : Z := 6.
Definition REG_A3 : Z := 7.
Definition REG_T0 : Z := 8.
Definition REG_T1 : Z := 9.
Definition REG_T2 : Z := 10.
Definition REG_T3 : Z := 11.
Definition REG_T4 : Z := 12.
Definition REG_T5 : Z := 13.
Definition REG_T6 : Z := 14.
Definition REG_T7 : Z := 15.
Definition REG_S0 : Z := 16.
Definition REG_S1 : Z := 17.
Definition REG_S2 : Z := 18.
Definition REG_S3 : Z := 19.
Definition REG_S4 : Z := 20.
Definition REG_S5 : Z := 21.
Definition REG_S6 : Z := 22.
Definition REG_S7 : Z := 23.
Definition REG_T8 : Z := 24.
Definition REG_T9 : Z := 25.
Definition REG_K0 : Z := 26.
Definition REG_K1 : Z := 27.
Definition REG_GP : Z := 28.
Definition REG_SP : Z := 29.
Definition REG_FP : Z := 30.
Definition REG_RA : Z := 31.
Definition REG_PC : Z := 32.

Definition reg_names : list string := [
  "zero"; "at"; "v0"; "v1"; "a0"; "a1"; "a2"; "a3"; "t0"; "t1"; "t2"; "t3"; "t4"; "t5";
  "t6"; "t7"; "s0"; "s1"; "s2"; "s3"; "s4"; "s5"; "s6"; "s7"; "t8"; "t9"; "k0"; "k1";
  "gp"; "sp"; "fp"; "ra"; "pc"]%string.

(** The loop of [register_to_number]: the first register whose name is [str],
    starting at number [i]; 0 when the names run out. *)
Fixpoint register_search (str : string) (names : list string) (i : Z) : Z :=
  match names with
  | [] => 0
  | name :: rest => if (str =? name)%string then i else register_search str rest (i + 1)
  end.

Definition register_to_number (str : string) : Z := register_search str reg_names 0.

(** ** Coprocessor 0 registers

    Their numbers are offset by one from the architectural ones, so that number 0
    (never forwarded) is unused. *)

Definition CP0_NUM_REGS : Z := 40.

Definition REG_UNUSED : Z := 0.
Definition REG_CONTEXT : Z := 1.
Definition REG_RANDOM : Z := 2.
Definition REG_ENTRYLO0 : Z := 3.
Definition REG_ENTRYLO1 : Z := 4.
Definition REG_CONTEXT2 : Z := 5.
Definition REG_PAGEMASK : Z := 6.
Definition REG_WIRED : Z := 7.
Definition REG_ENTRYHI : Z := 8.
Definition REG_HWRENA : Z := 9.
Definition REG_BADVADDR : Z := 10.
Definition REG_COUNT : Z := 11.
Definition REG_COMPARE : Z := 12.
Definition REG_SR : Z := 13.
Definition REG_INTCTL : Z := 14.
Definition REG_EPC : Z := 15.
Definition REG_SRSMAP : Z := 16.
Definition REG_CAUSE : Z := 17.
Definition REG_SRSCTL : Z := 18.
Definition REG_PRID : Z := 19.
Definition REG_EBASE : Z := 20.
Definition REG_CONFIG : Z := 21.
Definition REG_CONFIG1 : Z := 22.
Definition REG_CONFIG2 : Z := 23.
Definition REG_CONFIG3 : Z := 24.
Definition REG_LLADDR : Z := 25.
Definition REG_DEBUG : Z := 26.
Definition REG_DEPC : Z := 27.
Definition REG_DESAVE : Z := 28.
Definition REG_CACHEERR : Z := 29.
Definition REG_ECC : Z := 30.
Definition REG_ERROREPC : Z := 31.
Definition REG_TAGLO : Z := 32.
Definition REG_DATALO : Z := 33.
Definition REG_TAGHI : Z := 34.
Definition REG_DATAHI : Z := 35.
Definition REG_WATCHLO : Z := 36.
Definition REG_WATCHHI : Z := 37.
Definition REG_PERFCTL : Z := 38.
Definition REG_PERFCNT : Z := 39.
Definition REG_LLVAL : Z := 40.

(** The bits of the Status register. *)
Definition SR_IE : Z := Z.shiftl 1 0.
Definition SR_EXL : Z := Z.shiftl 1 1.
Definition SR_ERL : Z := Z.shiftl 1 2.
Definition SR_KSU : Z := Z.shiftl 2 3.
Definition SR_UX : Z := Z.shiftl 1 5.
Definition SR_SX : Z := Z.shiftl 1 6.
Definition SR_KX : Z := Z.shiftl 1 7.
Definition SR_NMI : Z := Z.shiftl 1 19.
Definition SR_SR : Z := Z.shiftl 1 20.
Definition SR_TS : Z := Z.shiftl 1 21.
Definition SR_BEV : Z := Z.shiftl 1 22.
Definition SR_PX : Z := Z.shiftl 1 23.
Definition SR_MX : Z := Z.shiftl 1 24.
Definition SR_RE : Z := Z.shiftl 1 25.
Definition SR_FR : Z := Z.shiftl 1 26.
Definition SR_RP : Z := Z.shiftl 1 27.

(** [(uint32_t)(1 << 31)] *)
Definition CAUSE_BD : Z := wrap32 (Z.shiftl 1 31).

Definition CAUSE_ExcCode : Z := Z.shiftl 31 1.

Definition CAUSE_ExcCode_Interrupt : Z := 0.
Definition CAUSE_ExcCode_Mod : Z := 1.
Definition CAUSE_ExcCode_TLBL : Z := 2.
Definition CAUSE_ExcCode_TLBS : Z := 3.
Definition CAUSE_ExcCode_AdEL : Z := 4.
Definition CAUSE_ExcCode_AdES : Z := 5.
Definition CAUSE_ExcCode_IBE : Z := 6.
Definition CAUSE_ExcCode_DBE : Z := 7.
Definition CAUSE_ExcCode_Syscall : Z := 8.
Definition CAUSE_ExcCode_Bp : Z := 9.
Definition CAUSE_ExcCode_RI : Z := 10.
Definition CAUSE_ExcCode_CpU : Z := 11.
Definition CAUSE_ExcCode_Ov : Z := 12.
Definition CAUSE_ExcCode_TRAP : Z := 13.
Definition CAUSE_ExcCode_UNUSED : Z := 14.
Definition CAUSE_ExcCode_FPE : Z := 15.

Definition cp0_reg_names : list string := [
  "UNUSED"; "Context"; "Random"; "EntryLo0"; "EntryLo1"; "Context"; "PageMask"; "Wired";
  "EntryHi"; "HWREna"; "BadVAddr"; "Count"; "Compare"; "Status"; "IntCtl"; "EPC"; "SRSMap";
  "Cause"; "SRSCtl"; "PRId"; "EBase"; "Config"; "Config1"; "Config2"; "Config3"; "LLAddr";
  "Debug"; "DEPC"; "DESAVE"; "CacheErr"; "ECC"; "ErrorEPC"; "TagLo"; "DataLo"; "TagHi";
  "DataHi"; "WatchLo"; "WatchHi"; "PerfCtl"; "PerfCnt"]%string.

(** ** Pipeline registers *)

Record if_id_t := IfId {
  ifid_inst : Z;
  ifid_next_pc : Z;
  ifid_exception : exception_t;
  ifid_BadVAddr : Z;
  ifid_is_branch_delay : bool }.

Record id_ex_t := IdEx {
  idex_c_reg_dst : bool;
  idex_c_alu_op : Z;
  idex_c_alu_src : bool;
  idex_c_beq : bool;
  idex_c_bne : bool;
  idex_c_mem_read : bool;
  idex_c_mem_write : bool;
  idex_c_reg_write : bool;
  idex_c_mem_to_reg : bool;
  idex_c_jump : bool;
  idex_shamt : Z;
  idex_funct : Z;
  idex_next_pc : Z;
  idex_rs_value : Z;
  idex_rt_value : Z;
  idex_jump_addr : Z;
  idex_branch_addr : Z;
  idex_sign_ext_imm : Z;   (** an [int32_t]: a signed value *)
  idex_rs : Z;
  idex_rt : Z;
  idex_rd : Z;
  idex_inst : Z;
  idex_is_branch_delay : bool;
  idex_exception : exception_t;
  idex_BadVAddr : Z }.

Record ex_mem_t := ExMem {
  exmem_c_reg_write : bool;
  exmem_c_branch : bool;
  exmem_c_mem_read : bool;
  exmem_c_mem_write : bool;
  exmem_c_mem_to_reg : bool;
  exmem_eff_addr : Z;
  exmem_alu_res : Z;
  exmem_rt_value : Z;
  exmem_reg_dst : Z;
  exmem_next_pc : Z;
  exmem_is_branch_delay : bool;
  exmem_inst : Z;
  exmem_exception : exception_t;
  exmem_BadVAddr : Z }.

Record mem_wb_t := MemWb {
  memwb_c_reg_write : bool;
  memwb_c_mem_to_reg : bool;
  memwb_alu_res : Z;
  memwb_read_data : Z;
  memwb_reg_dst : Z;
  memwb_next_pc : Z;
  memwb_inst : Z;
  memwb_is_branch_delay : bool;
  memwb_exception : exception_t;
  memwb_BadVAddr : Z }.

(** What [bzero] and [calloc] leave in each of them. *)
Definition zero_if_id : if_id_t := IfId 0 0 EXC_None 0 false.
Definition zero_id_ex : id_ex_t :=
  IdEx false 0 false false false false false false false false 0 0 0 0 0 0 0 0 0 0 0 0
    false EXC_None 0.
Definition zero_ex_mem : ex_mem_t :=
  ExMem false false false false false 0 0 0 0 0 false 0 EXC_None 0.
Definition zero_mem_wb : mem_wb_t := MemWb false false 0 0 0 0 0 false EXC_None 0.

(** ** Core and processor *)

Record core_t := Core {
  regs : list Z;       (** [uint32_t regs[NUM_REGISTERS]] *)
  cp0 : list Z;        (** [cp0.regs], [CP0_NUM_REGS + 1] of them *)
  if_id : if_id_t;
  id_ex : id_ex_t;
  ex_mem : ex_mem_t;
  mem_wb : mem_wb_t }.

Record cpu_t := Cpu {
  core : list core_t;
  num_cores : Z }.

(** Field update for the records above. *)
#[export] Instance if_id_eta : Eta if_id_t := {| eta := λ r,
  IfId (ifid_inst r) (ifid_next_pc r) (ifid_exception r) (ifid_BadVAddr r)
    (ifid_is_branch_delay r) |}.
#[export] Instance id_ex_eta : Eta id_ex_t := {| eta := λ r,
  IdEx (idex_c_reg_dst r) (idex_c_alu_op r) (idex_c_alu_src r) (idex_c_beq r) (idex_c_bne r)
    (idex_c_mem_read r) (idex_c_mem_write r) (idex_c_reg_write r) (idex_c_mem_to_reg r)
    (idex_c_jump r) (idex_shamt r) (idex_funct r) (idex_next_pc r) (idex_rs_value r)
    (idex_rt_value r) (idex_jump_addr r) (idex_branch_addr r) (idex_sign_ext_imm r)
    (idex_rs r) (idex_rt r) (idex_rd r) (idex_inst r) (idex_is_branch_delay r)
    (idex_exception r) (idex_BadVAddr r) |}.
#[export] Instance ex_mem_eta : Eta ex_mem_t := {| eta := λ r,
  ExMem (exmem_c_reg_write r) (exmem_c_branch r) (exmem_c_mem_read r) (exmem_c_mem_write r)
    (exmem_c_mem_to_reg r) (exmem_eff_addr r) (exmem_alu_res r) (exmem_rt_value r)
    (exmem_reg_dst r) (exmem_next_pc r) (exmem_is_branch_delay r) (exmem_inst r)
    (exmem_exception r) (exmem_BadVAddr r) |}.
#[export] Instance mem_wb_eta : Eta mem_wb_t := {| eta := λ r,
  MemWb (memwb_c_reg_write r) (memwb_c_mem_to_reg r) (memwb_alu_res r) (memwb_read_data r)
    (memwb_reg_dst r) (memwb_next_pc r) (memwb_inst r) (memwb_is_branch_delay r)
    (memwb_exception r) (memwb_BadVAddr r) |}.
#[export] Instance core_eta : Eta core_t := {| eta := λ r,
  Core (regs r) (cp0 r) (if_id r) (id_ex r) (ex_mem r) (mem_wb r) |}.
#[export] Instance cpu_eta : Eta cpu_t := {| eta := λ r, Cpu (core r) (num_cores r) |}.

Definition zero_core : core_t :=
  Core (replicate (Z.to_nat NUM_REGISTERS) 0) (replicate (Z.to_nat (CP0_NUM_REGS + 1)) 0)
    zero_if_id zero_id_ex zero_ex_mem zero_mem_wb.

(** [core->regs[PC]] *)
Definition PC (c : core_t) : Z := aread (regs c) REG_PC.
Definition set_PC (c : core_t) (v : Z) : core_t :=
  c <| regs := <[Z.to_nat REG_PC := v]> (regs c) |>.

(** Enable interrupts on a freshly allocated core: [core.cp0.regs[REG_SR] |= SR_IE]. *)
Definition core_enable_interrupts (c : core_t) : core_t :=
  c <| cp0 := <[Z.to_nat REG_SR := Z.lor (aread (cp0 c) REG_SR) SR_IE]> (cp0 c) |>.

(** [cpu_init(int n_cores)]. [alloc] tells whether the two [calloc]s succeed; a
    negative count never can, the byte count being converted to [size_t]. With zero
    cores the store to [core[0]] is outside the allocation. *)
Definition cpu_init (alloc : bool) (n_cores : Z) : outcome (option cpu_t) :=
  if negb alloc || (n_cores <? 0) then Ret None
  else
    match replicate (Z.to_nat n_cores) zero_core with
    | [] => Crash OutOfBounds
    | core0 :: rest => Ret (Some (Cpu (core_enable_interrupts core0 :: rest) n_cores))
    end.
