(* ===== verification/Exception.v ===== *)
(** * Exceptions (src/exception.c, src/exception.h) *)

From S2P Require Import Prelude Mips32 Cpu.

Definition exc_names : list string := [
  "None"; "Interrupt"; "AddressErrorLoad"; "AddressErrorStore"; "BusErrorInstructionFetch";
  "BusErrorLoadStore"; "Syscall"; "Breakpoint"; "Reserved"; "CpUnavailable";
  "ArithmeticOverflow"; "Trap"; "FloatingPoint"]%string.

(** [get_cause]: the value of the Cause register for an exception. *)
Definition get_cause (exception : exception_t) (in_branch_delay : bool) : Z :=
  let cause := if in_branch_delay then CAUSE_BD else 0 in
  match exception with
  | EXC_None => 0
  | EXC_Interrupt => Z.lor cause CAUSE_ExcCode_Interrupt
  | EXC_AddressErrorLoad => Z.lor cause CAUSE_ExcCode_AdEL
  | EXC_AddressErrorStore => Z.lor cause CAUSE_ExcCode_AdES
  | EXC_BusErrorInstructionFetch => Z.lor cause CAUSE_ExcCode_IBE
  | EXC_BusErrorLoadStore => Z.lor cause CAUSE_ExcCode_DBE
  | EXC_Syscall => Z.lor cause CAUSE_ExcCode_Syscall
  | EXC_Breakpoint => Z.lor cause CAUSE_ExcCode_Bp
  | EXC_Reserved => Z.lor cause CAUSE_ExcCode_RI
  | EXC_CpUnavailable => Z.lor cause CAUSE_ExcCode_CpU
  | EXC_ArithmeticOverflow => Z.lor cause CAUSE_ExcCode_Ov
  | EXC_Trap => Z.lor cause CAUSE_ExcCode_TRAP
  | EXC_FloatingPoint => Z.lor cause CAUSE_ExcCode_FPE
  end.
