(* ===== verification/Io.v ===== *)
(** * Devices (src/io.h, src/io.c, src/shutdown_dev.h, src/shutdown_dev.c, src/tty.h, src/tty.c) *)

From S2P Require Import Prelude Tools.

(** ** Type codes, interrupt numbers, device constants *)

Definition TYPECODE_EMPTY : Z := 0x0000.
Definition TYPECODE_SHUTDOWN : Z := 0x0103.
Definition TYPECODE_TTY : Z := 0x0201.

(** [IRQ_INVALID] is [-1], stored in a [uint32_t]. *)
Definition IRQ_INVALID : Z := -1.

Definition IO_LENGTH_SHUTDOWN : Z := 0x04.
Definition POWEROFF_SHUTDOWN_MAGIC : Z := 0x0badf00d.
(** ["SHUTDOWN"] as bytes. *)
Definition SHUTDOWN_VENDOR_STRING : list Z := [83; 72; 85; 84; 68; 79; 87; 78].

Definition SHM_KEY_TTY : Z := 0x4321.
Definition IRQ_TTY : Z := 2.
Definition IO_LENGTH_TTY : Z := 12.
(** ["TTY     "] as bytes. *)
Definition TTY_VENDOR_STRING : list Z := [84; 84; 89; 32; 32; 32; 32; 32].

(** ** Data *)

(** The descriptor the guest sees, as it lies in the descriptor area. *)
Record device_descriptor_t := Descriptor {
  desc_typecode : Z;
  desc_io_addr_base : Z;
  desc_io_addr_len : Z;
  desc_irq : Z;
  desc_vendor_string : list Z;   (** 8 bytes *)
  desc_reserved1 : Z;
  desc_reserved2 : Z }.

(** The functions the [io_write] and [io_read] pointers are ever set to. *)
Inductive io_write_fn := Fn_shutdown_device_write | Fn_tty_device_write.
Inductive io_read_fn := Fn_tty_device_read.

(** What [realdevice] points to. *)
Record shutdown_device_t := ShutdownDevice { shutdown_triggered : bool }.
Record tty_device_t := TtyDevice { tty_shm_key : Z; tty_shm_id : Z; tty_shm : Z }.
Inductive realdevice_t :=
  | RealNull
  | RealShutdown (d : shutdown_device_t)
  | RealTty (d : tty_device_t).

(** [device_t] without its [next] pointer: the devices form a list. A null function
    pointer is [None]; [tick] is never set. *)
Record device_t := Device {
  dev_typecode : Z;
  dev_vendor_string : list Z;
  dev_irq : Z;
  dev_io_addr_base : Z;
  dev_io_addr_len : Z;
  dev_realdevice : realdevice_t;
  dev_io_write : option io_write_fn;
  dev_io_read : option io_read_fn }.

#[export] Instance descriptor_eta : Eta device_descriptor_t := {| eta := λ r,
  Descriptor (desc_typecode r) (desc_io_addr_base r) (desc_io_addr_len r) (desc_irq r)
    (desc_vendor_string r) (desc_reserved1 r) (desc_reserved2 r) |}.
#[export] Instance device_eta : Eta device_t := {| eta := λ r,
  Device (dev_typecode r) (dev_vendor_string r) (dev_irq r) (dev_io_addr_base r)
    (dev_io_addr_len r) (dev_realdevice r) (dev_io_write r) (dev_io_read r) |}.

Definition zero_descriptor : device_descriptor_t := Descriptor 0 0 0 0 (replicate 8 0) 0 0.
Definition zero_device : device_t := Device 0 (replicate 8 0) 0 0 0 RealNull None None.

(** ** Descriptors *)

Definition device_descriptor_reverse (dev : device_descriptor_t) : device_descriptor_t :=
  dev <| desc_typecode := REVERSE (desc_typecode dev) |>
      <| desc_io_addr_base := REVERSE (desc_io_addr_base dev) |>
      <| desc_io_addr_len := REVERSE (desc_io_addr_len dev) |>
      <| desc_irq := REVERSE (desc_irq dev) |>
      <| desc_reserved1 := REVERSE (desc_reserved1 dev) |>
      <| desc_reserved2 := REVERSE (desc_reserved2 dev) |>.

Definition device_descriptor_set_fields (dev : device_t) (dev_desc : device_descriptor_t)
    : device_descriptor_t :=
  dev_desc <| desc_typecode := dev_typecode dev |>
           <| desc_io_addr_base := dev_io_addr_base dev |>
           <| desc_io_addr_len := dev_io_addr_len dev |>
           <| desc_irq := dev_irq dev |>
           <| desc_vendor_string := dev_vendor_string dev |>
           <| desc_reserved1 := 0 |>
           <| desc_reserved2 := 0 |>.

(** ** The shutdown device *)

(** [alloc]: whether both [calloc]s succeed. *)
Definition shutdown_device_create (alloc : bool) : option device_t :=
  if negb alloc then None
  else Some (zero_device
    <| dev_typecode := TYPECODE_SHUTDOWN |>
    <| dev_vendor_string := SHUTDOWN_VENDOR_STRING |>
    <| dev_irq := wrap32 IRQ_INVALID |>
    <| dev_io_write := Some Fn_shutdown_device_write |>
    <| dev_io_addr_len := IO_LENGTH_SHUTDOWN |>
    <| dev_realdevice := RealShutdown (ShutdownDevice false) |>).

(** The magic word ends the process: [exit(0)]. Otherwise nothing changes and 0 is
    returned. *)
Definition shutdown_device_write (dev : device_t) (addr data : Z) : outcome (device_t * Z) :=
  if data =? POWEROFF_SHUTDOWN_MAGIC then Exit 0 else Ret (dev, 0).

(** ** The tty device *)

Definition tty_device_read (dev : device_t) (addr data : Z) : outcome (Z * Z) :=
  Ret (data, -1).

Definition tty_device_write (dev : device_t) (addr data : Z) : outcome (device_t * Z) :=
  Ret (dev, -1).

(** [tty_device_init] on a device whose other fields are indeterminate ([malloc]).
    [shmget] and [shmat] are the host's: the first returns an identifier or a
    negative number, the second an address or [(char * ) -1], given as [None]. *)
Definition tty_device_init (shmget : Z → Z) (shmat : Z → option Z) (dev : tty_device_t)
    : outcome tty_device_t :=
  let id := shmget SHM_KEY_TTY in
  if id <? 0 then Ret (TtyDevice SHM_KEY_TTY id (tty_shm dev))
  else
    match shmat id with
    | None => Exit 1
    | Some p => Ret (TtyDevice SHM_KEY_TTY id p)
    end.

Definition tty_device_create (shmget : Z → Z) (shmat : Z → option Z)
    (alloc_dev alloc_tty : bool) (garbage : tty_device_t) : outcome (option device_t) :=
  if negb alloc_dev then Ret None
  else if negb alloc_tty then Ret None
  else
    tty ← tty_device_init shmget shmat garbage;
    Ret (Some (zero_device
      <| dev_typecode := TYPECODE_TTY |>
      <| dev_vendor_string := TTY_VENDOR_STRING |>
      <| dev_irq := IRQ_TTY |>
      <| dev_io_addr_len := IO_LENGTH_TTY |>
      <| dev_io_write := Some Fn_tty_device_write |>
      <| dev_io_read := Some Fn_tty_device_read |>
      <| dev_io_addr_base := 0 |>
      <| dev_realdevice := RealTty tty |>)).

(** ** Calls through the device's function pointers *)

Definition io_write (dev : device_t) (addr data : Z) : outcome (device_t * Z) :=
  match dev_io_write dev with
  | None => Crash NullCall
  | Some Fn_shutdown_device_write => shutdown_device_write dev addr data
  | Some Fn_tty_device_write => tty_device_write dev addr data
  end.

(** The result is the new value of [*data] and the returned [int]. *)
Definition io_read (dev : device_t) (addr data : Z) : outcome (Z * Z) :=
  match dev_io_read dev with
  | None => Crash NullCall
  | Some Fn_tty_device_read => tty_device_read dev addr data
  end.
