(* ===== verification/Bus.v ===== *)
(** * The interface between the pipeline and the memory unit

    The pipeline stages of src/sim.c reach the memory unit of src/mem.c through
    [mmu_read] and [mmu_write] only. [Bus] gives the two operations, [BusSpec] what
    the pipeline relies on: the pipeline's theorems are proved against [BusSpec], and
    the memory unit's file shows that [mmu_read] and [mmu_write] meet it. *)

From S2P Require Import Prelude Mips32.

(** The width of a memory operation. *)
Inductive mem_op_size_t := MEM_OP_BYTE | MEM_OP_HALF | MEM_OP_WORD.

#[export] Instance mem_op_size_eq_dec : EqDecision mem_op_size_t.
Proof. solve_decision. Defined.

(** [bus_read m vaddr dst size] gives the returned exception and the new value of
    [*dst], [dst] being its old one; [bus_write m vaddr src size] the returned
    exception and the new state. *)
Class Bus (M : Type) := {
  bus_read : M → Z → Z → mem_op_size_t → outcome (exception_t * Z);
  bus_write : M → Z → Z → mem_op_size_t → outcome (exception_t * M) }.

(** Reads yield words and never raise an exception; writes preserve the memory's
    invariant [ok] and can only raise a store address error. *)
Class BusSpec (M : Type) `{Bus M} (ok : M → Prop) := {
  bus_read_spec m vaddr dst size e v :
    ok m → u32 vaddr → u32 dst → bus_read m vaddr dst size = Ret (e, v) →
    e = EXC_None ∧ u32 v;
  bus_write_spec m vaddr src size e m' :
    ok m → u32 vaddr → u32 src → bus_write m vaddr src size = Ret (e, m') →
    (e = EXC_None ∨ e = EXC_AddressErrorStore) ∧ ok m' }.
