(* ===== verification/Mem.v ===== *)
(** * The memory unit (src/mem.h, src/mem.c)

    Segments, address translation, loads and stores, the device list and the
    descriptor area. *)

From S2P Require Import Prelude Mips32 Tools Io Bus.

(** ** Segments *)

Definition KSEG2_SIZE : Z := 0x40000000.
Definition KSEG1_SIZE : Z := 0x20000000.
Definition KSEG0_SIZE : Z := 0x20000000.
Definition KUSEG_SIZE : Z := 0x80000000.

Definition KSEG2_VSTART : Z := 0xC0000000.
Definition KSEG1_VSTART : Z := 0xA0000000.
Definition KSEG0_VSTART : Z := 0x80000000.
Definition KUSEG_VSTART : Z := 0x00000000.

Definition KSEG1_PSTART : Z := 0x00000000.
Definition KSEG0_PSTART : Z := 0x20000000.
Definition KUSEG_PSTART : Z := KSEG1_PSTART + KSEG0_PSTART.
Definition KSEG2_PSTART : Z := KUSEG_PSTART + KUSEG_SIZE.

Definition IO_REGISTER_AREA : Z := 0xFFFF0000.
Definition IO_DESCRIPTOR_AREA : Z := 0xFFFE0000.
Definition IO_DESCRIPTOR_AREA_LENGTH : Z := 0x00010000.

(** [sizeof(struct device_descriptor)]: six words and eight bytes, packed. *)
Definition DESCRIPTOR_SIZE : Z := 32.
Definition MAX_IO_DEVICES : Z := IO_DESCRIPTOR_AREA_LENGTH / DESCRIPTOR_SIZE.

(** ** Big-endian accesses to host bytes *)

Definition GET_BIGWORD (b0 b1 b2 b3 : Z) : Z :=
  Z.lor (Z.lor (Z.lor (wrap32 (Z.shiftl b0 24)) (Z.shiftl b1 16)) (Z.shiftl b2 8)) b3.
Definition GET_BIGBYTE (b0 : Z) : Z := b0.
Definition GET_BIGHALF (b0 b1 : Z) : Z := Z.lor (wrap16 (Z.shiftl b0 8)) b1.

(** The bytes stored, in address order; the shifts are on a [uint32_t]. *)
Definition SET_BIGWORD (value : Z) : list Z :=
  [wrap8 (Z.shiftr value 24);
   wrap8 (Z.shiftr (wrap32 (Z.shiftl value 8)) 24);
   wrap8 (Z.shiftr (wrap32 (Z.shiftl value 16)) 24);
   wrap8 (Z.shiftr (wrap32 (Z.shiftl value 24)) 24)].
Definition SET_BIGBYTE (value : Z) : list Z := [wrap8 value].
Definition SET_BIGHALF (value : Z) : list Z :=
  [wrap8 (Z.shiftr value 8); wrap8 (Z.shiftr (wrap32 (Z.shiftl value 24)) 24)].

(** ** State *)

(** [pmem] points to [pmem_len] bytes from [calloc]: a byte without an entry in
    [pmem] is zero. *)
Record mmu_t := Mmu {
  pmem : gmap Z Z;
  pmem_len : Z;
  size_total : Z;
  device_descriptor_start : list device_descriptor_t;
  next_io_register : Z;
  devices : list device_t;
  size_kseg0 : Z;
  size_kseg1 : Z;
  size_kseg2 : Z;
  size_kuseg : Z }.

#[export] Instance mmu_eta : Eta mmu_t := {| eta := λ r,
  Mmu (pmem r) (pmem_len r) (size_total r) (device_descriptor_start r) (next_io_register r)
    (devices r) (size_kseg0 r) (size_kseg1 r) (size_kseg2 r) (size_kuseg r) |}.

(** [mmu_init(size_t size)]. [alloc] tells whether the three [calloc]s succeed. *)
Definition mmu_init (alloc : bool) (size : Z) : option mmu_t :=
  if negb alloc then None
  else Some (Mmu ∅ size (wrap32 size)
    (replicate (Z.to_nat MAX_IO_DEVICES) zero_descriptor)
    IO_REGISTER_AREA []
    (wrap32 (size / 8)) (wrap32 (size / 8)) (wrap32 (size / 4)) (wrap32 (size / 2))).

(** The host byte at offset [off] of [pmem]. *)
Definition pmem_byte (mem : mmu_t) (off : Z) : Z := default 0 (pmem mem !! off).

Definition pmem_load (mem : mmu_t) (off : Z) : outcome Z :=
  if (0 <=? off) && (off <? pmem_len mem) then Ret (pmem_byte mem off)
  else Crash OutOfBounds.

Definition pmem_store (mem : mmu_t) (off b : Z) : outcome mmu_t :=
  if (0 <=? off) && (off <? pmem_len mem) then Ret (mem <| pmem := <[off := b]> (pmem mem) |>)
  else Crash OutOfBounds.

(** Bytes stored at consecutive offsets. *)
Fixpoint pmem_store_bytes (mem : mmu_t) (off : Z) (bs : list Z) : outcome mmu_t :=
  match bs with
  | [] => Ret mem
  | b :: rest => mem ← pmem_store mem off b; pmem_store_bytes mem (off + 1) rest
  end.

(** ** Address translation *)

Definition translate_vaddr (vaddr : Z) : Z :=
  if IO_REGISTER_AREA <? vaddr then vaddr
  else if negb (IO_DESCRIPTOR_AREA <? vaddr) && (KSEG2_PSTART <? vaddr) then 0
  else
    let paddr :=
      if IO_DESCRIPTOR_AREA <? vaddr then 0
      else if KSEG1_PSTART <? vaddr then Z.land vaddr 0x1FFFFFFF
      else if KSEG0_PSTART <? vaddr then Z.land vaddr 0x7FFFFFFF
      else 0 in
    if vaddr <? KSEG0_PSTART then wrap32 (vaddr + KSEG0_SIZE + KSEG1_SIZE) else paddr.

(** The result is an offset into [pmem], or [None] for the null pointer. *)
Definition translate_paddr (paddr : Z) (mem : mmu_t) : option Z :=
  if KSEG0_SIZE + KSEG1_SIZE + KUSEG_SIZE <=? paddr then None
  else if KSEG1_SIZE + KSEG0_SIZE <=? paddr then
    if wrap32 (KUSEG_PSTART + size_kseg0 mem + size_kseg1 mem + size_kuseg mem) <=? paddr
    then None
    else Some (wrap32 (paddr - KSEG1_PSTART - KSEG0_PSTART - KUSEG_PSTART))
  else if KSEG1_SIZE <=? paddr then
    if wrap32 (KSEG0_PSTART + size_kseg0 mem + size_kseg1 mem) <=? paddr then None
    else Some (wrap32 (paddr - KSEG1_PSTART - KSEG0_PSTART))
  else
    if wrap32 (KSEG1_PSTART + size_kseg0 mem) <=? paddr then None
    else Some (wrap32 (paddr - KSEG1_PSTART)).

(** A pointer about to be dereferenced. *)
Definition deref (p : option Z) : outcome Z :=
  match p with Some off => Ret off | None => Crash NullDeref end.

(** ** The descriptor area as bytes

    The area is read by the guest through host pointers of the operation's width:
    the host is little-endian. *)

Definition le_bytes (z : Z) : list Z :=
  [wrap8 z; wrap8 (Z.shiftr z 8); wrap8 (Z.shiftr z 16); wrap8 (Z.shiftr z 24)].

Definition descriptor_bytes (d : device_descriptor_t) : list Z :=
  le_bytes (desc_typecode d) ++ le_bytes (desc_io_addr_base d) ++
  le_bytes (desc_io_addr_len d) ++ le_bytes (desc_irq d) ++
  desc_vendor_string d ++ le_bytes (desc_reserved1 d) ++ le_bytes (desc_reserved2 d).

Definition area_byte (mem : mmu_t) (k : Z) : outcome Z :=
  d ← aget (device_descriptor_start mem) (k / DESCRIPTOR_SIZE);
  aget (descriptor_bytes d) (k mod DESCRIPTOR_SIZE).

(** [((uint8_t * )area)[i]], [((uint16_t * )area)[i]] and [((uint32_t * )area)[i]]. *)
Definition area_read (mem : mmu_t) (i : Z) (op_size : mem_op_size_t) : outcome Z :=
  match op_size with
  | MEM_OP_BYTE => area_byte mem i
  | MEM_OP_HALF =>
    b0 ← area_byte mem (2 * i); b1 ← area_byte mem (2 * i + 1);
    Ret (Z.lor b0 (Z.shiftl b1 8))
  | MEM_OP_WORD =>
    b0 ← area_byte mem (4 * i); b1 ← area_byte mem (4 * i + 1);
    b2 ← area_byte mem (4 * i + 2); b3 ← area_byte mem (4 * i + 3);
    Ret (Z.lor (Z.lor (Z.lor b0 (Z.shiftl b1 8)) (Z.shiftl b2 16)) (Z.shiftl b3 24))
  end.

(** ** Reads and writes *)

(** [vaddr >= dev->io_addr_base && vaddr <= dev->io_addr_base + dev->io_addr_len] *)
Definition device_selected (dev : device_t) (vaddr : Z) : bool :=
  (dev_io_addr_base dev <=? vaddr) &&
  (vaddr <=? wrap32 (dev_io_addr_base dev + dev_io_addr_len dev)).

(** [for(dev = devices; dev->next != NULL; dev = dev->next)]: the guard looks at the
    successor, so the body runs for every device but the last, and an empty list is
    a null dereference. *)
Fixpoint io_read_devices (devs : list device_t) (vaddr dst : Z) : outcome Z :=
  match devs with
  | [] => Crash NullDeref
  | [_] => Ret dst
  | dev :: rest =>
    dst' ← (if device_selected dev vaddr
            then '(d, _) ← io_read dev vaddr dst; Ret d
            else Ret dst);
    io_read_devices rest vaddr dst'
  end.

Fixpoint io_write_devices (devs : list device_t) (vaddr src : Z) : outcome (list device_t) :=
  match devs with
  | [] => Crash NullDeref
  | [dev] => Ret [dev]
  | dev :: rest =>
    dev' ← (if device_selected dev vaddr
            then '(d, _) ← io_write dev vaddr src; Ret d
            else Ret dev);
    rest' ← io_write_devices rest vaddr src;
    Ret (dev' :: rest')
  end.

(** [mmu_read(core, mem, vaddr, dst, op_size)]: the exception returned and the new
    value of [*dst]. The [int32_t vaddr] is compared with unsigned constants, hence
    as the [uint32_t] it was converted from. *)
Definition mmu_read (mem : mmu_t) (vaddr dst : Z) (op_size : mem_op_size_t)
    : outcome (exception_t * Z) :=
  if IO_REGISTER_AREA <=? vaddr then
    dst' ← io_read_devices (devices mem) vaddr dst;
    Ret (EXC_None, dst')
  else if IO_DESCRIPTOR_AREA <=? vaddr then
    v ← area_read mem (vaddr - IO_DESCRIPTOR_AREA) op_size;
    Ret (EXC_None, v)
  else
    let paddr := translate_vaddr vaddr in
    aaddr ← deref (translate_paddr paddr mem);
    match op_size with
    | MEM_OP_BYTE =>
      b0 ← pmem_load mem aaddr; Ret (EXC_None, GET_BIGBYTE b0)
    | MEM_OP_HALF =>
      b0 ← pmem_load mem aaddr; b1 ← pmem_load mem (aaddr + 1);
      Ret (EXC_None, GET_BIGHALF b0 b1)
    | MEM_OP_WORD =>
      b0 ← pmem_load mem aaddr; b1 ← pmem_load mem (aaddr + 1);
      b2 ← pmem_load mem (aaddr + 2); b3 ← pmem_load mem (aaddr + 3);
      Ret (EXC_None, GET_BIGWORD b0 b1 b2 b3)
    end.

(** [mmu_write(core, mem, vaddr, src, op_size)]: the exception and the new state. *)
Definition mmu_write (mem : mmu_t) (vaddr src : Z) (op_size : mem_op_size_t)
    : outcome (exception_t * mmu_t) :=
  if IO_REGISTER_AREA <=? vaddr then
    devs ← io_write_devices (devices mem) vaddr src;
    Ret (EXC_None, mem <| devices := devs |>)
  else if IO_DESCRIPTOR_AREA <=? vaddr then
    Ret (EXC_AddressErrorStore, mem)
  else
    let paddr := translate_vaddr vaddr in
    aaddr ← deref (translate_paddr paddr mem);
    mem' ← pmem_store_bytes mem aaddr
      (match op_size with
       | MEM_OP_BYTE => SET_BIGBYTE src
       | MEM_OP_HALF => SET_BIGHALF src
       | MEM_OP_WORD => SET_BIGWORD src
       end);
    Ret (EXC_None, mem').

#[export] Instance mmu_bus : Bus mmu_t := {| bus_read := mmu_read; bus_write := mmu_write |}.

(** ** Devices and descriptors *)

(** The loop of [get_free_descriptor]: the index of the first descriptor whose type
    code, in the guest's byte order, is [TYPECODE_EMPTY]. *)
Fixpoint find_free_descriptor (descs : list device_descriptor_t) (i : nat) : option nat :=
  match descs with
  | [] => None
  | desc :: rest =>
    if desc_typecode (device_descriptor_reverse desc) =? TYPECODE_EMPTY then Some i
    else find_free_descriptor rest (S i)
  end.

Definition get_free_descriptor (mmu : mmu_t) : option nat :=
  find_free_descriptor (device_descriptor_start mmu) 0.

Definition device_descriptor_add (mmu : mmu_t) (dev : device_t) : mmu_t :=
  match get_free_descriptor mmu with
  | None => mmu
  | Some i =>
    mmu <| device_descriptor_start :=
      alter (λ dev_desc, device_descriptor_reverse (device_descriptor_set_fields dev dev_desc))
        i (device_descriptor_start mmu) |>
  end.

(** [mmu_add_device(mmu, dev)]; a null [dev] is ignored. *)
Definition mmu_add_device (mmu : mmu_t) (dev : option device_t) : mmu_t :=
  match dev with
  | None => mmu
  | Some dev =>
    let dev := dev <| dev_io_addr_base := next_io_register mmu |> in
    let mmu := mmu <| next_io_register :=
      wrap32 (next_io_register mmu + dev_io_addr_len dev) |> in
    let mmu := mmu <| devices := dev :: devices mmu |> in
    device_descriptor_add mmu dev
  end.

(** ** Address translation: closed form and bounds *)

(** The segment sizes of a memory of [size] bytes, as [mmu_init] computes them. No
    operation changes them. *)
Record mmu_geometry (size : Z) (m : mmu_t) : Prop := {
  geom_len : pmem_len m = size;
  geom_kseg0 : size_kseg0 m = wrap32 (size / 8);
  geom_kseg1 : size_kseg1 m = wrap32 (size / 8);
  geom_kuseg : size_kuseg m = wrap32 (size / 2) }.

Lemma translate_vaddr_eq v :
  u32 v →
  translate_vaddr v =
    if v <? 2 ^ 29 then v + 2 ^ 30
    else if v <=? 0xA0000000 then v mod 2 ^ 29
    else if v <=? 0xFFFF0000 then 0 else v.
Proof.
  unfold u32, translate_vaddr, IO_REGISTER_AREA, IO_DESCRIPTOR_AREA, KSEG2_PSTART, KUSEG_PSTART,
    KSEG1_PSTART, KSEG0_PSTART, KUSEG_SIZE, KSEG0_SIZE, KSEG1_SIZE. intros Hv.
  assert (Z.land v 0x1FFFFFFF = v mod 2 ^ 29) as -> by (apply (land_mask_mod 29); lia).
  case_Z; cbn [negb andb]; rewrite ?wrap32_small by (unfold u32; lia); try lia;
    apply Z.mod_small; lia.
Qed.

(** Where in host memory the byte at [vaddr] lies, for an address below the
    descriptor area. *)
Definition host_offset (m : mmu_t) (v : Z) : option Z :=
  if v <? 2 ^ 29 then
    if v + 2 ^ 30 <? wrap32 (KUSEG_PSTART + size_kseg0 m + size_kseg1 m + size_kuseg m)
    then Some v else None
  else
    let off := if v <=? 0xA0000000 then v mod 2 ^ 29 else 0 in
    if off <? wrap32 (size_kseg0 m) then Some off else None.

Lemma translate_host_offset m v :
  0 <= v < IO_DESCRIPTOR_AREA →
  translate_paddr (translate_vaddr v) m = host_offset m v.
Proof.
  unfold IO_DESCRIPTOR_AREA. intros Hv. rewrite translate_vaddr_eq by (unfold u32; lia).
  unfold host_offset, translate_paddr, KSEG0_SIZE, KSEG1_SIZE, KUSEG_SIZE, KUSEG_PSTART,
    KSEG1_PSTART, KSEG0_PSTART.
  rewrite !Z.add_0_l. generalize (wrap32 (size_kseg0 m)).
  generalize (wrap32 (0x20000000 + size_kseg0 m + size_kseg1 m + size_kuseg m)). intros ku k0.
  pose proof (Z.mod_pos_bound v (2 ^ 29)).
  case_Z; try lia; try done; f_equal; rewrite wrap32_small; unfold u32; lia.
Qed.

Lemma host_offset_bounds size m v off :
  mmu_geometry size m → 0 <= size → 0 <= v →
  host_offset m v = Some off → 0 <= off ∧ off + 3 < size.
Proof.
  intros [Hl H0 H1 Hu] Hs Hv. unfold host_offset. rewrite H0, H1, Hu.
  unfold KUSEG_PSTART, KSEG1_PSTART, KSEG0_PSTART, wrap32.
  pose proof (Z.mod_pos_bound v (2 ^ 29)).
  case_Z; intros [= <-]; Z.div_mod_to_equations; lia.
Qed.
