(* ===== verification/Decode.v ===== *)
(** * Instruction decode (src/sim.c: interpret_id_control, interpret_id) *)

From S2P Require Import Prelude Mips32 Cpu.

(** The control lines cleared at the start of the control unit. *)
Definition clear_control (e : id_ex_t) : id_ex_t :=
  e <| idex_c_reg_dst := false |>
    <| idex_c_alu_op := 0x00 |>
    <| idex_c_alu_src := false |>
    <| idex_c_beq := false |>
    <| idex_c_bne := false |>
    <| idex_c_mem_read := false |>
    <| idex_c_mem_write := false |>
    <| idex_c_reg_write := false |>
    <| idex_c_mem_to_reg := false |>
    <| idex_c_jump := false |>.

(** The target of J and JAL. *)
Definition jump_target (e : id_ex_t) : Z :=
  Z.lor (Z.land (idex_next_pc e) 0xF0000000) (Z.shiftl (GET_ADDRESS (idex_inst e)) 2).

(** MFC0 and MTC0: converted to an ADD of the source register and $0. *)
Definition control_cp0 (c : core_t) (inst : Z) (e : id_ex_t) : id_ex_t :=
  if GET_RS inst =? CP0_MFC0 then
    e <| idex_c_reg_dst := true |>
      <| idex_c_alu_op := 0x02 |>
      <| idex_c_reg_write := true |>
      <| idex_rs := GET_RD inst + 1 |>
      <| idex_rs_value := aread (cp0 c) (GET_RD inst + 1) |>
      <| idex_rt := 0 |>
      <| idex_rt_value := 0 |>
      <| idex_rd := GET_RT inst |>
      <| idex_funct := FUNCT_ADD |>
  else if GET_RS inst =? CP0_MTC0 then
    e <| idex_c_reg_dst := true |>
      <| idex_c_alu_op := 0x02 |>
      <| idex_c_reg_write := true |>
      <| idex_rs := GET_RT inst |>
      <| idex_rs_value := aread (regs c) (GET_RT inst) |>
      <| idex_rt := 0 |>
      <| idex_rt_value := 0 |>
      <| idex_rd := GET_RD inst + 1 |>
      <| idex_funct := FUNCT_ADD |>
  else e.

(** The switch on the opcode. *)
Definition control_switch (c : core_t) (inst : Z) (e : id_ex_t) : id_ex_t :=
  let op := GET_OPCODE inst in
  if op =? OPCODE_R then
    if GET_FUNCT (idex_inst e) =? FUNCT_JR then
      e <| idex_c_jump := true |>
    else
      e <| idex_c_reg_dst := true |>
        <| idex_c_alu_op := 0x02 |>
        <| idex_c_reg_write := true |>
  else if one_of op [OPCODE_LWL; OPCODE_LWR; OPCODE_LBU; OPCODE_LHU; OPCODE_LW] then
    e <| idex_c_alu_src := true |>
      <| idex_c_mem_read := true |>
      <| idex_c_reg_write := true |>
      <| idex_c_mem_to_reg := true |>
  else if one_of op [OPCODE_LL; OPCODE_LUI] then
    e <| idex_c_alu_op := 0x03 |>
      <| idex_c_alu_src := true |>
      <| idex_c_reg_write := true |>
      <| idex_c_reg_dst := false |>
  else if one_of op [OPCODE_SC; OPCODE_SWR; OPCODE_SWL; OPCODE_SB; OPCODE_SH; OPCODE_SW] then
    e <| idex_c_alu_op := 0x00 |>
      <| idex_c_alu_src := true |>
      <| idex_c_mem_write := true |>
  else if op =? OPCODE_BEQ then e <| idex_c_beq := true |>
  else if op =? OPCODE_BNE then e <| idex_c_bne := true |>
  else if one_of op [OPCODE_SLTI; OPCODE_SLTIU; OPCODE_ORI; OPCODE_ANDI; OPCODE_ADDI;
                     OPCODE_ADDIU] then
    e <| idex_c_alu_op := 0x03 |>
      <| idex_c_alu_src := true |>
      <| idex_c_reg_write := true |>
  else if op =? OPCODE_J then
    e <| idex_c_jump := true |>
      <| idex_jump_addr := jump_target e |>
  else if op =? OPCODE_JAL then
    e <| idex_c_jump := true |>
      <| idex_jump_addr := jump_target e |>
      <| idex_rs_value := wrap32 (idex_next_pc e + 0x04) |>
      <| idex_c_reg_dst := false |>
      <| idex_rt := REG_RA |>
      <| idex_c_reg_write := true |>
  else if op =? OPCODE_CP0 then control_cp0 c inst e
  else e.

Definition interpret_id_control (c : core_t) : core_t :=
  let inst := ifid_inst (if_id c) in
  c <| id_ex := control_switch c inst (clear_control (id_ex c)) |>.

(** The fields read from the instruction and the register file. *)
Definition id_latch (c : core_t) (e : id_ex_t) : id_ex_t :=
  let inst := ifid_inst (if_id c) in
  e <| idex_rt := GET_RT inst |>
    <| idex_rd := GET_RD inst |>
    <| idex_rs := GET_RS inst |>
    <| idex_rs_value := aread (regs c) (GET_RS inst) |>
    <| idex_rt_value := aread (regs c) (GET_RT inst) |>
    <| idex_sign_ext_imm := SIGN_EXTEND (GET_IMM inst) |>
    <| idex_funct := GET_FUNCT inst |>
    <| idex_shamt := GET_SHAMT inst |>
    <| idex_inst := inst |>
    <| idex_next_pc := ifid_next_pc (if_id c) |>
    <| idex_exception := ifid_exception (if_id c) |>
    <| idex_BadVAddr := ifid_BadVAddr (if_id c) |>
    <| idex_is_branch_delay := ifid_is_branch_delay (if_id c) |>.

Definition interpret_id (c : core_t) : core_t :=
  let e := (id_latch c (id_ex c)) <| idex_exception := EXC_None |> in
  if decide (ifid_exception (if_id c) ≠ EXC_None) then
    c <| id_ex := e <| idex_exception := ifid_exception (if_id c) |>
                    <| idex_BadVAddr := ifid_BadVAddr (if_id c) |> |>
  else interpret_id_control (c <| id_ex := e |>).
