(* ===== verification/Execute.v ===== *)
(** * Execute (src/sim.c: interpret_ex_alu, interpret_ex) *)

From S2P Require Import Prelude Mips32 Tools Cpu.

(** [x.alu_res = v] and [x.exception = e] on the EX/MEM register. *)
Definition set_alu_res (x : ex_mem_t) (v : Z) : ex_mem_t := x <| exmem_alu_res := v |>.
Definition raise (x : ex_mem_t) (e : exception_t) : ex_mem_t := x <| exmem_exception := e |>.

(** The R-type switch on the function code. A signed addition wraps around, as the
    code does when compiled for the hosts it runs on. *)
Definition alu_r_type (d : id_ex_t) (a b : Z) (x : ex_mem_t) : ex_mem_t :=
  let funct := idex_funct d in
  if funct =? FUNCT_ADD then set_alu_res x (wrap32 (s32 a + s32 b))
  else if funct =? FUNCT_ADDU then set_alu_res x (wrap32 (a + b))
  else if funct =? FUNCT_SUB then set_alu_res x (wrap32 (s32 a + s32 b))
  else if funct =? FUNCT_SUBU then set_alu_res x (wrap32 (a - b))
  else if funct =? FUNCT_AND then set_alu_res x (Z.land a b)
  else if funct =? FUNCT_OR then set_alu_res x (Z.lor a b)
  else if funct =? FUNCT_NOR then set_alu_res x (wrap32 (Z.lnot (Z.lor a b)))
  else if funct =? FUNCT_SLT then set_alu_res x (if s32 a <? s32 b then 1 else 0)
  else if funct =? FUNCT_SLTU then set_alu_res x (if a <? b then 1 else 0)
  else if funct =? FUNCT_SLL then set_alu_res x (wrap32 (Z.shiftl b (idex_shamt d)))
  else if funct =? FUNCT_SRL then set_alu_res x (Z.shiftr b (idex_shamt d))
  else if funct =? FUNCT_SYSCALL then raise x EXC_Syscall
  else x.

(** The I-type switch on the opcode. *)
Definition alu_i_type (d : id_ex_t) (a b : Z) (x : ex_mem_t) : ex_mem_t :=
  let op := GET_OPCODE (idex_inst d) in
  if op =? OPCODE_ADDI then
    let x := if check_soverflow (s32 a) (s32 b) =? 1 then raise x EXC_ArithmeticOverflow
             else x in
    set_alu_res x (wrap32 (s32 a + s32 b))
  else if op =? OPCODE_ADDIU then set_alu_res x (wrap32 (a + b))
  else if op =? OPCODE_SLTI then set_alu_res x (if s32 a <? s32 b then 1 else 0)
  else if op =? OPCODE_SLTIU then set_alu_res x (if a <? b then 1 else 0)
  else if op =? OPCODE_ANDI then set_alu_res x (Z.land a (Z.land b ZERO_EXTEND_MASK))
  else if op =? OPCODE_ORI then set_alu_res x (Z.lor a (Z.land b ZERO_EXTEND_MASK))
  else if op =? OPCODE_LUI then set_alu_res x (wrap32 (Z.shiftl b 16))
  else x.

(** The ALU's second operand: the [c_alu_src] multiplexer. *)
Definition alu_b (d : id_ex_t) : Z :=
  if idex_c_alu_src d then wrap32 (idex_sign_ext_imm d) else idex_rt_value d.

Definition interpret_ex_alu (c : core_t) : core_t :=
  let d := id_ex c in
  let a := idex_rs_value d in
  let b := alu_b d in
  let x := ex_mem c in
  if idex_c_alu_op d =? 0x00 then
    let x := if check_soverflow (s32 a) (s32 b) =? 1 then raise x EXC_ArithmeticOverflow
             else x in
    c <| ex_mem := set_alu_res x (wrap32 (s32 a + s32 b)) |>
  else if idex_c_alu_op d =? 0x01 then c
  else
    let x := if idex_c_alu_op d =? 0x02 then alu_r_type d a b x else x in
    let x := if idex_c_alu_op d =? 0x03 then alu_i_type d a b x else x in
    c <| ex_mem := x |>.

(** [IF_ID.is_branch_delay = true] *)
Definition mark_branch_delay (c : core_t) : core_t :=
  c <| if_id := (if_id c) <| ifid_is_branch_delay := true |> |>.

(** [PC = ID_EX.next_pc + (ID_EX.sign_ext_imm << 2)] *)
Definition branch_target (d : id_ex_t) : Z :=
  wrap32 (idex_next_pc d + wrap32 (Z.shiftl (idex_sign_ext_imm d) 2)).

(** J, JAL, JR; the BEQ and the BNE decision. *)
Definition ex_jump (c : core_t) : core_t :=
  let d := id_ex c in
  if idex_c_jump d then
    let c :=
      if ((GET_OPCODE (idex_inst d) =? OPCODE_R) && (GET_FUNCT (idex_inst d) =? FUNCT_JR))
         || (idex_inst d =? INSTRUCTION_ERET)
      then c <| id_ex := d <| idex_jump_addr := idex_rs_value d |> |>
      else c in
    let c := mark_branch_delay c in
    set_PC c (idex_jump_addr (id_ex c))
  else c.

Definition ex_beq (c : core_t) : core_t :=
  let d := id_ex c in
  if idex_c_beq d && (idex_rs_value d =? idex_rt_value d)
  then mark_branch_delay (set_PC c (branch_target d)) else c.

Definition ex_bne (c : core_t) : core_t :=
  let d := id_ex c in
  if idex_c_bne d && negb (idex_rs_value d =? idex_rt_value d)
  then mark_branch_delay (set_PC c (branch_target d)) else c.

(** What EX passes on to EX/MEM unchanged. *)
Definition ex_latch (d : id_ex_t) (x : ex_mem_t) : ex_mem_t :=
  x <| exmem_c_mem_read := idex_c_mem_read d |>
    <| exmem_c_mem_write := idex_c_mem_write d |>
    <| exmem_rt_value := idex_rt_value d |>
    <| exmem_c_reg_write := idex_c_reg_write d |>
    <| exmem_c_mem_to_reg := idex_c_mem_to_reg d |>
    <| exmem_inst := idex_inst d |>
    <| exmem_next_pc := idex_next_pc d |>
    <| exmem_is_branch_delay := idex_is_branch_delay d |>
    <| exmem_exception := EXC_None |>.

Definition interpret_ex (c : core_t) : core_t :=
  let d := id_ex c in
  let x := ex_latch d (ex_mem c) in
  if decide (idex_exception d ≠ EXC_None) then
    c <| ex_mem := x <| exmem_exception := idex_exception d |>
                     <| exmem_BadVAddr := idex_BadVAddr d |> |>
  else
    let c := ex_bne (ex_beq (ex_jump (c <| ex_mem := x |>))) in
    let d := id_ex c in
    let c := c <| ex_mem := (ex_mem c) <| exmem_reg_dst :=
      if idex_c_reg_dst d then idex_rd d else idex_rt d |> |> in
    interpret_ex_alu c.
