(* ===== verification/Memstage.v ===== *)
(** * Memory access (src/sim.c: interpret_mem)

    Stated over the interface of the memory unit. *)

From S2P Require Import Prelude Mips32 Cpu Bus.

Section Memstage.
Context {M : Type} `{Bus M}.
Implicit Types (c : core_t) (m : M).

(** [EX_MEM.alu_res & 0xfffffffc] and [(EX_MEM.alu_res & 3) * 8] *)
Definition word_addr (a : Z) : Z := Z.land a 0xfffffffc.
Definition byte_shift (a : Z) : Z := Z.land a 3 * 8.

(** [((uint32_t)0xffffffff) >> shift] and [<< shift], zero when [shift >= 32]. *)
Definition mask_right (shift : Z) : Z :=
  if 32 <=? shift then 0x00000000 else Z.shiftr 0xffffffff shift.
Definition mask_left (shift : Z) : Z :=
  if 32 <=? shift then 0x00000000 else wrap32 (Z.shiftl 0xffffffff shift).

(** The words computed by the unaligned loads and stores, from the word read
    ([temp32]), the register's value and the address. *)
Definition lwl_data (reg temp32 a : Z) : Z :=
  let temp32 := wrap32 (Z.shiftl temp32 (byte_shift a)) in
  Z.lor (Z.land reg (mask_right (32 - byte_shift a))) temp32.

Definition lwr_data (reg temp32 a : Z) : Z :=
  let temp32 := Z.shiftr temp32 (24 - byte_shift a) in
  Z.lor (Z.land reg (mask_left (8 + byte_shift a))) temp32.

Definition swl_data (reg temp32 a : Z) : Z :=
  let temp32 := Z.land temp32 (mask_left (32 - byte_shift a)) in
  let temp32 := Z.lor temp32 (Z.shiftr reg (byte_shift a)) in
  Z.shiftr temp32 (24 - byte_shift a).

Definition swr_data (reg temp32 a : Z) : Z :=
  let temp32 := Z.land temp32 (mask_right (8 + byte_shift a)) in
  Z.lor temp32 (wrap32 (Z.shiftl reg (24 - byte_shift a))).

(** The fields MEM passes on. *)
Definition mem_latch (x : ex_mem_t) (w : mem_wb_t) : mem_wb_t :=
  w <| memwb_c_reg_write := exmem_c_reg_write x |>
    <| memwb_reg_dst := exmem_reg_dst x |>
    <| memwb_c_mem_to_reg := exmem_c_mem_to_reg x |>
    <| memwb_alu_res := exmem_alu_res x |>
    <| memwb_inst := exmem_inst x |>
    <| memwb_next_pc := exmem_next_pc x |>
    <| memwb_exception := EXC_None |>
    <| memwb_is_branch_delay := exmem_is_branch_delay x |>.

(** [MEM_WB.exception = mmu_read(..., addr, &MEM_WB.read_data, size)] *)
Definition mem_load (c : core_t) (m : M) (w : mem_wb_t) (addr : Z) (size : mem_op_size_t)
    : outcome mem_wb_t :=
  '(e, v) ← bus_read m addr (memwb_read_data w) size;
  Ret (w <| memwb_exception := e |> <| memwb_read_data := v |>).

Definition mem_lwl (c : core_t) (m : M) (w : mem_wb_t) (x : ex_mem_t) : outcome mem_wb_t :=
  '(e, temp32) ← bus_read m (word_addr (exmem_alu_res x)) 0x00 MEM_OP_WORD;
  reg ← aget (regs c) (exmem_reg_dst x);
  Ret (w <| memwb_exception := e |>
         <| memwb_read_data := lwl_data reg temp32 (exmem_alu_res x) |>).

Definition mem_lwr (c : core_t) (m : M) (w : mem_wb_t) (x : ex_mem_t) : outcome mem_wb_t :=
  '(e, temp32) ← bus_read m (word_addr (exmem_alu_res x)) 0x00 MEM_OP_WORD;
  reg ← aget (regs c) (exmem_reg_dst x);
  Ret (w <| memwb_exception := e |>
         <| memwb_read_data := lwr_data reg temp32 (exmem_alu_res x) |>).

(** The switch of the read half. *)
Definition mem_read_switch (c : core_t) (m : M) (w : mem_wb_t) (x : ex_mem_t)
    : outcome mem_wb_t :=
  let op := GET_OPCODE (memwb_inst w) in
  if op =? OPCODE_LW then mem_load c m w (exmem_alu_res x) MEM_OP_WORD
  else if op =? OPCODE_LBU then mem_load c m w (exmem_alu_res x) MEM_OP_BYTE
  else if op =? OPCODE_LHU then mem_load c m w (exmem_alu_res x) MEM_OP_HALF
  else if op =? OPCODE_LWL then mem_lwl c m w x
  else if op =? OPCODE_LWR then mem_lwr c m w x
  else Ret w.

(** [MEM_WB.exception = mmu_write(..., addr, v, size)] *)
Definition mem_store (m : M) (w : mem_wb_t) (addr v : Z) (size : mem_op_size_t)
    : outcome (mem_wb_t * M) :=
  '(e, m') ← bus_write m addr v size;
  Ret (w <| memwb_exception := e |>, m').

Definition mem_swl (c : core_t) (m : M) (w : mem_wb_t) (x : ex_mem_t)
    : outcome (mem_wb_t * M) :=
  '(e, temp32) ← bus_read m (word_addr (exmem_alu_res x)) 0x00 MEM_OP_WORD;
  mem_store m (w <| memwb_exception := e |>) (word_addr (exmem_alu_res x))
    (swl_data (aread (regs c) (GET_RT (exmem_inst x))) temp32 (exmem_alu_res x)) MEM_OP_WORD.

Definition mem_swr (c : core_t) (m : M) (w : mem_wb_t) (x : ex_mem_t)
    : outcome (mem_wb_t * M) :=
  '(e, temp32) ← bus_read m (word_addr (exmem_alu_res x)) 0x00 MEM_OP_WORD;
  mem_store m (w <| memwb_exception := e |>) (word_addr (exmem_alu_res x))
    (swr_data (aread (regs c) (GET_RT (exmem_inst x))) temp32 (exmem_alu_res x)) MEM_OP_WORD.

(** The switch of the write half. *)
Definition mem_write_switch (c : core_t) (m : M) (w : mem_wb_t) (x : ex_mem_t)
    : outcome (mem_wb_t * M) :=
  let op := GET_OPCODE (memwb_inst w) in
  if op =? OPCODE_SW then mem_store m w (exmem_alu_res x) (exmem_rt_value x) MEM_OP_WORD
  else if op =? OPCODE_SB then mem_store m w (exmem_alu_res x) (exmem_rt_value x) MEM_OP_BYTE
  else if op =? OPCODE_SH then mem_store m w (exmem_alu_res x) (exmem_rt_value x) MEM_OP_HALF
  else if op =? OPCODE_SWL then mem_swl c m w x
  else if op =? OPCODE_SWR then mem_swr c m w x
  else Ret (w, m).

Definition interpret_mem (c : core_t) (m : M) : outcome (core_t * M) :=
  let x := ex_mem c in
  let w := mem_latch x (mem_wb c) in
  if decide (exmem_exception x ≠ EXC_None) then
    Ret (c <| mem_wb := w <| memwb_exception := exmem_exception x |>
                          <| memwb_BadVAddr := exmem_BadVAddr x |> |>, m)
  else if exmem_c_mem_read x then
    w' ← mem_read_switch c m w x;
    Ret (c <| mem_wb := w' |>, m)
  else if exmem_c_mem_write x then
    '(w', m') ← mem_write_switch c m w x;
    Ret (c <| mem_wb := w' |>, m')
  else Ret (c <| mem_wb := w |>, m).
End Memstage.
