(* ===== verification/Writeback.v ===== *)
(** * Write back and exception entry (src/sim.c: handle_exception, interpret_wb) *)

From S2P Require Import Prelude Mips32 Cpu Exception.

(** The three [bzero]s that discard the younger instructions. *)
Definition flush_younger (c : core_t) : core_t :=
  c <| if_id := zero_if_id |> <| id_ex := zero_id_ex |> <| ex_mem := zero_ex_mem |>.

(** [core->cp0.regs[r] = v], [r] a constant. *)
Definition set_cp0 (c : core_t) (r v : Z) : core_t :=
  c <| cp0 := <[Z.to_nat r := v]> (cp0 c) |>.

Definition EXCEPTION_HANDLER : Z := 0x80000080.

Definition handle_exception (c : core_t) : core_t :=
  let c := flush_younger c in
  let w := mem_wb c in
  let c := set_cp0 c REG_EPC (memwb_next_pc w) in
  let cause := get_cause (memwb_exception w) (memwb_is_branch_delay w) in
  let c := set_cp0 c REG_CAUSE cause in
  let c :=
    if decide (memwb_exception w = EXC_AddressErrorLoad ∨
               memwb_exception w = EXC_AddressErrorLoad)
    then set_cp0 c REG_BADVADDR (memwb_BadVAddr w) else c in
  let c := set_cp0 c REG_SR (Z.lor (aread (cp0 c) REG_SR) SR_EXL) in
  let c := set_PC c EXCEPTION_HANDLER in
  let c :=
    if negb (Z.land (aread (cp0 c) REG_SR) SR_BEV =? 0)
    then set_PC c (aread (cp0 c) REG_EBASE) else c in
  c <| mem_wb := zero_mem_wb |>.

(** ERET, carried out in the write-back stage. *)
Definition wb_eret (c : core_t) : core_t :=
  let c := flush_younger c in
  let c := set_PC c (aread (cp0 c) REG_EPC) in
  let c := set_cp0 c REG_SR (Z.land (aread (cp0 c) REG_SR) (wrap32 (Z.lnot SR_EXL))) in
  c <| mem_wb := zero_mem_wb |>.

(** The [mem_to_reg] multiplexer. *)
Definition wb_data (w : mem_wb_t) : Z :=
  if memwb_c_mem_to_reg w then memwb_read_data w else memwb_alu_res w.

(** The register write. *)
Definition wb_write (c : core_t) : outcome core_t :=
  let w := mem_wb c in
  let data := wb_data w in
  if memwb_c_reg_write w then
    if (GET_OPCODE (memwb_inst w) =? OPCODE_CP0) && (GET_RS (memwb_inst w) =? CP0_MTC0)
    then a ← aset (cp0 c) (memwb_reg_dst w) data; Ret (c <| cp0 := a |>)
    else a ← aset (regs c) (memwb_reg_dst w) (if memwb_reg_dst w =? 0 then 0 else data);
         Ret (c <| regs := a |>)
  else Ret c.

(** [interpret_wb]: the core and the global [g_finished], which the exit system call
    ([$v0 = 10]) sets. *)
Definition interpret_wb (c : core_t) (g_finished : bool) : outcome (core_t * bool) :=
  let w := mem_wb c in
  if memwb_inst w =? INSTRUCTION_ERET then Ret (wb_eret c, g_finished)
  else if decide (memwb_exception w ≠ EXC_None) then
    if bool_decide (memwb_exception w = EXC_Syscall) && (aread (regs c) REG_V0 =? 10)
    then Ret (c, true)
    else Ret (handle_exception c, g_finished)
  else
    c ← wb_write c;
    Ret (c, g_finished).
