(* ===== verification/Forward.v ===== *)
(** * The forwarding unit (src/sim.c: forwarding_unit) *)

From S2P Require Import Prelude Mips32 Cpu Writeback.

(** The two conditions under which a register number match must not forward:
    MTC0 to a normal instruction, and a normal instruction to MFC0. *)
Definition forward_illegal (src_inst id_inst : Z) : bool :=
  ((GET_OPCODE src_inst =? OPCODE_CP0) && (GET_RS src_inst =? CP0_MTC0)
   && negb (GET_OPCODE id_inst =? OPCODE_CP0))
  || (negb (GET_OPCODE src_inst =? OPCODE_CP0)
      && ((GET_OPCODE id_inst =? OPCODE_CP0) && (GET_RS id_inst =? CP0_MFC0))).

(** One multiplexer: keep the operand, replace it, or leave the whole function. *)
Inductive forward_result := Keep | Replace (v : Z) | Illegal.

Definition forward_mux (c : core_t) (reg : Z) : forward_result :=
  let x := ex_mem c in
  let w := mem_wb c in
  let id_inst := idex_inst (id_ex c) in
  if exmem_c_reg_write x && negb (exmem_reg_dst x =? 0) && (exmem_reg_dst x =? reg) then
    if forward_illegal (exmem_inst x) id_inst then Illegal
    else Replace (exmem_alu_res x)
  else if memwb_c_reg_write w && negb (memwb_reg_dst w =? 0) && (memwb_reg_dst w =? reg) then
    if forward_illegal (memwb_inst w) id_inst then Illegal
    else Replace (wb_data w)
  else Keep.

(** MUX A (the rs operand) and MUX B (the rt operand); [None] is the early return. *)
Definition forward_A (c : core_t) : option core_t :=
  match forward_mux c (idex_rs (id_ex c)) with
  | Keep => Some c
  | Replace v => Some (c <| id_ex := (id_ex c) <| idex_rs_value := v |> |>)
  | Illegal => None
  end.

Definition forward_B (c : core_t) : core_t :=
  match forward_mux c (idex_rt (id_ex c)) with
  | Keep => c
  | Replace v => c <| id_ex := (id_ex c) <| idex_rt_value := v |> |>
  | Illegal => c
  end.

Definition forwarding_unit (c : core_t) : core_t :=
  if idex_inst (id_ex c) =? INSTRUCTION_ERET then c
  else
    match forward_A c with
    | None => c
    | Some c => forward_B c
    end.
