(* ===== verification/Fetch.v ===== *)
(** * Instruction fetch (src/sim.c: interpret_if) *)

From S2P Require Import Prelude Mips32 Cpu Bus.

Section Fetch.
Context {M : Type} `{Bus M}.

(** The load-use hazard: the instruction in ID reads memory into a register the
    fetched one names in its rs or rt field. *)
Definition load_use_hazard (d : id_ex_t) (inst : Z) : bool :=
  idex_c_mem_read d && ((idex_rt d =? GET_RS inst) || (idex_rt d =? GET_RT inst)).

Definition interpret_if (c : core_t) (m : M) : outcome core_t :=
  '(e, inst) ← bus_read m (aread (regs c) REG_PC) 0 MEM_OP_WORD;
  let c := c <| if_id := (if_id c) <| ifid_exception := e |> |> in
  if load_use_hazard (id_ex c) inst then
    Ret (c <| if_id := (if_id c) <| ifid_inst := 0 |> |>)
  else
    let c := c <| if_id := (if_id c) <| ifid_inst := inst |> |> in
    let c := set_PC c (wrap32 (PC c + 4)) in
    Ret (c <| if_id := (if_id c) <| ifid_next_pc := PC c |>
                                 <| ifid_BadVAddr := 0 |>
                                 <| ifid_is_branch_delay := false |> |>).
End Fetch.
