(* ===== verification/Sim.v ===== *)
(** * The clock tick, the run loop and the hardware (src/sim.h, src/sim.c) *)

From S2P Require Import Prelude Mips32 Cpu Io Bus Mem Decode Execute Memstage Writeback Forward.
From S2P Require Import Fetch.

(** ** One clock tick *)

Section Tick.
Context {M : Type} `{Bus M}.

(** The body of the loop of [tick]: the stages in reverse order on one core, then
    the forwarding unit. *)
Definition tick_core (c : core_t) (m : M) (g_finished : bool)
    : outcome (core_t * M * bool) :=
  '(c, g_finished) ← interpret_wb c g_finished;
  '(c, m) ← interpret_mem c m;
  let c := interpret_ex c in
  let c := interpret_id c in
  c ← interpret_if c m;
  Ret (forwarding_unit c, m, g_finished).

(** The loop over the cores, which share the memory unit and [g_finished]. *)
Fixpoint tick_cores (cs : list core_t) (m : M) (g_finished : bool)
    : outcome (list core_t * M * bool) :=
  match cs with
  | [] => Ret ([], m, g_finished)
  | c :: rest =>
    '(c, m, g_finished) ← tick_core c m g_finished;
    '(rest, m, g_finished) ← tick_cores rest m g_finished;
    Ret (c :: rest, m, g_finished)
  end.
End Tick.

(** ** The hardware *)

Record hardware_t := Hardware { cpu : cpu_t; mmu : mmu_t }.

#[export] Instance hardware_eta : Eta hardware_t := {| eta := λ r, Hardware (cpu r) (mmu r) |}.

Definition tick (hw : hardware_t) (g_finished : bool) : outcome (hardware_t * bool) :=
  '(cs, m, g_finished) ← tick_cores (core (cpu hw)) (mmu hw) g_finished;
  Ret (Hardware ((cpu hw) <| core := cs |>) m, g_finished).

(** [init_io]: the shutdown device is the only one. *)
Definition init_io (alloc : bool) (hw : hardware_t) : hardware_t :=
  hw <| mmu := mmu_add_device (mmu hw) (shutdown_device_create alloc) |>.

(** The first core's registers; [core[0]] exists in every processor that
    [cpu_init] returns. *)
Definition set_core0 (cpu : cpu_t) (f : core_t → core_t) : outcome cpu_t :=
  match core cpu with
  | [] => Crash OutOfBounds
  | c :: rest => Ret (cpu <| core := f c :: rest |>)
  end.

(** [hw->cpu->core[0].regs[REG_SP] = (KSEG0_VSTART + size_kseg0) - 4] *)
Definition set_SP (m : mmu_t) (c : core_t) : core_t :=
  c <| regs := <[Z.to_nat REG_SP := wrap32 (KSEG0_VSTART + size_kseg0 m - 4)]> (regs c) |>.

(** [hw_init(cores, memsz)]. The four booleans tell which allocations succeed; a
    failure ends the process. [cores] is a [size_t] passed on as an [int]. *)
Definition hw_init (alloc_hw alloc_mmu alloc_cpu alloc_dev : bool) (cores memsz : Z)
    : outcome hardware_t :=
  if negb alloc_hw then Exit 1
  else
    match mmu_init alloc_mmu memsz with
    | None => Exit (-1)
    | Some m =>
      cpu ← cpu_init alloc_cpu (s32 cores);
      match cpu with
      | None => Exit (-1)
      | Some cpu =>
        cpu ← set_core0 cpu (set_SP m);
        Ret (init_io alloc_dev (Hardware cpu m))
      end
    end.

(** ** The run loop *)

(** [while(g_finished == false && simulator->finished == false)], without debugger
    and log: the instruction at the PC is read (for the debugger and the log) and the
    clock ticks. [fuel] bounds the iterations; [None] is an exhausted bound. *)
Definition run_step (hw : hardware_t) (g_finished : bool) : outcome (hardware_t * bool) :=
  match core (cpu hw) with
  | [] => Crash OutOfBounds
  | c :: _ =>
    _ ← mmu_read (mmu hw) (aread (regs c) REG_PC) 0 MEM_OP_WORD;
    tick hw g_finished
  end.

Fixpoint run_loop (fuel : nat) (hw : hardware_t) (g_finished : bool)
    : option (outcome hardware_t) :=
  if g_finished then Some (Ret hw)
  else
    match fuel with
    | O => None
    | S fuel =>
      match run_step hw g_finished with
      | Ret (hw, g_finished) => run_loop fuel hw g_finished
      | Exit code => Some (Exit code)
      | Crash f => Some (Crash f)
      end
    end.

(** The value of [run]: [$v1] of the first core, as an [int]. *)
Definition run_result (hw : hardware_t) : outcome Z :=
  match core (cpu hw) with
  | [] => Crash OutOfBounds
  | c :: _ => Ret (s32 (aread (regs c) REG_V1))
  end.

Definition run (fuel : nat) (hw : hardware_t) : option (outcome Z) :=
  match run_loop fuel hw false with
  | None => None
  | Some r => Some (hw ← r; run_result hw)
  end.
