(* ===== verification/Elf.v ===== *)
(** * The ELF loader (src/elf.h, src/elf.c)

    A file is its bytes; a stream is a file and a position in it, with the operations of
    the C library the loader uses. *)

From S2P Require Import Prelude Mips32 Io Bus Mem.

Definition ELF_ERROR_IO_ERROR : Z := -1.
Definition ELF_ERROR_OUT_OF_MEM : Z := -2.
Definition ELF_ERROR_NOT_ELF : Z := -3.
Definition ELF_ERROR_NOT_SUPPORTED : Z := -4.

Definition EI_CLASS : nat := 4.
Definition EI_DATA : nat := 5.
Definition EI_NIDENT : Z := 16.

Definition ELFCLASS32 : Z := 1.
Definition ELFDATA2MSB : Z := 2.
Definition ET_EXEC : Z := 2.
Definition EM_MIPS : Z := 8.

Definition PT_NULL : Z := 0x0.
Definition PT_LOAD : Z := 0x1.
Definition PT_NOTE : Z := 0x4.
Definition PT_MIPS_ABIFLAGS : Z := 0x70000003.

(** ** Data *)

Record ehdr := Ehdr {
  e_ident : list Z;
  e_type : Z;
  e_machine : Z;
  e_version : Z;
  e_entry : Z;
  e_phoff : Z;
  e_shoff : Z;
  e_flags : Z;
  e_ehsize : Z;
  e_phentsize : Z;
  e_phnum : Z;
  e_shentsize : Z;
  e_shnum : Z;
  e_shstrndx : Z }.

(** The two last fields of [struct p_header] are never read. *)
Record p_header := Phdr {
  p_type : Z;
  p_offset : Z;
  p_vaddr : Z;
  p_paddr : Z;
  p_filesz : Z;
  p_memsz : Z }.

(** ** Streams

    A regular file opened for reading: a read stops at the end of the file, a seek to a
    non-negative offset succeeds, beyond the end too. *)

Record stream_t := Stream { contents : list Z; position : Z }.

(** [fread(buf, size, 1, stream)]: the bytes read, and whether the whole item was. *)
Definition fread (st : stream_t) (size : Z) : list Z * bool * stream_t :=
  let left := Z.max 0 (Z.of_nat (length (contents st)) - position st) in
  let n := Z.min size left in
  (take (Z.to_nat n) (drop (Z.to_nat (position st)) (contents st)),
   (0 <? size) && (size <=? left), Stream (contents st) (position st + n)).

(** [fseek(stream, offset, SEEK_SET)] *)
Definition fseek (st : stream_t) (offset : Z) : option stream_t :=
  if offset <? 0 then None else Some (Stream (contents st) offset).

(** ** A reader that fails with one of the error codes *)

Definition reader (A : Type) : Type := stream_t → (Z + A) * stream_t.

#[export] Instance reader_ret : MRet reader := λ A a st, (inr a, st).
#[export] Instance reader_bind : MBind reader := λ A B k r st,
  match r st with
  | (inl retval, st) => (inl retval, st)
  | (inr a, st) => k a st
  end.

Definition fail {A} (retval : Z) : reader A := λ st, (inl retval, st).

(** A check that returns [retval], or 0 when the condition holds. *)
Definition check (b : bool) (retval : Z) : reader unit := if b then mret tt else fail retval.

(** ** The ELF header *)

Definition check_magic_number (ident : list Z) : reader unit :=
  check (bool_decide (take 4 ident = [0x7F; 69; 76; 70])) ELF_ERROR_NOT_ELF.

Definition check_elf_class_32 (ident : list Z) : reader unit :=
  check (nth EI_CLASS ident 0 =? ELFCLASS32) ELF_ERROR_NOT_SUPPORTED.

Definition check_data_encoding (ident : list Z) : reader unit :=
  check (nth EI_DATA ident 0 =? ELFDATA2MSB) ELF_ERROR_NOT_SUPPORTED.

Definition read_elf_ident : reader (list Z) := λ st,
  let '(ident, full, st) := fread st EI_NIDENT in
  if full
  then (check_magic_number ident ≫= λ _, check_elf_class_32 ident ≫= λ _,
        check_data_encoding ident ≫= λ _, mret ident) st
  else (inl ELF_ERROR_IO_ERROR, st).

(** The big-endian numbers: [(buf[0] << 8) | buf[1]] and so on. *)
Definition be_half (buf : list Z) : Z :=
  Z.lor (Z.shiftl (nth 0 buf 0) 8) (nth 1 buf 0).
Definition be_word (buf : list Z) : Z :=
  wrap32 (Z.lor (Z.lor (Z.lor (Z.shiftl (nth 0 buf 0) 24) (Z.shiftl (nth 1 buf 0) 16))
                       (Z.shiftl (nth 2 buf 0) 8)) (nth 3 buf 0)).

Fixpoint read_be_half_words (n : nat) : reader (list Z) := λ st,
  match n with
  | O => (inr [], st)
  | S n =>
    let '(buf, full, st) := fread st 2 in
    if full then (read_be_half_words n ≫= λ rest, mret (be_half buf :: rest)) st
    else (inl ELF_ERROR_IO_ERROR, st)
  end.

Fixpoint read_be_words (n : nat) : reader (list Z) := λ st,
  match n with
  | O => (inr [], st)
  | S n =>
    let '(buf, full, st) := fread st 4 in
    if full then (read_be_words n ≫= λ rest, mret (be_word buf :: rest)) st
    else (inl ELF_ERROR_IO_ERROR, st)
  end.

Definition check_type (type : Z) : reader unit :=
  check (type =? ET_EXEC) ELF_ERROR_NOT_SUPPORTED.
Definition check_machine (machine : Z) : reader unit :=
  check (machine =? EM_MIPS) ELF_ERROR_NOT_SUPPORTED.

Definition read_type_and_machine : reader (Z * Z) :=
  hs ← read_be_half_words 2;
  let type := nth 0 hs 0 in
  let machine := nth 1 hs 0 in
  check_type type ≫= λ _, check_machine machine ≫= λ _, mret (type, machine).

Definition read_ehdr : reader ehdr :=
  ident ← read_elf_ident;
  '(type, machine) ← read_type_and_machine;
  ws ← read_be_words 5;
  hs ← read_be_half_words 6;
  mret (Ehdr ident type machine (nth 0 ws 0) (nth 1 ws 0) (nth 2 ws 0) (nth 3 ws 0) (nth 4 ws 0)
    (nth 0 hs 0) (nth 1 hs 0) (nth 2 hs 0) (nth 3 hs 0) (nth 4 hs 0) (nth 5 hs 0)).

(** ** Segments *)

(** [memset(segmem, 0, n)] and the bytes [fread] stores at [segmem], a possibly null
    pointer into [pmem]. *)
Definition memset_zero (segmem : option Z) (n : Z) (mem : mmu_t) : outcome mmu_t :=
  if n =? 0 then Ret mem
  else
    off ← deref segmem;
    if (0 <=? off) && (off + n <=? pmem_len mem)
    then Ret (mem <| pmem := filter (λ kb : Z * Z, kb.1 < off ∨ off + n <= kb.1) (pmem mem) |>)
    else Crash OutOfBounds.

Definition store_bytes (segmem : option Z) (bs : list Z) (mem : mmu_t) : outcome mmu_t :=
  match bs with
  | [] => Ret mem
  | _ => off ← deref segmem; pmem_store_bytes mem off bs
  end.

(** The result: the value returned, the stream and the memory. *)
Definition copy_segment (phdr : p_header) (st : stream_t) (mem : mmu_t)
    : outcome (Z * stream_t * mmu_t) :=
  let segmem := translate_paddr (translate_vaddr (p_vaddr phdr)) mem in
  mem ← memset_zero segmem (p_memsz phdr) mem;
  match fseek st (p_offset phdr) with
  | None => Ret (ELF_ERROR_IO_ERROR, st, mem)
  | Some st =>
    let '(bs, full, st) := fread st (p_filesz phdr) in
    mem ← store_bytes segmem bs mem;
    Ret (if full then 0 else ELF_ERROR_IO_ERROR, st, mem)
  end.

Definition copy_cur_segment_aux (st : stream_t) (mem : mmu_t) : outcome (Z * stream_t * mmu_t) :=
  match read_be_words 6 st with
  | (inl _, st) => Ret (ELF_ERROR_IO_ERROR, st, mem)
  | (inr ws, st) =>
    let phdr := Phdr (nth 0 ws 0) (nth 1 ws 0) (nth 2 ws 0) (nth 3 ws 0) (nth 4 ws 0) (nth 5 ws 0) in
    if one_of (p_type phdr) [PT_NULL; PT_NOTE; PT_MIPS_ABIFLAGS] then Ret (0, st, mem)
    else if p_type phdr =? PT_LOAD then copy_segment phdr st mem
    else Ret (ELF_ERROR_NOT_SUPPORTED, st, mem)
  end.

Definition copy_cur_segment (h : ehdr) (st : stream_t) (mem : mmu_t)
    : outcome (Z * stream_t * mmu_t) :=
  let origin := position st in
  '(retval, st, mem) ← copy_cur_segment_aux st mem;
  match fseek st (origin + e_phentsize h) with
  | None => Ret (ELF_ERROR_IO_ERROR, st, mem)
  | Some st => Ret (retval, st, mem)
  end.

(** The loop of [copy_all_segments]. *)
Fixpoint copy_segments (n : nat) (h : ehdr) (st : stream_t) (mem : mmu_t)
    : outcome (Z * stream_t * mmu_t) :=
  match n with
  | O => Ret (0, st, mem)
  | S n =>
    '(retval, st, mem) ← copy_cur_segment h st mem;
    if retval =? 0 then copy_segments n h st mem else Ret (retval, st, mem)
  end.

Definition copy_all_segments (h : ehdr) (st : stream_t) (mem : mmu_t)
    : outcome (Z * stream_t * mmu_t) :=
  match fseek st (e_phoff h) with
  | None => Ret (ELF_ERROR_IO_ERROR, st, mem)
  | Some st => copy_segments (Z.to_nat (e_phnum h)) h st mem
  end.

(** ** Loading a file *)

(** [fopen]: the file's bytes, or [None] when it cannot be opened. *)
Definition elf_open (file : option (list Z)) : (Z + ehdr) * stream_t :=
  match file with
  | None => (inl ELF_ERROR_IO_ERROR, Stream [] 0)
  | Some bytes => read_ehdr (Stream bytes 0)
  end.

(** [fclose_ok] tells whether [fclose] succeeds. *)
Definition elf_close (fclose_ok : bool) : Z := if fclose_ok then 0 else ELF_ERROR_IO_ERROR.

(** [elf_dump(path, &entry, mem)]: the value returned, the new [entry] and memory. *)
Definition elf_dump (file : option (list Z)) (fclose_ok : bool) (entry : Z) (mem : mmu_t)
    : outcome (Z * Z * mmu_t) :=
  match elf_open file with
  | (inl retval, _) => Ret (retval, entry, mem)
  | (inr h, st) =>
    let entry := e_entry h in
    '(retval, st, mem) ← copy_all_segments h st mem;
    if retval =? 0 then Ret (elf_close fclose_ok, entry, mem) else Ret (retval, entry, mem)
  end.
