(* ===== verification/Disasm.v ===== *)
(** * The disassembler (src/disasm.h, src/disasm.c)

    The text the debugger and the instruction log print for an instruction word. *)

From Stdlib Require Import Ascii.
From S2P Require Import Prelude Mips32 Cpu.

#[local] Open Scope string_scope.
#[local] Open Scope Z_scope.

Definition INSTRUCTION_BUFFER_SIZE : Z := 1024.

(** ** Formatted output *)

(** [%08X] of a [uint32_t]: the [n] last hexadecimal digits of a number. *)
Definition hex_digit (d : Z) : ascii :=
  ascii_of_nat (Z.to_nat (if d <? 10 then 48 + d else 55 + d)).

Fixpoint hex (n : nat) (z : Z) : string :=
  match n with
  | O => ""
  | S n => String (hex_digit ((z / 16 ^ Z.of_nat n) mod 16)) (hex n z)
  end.

Definition hex32 (z : Z) : string := hex 8 z.

Definition tab : string := String (ascii_of_nat 9) "".
Definition newline : string := String (ascii_of_nat 10) "".

(** [snprintf(buf, size, ...)] for the text [s]: what the buffer holds, and the value
    returned, the length of the whole text. *)
Definition snprintf (size : Z) (s : string) : string * Z :=
  (String.substring 0 (Z.to_nat (size - 1)) s, Z.of_nat (String.length s)).

(** ** Instructions *)

(** [<label> = <register name> = 0x<value>] *)
Definition reg_field (label : string) (core : core_t) (r : Z) : outcome string :=
  name ← aget reg_names r;
  v ← aget (regs core) r;
  Ret (label ++ " = " ++ name ++ " = 0x" ++ hex32 v).

(** The opcodes printed as I-type instructions. *)
Definition disasm_i_type : list Z := [
  OPCODE_BEQ; OPCODE_BNE; OPCODE_ADDI; OPCODE_ADDIU; OPCODE_SLTI; OPCODE_SLTIU; OPCODE_ANDI;
  OPCODE_ORI; OPCODE_LUI; OPCODE_SB; OPCODE_SC; OPCODE_SH; OPCODE_LBU; OPCODE_LHU; OPCODE_LW;
  OPCODE_SW; OPCODE_SWL; OPCODE_SWR; OPCODE_LWR; OPCODE_LWL].

(** The text behind the instruction word: the switch on the opcode. *)
Definition instruction_body (instr : Z) (core : core_t) : outcome string :=
  let op := GET_OPCODE instr in
  if op =? OPCODE_R then
    name ← aget funct_codes (GET_FUNCT instr);
    rs ← reg_field "rs" core (GET_RS instr);
    rt ← reg_field "rt" core (GET_RT instr);
    rd ← reg_field "rd" core (GET_RD instr);
    Ret (name ++ "  " ++ rs ++ ",  " ++ rt ++ ",  " ++ rd ++ ",  shamt = 0x" ++
         hex32 (GET_SHAMT instr) ++ newline)
  else if one_of op [OPCODE_J; OPCODE_JAL] then
    name ← aget op_codes op;
    Ret (name ++ "   0x" ++ hex32 (GET_IMM instr) ++ newline)
  else if one_of op disasm_i_type then
    name ← aget op_codes op;
    rs ← reg_field "rs" core (GET_RS instr);
    rt ← reg_field "rt" core (GET_RT instr);
    Ret (name ++ "  " ++ rs ++ ",  " ++ rt ++ ",  imm = 0x" ++ hex32 (GET_IMM instr) ++ newline)
  else if op =? OPCODE_CP0 then
    name ← aget op_codes op;
    cname ← aget cp0_codes (GET_RS instr);
    rt ← reg_field "rt" core (GET_RT instr);
    rdname ← aget cp0_reg_names (GET_RD instr);
    rdv ← aget (cp0 core) (GET_RD instr);
    Ret (name ++ ", " ++ cname ++ "  " ++ rt ++ ",  rd = " ++ rdname ++ " = 0x" ++ hex32 rdv ++ newline)
  else Ret ("Unknown instruction: 0x" ++ hex32 instr ++ newline).

(** [instruction_string(instr, core, buf, buf_size)]: the text in [buf] and the value
    returned. *)
Definition instruction_string (instr : Z) (core : core_t) (buf_size : Z) : outcome (string * Z) :=
  let '(head, i) := snprintf buf_size ("0x" ++ hex32 instr ++ tab) in
  body ← instruction_body instr core;
  let '(tail, n) := snprintf (buf_size - i) body in
  Ret (head ++ tail, i + n).

(** [print_instruction]: the text printed. *)
Definition print_instruction (instr : Z) (core : core_t) : outcome string :=
  '(buf, _) ← instruction_string instr core INSTRUCTION_BUFFER_SIZE;
  Ret buf.
