(* ===== verification/Debug.v ===== *)
(** * The debugger and the complete run loop (src/debug.c: debug; src/sim.c: run)

    The commands of the debugger on a standard input given as the list of its bytes, and
    the run loop with the debugger and the instruction log. Of what is printed, this file
    has only what can fail: the text of an instruction, and the reads behind the output;
    the whole output is in DebugText.v. *)

From Stdlib Require Import Ascii.
From S2P Require Import Prelude Mips32 Cpu Io Bus Mem Sim Disasm.

#[local] Open Scope Z_scope.

(** ** The simulator *)

(** The fields of [struct simulator] that the loop reads: [logging], [finished],
    [debug] and [hw]. *)
Record simulator_t := Simulator {
  logging : bool;
  finished : bool;
  debug_flag : bool;
  hw : hardware_t }.

#[export] Instance simulator_eta : Eta simulator_t := {| eta := λ r,
  Simulator (logging r) (finished r) (debug_flag r) (hw r) |}.

(** [hw->cpu->core] used as the pointer to the first core. *)
Definition first_core (h : hardware_t) : outcome core_t := aget (core (cpu h)) 0.

(** ** Standard input *)

(** The code of a character. *)
Definition chr (c : ascii) : Z := Z.of_nat (nat_of_ascii c).

(** [fgets(c, 3, stdin)]: at most two bytes, up to a newline; at the end of the input
    the buffer stays as it is. The buffer is given by the bytes before its
    terminator. *)
Definition fgets (c stdin : list Z) : list Z * list Z :=
  match stdin with
  | [] => (c, [])
  | a :: rest =>
    if a =? 10 then ([a], rest)
    else match rest with
         | [] => ([a], [])
         | b :: rest => ([a; b], rest)
         end
  end.

(** The buffer as a string: the bytes up to the first null byte. *)
Fixpoint c_string (c : list Z) : string :=
  match c with
  | [] => EmptyString
  | a :: rest => if a =? 0 then EmptyString else String (ascii_of_nat (Z.to_nat a)) (c_string rest)
  end.

Definition isspace (a : Z) : bool := (a =? 32) || ((9 <=? a) && (a <=? 13)).

Definition xdigit (a : Z) : option Z :=
  if (48 <=? a) && (a <=? 57) then Some (a - 48)
  else if (65 <=? a) && (a <=? 70) then Some (a - 55)
  else if (97 <=? a) && (a <=? 102) then Some (a - 87)
  else None.

Fixpoint skip_space (stdin : list Z) : list Z :=
  match stdin with
  | a :: rest => if isspace a then skip_space rest else stdin
  | [] => []
  end.

(** The longest numeral: its value, or [None] without a digit. *)
Fixpoint scan_xdigits (acc : option Z) (stdin : list Z) : option Z * list Z :=
  match stdin with
  | a :: rest =>
    match xdigit a with
    | Some d => scan_xdigits (Some (16 * default 0 acc + d)) rest
    | None => (acc, stdin)
    end
  | [] => (acc, [])
  end.

(** [scanf("%X", &addr)]: white space, a sign, a prefix 0x, digits; the value saturates
    at the largest [unsigned long] before it is stored in 32 bits. *)
Definition scanf_X (stdin : list Z) : option Z * list Z :=
  let stdin := skip_space stdin in
  let '(neg, stdin) :=
    match stdin with
    | a :: rest => if a =? chr "-" then (true, rest) else if a =? chr "+" then (false, rest)
                   else (false, stdin)
    | [] => (false, [])
    end in
  let '(v, stdin) :=
    match stdin with
    | a :: x :: rest =>
      if (a =? chr "0") && one_of x [chr "x"; chr "X"] then scan_xdigits (Some 0) rest
      else scan_xdigits None stdin
    | _ => scan_xdigits None stdin
    end in
  match v with
  | None => (None, stdin)
  | Some v => (Some (wrap32 (if 2 ^ 64 <=? v then 2 ^ 64 - 1 else if neg : bool then - v else v)), stdin)
  end.

(** [fseek(stdin, 0, SEEK_END)]: the end of a file, nothing on a terminal or a pipe. *)
Definition fseek_end (seekable : bool) (stdin : list Z) : list Z := if seekable then [] else stdin.

(** ** Commands *)

(** The body of the switch: whether the debugger returns, the simulator and the rest of
    the input. *)
Definition debug_command (seekable : bool) (inst : Z) (sim : simulator_t) (c stdin : list Z)
    : outcome (bool * simulator_t * list Z) :=
  let c0 := hd 0 c in
  core ← first_core (hw sim);
  if one_of c0 [chr "h"; chr "r"; chr "p"; chr "d"] then Ret (false, sim, stdin)
  else if c0 =? chr "i" then
    _ ← print_instruction inst core;
    Ret (false, sim, stdin)
  else if c0 =? chr "m" then
    let '(addr, stdin) := scanf_X stdin in
    _ ← (match addr with
         | Some addr => mmu_read (mmu (hw sim)) addr 0 MEM_OP_WORD
         | None => Ret (EXC_None, 0)
         end);
    Ret (false, sim, fseek_end seekable stdin)
  else if one_of c0 [chr "0"; chr "v"; chr "s"; chr "t"] then
    _ ← aget (regs core) (register_to_number (c_string c));
    Ret (false, sim, stdin)
  else if c0 =? chr "c" then Ret (false, sim <| debug_flag := false |>, stdin)
  else if c0 =? chr "q" then Ret (true, sim <| finished := true |>, stdin)
  else Ret (true, sim, stdin).

(** [while(stop == false)], a variable that is never set: only a [return] ends the
    loop. [fuel] bounds the commands read. *)
Fixpoint debug_loop (fuel : nat) (seekable : bool) (inst : Z) (sim : simulator_t)
    (c stdin : list Z) : option (outcome (simulator_t * list Z)) :=
  match fuel with
  | O => None
  | S fuel =>
    let '(c, stdin) := fgets c stdin in
    match debug_command seekable inst sim c stdin with
    | Ret (true, sim, stdin) => Some (Ret (sim, stdin))
    | Ret (false, sim, stdin) => debug_loop fuel seekable inst sim c stdin
    | Exit code => Some (Exit code)
    | Crash f => Some (Crash f)
    end
  end.

(** [debug(inst, simulator)] *)
Definition debug (fuel : nat) (seekable : bool) (inst : Z) (sim : simulator_t) (stdin : list Z)
    : option (outcome (simulator_t * list Z)) :=
  match (core ← first_core (hw sim); print_instruction inst core) with
  | Ret _ => debug_loop fuel seekable inst sim [] stdin
  | Exit code => Some (Exit code)
  | Crash f => Some (Crash f)
  end.

(** ** The run loop *)

(** The rest of the loop's body: the tick, and the line of the log. *)
Definition tick_and_log (inst : Z) (sim : simulator_t) (g_finished : bool)
    : outcome (simulator_t * bool) :=
  '(h, g_finished) ← tick (hw sim) g_finished;
  let sim := sim <| hw := h |> in
  _ ← (if logging sim
       then core ← first_core h; print_instruction inst core
       else Ret EmptyString);
  Ret (sim, g_finished).

(** [while(g_finished == false && simulator->finished == false)]. The same bound [fuel]
    limits the ticks and the commands of one stop of the debugger. *)
Fixpoint run_simulator (fuel : nat) (seekable : bool) (sim : simulator_t) (stdin : list Z)
    (g_finished : bool) : option (outcome (simulator_t * list Z)) :=
  if g_finished || finished sim then Some (Ret (sim, stdin))
  else
    match fuel with
    | O => None
    | S fuel =>
      match (core ← first_core (hw sim);
             mmu_read (mmu (hw sim)) (PC core) 0 MEM_OP_WORD) with
      | Ret (_, inst) =>
        match (if debug_flag sim then debug (S fuel) seekable inst sim stdin
               else Some (Ret (sim, stdin))) with
        | None => None
        | Some (Ret (sim, stdin)) =>
          match tick_and_log inst sim g_finished with
          | Ret (sim, g_finished) => run_simulator fuel seekable sim stdin g_finished
          | Exit code => Some (Exit code)
          | Crash f => Some (Crash f)
          end
        | Some (Exit code) => Some (Exit code)
        | Some (Crash f) => Some (Crash f)
        end
      | Exit code => Some (Exit code)
      | Crash f => Some (Crash f)
      end
    end.

(** [run] with the debugger and the log. [alloc_buf] tells whether the buffer of the log
    can be allocated; without it nothing is logged. *)
Definition run_debug (fuel : nat) (alloc_buf seekable : bool) (sim : simulator_t) (stdin : list Z)
    : option (outcome Z) :=
  let sim := if alloc_buf then sim else sim <| logging := false |> in
  match run_simulator fuel seekable sim stdin false with
  | None => None
  | Some r => Some ('(sim, _) ← r; run_result (hw sim))
  end.
