(* ===== verification/DebugText.v ===== *)
(** * What the debugger prints (src/debug.c, src/cp0.c, src/mips32.c)

    [printf] for the conversions the simulator uses, the text of the registers, the
    pipeline registers, the devices and the memory, and the output of a whole stop of the
    debugger. The control flow of the debugger is in Debug.v; DebugTextTheorems.v relates
    the two. *)

From Stdlib Require Import Ascii.
From S2P Require Import Prelude Mips32 Cpu Exception Io Bus Mem Sim Disasm Debug.

#[local] Open Scope string_scope.
#[local] Open Scope Z_scope.

(** ** printf *)

(** The numeral of a non-negative number, [fuel] bounding its digits: 32 are more than
    the at most ten of a 32-bit number. *)
Definition digit_char (d : Z) : ascii :=
  ascii_of_nat (Z.to_nat (if d <? 10 then 48 + d else 87 + d)).

Fixpoint digits (fuel : nat) (base z : Z) : string :=
  match fuel with
  | O => ""
  | S fuel =>
    (if z <? base then "" else digits fuel base (z / base)) ++
    String (digit_char (z mod base)) ""
  end.

Fixpoint repeat_char (n : nat) (c : ascii) : string :=
  match n with O => "" | S n => String c (repeat_char n c) end.

(** A field of at least [width] characters, filled on the left. *)
Definition pad (width : nat) (c : ascii) (s : string) : string :=
  repeat_char (width - String.length s) c ++ s.

(** An argument: an integer, passed in 32 bits, or a string. *)
Inductive printf_arg := AInt (z : Z) | AStr (s : string).

Definition ABool (b : bool) : printf_arg := AInt (if b then 1 else 0).

(** A conversion specification: the flag [0], the width and the precision. *)
Record printf_spec := Spec { zero_flag : bool; width : nat; precision : option nat }.

Definition to_upper (s : string) : string :=
  String.string_of_list_ascii
    (map (λ c, let n := nat_of_ascii c in if Nat.leb 97 n then ascii_of_nat (n - 32) else c)
      (String.list_ascii_of_string s)).

(** The conversions %d, %u, %x, %X and %s. *)
Definition convert (sp : printf_spec) (c : ascii) (a : printf_arg) : string :=
  let fill := if zero_flag sp then "0"%char else " "%char in
  match a with
  | AInt z =>
    let v := wrap32 z in
    pad (width sp) fill
      (if (c =? "d")%char then
         if s32 v <? 0 then String "-" (digits 32 10 (- s32 v)) else digits 32 10 (s32 v)
       else if (c =? "u")%char then digits 32 10 v
       else if (c =? "X")%char then to_upper (digits 32 16 v)
       else digits 32 16 v)
  | AStr s =>
    pad (width sp) fill
      (match precision sp with Some p => String.substring 0 p s | None => s end)
  end.

Definition format_digit (c : ascii) : option nat :=
  let n := nat_of_ascii c in if Nat.leb 48 n && Nat.leb n 57 then Some (n - 48)%nat else None.

(** One more character of a specification. *)
Definition extend_spec (sp : printf_spec) (c : ascii) : option printf_spec :=
  if (c =? ".")%char then Some (Spec (zero_flag sp) (width sp) (Some 0%nat))
  else
    match format_digit c, precision sp with
    | None, _ => None
    | Some d, Some p => Some (Spec (zero_flag sp) (width sp) (Some (10 * p + d)%nat))
    | Some d, None =>
      if Nat.eqb (width sp) 0 && Nat.eqb d 0 then Some (Spec true 0 None)
      else Some (Spec (zero_flag sp) (10 * width sp + d) None)
    end.

(** The character of an escape sequence of a string literal. *)
Definition escape (c : ascii) : ascii :=
  if (c =? "n")%char then ascii_of_nat 10 else if (c =? "t")%char then ascii_of_nat 9 else c.

(** The format string, its escape sequences included, with the specification being read
    if there is one. A missing argument prints nothing. *)
Fixpoint printf_go (sp : option printf_spec) (fmt : string) (args : list printf_arg) : string :=
  match fmt with
  | "" => ""
  | String c rest =>
    match sp with
    | None =>
      if (c =? "%")%char then printf_go (Some (Spec false 0 None)) rest args
      else if (c =? "\")%char then
        match rest with
        | String e rest => String (escape e) (printf_go None rest args)
        | "" => ""
        end
      else String c (printf_go None rest args)
    | Some sp =>
      match extend_spec sp c with
      | Some sp => printf_go (Some sp) rest args
      | None =>
        match args with
        | a :: args => convert sp c a ++ printf_go None rest args
        | [] => printf_go None rest []
        end
      end
    end
  end.

Definition printf (fmt : string) (args : list printf_arg) : string := printf_go None fmt args.

(** [for(i = i0; i < i0 + n; i++)] around a body that prints. *)
Fixpoint print_loop (body : Z → outcome string) (n : nat) (i : Z) : outcome string :=
  match n with
  | O => Ret ""
  | S n =>
    s ← body i;
    rest ← print_loop body n (i + 1);
    Ret (s ++ rest)
  end.

(** ** Registers *)

Definition print_registers (core : core_t) : outcome string :=
  print_loop (λ i,
    name ← aget reg_names i;
    v ← aget (regs core) i;
    Ret (printf "%s\t(s) %d\t(u) %u\t 0x%x\n" [AStr name; AInt v; AInt v; AInt v]))
    (Z.to_nat NUM_REGISTERS) 0.

(** The PC is not included. *)
Definition dump_registers (core : core_t) : outcome string :=
  print_loop (λ i, v ← aget (regs core) i; Ret (printf "%d\n" [AInt v]))
    (Z.to_nat (NUM_REGISTERS - 1)) 0.

Definition cp0_dump_registers (cp0 : list Z) : outcome string :=
  print_loop (λ i,
    name ← aget cp0_reg_names i;
    v ← aget cp0 i;
    Ret (printf "%d: %10s\t\t%d\t\t0x%08X\n" [AInt i; AStr name; AInt v; AInt v]))
    (Z.to_nat CP0_NUM_REGS) 0.

(** ** Pipeline registers *)

(** [INST_STR(inst)] *)
Definition INST_STR (inst : Z) : outcome string :=
  if GET_OPCODE inst =? 0 then aget funct_codes (GET_FUNCT inst) else aget op_codes (GET_OPCODE inst).

(** The number of an exception in the enumeration. *)
Definition exception_number (e : exception_t) : Z :=
  match e with
  | EXC_None => 0
  | EXC_Interrupt => 1
  | EXC_AddressErrorLoad => 2
  | EXC_AddressErrorStore => 3
  | EXC_BusErrorInstructionFetch => 4
  | EXC_BusErrorLoadStore => 5
  | EXC_Syscall => 6
  | EXC_Breakpoint => 7
  | EXC_Reserved => 8
  | EXC_CpUnavailable => 9
  | EXC_ArithmeticOverflow => 10
  | EXC_Trap => 11
  | EXC_FloatingPoint => 12
  end.

Definition exc_name (e : exception_t) : outcome string := aget exc_names (exception_number e).

(** The lines of [print_pipeline_registers], with the four mnemonics and the four
    exception names. *)
Definition pipeline_text (core : core_t) (if_s id_s ex_s wb_s if_e id_e ex_e wb_e : string) : string :=
  let f := if_id core in
  let d := id_ex core in
  let x := ex_mem core in
  let w := mem_wb core in
    printf "---------------------------------------------------------------------------------------------\n" [] ++
    printf "IF/ID              ID/EX                      EX/MEM                      MEM/WB\n" [] ++
    printf "%s                  %s                        %s                         %s                        \n"
      [AStr if_s; AStr id_s; AStr ex_s; AStr wb_s] ++
    printf "---------------------------------------------------------------------------------------------\n" [] ++
    printf "next_pc: %08x  next_pc:   %08x       next_pc: %08x          next_pc:  %08x\n"
      [AInt (ifid_next_pc f); AInt (idex_next_pc d); AInt (exmem_next_pc x);
       AInt (memwb_next_pc w)] ++
    printf "inst:    %08x  c_reg_dst:   %08x      c_reg_write: %08x      c_reg_write:  %08x\n"
      [AInt (ifid_inst f); ABool (idex_c_reg_dst d); ABool (exmem_c_reg_write x);
       ABool (memwb_c_reg_write w)] ++
    printf "next_pc: %08x  c_alu_op:    %08x      c_branch:    %08x      c_mem_to_reg: %08x\n"
      [AInt (ifid_next_pc f); AInt (idex_c_alu_op d); ABool (exmem_c_branch x);
       ABool (memwb_c_mem_to_reg w)] ++
    printf "                   c_alu_src:   %08x      c_mem_read:  %08x      alu_res:      %8x\n"
      [ABool (idex_c_alu_src d); ABool (exmem_c_mem_read x); AInt (memwb_alu_res w)] ++
    printf "                   c_beq:       %08x      c_mem_write: %08x      read_data:    %8x\n"
      [ABool (idex_c_beq d); ABool (exmem_c_mem_write x); AInt (memwb_read_data w)] ++
    printf "                   c_mem_read:  %08x      c_mem_to_reg:%08x      reg_dst:      %8d\n"
      [ABool (idex_c_mem_read d); ABool (exmem_c_mem_to_reg x); AInt (memwb_reg_dst w)] ++
    printf "                   c_mem_write: %08x      \n" [ABool (idex_c_mem_write d)] ++
    printf "                   c_reg_write: %08x      eff_addr:    %08x\n"
      [ABool (idex_c_reg_write d); AInt (exmem_eff_addr x)] ++
    printf "                   c_mem_to_reg:%08x      alu_res:     %08x\n"
      [ABool (idex_c_mem_to_reg d); AInt (exmem_alu_res x)] ++
    printf "                   c_jump:      %08x      rt_value:    %08x\n"
      [ABool (idex_c_jump d); AInt (exmem_rt_value x)] ++
    printf "                   shamt:       %08x      reg_dst:     %08x\n"
      [AInt (idex_shamt d); AInt (exmem_reg_dst x)] ++
    printf "                   c_bne:       %08x\n" [ABool (idex_c_bne d)] ++
    printf "                   funct:       %08x\n" [AInt (idex_funct d)] ++
    printf "                   next_pc:     %8x\n" [AInt (idex_next_pc d)] ++
    printf "                   rs_value:    %8x\n" [AInt (idex_rs_value d)] ++
    printf "                   rt_value:    %8x\n" [AInt (idex_rt_value d)] ++
    printf "                   jump_addr:   %8x\n" [AInt (idex_jump_addr d)] ++
    printf "                   sign_ext_imm:%8x\n" [AInt (idex_sign_ext_imm d)] ++
    printf "                   rs:          %8x\n" [AInt (idex_rs d)] ++
    printf "                   rt:          %8x\n" [AInt (idex_rt d)] ++
    printf "                   rd:          %8x\n" [AInt (idex_rd d)] ++
    printf "EXC:\t%6s\t\tEXC:\t%6s\t\tEXC:\t%6s\t\tEXC:\t%6s\n"
      [AStr if_e; AStr id_e; AStr ex_e; AStr wb_e] ++
    printf "is_branch_delay: %u\t\t\t%u\t\t\t%u\t\t\t%u\n"
      [ABool (ifid_is_branch_delay f); ABool (idex_is_branch_delay d);
       ABool (exmem_is_branch_delay x); ABool (memwb_is_branch_delay w)] ++
    printf "BadVAddr: %08x\t\t%08x\t\t%08x\t\t%08x\n"
      [AInt (ifid_BadVAddr f); AInt (idex_BadVAddr d); AInt (exmem_BadVAddr x);
       AInt (memwb_BadVAddr w)] ++
    printf "\n\n" [].

Definition print_pipeline_registers (core : core_t) : outcome string :=
  if_s ← INST_STR (ifid_inst (if_id core));
  id_s ← INST_STR (idex_inst (id_ex core));
  ex_s ← INST_STR (exmem_inst (ex_mem core));
  wb_s ← INST_STR (memwb_inst (mem_wb core));
  if_e ← exc_name (ifid_exception (if_id core));
  id_e ← exc_name (idex_exception (id_ex core));
  ex_e ← exc_name (exmem_exception (ex_mem core));
  wb_e ← exc_name (memwb_exception (mem_wb core));
  Ret (pipeline_text core if_s id_s ex_s wb_s if_e id_e ex_e wb_e).

(** ** Devices and memory *)

Definition print_device (dev : device_t) : string :=
  printf "typecode: 0x%x, vendor_string %.8s, io_addr_base: %d, io_addr_len: %d, irq: %d\n"
    [AInt (dev_typecode dev); AStr (c_string (dev_vendor_string dev)); AInt (dev_io_addr_base dev);
     AInt (dev_io_addr_len dev); AInt (dev_irq dev)].

(** The loop over the device list. *)
Fixpoint print_devices (devs : list device_t) : string :=
  match devs with [] => "" | dev :: rest => print_device dev ++ print_devices rest end.

(** [dump_mem(mem, addr, n)]: a new line with the address every 16 bytes. *)
Definition dump_mem (mem : list Z) (addr n : Z) : outcome string :=
  text ← print_loop (λ i,
    b ← aget mem (wrap32 (addr + i));
    Ret ((if i mod 16 =? 0 then printf "\n%08x " [AInt (addr + i)] else "") ++
         printf "%02x " [AInt b])) (Z.to_nat n) 0;
  Ret (text ++ printf "\n" []).

(** ** The debugger *)

Definition debug_help : string :=
  printf "DEBUG COMMANDS:\n" [] ++
  printf "h\t\t- Prints this message\n" [] ++
  printf "r\t\t- Prints all GP registers\n" [] ++
  printf "0\t\t- Prints all special registers (CP0)\n" [] ++
  printf "p\t\t- Prints pipeline registers\n" [] ++
  printf "i\t\t- Prints current instruction\n" [] ++
  printf "[v|s|t]<N>\t- Prints register v/s/t number <N>\n" [] ++
  printf "m\t\t- Print from memory (will ask for addr)\n" [] ++
  printf "c\t\t- Continue executing\n" [] ++
  printf "d\t\t- List IO devices \n" [] ++
  printf "q\t\t- Quit\n" [] ++
  printf "'\\n'\t\t- Step\n\n" [].

(** The output of one command: [printf("> ")] and the switch. *)
Definition command_text (inst : Z) (sim : simulator_t) (c stdin : list Z) : outcome string :=
  let c0 := hd 0 c in
  core ← first_core (hw sim);
  let register := (
    v ← aget (regs core) (register_to_number (c_string c));
    Ret (printf "%s = %u\n" [AStr (c_string c); AInt v])) in
  body ← (
    if c0 =? chr "h" then Ret debug_help
    else if c0 =? chr "r" then print_registers core
    else if c0 =? chr "i" then print_instruction inst core
    else if c0 =? chr "m" then
      let '(addr, _) := scanf_X stdin in
      word ← (match addr with
              | Some addr => '(_, word) ← mmu_read (mmu (hw sim)) addr 0 MEM_OP_WORD; Ret word
              | None => Ret 0
              end);
      Ret (printf "@: [0x%08X] = 0x%08X\n" [AInt (default 0 addr); AInt word])
    else if c0 =? chr "p" then print_pipeline_registers core
    else if c0 =? chr "0" then
      dump ← cp0_dump_registers (cp0 core);
      line ← register;
      Ret (dump ++ line)
    else if one_of c0 [chr "v"; chr "s"; chr "t"] then register
    else if c0 =? chr "d" then Ret (print_devices (devices (mmu (hw sim))))
    else Ret "");
  Ret (printf "> " [] ++ body).

(** The output of the loop of [debug], command by command. *)
Fixpoint debug_loop_text (fuel : nat) (seekable : bool) (inst : Z) (sim : simulator_t)
    (c stdin : list Z) : option (outcome string) :=
  match fuel with
  | O => None
  | S fuel =>
    let '(c, stdin) := fgets c stdin in
    match command_text inst sim c stdin, debug_command seekable inst sim c stdin with
    | Ret text, Ret (true, _, _) => Some (Ret text)
    | Ret text, Ret (false, sim, stdin) =>
      match debug_loop_text fuel seekable inst sim c stdin with
      | Some (Ret rest) => Some (Ret (text ++ rest))
      | r => r
      end
    | Ret _, Exit code | Exit code, _ => Some (Exit code)
    | Ret _, Crash f | Crash f, _ => Some (Crash f)
    end
  end.

(** [debug(inst, simulator)]: everything it prints. *)
Definition debug_text (fuel : nat) (seekable : bool) (inst : Z) (sim : simulator_t) (stdin : list Z)
    : option (outcome string) :=
  match (core ← first_core (hw sim);
         line ← print_instruction inst core;
         Ret (printf "PC: 0x%08X\n" [AInt (PC core)] ++ line)) with
  | Ret head =>
    match debug_loop_text fuel seekable inst sim [] stdin with
    | Some (Ret rest) => Some (Ret (head ++ rest))
    | r => r
    end
  | Exit code => Some (Exit code)
  | Crash f => Some (Crash f)
  end.
