(* ===== verification/Simulate.v ===== *)
(** * Loading and running an executable (src/sim.h, src/sim.c: simulate)

    The entry point of the simulator: the machine is built, the program loaded into it,
    and run with the debugger and the log the command line asked for. *)

From S2P Require Import Prelude Mips32 Cpu Io Bus Mem Sim Elf Debug.

(** The fields of [struct simulator] that the command line sets. The others are in
    [simulator_t], the log's stream being left out. *)
Record settings_t := Settings {
  cores : Z;
  memsz : Z;
  program : option string;
  log_wanted : bool;
  log_file : option string;
  debug_wanted : bool }.

#[export] Instance settings_eta : Eta settings_t := {| eta := λ r,
  Settings (cores r) (memsz r) (program r) (log_wanted r) (log_file r) (debug_wanted r) |}.

(** What the host does: which allocations succeed, the files that can be opened for
    reading, the names that can be opened for the log, whether a file can be closed,
    and the standard input. *)
Record host_t := Host {
  alloc_hw : bool;
  alloc_mmu : bool;
  alloc_cpu : bool;
  alloc_dev : bool;
  alloc_buf : bool;
  files : string → option (list Z);
  log_opens : string → bool;
  fclose_ok : bool;
  stdin : list Z;
  stdin_seekable : bool }.

(** [elf_dump] stores the entry point through a pointer to the PC of the first core. *)
Definition set_entry (h : hardware_t) (entry : Z) (m : mmu_t) : outcome hardware_t :=
  cpu ← set_core0 (cpu h) (λ c, set_PC c entry);
  Ret (Hardware cpu m).

(** The machine with the program loaded. A file that cannot be loaded ends the process
    with status 0. *)
Definition boot (host : host_t) (s : settings_t) : outcome hardware_t :=
  h ← hw_init (alloc_hw host) (alloc_mmu host) (alloc_cpu host) (alloc_dev host) (cores s) (memsz s);
  c ← first_core h;
  '(retval, entry, m) ← elf_dump (program s ≫= files host) (fclose_ok host) (PC c) (mmu h);
  h ← set_entry h entry m;
  if retval =? 0 then Ret h else Exit 0.

(** [simulate]; [fuel] bounds the ticks, and the commands of one stop of the debugger. *)
Definition simulate (fuel : nat) (host : host_t) (s : settings_t) : option (outcome Z) :=
  match boot host s with
  | Ret h =>
    run_debug fuel (alloc_buf host) (stdin_seekable host)
      (Simulator (log_wanted s) false (debug_wanted s) h) (stdin host)
  | Exit code => Some (Exit code)
  | Crash f => Some (Crash f)
  end.
