(* ===== verification/Main.v ===== *)
(** * The command line (src/main.c)

    The options of [main] as [getopt_long] delivers them, the numbers in them, and the
    call of [simulate]. *)

From Stdlib Require Import Ascii.
From S2P Require Import Prelude Simulate.

#[local] Open Scope Z_scope.

Definition MEMORY_SIZE : Z := 0x20000000.

Definition EXIT_SUCCESS : Z := 0.
Definition EXIT_FAILURE : Z := 1.

(** ** Options *)

Inductive has_arg_t := no_argument | required_argument.

Definition long_options : list (string * has_arg_t * ascii) := [
  ("cores"%string, required_argument, "c"%char);
  ("debug"%string, no_argument, "c"%char);
  ("help"%string, no_argument, "h"%char);
  ("memory"%string, required_argument, "m"%char);
  ("program"%string, required_argument, "p"%char);
  ("log"%string, required_argument, "l"%char)].

(** The option string "+c:dhm:p:"; the plus sign makes the first argument that is not an
    option end the options. *)
Definition short_options : list (ascii * has_arg_t) := [
  ("c"%char, required_argument); ("d"%char, no_argument); ("h"%char, no_argument);
  ("m"%char, required_argument); ("p"%char, required_argument)].

Definition short_option (c : ascii) : option has_arg_t :=
  match filter (λ o, o.1 = c) short_options with
  | (_, k) :: _ => Some k
  | [] => None
  end.

(** ** [getopt_long] of the C library, in the mode the plus sign selects *)

(** The name of a long option and the text behind its equals sign. *)
Fixpoint split_equals (s : string) : string * option string :=
  match s with
  | EmptyString => (EmptyString, None)
  | String c s =>
    if decide (c = "="%char) then (EmptyString, Some s)
    else let '(name, v) := split_equals s in (String c name, v)
  end.

(** The option of that name, or the only one with that prefix. *)
Definition long_option (name : string) : option (has_arg_t * ascii) :=
  match filter (λ o, o.1.1 = name) long_options with
  | (_, k, c) :: _ => Some (k, c)
  | [] =>
    match filter (λ o, String.prefix name o.1.1 = true) long_options with
    | [(_, k, c)] => Some (k, c)
    | _ => None
    end
  end.

(** What one call does: the character and [optarg] it returns, [None] for -1; the rest of
    a group of short options; and the arguments from [optind] on. *)
Record getopt_t := Getopt { nextchar : string; arguments : list string }.

Definition unknown_option : ascii * option string := ("?"%char, None).

(** The argument of an option: [inline] is the text behind the option itself. *)
Definition option_argument (c : ascii) (k : has_arg_t) (inline : option string) (rest : list string)
    : (ascii * option string) * list string :=
  match k, inline, rest with
  | no_argument, None, _ => ((c, None), rest)
  | no_argument, Some _, _ => (unknown_option, rest)
  | required_argument, Some v, _ => ((c, Some v), rest)
  | required_argument, None, v :: rest => ((c, Some v), rest)
  | required_argument, None, [] => (unknown_option, [])
  end.

Definition getopt_short (c : ascii) (group : string) (rest : list string)
    : (ascii * option string) * getopt_t :=
  match short_option c with
  | None => (unknown_option, Getopt group rest)
  | Some no_argument => ((c, None), Getopt group rest)
  | Some required_argument =>
    let inline := match group with EmptyString => None | _ => Some group end in
    let '(r, rest) := option_argument c required_argument inline rest in
    (r, Getopt EmptyString rest)
  end.

Definition getopt_name (text : string) (rest : list string) : (ascii * option string) * getopt_t :=
  let '(name, inline) := split_equals text in
  match long_option name with
  | None => (unknown_option, Getopt EmptyString rest)
  | Some (k, c) =>
    let '(r, rest) := option_argument c k inline rest in (r, Getopt EmptyString rest)
  end.

Definition getopt_long (g : getopt_t) : option (ascii * option string) * getopt_t :=
  match nextchar g with
  | String c group => let '(r, g) := getopt_short c group (arguments g) in (Some r, g)
  | EmptyString =>
    match arguments g with
    | String "-" EmptyString :: _ => (None, g)
    | String "-" (String "-" EmptyString) :: rest => (None, Getopt EmptyString rest)
    | String "-" (String "-" text) :: rest =>
      let '(r, g) := getopt_name text rest in (Some r, g)
    | String "-" (String c group) :: rest =>
      let '(r, g) := getopt_short c group rest in (Some r, g)
    | _ => (None, g)
    end
  end.

(** ** Numbers *)

Definition ULONG_MAX : Z := 2 ^ 64 - 1.

Definition is_space (c : ascii) : bool :=
  let n := Z.of_nat (nat_of_ascii c) in (n =? 32) || ((9 <=? n) && (n <=? 13)).

Definition digit (c : ascii) : option Z :=
  let n := Z.of_nat (nat_of_ascii c) in if (48 <=? n) && (n <=? 57) then Some (n - 48) else None.

Fixpoint skip_spaces (s : string) : string :=
  match s with
  | String c rest => if is_space c then skip_spaces rest else s
  | EmptyString => EmptyString
  end.

(** The longest numeral; [None] without a digit. *)
Fixpoint scan_digits (acc : option Z) (s : string) : option Z :=
  match s with
  | String c rest =>
    match digit c with
    | Some d => scan_digits (Some (10 * default 0 acc + d)) rest
    | None => acc
    end
  | EmptyString => acc
  end.

(** [strtoul(begin, &end, 10)]: the value and whether it is out of range; [None] when
    there is no number, and [end] is [begin]. *)
Definition strtoul (s : string) : option (Z * bool) :=
  let '(neg, s) :=
    match skip_spaces s with
    | String "-" rest => (true, rest)
    | String "+" rest => (false, rest)
    | s => (false, s)
    end in
  v ← scan_digits None s;
  if ULONG_MAX <? v then Some (ULONG_MAX, true)
  else Some (if neg : bool then (- v) mod 2 ^ 64 else v, false).

(** [parse_size_t], with [optarg] a possibly null pointer. *)
Definition parse_size_t (optarg : option string) : outcome Z :=
  match optarg with
  | None => Crash NullDeref
  | Some s =>
    match strtoul s with
    | None => Exit EXIT_FAILURE
    | Some (v, range) => if (v =? ULONG_MAX) && range then Exit EXIT_FAILURE else Ret v
    end
  end.

(** ** The main function *)

Definition default_settings : settings_t := Settings 1 MEMORY_SIZE None false None false.

(** The body of the switch. *)
Definition main_switch (c : ascii) (optarg : option string) (s : settings_t) : outcome settings_t :=
  if decide (c = "d"%char) then Ret (s <| debug_wanted := true |>)
  else if decide (c = "c"%char) then n ← parse_size_t optarg; Ret (s <| cores := n |>)
  else if decide (c = "p"%char) then Ret (s <| program := optarg |>)
  else if decide (c = "m"%char) then n ← parse_size_t optarg; Ret (s <| memsz := n |>)
  else if decide (c = "h"%char) then Exit EXIT_SUCCESS
  else if decide (c = "l"%char) then Ret (s <| log_wanted := true |> <| log_file := optarg |>)
  else Exit EXIT_FAILURE.

(** The loop over the options; [fuel] bounds the calls of [getopt_long]. *)
Fixpoint main_options (fuel : nat) (g : getopt_t) (s : settings_t)
    : option (outcome (settings_t * list string)) :=
  match fuel with
  | O => None
  | S fuel =>
    match getopt_long g with
    | (None, g) => Some (Ret (s, arguments g))
    | (Some (c, optarg), g) =>
      match main_switch c optarg s with
      | Ret s => main_options fuel g s
      | Exit code => Some (Exit code)
      | Crash f => Some (Crash f)
      end
    end
  end.

(** The calls of [getopt_long] that the arguments allow. *)
Definition option_fuel (argv : list string) : nat :=
  S (sum_list_with (λ a, S (String.length a)) argv).

(** The settings [main] calls [simulate] with. *)
Definition main_settings (argv : list string) (log_opens : string → bool) : option (outcome settings_t) :=
  match main_options (option_fuel argv) (Getopt EmptyString argv) default_settings with
  | None => None
  | Some r => Some (
      '(s, rest) ← r;
      let s := match rest with [] => s | path :: _ => s <| program := Some path |> end in
      match program s with
      | None => Exit 0
      | Some _ =>
        if log_wanted s && negb (from_option log_opens false (log_file s))
        then Ret (s <| log_wanted := false |>) else Ret s
      end)
  end.

(** [main(argc, argv)], [argv] without the name of the program. *)
Definition main (fuel : nat) (host : host_t) (argv : list string) : option (outcome Z) :=
  match main_settings argv (log_opens host) with
  | None => None
  | Some (Ret s) => simulate fuel host s
  | Some (Exit code) => Some (Exit code)
  | Some (Crash f) => Some (Crash f)
  end.
