(* ===== verification/MemProps.v ===== *)
(** * Properties of the memory unit (src/mem.c)

    Loads and stores below the descriptor area against a big-endian byte memory,
    the descriptor area, the device list, and the proof that the memory unit meets
    the interface the pipeline uses. *)

From S2P Require Import Prelude Mips32 Tools Io Bus Mem.
From coqutil Require Import Z.bitblast.

(** ** The specification: big-endian numerals over a byte memory *)

(** The number of bytes of an operation. *)
Definition op_bytes (op_size : mem_op_size_t) : nat :=
  match op_size with MEM_OP_BYTE => 1 | MEM_OP_HALF => 2 | MEM_OP_WORD => 4 end.

(** The value of a big-endian numeral, and the [n] digits of a value. *)
Fixpoint be_value (bs : list Z) : Z :=
  match bs with
  | [] => 0
  | b :: rest => b * 2 ^ (8 * Z.of_nat (length rest)) + be_value rest
  end.

Fixpoint be_digits (n : nat) (v : Z) : list Z :=
  match n with
  | O => []
  | S n => (v / 2 ^ (8 * Z.of_nat n)) mod 2 ^ 8 :: be_digits n v
  end.

(** The bytes at offsets [off], ..., [off + n - 1], and their replacement. *)
Fixpoint bytes_at (p : gmap Z Z) (off : Z) (n : nat) : list Z :=
  match n with
  | O => []
  | S n => default 0 (p !! off) :: bytes_at p (off + 1) n
  end.

Fixpoint bytes_put (p : gmap Z Z) (off : Z) (bs : list Z) : gmap Z Z :=
  match bs with
  | [] => p
  | b :: rest => bytes_put (<[off := b]> p) (off + 1) rest
  end.

(** ** The invariant of the memory unit *)

Definition descriptor_ok (d : device_descriptor_t) : Prop :=
  length (desc_vendor_string d) = 8%nat ∧ Forall u8 (desc_vendor_string d).

Record mmu_ok (m : mmu_t) : Prop := {
  ok_size : 0 <= pmem_len m;
  ok_geometry : mmu_geometry (pmem_len m) m;
  ok_bytes : map_Forall (λ _ b, u8 b) (pmem m);
  ok_area : length (device_descriptor_start m) = Z.to_nat MAX_IO_DEVICES;
  ok_descriptors : Forall descriptor_ok (device_descriptor_start m) }.

(** The fields of a device fit the descriptor. *)
Record device_ok (dev : device_t) : Prop := {
  dev_ok_typecode : u32 (dev_typecode dev);
  dev_ok_base : u32 (dev_io_addr_base dev);
  dev_ok_len : u32 (dev_io_addr_len dev);
  dev_ok_irq : u32 (dev_irq dev);
  dev_ok_vendor : length (dev_vendor_string dev) = 8%nat ∧ Forall u8 (dev_vendor_string dev) }.

(** The 32 bytes of the descriptor as the guest's byte order wants them. *)
Definition guest_descriptor (dev : device_t) : list Z :=
  be_digits 4 (dev_typecode dev) ++ be_digits 4 (dev_io_addr_base dev) ++
  be_digits 4 (dev_io_addr_len dev) ++ be_digits 4 (dev_irq dev) ++
  dev_vendor_string dev ++ replicate 8 0.

(** ** Numerals *)

Section Numerals.
Implicit Types (p : gmap Z Z) (bs : list Z).

Lemma be_digits_length n v : length (be_digits n v) = n.
Proof. induction n; cbn; auto. Qed.

Lemma be_digits_u8 n v : Forall u8 (be_digits n v).
Proof. induction n; cbn; constructor; auto. apply Z.mod_pos_bound. lia. Qed.

Lemma be_value_digits n v : be_value (be_digits n v) = v mod 2 ^ (8 * Z.of_nat n).
Proof.
  induction n as [|n IH]; cbn [be_value be_digits].
  - by rewrite Z.mod_1_r.
  - rewrite be_digits_length, IH.
    replace (8 * Z.of_nat (S n)) with (8 * Z.of_nat n + 8) by lia.
    rewrite (Z.pow_add_r 2) by lia. rewrite Z.rem_mul_r by lia. lia.
Qed.

Lemma be_value_range bs : Forall u8 bs → 0 <= be_value bs < 2 ^ (8 * Z.of_nat (length bs)).
Proof.
  induction 1 as [|b bs Hb _ IH]; cbn [be_value length]; [lia|].
  unfold u8 in Hb. replace (8 * Z.of_nat (S (length bs))) with (8 + 8 * Z.of_nat (length bs)) by lia.
  rewrite (Z.pow_add_r 2) by lia. nia.
Qed.

Lemma bytes_at_length p off n : length (bytes_at p off n) = n.
Proof. revert off; induction n; cbn; auto. Qed.

Lemma bytes_at_u8 p off n : map_Forall (λ _ b, u8 b) p → Forall u8 (bytes_at p off n).
Proof.
  intros Hp. revert off. induction n; intros; cbn; constructor; [|done].
  destruct (p !! off) eqn:E; cbn; [by eapply Hp|unfold u8; lia].
Qed.

Lemma bytes_put_lookup_ne p off bs k :
  k < off ∨ off + Z.of_nat (length bs) <= k → bytes_put p off bs !! k = p !! k.
Proof.
  revert p off. induction bs as [|b bs IH]; cbn [bytes_put length]; intros p off Hk; [done|].
  rewrite IH by lia. apply lookup_insert_ne. lia.
Qed.

Lemma bytes_at_put_disjoint p off bs off' n :
  off' + Z.of_nat n <= off ∨ off + Z.of_nat (length bs) <= off' →
  bytes_at (bytes_put p off bs) off' n = bytes_at p off' n.
Proof.
  revert off'. induction n as [|n IH]; intros off' Ho; cbn [bytes_at]; [done|].
  f_equal; [|apply IH; lia]. by rewrite bytes_put_lookup_ne by lia.
Qed.

Lemma bytes_at_put p off bs : bytes_at (bytes_put p off bs) off (length bs) = bs.
Proof.
  revert p off. induction bs as [|b bs IH]; intros; cbn [bytes_put bytes_at length]; [done|].
  f_equal; [|apply IH]. rewrite bytes_put_lookup_ne by lia. by rewrite lookup_insert_eq.
Qed.

Lemma bytes_put_u8 p off bs :
  map_Forall (λ _ b, u8 b) p → Forall u8 bs → map_Forall (λ _ b, u8 b) (bytes_put p off bs).
Proof.
  intros Hp Hbs. revert p off Hp. induction Hbs as [|b bs Hb _ IH]; intros; cbn; [done|].
  apply IH. by apply map_Forall_insert_2.
Qed.
End Numerals.

(** The macros compute numerals and digits. *)
Lemma GET_BIGHALF_value b0 b1 : u8 b0 → u8 b1 → GET_BIGHALF b0 b1 = be_value [b0; b1].
Proof.
  unfold u8, GET_BIGHALF, wrap16. intros. rewrite (Z.shiftl_mul_pow2 b0) by lia.
  rewrite Z.mod_small, <-Z.shiftl_mul_pow2, lor_shiftl_add by lia. cbn [be_value length]. lia.
Qed.

Lemma GET_BIGWORD_value b0 b1 b2 b3 :
  u8 b0 → u8 b1 → u8 b2 → u8 b3 → GET_BIGWORD b0 b1 b2 b3 = be_value [b0; b1; b2; b3].
Proof.
  unfold u8, GET_BIGWORD, wrap32. intros. rewrite (Z.shiftl_mul_pow2 b0) by lia.
  assert (0 <= b0 * 2 ^ 24 < 2 ^ 32) by lia.
  rewrite Z.mod_small, <-(Z.shiftl_mul_pow2 b0) by lia.
  rewrite <-!Z.lor_assoc, (lor_shiftl_add 8), (lor_shiftl_add 16), (lor_shiftl_add 24) by lia.
  cbn [be_value length]. lia.
Qed.

Lemma SET_BIGHALF_digits v : u32 v → SET_BIGHALF v = be_digits 2 v.
Proof.
  unfold u32. intros. unfold SET_BIGHALF, wrap8, wrap32. cbn [be_digits].
  rewrite !Z.shiftr_div_pow2, !Z.shiftl_mul_pow2 by lia. cbn.
  repeat apply (f_equal2 cons); try done; Z.div_mod_to_equations; lia.
Qed.

Lemma SET_BIGWORD_digits v : u32 v → SET_BIGWORD v = be_digits 4 v.
Proof.
  unfold u32. intros. unfold SET_BIGWORD, wrap8, wrap32. cbn [be_digits].
  rewrite !Z.shiftr_div_pow2, !Z.shiftl_mul_pow2 by lia. cbn.
  repeat apply (f_equal2 cons); try done; Z.div_mod_to_equations; lia.
Qed.

Lemma SET_BIGBYTE_digits v : SET_BIGBYTE v = be_digits 1 v.
Proof. unfold SET_BIGBYTE, wrap8. cbn. by rewrite Z.div_1_r. Qed.

(** ** Loads and stores *)

Lemma pmem_load_in_range m off :
  0 <= off < pmem_len m → pmem_load m off = Ret (pmem_byte m off).
Proof. intros. unfold pmem_load. case_Z; cbn; done || lia. Qed.

Lemma pmem_store_bytes_in_range m off bs :
  0 <= off → off + Z.of_nat (length bs) <= pmem_len m →
  pmem_store_bytes m off bs = Ret (m <| pmem := bytes_put (pmem m) off bs |>).
Proof.
  revert m off. induction bs as [|b bs IH]; cbn [pmem_store_bytes bytes_put length];
    intros m off H0 Hl; [by destruct m|].
  unfold pmem_store. rewrite (proj2 (Z.leb_le _ _)), (proj2 (Z.ltb_lt _ _)) by lia.
  cbn. by rewrite IH by (cbn; lia).
Qed.

Section Access.
Implicit Types (m : mmu_t) (v off dst src : Z) (sz : mem_op_size_t).

Lemma op_bytes_bound sz : (1 <= op_bytes sz <= 4)%nat.
Proof. destruct sz; cbn; lia. Qed.

(** The bytes a load reads and a store writes lie inside [pmem]. *)
Lemma host_offset_in_range m v off sz :
  mmu_ok m → 0 <= v → host_offset m v = Some off →
  0 <= off ∧ off + Z.of_nat (op_bytes sz) <= pmem_len m.
Proof.
  intros Hm Hv Ho. pose proof (op_bytes_bound sz).
  destruct (host_offset_bounds (pmem_len m) m v off); auto using ok_geometry, ok_size. lia.
Qed.

Lemma not_io v : v < IO_DESCRIPTOR_AREA →
  (IO_REGISTER_AREA <=? v) = false ∧ (IO_DESCRIPTOR_AREA <=? v) = false.
Proof. unfold IO_REGISTER_AREA, IO_DESCRIPTOR_AREA. intros. case_Z; auto; lia. Qed.

Lemma mmu_read_memory m v dst sz :
  mmu_ok m → 0 <= v < IO_DESCRIPTOR_AREA →
  mmu_read m v dst sz =
    match host_offset m v with
    | None => Crash NullDeref
    | Some off => Ret (EXC_None, be_value (bytes_at (pmem m) off (op_bytes sz)))
    end.
Proof.
  intros Hm Hv. unfold mmu_read. destruct (not_io v) as [-> ->]; [lia|].
  rewrite translate_host_offset by done.
  destruct (host_offset m v) as [off|] eqn:Ho; [|done]. cbn [deref mbind outcome_bind].
  destruct (host_offset_in_range m v off sz) as [H0 Hl]; [done|lia|done|].
  pose proof (bytes_at_u8 (pmem m) off (op_bytes sz) (ok_bytes m Hm)) as Hu.
  destruct sz; cbn [op_bytes bytes_at] in *; rewrite ?Z.add_0_r, <-?Z.add_assoc in *;
    cbn [Z.add Pos.add] in *; rewrite !pmem_load_in_range by lia;
    cbn [mbind outcome_bind]; unfold pmem_byte; do 2 f_equal;
    repeat match goal with H : Forall _ (_ :: _) |- _ => apply Forall_cons in H as [? H] end.
  - cbn. unfold GET_BIGBYTE. lia.
  - by apply GET_BIGHALF_value.
  - by apply GET_BIGWORD_value.
Qed.

Lemma mmu_write_memory m v src sz :
  mmu_ok m → 0 <= v < IO_DESCRIPTOR_AREA → u32 src →
  mmu_write m v src sz =
    match host_offset m v with
    | None => Crash NullDeref
    | Some off =>
      Ret (EXC_None, m <| pmem := bytes_put (pmem m) off (be_digits (op_bytes sz) src) |>)
    end.
Proof.
  intros Hm Hv Hs. unfold mmu_write. destruct (not_io v) as [-> ->]; [lia|].
  rewrite translate_host_offset by done.
  destruct (host_offset m v) as [off|] eqn:Ho; [|done]. cbn [deref mbind outcome_bind].
  destruct (host_offset_in_range m v off sz) as [H0 Hl]; [done|lia|done|].
  replace (match sz with MEM_OP_BYTE => _ | _ => _ end) with (be_digits (op_bytes sz) src)
    by (destruct sz; rewrite ?SET_BIGBYTE_digits, ?SET_BIGHALF_digits, ?SET_BIGWORD_digits; done).
  by rewrite pmem_store_bytes_in_range by (rewrite ?be_digits_length; lia).
Qed.

(** Stores keep the invariant and the address map. *)
Lemma mmu_ok_put m off bs :
  mmu_ok m → Forall u8 bs → mmu_ok (m <| pmem := bytes_put (pmem m) off bs |>).
Proof.
  intros [Hs Hg Hb Ha Hd] Hbs. destruct Hg. split; cbn; try done.
  by apply bytes_put_u8.
Qed.
End Access.

(** ** The descriptor area *)

Section Area.
Implicit Types (m : mmu_t) (d : device_descriptor_t).

Lemma le_bytes_u8 z : Forall u8 (le_bytes z).
Proof. repeat constructor; apply Z.mod_pos_bound; lia. Qed.

Lemma descriptor_bytes_ok d :
  descriptor_ok d →
  Z.of_nat (length (descriptor_bytes d)) = DESCRIPTOR_SIZE ∧ Forall u8 (descriptor_bytes d).
Proof.
  intros [Hl Hv]. split.
  - unfold descriptor_bytes. rewrite !length_app, Hl. done.
  - unfold descriptor_bytes. rewrite !Forall_app. auto 10 using le_bytes_u8.
Qed.

Lemma area_byte_in_range m k :
  mmu_ok m → 0 <= k < IO_DESCRIPTOR_AREA_LENGTH → ∃ b, area_byte m k = Ret b ∧ u8 b.
Proof.
  unfold IO_DESCRIPTOR_AREA_LENGTH. intros Hm Hk. unfold area_byte.
  destruct (aget_in_range (device_descriptor_start m) (k / DESCRIPTOR_SIZE)) as [d Hd].
  { rewrite (ok_area m Hm). unfold MAX_IO_DEVICES, IO_DESCRIPTOR_AREA_LENGTH, DESCRIPTOR_SIZE.
    Z.div_mod_to_equations. lia. }
  rewrite Hd. cbn [mbind outcome_bind]. apply aget_Ret in Hd as [_ Hd].
  destruct (descriptor_bytes_ok d) as [Hl Hu].
  { by eapply (Forall_lookup_1 _ _ _ _ (ok_descriptors m Hm)). }
  destruct (aget_in_range (descriptor_bytes d) (k mod DESCRIPTOR_SIZE)) as [b Hb].
  { rewrite Hl. by apply Z.mod_pos_bound. }
  exists b. split; [done|]. apply aget_Ret in Hb as [_ Hb]. by eapply Forall_lookup_1.
Qed.

Lemma area_byte_out_of_range m k :
  mmu_ok m → IO_DESCRIPTOR_AREA_LENGTH <= k → area_byte m k = Crash OutOfBounds.
Proof.
  unfold IO_DESCRIPTOR_AREA_LENGTH. intros Hm Hk. unfold area_byte, aget at 2.
  assert (2048 <= k / DESCRIPTOR_SIZE) by (unfold DESCRIPTOR_SIZE; Z.div_mod_to_equations; lia).
  case_Z; [lia|]. rewrite lookup_ge_None_2; [done|].
  rewrite (ok_area m Hm). unfold MAX_IO_DEVICES, IO_DESCRIPTOR_AREA_LENGTH, DESCRIPTOR_SIZE in *.
  change (0x10000 / 32) with 2048. lia.
Qed.

Ltac area_lia := unfold IO_DESCRIPTOR_AREA_LENGTH in *; lia.

(** The pointer arithmetic scales the index by the width, so only the accesses at
    [i * width < 65536] stay inside the area. *)
Lemma area_read_cases m i sz :
  mmu_ok m → 0 <= i →
  if (i + 1) * Z.of_nat (op_bytes sz) <=? IO_DESCRIPTOR_AREA_LENGTH
  then ∃ v, area_read m i sz = Ret v ∧ u32 v
  else area_read m i sz = Crash OutOfBounds.
Proof.
  intros Hm Hi. destruct (Z.leb_spec ((i + 1) * Z.of_nat (op_bytes sz)) IO_DESCRIPTOR_AREA_LENGTH).
  - destruct sz; cbn [op_bytes area_read] in *.
    + destruct (area_byte_in_range m i) as (b & -> & Hb); [done|area_lia|eauto with mach].
    + destruct (area_byte_in_range m (2 * i)) as (b0 & -> & H0); [done|area_lia|].
      destruct (area_byte_in_range m (2 * i + 1)) as (b1 & -> & H1); [done|area_lia|].
      eexists; split; [done|]. apply u32_lor; auto with mach.
      unfold u8, u32 in *. rewrite Z.shiftl_mul_pow2; lia.
    + destruct (area_byte_in_range m (4 * i)) as (b0 & -> & H0); [done|area_lia|].
      destruct (area_byte_in_range m (4 * i + 1)) as (b1 & -> & H1); [done|area_lia|].
      destruct (area_byte_in_range m (4 * i + 2)) as (b2 & -> & H2); [done|area_lia|].
      destruct (area_byte_in_range m (4 * i + 3)) as (b3 & -> & H3); [done|area_lia|].
      eexists; split; [done|]. repeat apply u32_lor; auto with mach;
        unfold u8, u32 in *; rewrite Z.shiftl_mul_pow2; lia.
  - destruct sz; cbn [op_bytes area_read] in *.
    + rewrite (area_byte_out_of_range m i); done || area_lia.
    + rewrite (area_byte_out_of_range m (2 * i)); done || area_lia.
    + rewrite (area_byte_out_of_range m (4 * i)); done || area_lia.
Qed.
End Area.

(** ** Device dispatch *)

Section Dispatch.
Implicit Types (dev : device_t) (devs : list device_t).

(** No device function changes the word it is given or the device. *)
Lemma io_read_data dev addr dst d r : io_read dev addr dst = Ret (d, r) → d = dst.
Proof. unfold io_read, tty_device_read. destruct (dev_io_read dev) as [[]|]; naive_solver. Qed.

Lemma io_write_dev dev addr src d r : io_write dev addr src = Ret (d, r) → d = dev.
Proof.
  unfold io_write, shutdown_device_write, tty_device_write.
  destruct (dev_io_write dev) as [[]|]; [case_Z|..]; naive_solver.
Qed.

Lemma io_read_devices_data devs v dst d : io_read_devices devs v dst = Ret d → d = dst.
Proof.
  revert dst. induction devs as [|dev [|dev' rest] IH]; intros dst; [done|naive_solver|].
  cbn [io_read_devices]. intros H.
  apply bind_Ret_inv in H as (x & Hx & H). apply IH in H as ->.
  destruct (device_selected dev v); [|naive_solver].
  apply bind_Ret_inv in Hx as ([y r] & Hy & [= ->]). by eapply io_read_data.
Qed.

Lemma io_write_devices_same devs v src devs' :
  io_write_devices devs v src = Ret devs' → devs' = devs.
Proof.
  revert devs'. induction devs as [|dev [|dev' rest] IH]; intros devs'; [done|naive_solver|].
  cbn [io_write_devices]. intros H.
  apply bind_Ret_inv in H as (x & Hx & H). apply bind_Ret_inv in H as (y & Hy & [= <-]).
  apply IH in Hy as ->. f_equal.
  destruct (device_selected dev v); [|naive_solver].
  apply bind_Ret_inv in Hx as ([z r] & Hz & [= ->]). by eapply io_write_dev.
Qed.
End Dispatch.

(** ** The memory unit meets the pipeline's interface *)

Lemma mmu_read_ok m v dst sz e x :
  mmu_ok m → u32 v → u32 dst → mmu_read m v dst sz = Ret (e, x) → e = EXC_None ∧ u32 x.
Proof.
  intros Hm Hv Hd. destruct (Z.ltb_spec v IO_DESCRIPTOR_AREA) as [Hlt|Hge].
  - rewrite mmu_read_memory; [|done|unfold u32 in *; lia].
    destruct (host_offset m v); intros [= <- <-]. split; [done|].
    pose proof (be_value_range (bytes_at (pmem m) z (op_bytes sz))
      (bytes_at_u8 _ _ _ (ok_bytes m Hm))) as Hr.
    rewrite bytes_at_length in Hr. revert Hr.
    generalize (be_value (bytes_at (pmem m) z (op_bytes sz))). unfold u32. destruct sz; cbn; lia.
  - unfold mmu_read. destruct (IO_REGISTER_AREA <=? v).
    + intros H. apply bind_Ret_inv in H as (y & Hy & [= <- <-]).
      by apply io_read_devices_data in Hy as ->.
    + rewrite (proj2 (Z.leb_le _ _) Hge). intros H. apply bind_Ret_inv in H as (y & Hy & [= <- <-]).
      pose proof (area_read_cases m (v - IO_DESCRIPTOR_AREA) sz Hm ltac:(lia)) as Ha.
      revert Ha. case_Z; intros Ha; [|by rewrite Ha in Hy].
      destruct Ha as (y' & Hy' & Hu). split; [done|]. congruence.
Qed.

Lemma mmu_write_ok m v src sz e m' :
  mmu_ok m → u32 v → u32 src → mmu_write m v src sz = Ret (e, m') →
  (e = EXC_None ∨ e = EXC_AddressErrorStore) ∧ mmu_ok m'.
Proof.
  intros Hm Hv Hs. destruct (Z.ltb_spec v IO_DESCRIPTOR_AREA) as [Hlt|Hge].
  - rewrite mmu_write_memory; [|done|unfold u32 in *; lia|done].
    destruct (host_offset m v); intros [= <- <-]. split; [by left|].
    apply mmu_ok_put; [done|]. apply be_digits_u8.
  - unfold mmu_write. destruct (IO_REGISTER_AREA <=? v).
    + intros H. apply bind_Ret_inv in H as (y & Hy & [= <- <-]).
      apply io_write_devices_same in Hy as ->. split; [by left|]. by destruct m.
    + rewrite (proj2 (Z.leb_le _ _) Hge). intros [= <- <-]. auto.
Qed.

#[export] Instance mmu_bus_spec : BusSpec mmu_t mmu_ok := {|
  bus_read_spec := mmu_read_ok; bus_write_spec := mmu_write_ok |}.

(** The first kernel segment is mapped one to one. *)
Lemma host_offset_kseg0 m v :
  mmu_ok m → 0x80000000 <= v < 0x80000000 + 0x20000000 →
  host_offset m v =
    if v - 0x80000000 <? wrap32 (pmem_len m / 8) then Some (v - 0x80000000) else None.
Proof.
  intros Hm Hv. unfold host_offset. rewrite (geom_kseg0 _ _ (ok_geometry m Hm)), wrap32_idemp.
  replace (v mod 2 ^ 29) with (v - 2147483648) by (Z.div_mod_to_equations; lia).
  case_Z; done || lia.
Qed.

(** The size of the memory does not change. *)
Definition mmu_sized (size : Z) (m : mmu_t) : Prop := mmu_ok m ∧ pmem_len m = size.

#[export] Instance mmu_sized_spec size : BusSpec mmu_t (mmu_sized size).
Proof.
  split.
  - intros m v dst sz e x [Hm _]. by apply mmu_read_ok.
  - intros m v src sz e m' [Hm Hl] Hv Hs Hw. cbn [bus_write mmu_bus] in Hw.
    destruct (mmu_write_ok m v src sz e m') as [He Hm']; [done..|]. split; [done|]. split; [done|].
    destruct (Z.ltb_spec v IO_DESCRIPTOR_AREA) as [Hlt|Hge].
    + rewrite mmu_write_memory in Hw; [|done|unfold u32 in *; lia|done].
      destruct (host_offset m v); [|done]. injection Hw as <- <-. done.
    + unfold mmu_write in Hw. destruct (IO_REGISTER_AREA <=? v).
      * apply bind_Ret_inv in Hw as (y & _ & [= <- <-]). done.
      * rewrite (proj2 (Z.leb_le _ _) Hge) in Hw. by injection Hw as <- <-.
Qed.

(** A word of the first kernel segment. *)
Lemma mmu_read_kseg0 m v dst sz :
  mmu_ok m → 0x80000000 <= v < 0x80000000 + 0x20000000 →
  v - 0x80000000 < wrap32 (pmem_len m / 8) →
  mmu_read m v dst sz = Ret (EXC_None, be_value (bytes_at (pmem m) (v - 0x80000000) (op_bytes sz))).
Proof.
  intros Hm Hv Hl. rewrite mmu_read_memory; [|done|unfold IO_DESCRIPTOR_AREA; lia].
  rewrite host_offset_kseg0 by done. by rewrite (proj2 (Z.ltb_lt _ _) Hl).
Qed.

(** What [mmu_init] returns satisfies the invariant. *)
Lemma mmu_init_ok alloc size m : 0 <= size → mmu_init alloc size = Some m → mmu_ok m.
Proof.
  intros Hs. unfold mmu_init. destruct alloc; [|done].
  intros H. apply (inj Some) in H as <-. split; [done|done|done|apply length_replicate|].
  apply Forall_replicate. split; [done|]. apply Forall_replicate. unfold u8. lia.
Qed.

(** ** Adding a device keeps the invariant *)

Lemma device_descriptor_add_devices m dev : devices (device_descriptor_add m dev) = devices m.
Proof. unfold device_descriptor_add. by destruct (get_free_descriptor m). Qed.

Lemma device_descriptor_add_ok m dev :
  mmu_ok m → length (dev_vendor_string dev) = 8%nat ∧ Forall u8 (dev_vendor_string dev) →
  mmu_ok (device_descriptor_add m dev).
Proof.
  intros Hm Hv. unfold device_descriptor_add. destruct (get_free_descriptor m) as [i|]; [|done].
  destruct Hm as [H1 [] H3 H4 H5]. split; [done|done|done|..]; cbn [update device_descriptor_start].
  - by rewrite length_alter.
  - apply Forall_alter; [done|]. by intros.
Qed.

Lemma mmu_ok_devices m next devs :
  mmu_ok m → mmu_ok (m <| next_io_register := next |> <| devices := devs |>).
Proof. intros [H1 [] H3 H4 H5]. by split. Qed.

Lemma mmu_add_device_devices m dev :
  devices (mmu_add_device m (Some dev)) =
    dev <| dev_io_addr_base := next_io_register m |> :: devices m.
Proof. unfold mmu_add_device. by rewrite device_descriptor_add_devices. Qed.

Lemma mmu_add_device_ok m dev :
  mmu_ok m → length (dev_vendor_string dev) = 8%nat ∧ Forall u8 (dev_vendor_string dev) →
  mmu_ok (mmu_add_device m (Some dev)).
Proof.
  intros Hm Hv. unfold mmu_add_device. apply device_descriptor_add_ok; [|exact Hv].
  by apply mmu_ok_devices.
Qed.
