(* ===== verification/MemTheorems.v ===== *)
(** * Theorems on the memory unit (src/mem.c)

    Functional behaviour of loads and stores and the address map, as the pipeline sees
    them; the devices and the descriptor area are in DeviceTheorems. *)

From S2P Require Import Prelude Mips32 Tools Io Bus Mem MemProps.

(** A memory of 4096 bytes, for the concrete instances. *)
Definition small_mmu : mmu_t :=
  Mmu ∅ 4096 4096 (replicate (Z.to_nat MAX_IO_DEVICES) zero_descriptor) IO_REGISTER_AREA []
    512 512 1024 2048.

Lemma small_mmu_ok : mmu_ok small_mmu.
Proof. apply (mmu_init_ok true 4096); [lia|reflexivity]. Qed.

Lemma mmu_ok_store m v src sz e m' :
  mmu_ok m → 0 <= v < IO_DESCRIPTOR_AREA → u32 src → mmu_write m v src sz = Ret (e, m') →
  mmu_ok m' ∧ ∀ v', host_offset m' v' = host_offset m v'.
Proof.
  intros Hm Hv Hs. rewrite mmu_write_memory by done.
  destruct (host_offset m v); intros [= <- <-]. split; [|done].
  apply mmu_ok_put; [done|]. apply be_digits_u8.
Qed.

(** C15: a load of the width of a store returns the stored value, truncated to that
    width, whatever the destination held. *)
Theorem store_load_roundtrip m v src sz e m' dst :
  mmu_ok m → 0 <= v < IO_DESCRIPTOR_AREA → u32 src →
  mmu_write m v src sz = Ret (e, m') →
  mmu_read m' v dst sz = Ret (EXC_None, src mod 2 ^ (8 * Z.of_nat (op_bytes sz))).
Proof.
  intros Hm Hv Hs Hw. destruct (mmu_ok_store m v src sz e m') as [Hm' Ho]; auto.
  rewrite mmu_read_memory by done. rewrite Ho. revert Hw. rewrite mmu_write_memory by done.
  destruct (host_offset m v) as [off|]; intros [= <- <-]. cbn [update pmem].
  rewrite <-(be_value_digits (op_bytes sz) src). do 3 f_equal.
  rewrite <-(be_digits_length (op_bytes sz) src) at 2. apply bytes_at_put.
Qed.

Lemma store_load_roundtrip_witness :
  mmu_read (small_mmu <| pmem := bytes_put ∅ 16 [0; 1; 0xE2; 0x40] |>) 0x80000010 7 MEM_OP_WORD
    = Ret (EXC_None, 123456).
Proof.
  apply (store_load_roundtrip small_mmu 0x80000010 123456 MEM_OP_WORD EXC_None);
    [exact small_mmu_ok|vm_compute; split; congruence|vm_compute; split; congruence|vm_compute; reflexivity].
Defined.

(** C21: a store changes no byte outside the ones it names: a load whose host bytes
    are disjoint from the stored ones is unaffected. *)
Theorem store_frame m v src sz e m' v' dst sz' off off' :
  mmu_ok m → 0 <= v < IO_DESCRIPTOR_AREA → 0 <= v' < IO_DESCRIPTOR_AREA → u32 src →
  mmu_write m v src sz = Ret (e, m') →
  host_offset m v = Some off → host_offset m v' = Some off' →
  off' + Z.of_nat (op_bytes sz') <= off ∨ off + Z.of_nat (op_bytes sz) <= off' →
  mmu_read m' v' dst sz' = mmu_read m v' dst sz'.
Proof.
  intros Hm Hv Hv' Hs Hw Ho Ho' Hd. destruct (mmu_ok_store m v src sz e m') as [Hm' Hoo]; auto.
  rewrite !mmu_read_memory by done. rewrite Hoo, Ho'.
  revert Hw. rewrite mmu_write_memory, Ho by done. intros [= <- <-]. cbn [update pmem].
  by rewrite bytes_at_put_disjoint by (rewrite be_digits_length; done).
Qed.

Lemma store_frame_witness :
  mmu_read (small_mmu <| pmem := bytes_put ∅ 16 [0; 1; 0xE2; 0x40] |>) 0x80000014 7 MEM_OP_HALF
    = mmu_read small_mmu 0x80000014 7 MEM_OP_HALF.
Proof.
  apply (store_frame small_mmu 0x80000010 123456 MEM_OP_WORD EXC_None
           (small_mmu <| pmem := bytes_put ∅ 16 [0; 1; 0xE2; 0x40] |>) 0x80000014 7 MEM_OP_HALF
           16 20);
    [exact small_mmu_ok|vm_compute; split; congruence..|vm_compute; reflexivity
    |reflexivity|reflexivity|right; vm_compute; congruence].
Defined.

(** The four bytes of an aligned word are adjacent in host memory. *)
Lemma host_offset_aligned m v off k :
  mmu_ok m → pmem_len m mod 32 = 0 → 0 <= v < 0xA0000000 → v mod 4 = 0 → 0 <= k < 4 →
  host_offset m v = Some off → host_offset m (v + k) = Some (off + k).
Proof.
  intros Hm Hl Hv Ha Hk. destruct (ok_geometry m Hm) as [_ H0 H1 Hu]. pose proof (ok_size m Hm).
  unfold host_offset. rewrite H0, H1, Hu.
  unfold KUSEG_PSTART, KSEG1_PSTART, KSEG0_PSTART, wrap32.
  replace (pmem_len m) with (32 * (pmem_len m / 32)) by (Z.div_mod_to_equations; lia).
  set (q := pmem_len m / 32).
  replace (32 * q / 8) with (4 * q) by (Z.div_mod_to_equations; lia).
  replace (32 * q / 2) with (16 * q) by (Z.div_mod_to_equations; lia).
  case_Z; intros [= <-]; Z.div_mod_to_equations; first [lia | f_equal; lia].
Qed.

(** Words lie in memory in big-endian order: an aligned word load is the
    positional value of the four byte loads at the same addresses. *)
Theorem load_word_big_endian m v dst w :
  mmu_ok m → pmem_len m mod 32 = 0 → 0 <= v < 0xA0000000 → v mod 4 = 0 →
  mmu_read m v dst MEM_OP_WORD = Ret (EXC_None, w) →
  ∃ b0 b1 b2 b3,
    mmu_read m v dst MEM_OP_BYTE = Ret (EXC_None, b0) ∧
    mmu_read m (v + 1) dst MEM_OP_BYTE = Ret (EXC_None, b1) ∧
    mmu_read m (v + 2) dst MEM_OP_BYTE = Ret (EXC_None, b2) ∧
    mmu_read m (v + 3) dst MEM_OP_BYTE = Ret (EXC_None, b3) ∧
    w = b0 * 2 ^ 24 + b1 * 2 ^ 16 + b2 * 2 ^ 8 + b3.
Proof.
  intros Hm Hl Hv Ha.
  rewrite !mmu_read_memory by (done || unfold IO_DESCRIPTOR_AREA; lia).
  destruct (host_offset m v) as [off|] eqn:Ho; [|done].
  rewrite (host_offset_aligned m v off 1), (host_offset_aligned m v off 2),
    (host_offset_aligned m v off 3) by (done || lia).
  intros [= <-]. do 4 eexists. repeat split. cbn.
  rewrite <-!Z.add_assoc. change (1 + (1 + 1)) with 3. change (1 + 1) with 2. lia.
Qed.

Lemma load_word_big_endian_witness :
  ∃ b0 b1 b2 b3,
    let m := small_mmu <| pmem := bytes_put ∅ 16 [0; 1; 0xE2; 0x40] |> in
    mmu_read m 0x80000010 7 MEM_OP_BYTE = Ret (EXC_None, b0) ∧
    mmu_read m (0x80000010 + 1) 7 MEM_OP_BYTE = Ret (EXC_None, b1) ∧
    mmu_read m (0x80000010 + 2) 7 MEM_OP_BYTE = Ret (EXC_None, b2) ∧
    mmu_read m (0x80000010 + 3) 7 MEM_OP_BYTE = Ret (EXC_None, b3) ∧
    123456 = b0 * 2 ^ 24 + b1 * 2 ^ 16 + b2 * 2 ^ 8 + b3.
Proof.
  apply load_word_big_endian; [|reflexivity|lia|reflexivity|reflexivity].
  apply (mmu_ok_put small_mmu 16); [exact small_mmu_ok|repeat constructor; unfold u8; lia].
Defined.

(** In the segment every program is loaded into, memory is mapped one to one: the
    address [0x80000000 + k] is byte [k] of physical memory, for the first eighth of
    it, and the access beyond is a null dereference of the simulator. *)
Theorem kseg0_identity m v :
  mmu_ok m → KSEG0_VSTART <= v < KSEG0_VSTART + KSEG0_SIZE →
  let off := v - KSEG0_VSTART in
  if off <? wrap32 (pmem_len m / 8) then
    (∀ dst sz, mmu_read m v dst sz =
       Ret (EXC_None, be_value (bytes_at (pmem m) off (op_bytes sz)))) ∧
    (∀ src sz, u32 src → mmu_write m v src sz =
       Ret (EXC_None, m <| pmem := bytes_put (pmem m) off (be_digits (op_bytes sz) src) |>))
  else
    (∀ dst sz, mmu_read m v dst sz = Crash NullDeref) ∧
    (∀ src sz, u32 src → mmu_write m v src sz = Crash NullDeref).
Proof.
  unfold KSEG0_VSTART, KSEG0_SIZE. intros Hm Hv. cbv zeta. set (off := v - 0x80000000).
  pose proof (host_offset_kseg0 m v Hm Hv) as Ho. fold off in Ho.
  assert (0 <= v < IO_DESCRIPTOR_AREA) by (unfold IO_DESCRIPTOR_AREA; lia).
  case_Z; split; intros; rewrite ?mmu_read_memory, ?mmu_write_memory, Ho by done; done.
Qed.

Lemma kseg0_identity_witness :
  (∀ dst sz, mmu_read small_mmu 0x80000010 dst sz =
     Ret (EXC_None, be_value (bytes_at ∅ 16 (op_bytes sz)))) ∧
  (∀ src sz, u32 src → mmu_write small_mmu 0x80000010 src sz =
     Ret (EXC_None, small_mmu <| pmem := bytes_put ∅ 16 (be_digits (op_bytes sz) src) |>)).
Proof.
  exact (kseg0_identity small_mmu 0x80000010 small_mmu_ok
           ltac:(vm_compute; split; congruence)).
Defined.

(** C33: no guest address below the descriptor area makes the simulator touch a byte
    outside the memory it allocated: such an access returns without an exception or
    dereferences the null pointer of the translation; it never ends the process. *)
Theorem memory_access_safe m v x sz :
  mmu_ok m → 0 <= v < IO_DESCRIPTOR_AREA → u32 x →
  (mmu_read m v x sz = Crash NullDeref ∧ mmu_write m v x sz = Crash NullDeref) ∨
  (∃ y m', mmu_read m v x sz = Ret (EXC_None, y) ∧ mmu_write m v x sz = Ret (EXC_None, m') ∧
     u32 y ∧ mmu_ok m').
Proof.
  intros Hm Hv Hx. assert (u32 v) by (unfold IO_DESCRIPTOR_AREA, u32 in *; lia).
  destruct (mmu_read m v x sz) as [[e y]| |] eqn:Hr, (mmu_write m v x sz) as [[e' m']| |] eqn:Hw;
    pose proof Hr as Hr'; pose proof Hw as Hw';
    rewrite mmu_read_memory in Hr' by done; rewrite mmu_write_memory in Hw' by done;
    destruct (host_offset m v); simplify_eq; [|by left].
  right. apply mmu_read_ok in Hr as [_ ?]; [|done..]. apply mmu_write_ok in Hw as [_ ?]; [|done..].
  eauto 10.
Qed.

Lemma memory_access_safe_witness :
  (mmu_read small_mmu 0x80000010 5 MEM_OP_WORD = Crash NullDeref ∧
   mmu_write small_mmu 0x80000010 5 MEM_OP_WORD = Crash NullDeref) ∨
  (∃ y m', mmu_read small_mmu 0x80000010 5 MEM_OP_WORD = Ret (EXC_None, y) ∧
     mmu_write small_mmu 0x80000010 5 MEM_OP_WORD = Ret (EXC_None, m') ∧ u32 y ∧ mmu_ok m').
Proof.
  apply memory_access_safe; [exact small_mmu_ok|vm_compute; split; congruence..].
Defined.

Lemma mmu_read_low_user m v dst sz :
  mmu_ok m → pmem_len m <= 0x20000000 → 0 <= v < 0x20000000 → mmu_read m v dst sz = Crash NullDeref.
Proof.
  intros Hm Hl Hv. pose proof (ok_size m Hm).
  assert (0x80000000 < IO_DESCRIPTOR_AREA) by (unfold IO_DESCRIPTOR_AREA; lia).
  rewrite mmu_read_memory by lia || done || (split; lia).
  unfold host_offset. destruct (ok_geometry m Hm) as [_ -> -> ->].
  unfold KUSEG_PSTART, KSEG1_PSTART, KSEG0_PSTART, wrap32.
  case_Z; try done; Z.div_mod_to_equations; lia.
Qed.

(** C34: the segments that do not work: with at most 512 MiB no low user address is
    mapped, and every address between 0xA0000000 and the descriptor area behaves as the
    first byte of the kernel segment. *)
Theorem unmapped_segments m dst sz :
  mmu_ok m →
  (pmem_len m <= 0x20000000 → ∀ v, 0 <= v < 0x20000000 → mmu_read m v dst sz = Crash NullDeref) ∧
  (∀ v, 0xA0000000 < v < IO_DESCRIPTOR_AREA →
     mmu_read m v dst sz = mmu_read m KSEG0_VSTART dst sz).
Proof.
  unfold KSEG0_VSTART. intros Hm. pose proof (ok_size m Hm).
  assert (0x80000000 < IO_DESCRIPTOR_AREA) by (unfold IO_DESCRIPTOR_AREA; lia). split.
  - intros Hl v Hv. by apply mmu_read_low_user.
  - intros v Hv. rewrite !mmu_read_memory by (done || lia).
    replace (host_offset m v) with (host_offset m 0x80000000); [done|].
    unfold host_offset. change (0x80000000 mod 2 ^ 29) with 0. case_Z; done || lia.
Qed.

Lemma unmapped_segments_witness :
  (4096 <= 0x20000000 → ∀ v, 0 <= v < 0x20000000 →
     mmu_read small_mmu v 0 MEM_OP_WORD = Crash NullDeref) ∧
  (∀ v, 0xA0000000 < v < IO_DESCRIPTOR_AREA →
     mmu_read small_mmu v 0 MEM_OP_WORD = mmu_read small_mmu KSEG0_VSTART 0 MEM_OP_WORD).
Proof. exact (unmapped_segments small_mmu 0 MEM_OP_WORD small_mmu_ok). Defined.
