(* ===== verification/DeviceTheorems.v ===== *)
(** * Theorems on the devices and the descriptor area (src/mem.c, src/io.c)

    The bytes of the area and the elements a guest reads in it, what [mmu_add_device]
    writes there, and which devices a guest reaches. *)

From S2P Require Import Prelude Mips32 Tools Cpu Io Bus Mem MemProps MemTheorems.

(** ** The descriptor area *)

(** The bytes of the area, one descriptor after the other, and the number a little-endian
    host reads off a list of bytes. *)
Definition area_bytes (m : mmu_t) : list Z := device_descriptor_start m ≫= descriptor_bytes.

Fixpoint le_value (bs : list Z) : Z :=
  match bs with [] => 0 | b :: bs => b + 2 ^ 8 * le_value bs end.

Lemma area_byte_bytes m k b :
  mmu_ok m → area_byte m k = Ret b → 0 <= k ∧ area_bytes m !! Z.to_nat k = Some b ∧ u8 b.
Proof.
  intros Hm Hb. unfold area_byte in Hb. apply bind_Ret_inv in Hb as (d & Hd & Hb).
  apply aget_Ret in Hd as [H0 Hd]. apply aget_Ret in Hb as [_ Hb].
  unfold DESCRIPTOR_SIZE in *. assert (0 <= k) as Hk by (Z.div_mod_to_equations; lia).
  split; [exact Hk|].
  assert (Forall (λ d, length (descriptor_bytes d) = 32%nat ∧ Forall u8 (descriptor_bytes d))
    (device_descriptor_start m)) as Hf.
  { eapply Forall_impl; [exact (ok_descriptors m Hm)|]. intros d' Hd'.
    destruct (descriptor_bytes_ok d' Hd') as [Hl Hu]. unfold DESCRIPTOR_SIZE in Hl. split; [lia|done]. }
  split; [|by destruct (Forall_lookup_1 _ _ _ _ Hf Hd) as [_ Hu]; eapply Forall_lookup_1].
  unfold area_bytes. revert Hf k Hk H0 Hd Hb.
  induction (device_descriptor_start m) as [|d' ds IH]; intros Hf k Hk H0 Hd Hb; [done|].
  apply Forall_cons in Hf as [[Hl _] Hf]. cbn [mbind list_bind].
  destruct (Z.ltb_spec k 32).
  - rewrite Z.div_small in Hd by lia. injection Hd as ->. rewrite Z.mod_small in Hb by lia.
    rewrite lookup_app_l by lia. exact Hb.
  - rewrite lookup_app_r by lia. rewrite Hl.
    replace (Z.to_nat k - 32)%nat with (Z.to_nat (k - 32)) by lia.
    apply IH; [done|lia|Z.div_mod_to_equations; lia| |].
    + replace (Z.to_nat (k / 32)) with (S (Z.to_nat ((k - 32) / 32))) in Hd
        by (Z.div_mod_to_equations; lia). exact Hd.
    + by replace ((k - 32) mod 32) with (k mod 32) by (Z.div_mod_to_equations; lia).
Qed.

(** The element of an in-range read. *)
Definition area_element (m : mmu_t) (i : Z) (n : nat) : list Z :=
  take n (drop (n * Z.to_nat i) (area_bytes m)).

Lemma take_drop_lookup {A} (l : list A) k n x :
  l !! k = Some x → take (S n) (drop k l) = x :: take n (drop (S k) l).
Proof. intros Hx. by rewrite (drop_S _ _ _ Hx). Qed.

Lemma area_read_element m i sz v :
  mmu_ok m → 0 <= i → area_read m i sz = Ret v → v = le_value (area_element m i (op_bytes sz)).
Proof.
  intros Hm Hi. unfold area_element. destruct sz; cbn [area_read op_bytes].
  - intros Hb. apply (area_byte_bytes m i v Hm) in Hb as (_ & Hb & _).
    replace (1 * Z.to_nat i)%nat with (Z.to_nat i) by lia.
    rewrite (take_drop_lookup _ _ _ _ Hb). rewrite take_0; cbn [le_value]. lia.
  - intros Hb. apply bind_Ret_inv in Hb as (b0 & H0 & Hb). apply bind_Ret_inv in Hb as (b1 & H1 & [= <-]).
    apply (area_byte_bytes m _ _ Hm) in H0 as (_ & H0 & U0), H1 as (_ & H1 & U1).
    replace (2 * Z.to_nat i)%nat with (Z.to_nat (2 * i)) by lia.
    replace (Z.to_nat (2 * i + 1)) with (S (Z.to_nat (2 * i))) in H1 by lia.
    rewrite (take_drop_lookup _ _ _ _ H0), (take_drop_lookup _ _ _ _ H1). rewrite take_0; cbn [le_value].
    unfold u8 in *. rewrite Z.lor_comm, (lor_shiftl_add 8) by lia. lia.
  - intros Hb. apply bind_Ret_inv in Hb as (b0 & H0 & Hb). apply bind_Ret_inv in Hb as (b1 & H1 & Hb).
    apply bind_Ret_inv in Hb as (b2 & H2 & Hb). apply bind_Ret_inv in Hb as (b3 & H3 & [= <-]).
    apply (area_byte_bytes m _ _ Hm) in H0 as (_ & H0 & U0), H1 as (_ & H1 & U1),
      H2 as (_ & H2 & U2), H3 as (_ & H3 & U3).
    replace (4 * Z.to_nat i)%nat with (Z.to_nat (4 * i)) by lia.
    replace (Z.to_nat (4 * i + 1)) with (S (Z.to_nat (4 * i))) in H1 by lia.
    replace (Z.to_nat (4 * i + 2)) with (S (S (Z.to_nat (4 * i)))) in H2 by lia.
    replace (Z.to_nat (4 * i + 3)) with (S (S (S (Z.to_nat (4 * i))))) in H3 by lia.
    rewrite (take_drop_lookup _ _ _ _ H0), (take_drop_lookup _ _ _ _ H1),
      (take_drop_lookup _ _ _ _ H2), (take_drop_lookup _ _ _ _ H3). rewrite take_0; cbn [le_value].
    unfold u8 in *.
    rewrite (Z.lor_comm b0), (lor_shiftl_add 8) by lia.
    rewrite (Z.lor_comm (b1 * _ + _)), (lor_shiftl_add 16) by lia.
    rewrite Z.lor_comm, (lor_shiftl_add 24) by lia. lia.
Qed.

(** ** Adding a device *)

Section AddDevice.
Implicit Types (m : mmu_t) (dev : device_t) (d : device_descriptor_t).

Lemma le_bytes_REVERSE x : u32 x → le_bytes (REVERSE x) = be_digits 4 x.
Proof.
  intros Hx. unfold le_bytes.
  pose proof (REVERSE_byte x 0 ltac:(lia)) as H0. pose proof (REVERSE_byte x 1 ltac:(lia)) as H1.
  pose proof (REVERSE_byte x 2 ltac:(lia)) as H2. pose proof (REVERSE_byte x 3 ltac:(lia)) as H3.
  change (8 * 0) with 0 in H0. change (8 * 1) with 8 in H1. change (8 * 2) with 16 in H2.
  change (8 * 3) with 24 in H3. rewrite Z.shiftr_0_r in H0. rewrite H0, H1, H2, H3.
  unfold wrap8. rewrite !Z.shiftr_div_pow2 by lia. done.
Qed.

Lemma descriptor_bytes_set dev d :
  device_ok dev →
  descriptor_bytes (device_descriptor_reverse (device_descriptor_set_fields dev d)) =
    guest_descriptor dev.
Proof.
  intros [H1 H2 H3 H4 _]. unfold descriptor_bytes. cbn [device_descriptor_reverse
    device_descriptor_set_fields update desc_typecode desc_io_addr_base desc_io_addr_len
    desc_irq desc_vendor_string desc_reserved1 desc_reserved2].
  rewrite !le_bytes_REVERSE by (done || (unfold u32; lia)). done.
Qed.

(** [find_free_descriptor] returns the first descriptor with a zero type code. *)
(** A slot is free when the bytes of its type code are zero. *)
Definition slot_free d : Prop := take 4 (descriptor_bytes d) = [0; 0; 0; 0].

#[export] Instance slot_free_dec d : Decision (slot_free d) := decide_rel eq _ _.

Lemma REVERSE_zero t : REVERSE t = 0 ↔ le_bytes t = [0; 0; 0; 0].
Proof.
  unfold le_bytes. rewrite <-(Z.shiftr_0_r t) at 2.
  rewrite <-(REVERSE_byte t 3 ltac:(lia) : _ = wrap8 (Z.shiftr t 0)),
    <-(REVERSE_byte t 2 ltac:(lia) : _ = wrap8 (Z.shiftr t 8)),
    <-(REVERSE_byte t 1 ltac:(lia) : _ = wrap8 (Z.shiftr t 16)),
    <-(REVERSE_byte t 0 ltac:(lia) : _ = wrap8 (Z.shiftr t 24)).
  pose proof (REVERSE_u32 t) as Hu. revert Hu. generalize (REVERSE t). intros x Hx. split; [by intros ->|].
  unfold u32, wrap8 in *. rewrite !Z.shiftr_div_pow2 by lia.
  change (2 ^ (8 * 3)) with (2 ^ 24). change (2 ^ (8 * 2)) with (2 ^ 16). change (2 ^ (8 * 1)) with (2 ^ 8).
  change (2 ^ (8 * 0)) with 1. intros [= H3 H2 H1 H0]. Z.div_mod_to_equations. lia.
Qed.

Lemma typecode_empty d :
  (desc_typecode (device_descriptor_reverse d) =? TYPECODE_EMPTY) = bool_decide (slot_free d).
Proof.
  pose proof (REVERSE_zero (desc_typecode d)) as Hr.
  change (le_bytes (desc_typecode d)) with (take 4 (descriptor_bytes d)) in Hr.
  unfold TYPECODE_EMPTY. cbn [device_descriptor_reverse update desc_typecode].
  destruct (Z.eqb_spec (REVERSE (desc_typecode d)) 0) as [E|E]; symmetry.
  - by apply bool_decide_eq_true_2, Hr.
  - apply bool_decide_eq_false_2. intros Hs. by apply E, Hr.
Qed.

Lemma get_free_descriptor_first m :
  get_free_descriptor m = fst <$> list_find slot_free (device_descriptor_start m).
Proof.
  unfold get_free_descriptor.
  assert (∀ ds i, find_free_descriptor ds i = (λ p, (i + p.1)%nat) <$> list_find slot_free ds) as ->.
  { intros ds. induction ds as [|d ds IH]; intros i; cbn [find_free_descriptor list_find]; [done|].
    rewrite typecode_empty. unfold bool_decide, decide. destruct (slot_free_dec d).
    - cbn. f_equal. lia.
    - rewrite IH. destruct (list_find slot_free ds) as [[k d']|]; cbn; [|done]. f_equal. lia. }
  by destruct (list_find _ _) as [[k d]|].
Qed.
End AddDevice.

Lemma area_byte_descriptor m i d k :
  device_descriptor_start m !! i = Some d → 0 <= k < 32 →
  area_byte m (32 * Z.of_nat i + k) = aget (descriptor_bytes d) k.
Proof.
  intros Hd Hk. unfold area_byte, DESCRIPTOR_SIZE.
  replace ((32 * Z.of_nat i + k) / 32) with (Z.of_nat i) by (Z.div_mod_to_equations; lia).
  replace ((32 * Z.of_nat i + k) mod 32) with k by (Z.div_mod_to_equations; lia).
  replace (aget (device_descriptor_start m) (Z.of_nat i)) with (Ret d); [done|].
  symmetry. apply aget_Ret. rewrite Nat2Z.id. split; [lia|done].
Qed.

(** A byte read in the area. *)
Lemma mmu_read_area_byte m k dst :
  0 <= k < 0x10000 →
  mmu_read m (IO_DESCRIPTOR_AREA + k) dst MEM_OP_BYTE =
    (b ← area_byte m k; Ret (EXC_None, b)).
Proof.
  intros Hk. unfold mmu_read, IO_REGISTER_AREA, IO_DESCRIPTOR_AREA. case_Z; try lia.
  by replace (0xFFFE0000 + k - 0xFFFE0000) with k by lia.
Qed.

(** The state after adding a device, with a free descriptor at [i]. *)
Lemma mmu_add_device_eq m dev i d :
  get_free_descriptor m = Some i → device_descriptor_start m !! i = Some d →
  mmu_add_device m (Some dev) =
    let dev' := dev <| dev_io_addr_base := next_io_register m |> in
    m <| next_io_register := wrap32 (next_io_register m + dev_io_addr_len dev) |>
      <| devices := dev' :: devices m |>
      <| device_descriptor_start :=
        <[i := device_descriptor_reverse (device_descriptor_set_fields dev' d)]>
          (device_descriptor_start m) |>.
Proof.
  intros Hf Hd. unfold mmu_add_device, device_descriptor_add. cbv zeta.
  change (get_free_descriptor _) with (get_free_descriptor m) at 1. rewrite Hf.
  cbn [update device_descriptor_start].
  by rewrite (alter_lookup_insert _ _ _ _ Hd).
Qed.

(** C35: [mmu_add_device] maps the device at the next I/O address and puts it in front of
    the device list. Its descriptor goes into the first free slot of the area - the first
    whose type code has only zero bytes -, where the guest reads the fields byte by byte
    in big-endian order, and every other slot keeps its bytes; without a free slot the
    area stays as it is. *)
Theorem mmu_add_device_descriptor m dev :
  mmu_ok m → device_ok dev → u32 (next_io_register m) →
  let dev' := dev <| dev_io_addr_base := next_io_register m |> in
  let m' := mmu_add_device m (Some dev) in
  devices m' = dev' :: devices m ∧
  next_io_register m' = wrap32 (next_io_register m + dev_io_addr_len dev) ∧
  mmu_ok m' ∧
  match list_find slot_free (device_descriptor_start m) with
  | Some (i, _) =>
    (∀ k dst, 0 <= k < 32 →
       mmu_read m' (IO_DESCRIPTOR_AREA + (32 * Z.of_nat i + k)) dst MEM_OP_BYTE =
         (b ← aget (guest_descriptor dev') k; Ret (EXC_None, b))) ∧
    (∀ j, j ≠ i → device_descriptor_start m' !! j = device_descriptor_start m !! j)
  | None => device_descriptor_start m' = device_descriptor_start m
  end.
Proof.
  intros Hm Hdev Hn dev' m'.
  assert (mmu_ok m') as Hm' by (apply mmu_add_device_ok; [done|exact (dev_ok_vendor _ Hdev)]).
  pose proof (get_free_descriptor_first m) as Hf.
  destruct (list_find slot_free (device_descriptor_start m)) as [[i d]|] eqn:Hl; cbn in Hf.
  2: { unfold m', mmu_add_device, device_descriptor_add in *. cbv zeta in *.
       change (get_free_descriptor _) with (get_free_descriptor m) in *. by rewrite Hf in *. }
  apply list_find_Some in Hl as (Hd & _ & _).
  pose proof (lookup_lt_Some _ _ _ Hd) as Hi. rewrite (ok_area m Hm) in Hi.
  assert (device_ok dev') as Hdev' by (destruct Hdev; by split).
  revert Hm'. unfold m'. rewrite (mmu_add_device_eq m dev i d) by done. fold dev'. cbv zeta. intros Hm'.
  split_and!; [done|done|done| |].
  - intros k dst Hk. rewrite mmu_read_area_byte.
    2: { unfold MAX_IO_DEVICES, IO_DESCRIPTOR_AREA_LENGTH, DESCRIPTOR_SIZE in Hi.
         change (Z.to_nat (0x10000 / 32)) with 2048%nat in Hi. lia. }
    erewrite area_byte_descriptor;
      [|apply list_lookup_insert_eq; by apply lookup_lt_Some in Hd|done].
    by rewrite descriptor_bytes_set.
  - intros j Hj. cbn. by apply list_lookup_insert_ne.
Qed.

Definition shutdown_device : device_t :=
  default zero_device (shutdown_device_create true).

Lemma shutdown_device_ok : device_ok shutdown_device.
Proof.
  split; [vm_compute; split; congruence..|split; [done|]].
  repeat constructor; vm_compute; congruence.
Qed.

Lemma mmu_add_device_descriptor_witness :
  mmu_read (mmu_add_device small_mmu (Some shutdown_device)) (IO_DESCRIPTOR_AREA + (32 * 0 + 2)) 0
    MEM_OP_BYTE = Ret (EXC_None, 1) ∧
  mmu_read (mmu_add_device small_mmu (Some shutdown_device)) (IO_DESCRIPTOR_AREA + (32 * 0 + 3)) 0
    MEM_OP_BYTE = Ret (EXC_None, 3).
Proof.
  destruct (mmu_add_device_descriptor small_mmu shutdown_device small_mmu_ok
    shutdown_device_ok ltac:(vm_compute; split; congruence)) as (_ & _ & _ & Hr & _).
  split; [exact (Hr 2 0 ltac:(lia))|exact (Hr 3 0 ltac:(lia))].
Defined.

(** ** Device dispatch *)

(** The body of the loop runs for a device that has a successor. *)
Lemma io_write_devices_cons d d' l v src :
  io_write_devices (d :: d' :: l) v src =
    (x ← (if device_selected d v then '(y, _) ← io_write d v src; Ret y else Ret d);
     l' ← io_write_devices (d' :: l) v src; Ret (x :: l')).
Proof. done. Qed.

Lemma io_write_devices_unselected d l v src :
  Forall (λ d, device_selected d v = false) (d :: l) →
  io_write_devices (d :: l) v src = Ret (d :: l).
Proof.
  revert d. induction l as [|d' l IH]; intros d; [done|].
  intros [Hd Hl]%Forall_cons. rewrite io_write_devices_cons, Hd, IH by done. done.
Qed.

(** The devices in front of an access's target that do not claim its address leave
    the rest of the list to answer. *)
Lemma io_write_devices_skip pre dev rest v src :
  Forall (λ d, device_selected d v = false) pre →
  io_write_devices (pre ++ dev :: rest) v src =
    (devs ← io_write_devices (dev :: rest) v src; Ret (pre ++ devs)).
Proof.
  induction 1 as [|d pre Hd _ IH]; cbn [app].
  - by destruct (io_write_devices (dev :: rest) v src).
  - destruct (pre ++ dev :: rest) as [|d' l] eqn:E; [by destruct pre|].
    rewrite io_write_devices_cons, Hd, IH. cbn [mbind outcome_bind].
    by destruct (io_write_devices (dev :: rest) v src).
Qed.

Lemma io_read_devices_skip pre dev rest v dst :
  Forall (λ d, device_selected d v = false) pre →
  io_read_devices (pre ++ dev :: rest) v dst = io_read_devices (dev :: rest) v dst.
Proof.
  induction 1 as [|d pre Hd _ IH]; [done|].
  cbn [app]. destruct (pre ++ dev :: rest) as [|d' l] eqn:E; [by destruct pre|].
  cbn [io_read_devices] in *. rewrite Hd. cbn [mbind outcome_bind]. by rewrite IH.
Qed.

(** A store of the magic word into the window of a shutdown device that another
    device follows ends the process with status 0; any other word is ignored. *)
Theorem shutdown_device_reached m pre dev next rest v src sz :
  devices m = pre ++ dev :: next :: rest →
  dev_io_write dev = Some Fn_shutdown_device_write →
  IO_REGISTER_AREA <= v →
  Forall (λ d, device_selected d v = false) pre → device_selected dev v = true →
  Forall (λ d, device_selected d v = false) (next :: rest) →
  mmu_write m v src sz = if src =? POWEROFF_SHUTDOWN_MAGIC then Exit 0 else Ret (EXC_None, m).
Proof.
  intros Hd Hw Hv Hpre Hsel Hrest. unfold mmu_write. rewrite (proj2 (Z.leb_le _ _) Hv), Hd.
  rewrite io_write_devices_skip, io_write_devices_cons, Hsel by done.
  unfold io_write, shutdown_device_write. rewrite Hw.
  destruct (src =? POWEROFF_SHUTDOWN_MAGIC); [done|]. cbn [mbind outcome_bind].
  rewrite io_write_devices_unselected by done. cbn [mbind outcome_bind]. rewrite <-Hd.
  by destruct m.
Qed.

(** Two shutdown devices: the first in the list answers. *)
Definition two_device_mmu : mmu_t :=
  mmu_add_device (mmu_add_device small_mmu (Some shutdown_device)) (Some shutdown_device).

Lemma shutdown_device_reached_witness :
  mmu_write two_device_mmu 0xFFFF0008 POWEROFF_SHUTDOWN_MAGIC MEM_OP_WORD = Exit 0.
Proof.
  apply (shutdown_device_reached two_device_mmu []
    (shutdown_device <| dev_io_addr_base := 0xFFFF0004 |>)
    (shutdown_device <| dev_io_addr_base := 0xFFFF0000 |>) [] 0xFFFF0008
    POWEROFF_SHUTDOWN_MAGIC MEM_OP_WORD);
    [reflexivity|reflexivity|vm_compute; congruence|constructor|reflexivity|repeat constructor].
Defined.

(** The last device of the list is never consulted: with one device, every access
    to the I/O register area is ignored, the magic word of the shutdown device included;
    with none, it is a null dereference. *)
Theorem last_device_unreachable m pre dev v x sz :
  IO_REGISTER_AREA <= v → Forall (λ d, device_selected d v = false) pre →
  (devices m = pre ++ [dev] →
     mmu_write m v x sz = Ret (EXC_None, m) ∧ mmu_read m v x sz = Ret (EXC_None, x)) ∧
  (devices m = [] →
     mmu_write m v x sz = Crash NullDeref ∧ mmu_read m v x sz = Crash NullDeref).
Proof.
  intros Hv Hpre. unfold mmu_write, mmu_read. rewrite (proj2 (Z.leb_le _ _) Hv).
  split; intros Hd; rewrite Hd; [|done].
  rewrite io_write_devices_skip, io_read_devices_skip by done. cbn [io_write_devices
    io_read_devices mbind outcome_bind]. rewrite <-Hd. by destruct m.
Qed.

Lemma last_device_unreachable_witness :
  mmu_write (mmu_add_device small_mmu (Some shutdown_device)) 0xFFFF0000
    POWEROFF_SHUTDOWN_MAGIC MEM_OP_WORD =
    Ret (EXC_None, mmu_add_device small_mmu (Some shutdown_device)).
Proof.
  exact (proj1 (proj1 (last_device_unreachable (mmu_add_device small_mmu (Some shutdown_device)) []
    (shutdown_device <| dev_io_addr_base := 0xFFFF0000 |>) 0xFFFF0000 POWEROFF_SHUTDOWN_MAGIC
    MEM_OP_WORD ltac:(vm_compute; congruence) ltac:(constructor)) ltac:(reflexivity))).
Defined.

(** ** Reads and writes of the area *)

(** C36: the descriptor area is read-only for the guest: a store raises a store address
    error and changes nothing; a load of width [w] at byte offset [i] reads the [w] bytes
    from byte [w * i] of the area on - the offset is scaled - as a little-endian number,
    and goes outside the allocation for offsets from [65536 / w] on. *)
Theorem descriptor_area_access m i sz :
  mmu_ok m → 0 <= i < 0x10000 →
  let v := IO_DESCRIPTOR_AREA + i in
  let w := op_bytes sz in
  (∀ src, mmu_write m v src sz = Ret (EXC_AddressErrorStore, m)) ∧
  (∀ dst, mmu_read m v dst sz =
     if i <? 0x10000 / Z.of_nat w
     then Ret (EXC_None, le_value (take w (drop (w * Z.to_nat i) (area_bytes m))))
     else Crash OutOfBounds).
Proof.
  intros Hm Hi. cbv zeta.
  assert ((IO_REGISTER_AREA <=? IO_DESCRIPTOR_AREA + i) = false ∧
          (IO_DESCRIPTOR_AREA <=? IO_DESCRIPTOR_AREA + i) = true) as [H1 H2].
  { unfold IO_REGISTER_AREA, IO_DESCRIPTOR_AREA. case_Z; auto; lia. }
  unfold mmu_read, mmu_write. rewrite H1, H2. split; [done|]. intros dst.
  replace (IO_DESCRIPTOR_AREA + i - IO_DESCRIPTOR_AREA) with i by lia.
  pose proof (area_read_cases m i sz Hm ltac:(lia)) as Ha. revert Ha.
  unfold IO_DESCRIPTOR_AREA_LENGTH. case_Z.
  - intros (x & Hx & _). rewrite Hx. cbn [mbind outcome_bind].
    by rewrite (area_read_element m i sz x Hm ltac:(lia) Hx).
  - destruct sz; cbn [op_bytes] in *; Z.div_mod_to_equations; lia.
  - destruct sz; cbn [op_bytes] in *; Z.div_mod_to_equations; lia.
  - by intros ->.
Qed.

(** The half-word at byte offset 1 of the area, with the shutdown device in the first slot:
    its bytes 2 and 3, in the host's order. *)
Lemma descriptor_area_access_witness :
  let m := mmu_add_device small_mmu (Some shutdown_device) in
  (∀ src, mmu_write m 0xFFFE0001 src MEM_OP_HALF = Ret (EXC_AddressErrorStore, m)) ∧
  (∀ dst, mmu_read m 0xFFFE0001 dst MEM_OP_HALF = Ret (EXC_None, 0x0301)) ∧
  (∀ dst, mmu_read m 0xFFFE4000 dst MEM_OP_WORD = Crash OutOfBounds).
Proof.
  cbv zeta. set (m := mmu_add_device small_mmu (Some shutdown_device)).
  assert (mmu_ok m) as Hm.
  { apply mmu_add_device_ok; [exact small_mmu_ok|]. exact (dev_ok_vendor _ shutdown_device_ok). }
  destruct (descriptor_area_access m 1 MEM_OP_HALF Hm ltac:(lia)) as [Hw Hr].
  destruct (descriptor_area_access m 0x4000 MEM_OP_WORD Hm ltac:(lia)) as [_ Ho].
  split; [exact Hw|]. split; [|exact Ho]. intros dst. etransitivity; [exact (Hr dst)|].
  vm_compute. reflexivity.
Defined.
