(* ===== verification/ElfTheorems.v ===== *)
(** * Theorems on the ELF loader (src/elf.c)

    Reading back what a writer of the format lays out, the error code of every kind of
    bad header, and the memory a loadable file leaves. *)

From S2P Require Import Prelude Mips32 Io Bus Mem MemProps MemTheorems Elf.

(** ** Bytes of a file *)

(** The file holds the bytes [bs] from position [p] on. *)
Definition holds (c : list Z) (p : Z) (bs : list Z) : Prop :=
  0 <= p ∧ take (length bs) (drop (Z.to_nat p) c) = bs.

Lemma holds_app c p a b : holds c p (a ++ b) ↔ holds c p a ∧ holds c (p + Z.of_nat (length a)) b.
Proof.
  unfold holds. rewrite length_app. split.
  - intros [Hp Ht]. rewrite <-take_take_drop in Ht.
    assert (length (take (length a) (drop (Z.to_nat p) c)) = length a) as Hl.
    { apply (f_equal length) in Ht. rewrite !length_app in Ht. rewrite !length_take, !length_drop in *.
      lia. }
    apply app_inj_1 in Ht as [Ha Hb]; [|exact Hl]. split; [done|]. split; [lia|].
    rewrite drop_drop in Hb. by replace (Z.to_nat (p + Z.of_nat (length a)))
      with (Z.to_nat p + length a)%nat by lia.
  - intros [[Hp Ha] [_ Hb]]. split; [done|]. rewrite <-take_take_drop, Ha, drop_drop. f_equal.
    by replace (Z.to_nat p + length a)%nat with (Z.to_nat (p + Z.of_nat (length a))) by lia.
Qed.

Lemma holds_nil c p : 0 <= p → holds c p [].
Proof. by split. Qed.

Lemma holds_length c p bs : holds c p bs → bs ≠ [] → p + Z.of_nat (length bs) <= Z.of_nat (length c).
Proof.
  intros [Hp Ht] Hn. apply (f_equal length) in Ht. rewrite length_take, length_drop in Ht.
  destruct bs; [done|]. cbn [length] in *. lia.
Qed.

(** Reading bytes that are there. *)
Lemma fread_holds c p bs :
  holds c p bs → bs ≠ [] →
  fread (Stream c p) (Z.of_nat (length bs)) = (bs, true, Stream c (p + Z.of_nat (length bs))).
Proof.
  intros Hh Hn. pose proof (holds_length c p bs Hh Hn) as Hl. destruct Hh as [Hp Ht].
  assert (0 < length bs)%nat by (destruct bs; [done|cbn; lia]).
  unfold fread. cbn [contents position]. rewrite Z.min_l, Nat2Z.id, Ht by lia.
  rewrite (proj2 (Z.ltb_lt _ _)), (proj2 (Z.leb_le _ _)) by lia. done.
Qed.

(** ** Numbers *)

Lemma be_half_digits v : 0 <= v < 2 ^ 16 → be_half (be_digits 2 v) = v.
Proof.
  intros Hv. unfold be_half. cbn [be_digits nth]. change (8 * Z.of_nat 1) with 8.
  change (8 * Z.of_nat 0) with 0. rewrite Z.div_1_r, lor_shiftl_add by
    (try lia; apply Z.mod_pos_bound; lia). Z.div_mod_to_equations. lia.
Qed.

Lemma be_word_value bs : length bs = 4%nat → Forall u8 bs → be_word bs = be_value bs.
Proof.
  intros Hl Hb. destruct bs as [|b0 [|b1 [|b2 [|b3 [|]]]]]; try done.
  inversion_clear Hb as [|? ? H0 Hb1]. inversion_clear Hb1 as [|? ? H1 Hb2].
  inversion_clear Hb2 as [|? ? H2 Hb3]. inversion_clear Hb3 as [|? ? H3 _].
  unfold u8 in *. unfold be_word. cbn [nth].
  rewrite <-!Z.lor_assoc, (lor_shiftl_add 8), (lor_shiftl_add 16), (lor_shiftl_add 24) by lia.
  unfold wrap32. rewrite Z.mod_small by lia. cbn. lia.
Qed.

Lemma be_word_digits v : u32 v → be_word (be_digits 4 v) = v.
Proof.
  intros Hv. rewrite be_word_value by (apply be_digits_length || apply be_digits_u8).
  rewrite be_value_digits. apply Z.mod_small. exact Hv.
Qed.

Lemma read_be_words_holds c p ws :
  holds c p (ws ≫= be_digits 4) → Forall u32 ws →
  read_be_words (length ws) (Stream c p) = (inr ws, Stream c (p + 4 * Z.of_nat (length ws))).
Proof.
  revert p. induction ws as [|w ws IH]; intros p Hh Hu; cbn [length read_be_words].
  - do 2 f_equal. lia.
  - apply Forall_cons in Hu as [Hw Hu]. cbn [mbind list_bind] in Hh.
    apply holds_app in Hh as [H1 H2]. rewrite be_digits_length in H2.
    pose proof (fread_holds c p _ H1 ltac:(done)) as Hr. rewrite be_digits_length in Hr.
    change (Z.of_nat 4) with 4 in *. rewrite Hr. unfold mbind, reader_bind.
    rewrite (IH (p + 4) H2 Hu), be_word_digits by done. unfold mret, reader_ret.
    do 2 f_equal. lia.
Qed.

Lemma read_be_half_words_holds c p hs :
  holds c p (hs ≫= be_digits 2) → Forall (λ h, 0 <= h < 2 ^ 16) hs →
  read_be_half_words (length hs) (Stream c p) = (inr hs, Stream c (p + 2 * Z.of_nat (length hs))).
Proof.
  revert p. induction hs as [|w ws IH]; intros p Hh Hu; cbn [length read_be_half_words].
  - do 2 f_equal. lia.
  - apply Forall_cons in Hu as [Hw Hu]. cbn [mbind list_bind] in Hh.
    apply holds_app in Hh as [H1 H2]. rewrite be_digits_length in H2.
    pose proof (fread_holds c p _ H1 ltac:(done)) as Hr. rewrite be_digits_length in Hr.
    change (Z.of_nat 2) with 2 in *. rewrite Hr. unfold mbind, reader_bind.
    rewrite (IH (p + 2) H2 Hu), be_half_digits by done. unfold mret, reader_ret.
    do 2 f_equal. lia.
Qed.

(** ** The header *)

(** The layout of a header, and the headers the loader accepts. *)
Definition ehdr_bytes (h : ehdr) : list Z :=
  e_ident h ++ ([e_type h; e_machine h] ≫= be_digits 2) ++
  ([e_version h; e_entry h; e_phoff h; e_shoff h; e_flags h] ≫= be_digits 4) ++
  ([e_ehsize h; e_phentsize h; e_phnum h; e_shentsize h; e_shnum h; e_shstrndx h] ≫= be_digits 2).

Record ehdr_ok (h : ehdr) : Prop := {
  ident_length : length (e_ident h) = 16%nat;
  ident_magic : take 4 (e_ident h) = [0x7F; 69; 76; 70];
  ident_class : nth EI_CLASS (e_ident h) 0 = ELFCLASS32;
  ident_data : nth EI_DATA (e_ident h) 0 = ELFDATA2MSB;
  ehdr_type : e_type h = ET_EXEC;
  ehdr_machine : e_machine h = EM_MIPS;
  ehdr_words : Forall u32 [e_version h; e_entry h; e_phoff h; e_shoff h; e_flags h];
  ehdr_halves : Forall (λ v, 0 <= v < 2 ^ 16)
    [e_ehsize h; e_phentsize h; e_phnum h; e_shentsize h; e_shnum h; e_shstrndx h] }.

Lemma reader_bind_inr {A B} (r : reader A) (k : A → reader B) st a st' :
  r st = (inr a, st') → (r ≫= k) st = k a st'.
Proof. intros Hr. unfold mbind, reader_bind. by rewrite Hr. Qed.

Lemma reader_bind_inl {A B} (r : reader A) (k : A → reader B) st e st' :
  r st = (inl e, st') → (r ≫= k) st = (inl e, st').
Proof. intros Hr. unfold mbind, reader_bind. by rewrite Hr. Qed.

Lemma check_true b retval st : b = true → check b retval st = (inr tt, st).
Proof. by intros ->. Qed.

Lemma read_elf_ident_holds c p ident :
  holds c p ident → length ident = 16%nat → take 4 ident = [0x7F; 69; 76; 70] →
  nth EI_CLASS ident 0 = ELFCLASS32 → nth EI_DATA ident 0 = ELFDATA2MSB →
  read_elf_ident (Stream c p) = (inr ident, Stream c (p + 16)).
Proof.
  intros Hh Hl Hm Hc Hd. unfold read_elf_ident.
  pose proof (fread_holds c p ident Hh) as Hr. rewrite Hl in Hr.
  change (Z.of_nat 16) with EI_NIDENT in Hr. rewrite Hr by by intros ->.
  unfold check_magic_number, check_elf_class_32, check_data_encoding.
  rewrite (reader_bind_inr _ _ _ tt _ (check_true _ _ _ (bool_decide_eq_true_2 _ Hm))).
  rewrite (reader_bind_inr _ _ _ tt _ (check_true _ _ _ (proj2 (Z.eqb_eq _ _) Hc))).
  by rewrite (reader_bind_inr _ _ _ tt _ (check_true _ _ _ (proj2 (Z.eqb_eq _ _) Hd))).
Qed.

Lemma read_ehdr_roundtrip_at c p h :
  ehdr_ok h → holds c p (ehdr_bytes h) →
  read_ehdr (Stream c p) = (inr h, Stream c (p + 52)).
Proof.
  intros [Hl Hm Hc Hd Ht Hma Hw Hh] Hc0. unfold ehdr_bytes in Hc0.
  apply holds_app in Hc0 as [H1 Hc0]. rewrite Hl in Hc0.
  apply holds_app in Hc0 as [H2 Hc0]. apply holds_app in Hc0 as [H3 H4].
  unfold read_ehdr. rewrite (reader_bind_inr _ _ _ _ _ (read_elf_ident_holds c p _ H1 Hl Hm Hc Hd)).
  assert (read_type_and_machine (Stream c (p + 16)) =
    (inr (e_type h, e_machine h), Stream c (p + 20))) as Htm.
  { unfold read_type_and_machine.
    rewrite (reader_bind_inr _ _ _ _ _ (read_be_half_words_holds c (p + 16) _ H2
      ltac:(rewrite Ht, Hma; repeat constructor; vm_compute; congruence))).
    cbn [nth]. unfold check_type, check_machine. rewrite Ht, Hma.
    change (Z.of_nat (length _)) with 2. by replace (p + 16 + 2 * 2) with (p + 20) by lia. }
  rewrite (reader_bind_inr _ _ _ _ _ Htm).
  change (p + Z.of_nat 16 + Z.of_nat (length ([e_type h; e_machine h] ≫= be_digits 2)))
    with (p + 16 + 4) in *. replace (p + 16 + 4) with (p + 20) in * by lia.
  rewrite (reader_bind_inr _ _ _ _ _ (read_be_words_holds c (p + 20) _ H3 Hw)).
  change (Z.of_nat (length ([e_version h; _; _; _; _] ≫= be_digits 4))) with 20 in H4.
  cbn [length]. change (4 * Z.of_nat 5) with 20.
  rewrite (reader_bind_inr _ _ _ _ _ (read_be_half_words_holds c _ _ H4 Hh)).
  cbn [length nth]. change (2 * Z.of_nat 6) with 12. unfold mret, reader_ret.
  replace (p + 20 + 20 + 12) with (p + 52) by lia. by destruct h.
Qed.

(** The header reader inverts the header layout: from a stream that holds an
    accepted header's 52 bytes, in big-endian order, [read_ehdr] returns that header
    and leaves the stream behind them. *)
Theorem read_ehdr_roundtrip c p h :
  ehdr_ok h → holds c p (ehdr_bytes h) →
  read_ehdr (Stream c p) = (inr h, Stream c (p + 52)).
Proof. apply read_ehdr_roundtrip_at. Qed.

(** The header of a big-endian 32-bit MIPS executable with one program header. *)
Definition example_ehdr : ehdr :=
  Ehdr ([0x7F; 69; 76; 70; 1; 2; 1] ++ replicate 9 0) 2 8 1 0x80000000 52 0 0 52 32 1 0 0 0.

Lemma example_ehdr_ok : ehdr_ok example_ehdr.
Proof. split; try reflexivity; repeat constructor; vm_compute; congruence. Qed.

Lemma holds_prefix bs rest : holds (bs ++ rest) 0 bs.
Proof. split; [done|]. cbn. apply take_app_length. Qed.

Lemma read_ehdr_roundtrip_witness :
  read_ehdr (Stream (ehdr_bytes example_ehdr ++ [1; 2; 3]) 0) =
    (inr example_ehdr, Stream (ehdr_bytes example_ehdr ++ [1; 2; 3]) 52).
Proof. exact (read_ehdr_roundtrip _ 0 _ example_ehdr_ok (holds_prefix _ _)). Defined.

(** ** Loading *)

Definition phdr_words (ph : p_header) : list Z :=
  [p_type ph; p_offset ph; p_vaddr ph; p_paddr ph; p_filesz ph; p_memsz ph].

(** The host address of a segment. *)
Definition segment_start (m : mmu_t) (ph : p_header) : option Z :=
  translate_paddr (translate_vaddr (p_vaddr ph)) m.

Definition segment_bytes (file : list Z) (ph : p_header) : list Z :=
  take (Z.to_nat (p_filesz ph)) (drop (Z.to_nat (p_offset ph)) file).

(** The specification: the segment's memory is cleared, then holds its file bytes. *)
Definition load_segment (file : list Z) (m : mmu_t) (ph : p_header) : mmu_t :=
  match segment_start m ph with
  | Some off =>
    if p_type ph =? PT_LOAD then
      m <| pmem := bytes_put
        (filter (λ kb : Z * Z, kb.1 < off ∨ off + p_memsz ph <= kb.1) (pmem m)) off
        (segment_bytes file ph) |>
    else m
  | None => m
  end.

(** A segment that is skipped, or that lies within the file and, zeroed part included,
    within the memory. *)
Definition loadable (file : list Z) (m : mmu_t) (ph : p_header) : Prop :=
  Forall u32 (phdr_words ph) ∧
  (one_of (p_type ph) [PT_NULL; PT_NOTE; PT_MIPS_ABIFLAGS] = true ∨
   (p_type ph = PT_LOAD ∧ 0 < p_filesz ph <= p_memsz ph ∧
    p_offset ph + p_filesz ph <= Z.of_nat (length file) ∧
    ∃ off, segment_start m ph = Some off ∧ 0 <= off ∧ off + p_memsz ph <= pmem_len m)).

(** Loading changes the bytes of memory only. *)
Lemma load_segment_geometry file m ph :
  ∃ p, load_segment file m ph = m <| pmem := p |>.
Proof.
  unfold load_segment. destruct (segment_start m ph); [|by exists (pmem m); destruct m].
  destruct (_ =? _); [by eexists|by exists (pmem m); destruct m].
Qed.

Lemma loadable_load file m ph ph' : loadable file m ph' → loadable file (load_segment file m ph) ph'.
Proof. by destruct (load_segment_geometry file m ph) as [p ->]. Qed.

Lemma segment_bytes_length file ph :
  0 <= p_filesz ph → 0 <= p_offset ph → p_offset ph + p_filesz ph <= Z.of_nat (length file) →
  Z.of_nat (length (segment_bytes file ph)) = p_filesz ph.
Proof. intros. unfold segment_bytes. rewrite length_take, length_drop. lia. Qed.

Lemma copy_segment_loads file p m ph :
  loadable file m ph → p_type ph = PT_LOAD →
  copy_segment ph (Stream file p) m =
    Ret (0, Stream file (p_offset ph + p_filesz ph), load_segment file m ph).
Proof.
  intros [Hu [Hs|(_ & Hsz & Hf & off & Ho & H0 & Hl)]] Ht.
  { by rewrite Ht in Hs. }
  assert (0 <= p_offset ph) as Hp by (inversion_clear Hu as [|? ? _ Hu']; inversion_clear Hu'; unfold u32 in *; lia).
  pose proof (segment_bytes_length file ph ltac:(lia) Hp Hf) as Hb.
  unfold copy_segment, load_segment. unfold segment_start in Ho |- *. rewrite Ho, Ht.
  unfold memset_zero. rewrite (proj2 (Z.eqb_neq _ _)) by lia. cbn [deref mbind outcome_bind].
  rewrite (proj2 (Z.leb_le 0 off)), (proj2 (Z.leb_le _ (pmem_len m))) by lia. cbn [andb mbind outcome_bind].
  set (m1 := m <| pmem := filter _ (pmem m) |>). unfold fseek.
  rewrite (proj2 (Z.ltb_ge _ _) Hp). cbn [contents].
  assert (holds file (p_offset ph) (segment_bytes file ph)) as Hh.
  { split; [done|]. unfold segment_bytes. f_equal. rewrite length_take, length_drop. lia. }
  pose proof (fread_holds file (p_offset ph) _ Hh) as Hr. rewrite Hb in Hr.
  destruct (segment_bytes file ph) as [|b bs] eqn:E; [cbn in Hb; lia|]. rewrite <-E in *.
  rewrite Hr by by rewrite E. unfold store_bytes. rewrite E at 1. cbn [deref mbind outcome_bind].
  rewrite pmem_store_bytes_in_range; [|lia|].
  - rewrite Z.eqb_refl. done.
  - rewrite Hb. change (pmem_len m1) with (pmem_len m). lia.
Qed.

(** The program headers of the file. *)
Definition phdr_table (file : list Z) (h : ehdr) (phs : list p_header) : Prop :=
  e_phnum h = Z.of_nat (length phs) ∧
  ∀ i ph, phs !! i = Some ph →
    holds file (e_phoff h + Z.of_nat i * e_phentsize h) (phdr_words ph ≫= be_digits 4).

Lemma copy_cur_segment_loads file h p m ph :
  0 <= p → 0 <= e_phentsize h → holds file p (phdr_words ph ≫= be_digits 4) → loadable file m ph →
  copy_cur_segment h (Stream file p) m =
    Ret (0, Stream file (p + e_phentsize h), load_segment file m ph).
Proof.
  intros Hp He Hh Hl. unfold copy_cur_segment. cbn [position].
  assert (∃ p', copy_cur_segment_aux (Stream file p) m =
    Ret (0, Stream file p', load_segment file m ph)) as [p' ->].
  { unfold copy_cur_segment_aux.
    pose proof (read_be_words_holds file p _ Hh (proj1 Hl)) as Hr. cbn [length phdr_words] in Hr.
    rewrite Hr. cbn [nth phdr_words]. cbv zeta. pose proof Hl as [_ [Hs|(Ht & _)]].
    - cbn [p_type]. rewrite Hs. eexists. do 2 f_equal. unfold load_segment.
      destruct (segment_start m ph); [|done]. replace (p_type ph =? PT_LOAD) with false; [done|].
      symmetry. apply Z.eqb_neq. intros E. by rewrite E in Hs.
    - cbn [p_type]. rewrite Ht. cbn [one_of existsb Z.eqb Pos.eqb orb PT_NULL PT_LOAD].
      rewrite <-Ht. replace (Phdr _ _ _ _ _ _) with ph by by destruct ph.
      eexists. by apply copy_segment_loads. }
  cbn [mbind outcome_bind]. unfold fseek. cbn [contents].
  by rewrite (proj2 (Z.ltb_ge (p + e_phentsize h) 0)) by lia.
Qed.

Lemma copy_segments_loads file h p m phs :
  0 <= p → 0 <= e_phentsize h →
  (∀ i ph, phs !! i = Some ph → holds file (p + Z.of_nat i * e_phentsize h)
     (phdr_words ph ≫= be_digits 4)) →
  Forall (loadable file m) phs →
  ∃ st, copy_segments (length phs) h (Stream file p) m =
    Ret (0, st, foldl (load_segment file) m phs).
Proof.
  intros Hp He. revert p m Hp. induction phs as [|ph phs IH]; intros p m Hp Hh Hl; [by eexists|].
  apply Forall_cons in Hl as [Hl Hls]. cbn [length copy_segments foldl].
  rewrite copy_cur_segment_loads with (ph := ph);
    [|done|done|specialize (Hh 0%nat ph eq_refl); by rewrite Z.mul_0_l, Z.add_0_r in Hh|done].
  cbn [mbind outcome_bind Z.eqb]. apply IH; [lia| |].
  - intros i ph' Hi. specialize (Hh (S i) ph' Hi).
    by replace (p + e_phentsize h + Z.of_nat i * e_phentsize h)
      with (p + Z.of_nat (S i) * e_phentsize h) by lia.
  - eapply Forall_impl; [exact Hls|]. intros ph' Hph. by apply loadable_load.
Qed.

Lemma elf_open_roundtrip file h :
  ehdr_ok h → holds file 0 (ehdr_bytes h) → ∃ st, elf_open (Some file) = (inr h, st) ∧ contents st = file.
Proof.
  intros Hok Hh. unfold elf_open. rewrite (read_ehdr_roundtrip_at file 0 h Hok Hh). by eexists.
Qed.

Lemma copy_all_segments_loads file h phs m st :
  ehdr_ok h → contents st = file → phdr_table file h phs → Forall (loadable file m) phs →
  ∃ st', copy_all_segments h st m = Ret (0, st', foldl (load_segment file) m phs).
Proof.
  intros Hok Hc [Hn Ht] Hl.
  pose proof (ehdr_words _ Hok) as Hw. pose proof (ehdr_halves _ Hok) as Hv.
  assert (0 <= e_phoff h ∧ 0 <= e_phentsize h) as [Hp He].
  { rewrite !Forall_cons in Hw, Hv. unfold u32 in Hw. lia. }
  unfold copy_all_segments, fseek. rewrite (proj2 (Z.ltb_ge _ _) Hp), Hc, Hn, Nat2Z.id.
  exact (copy_segments_loads file h (e_phoff h) m phs Hp He Ht Hl).
Qed.

(** C16: the loader refines its specification: a file that holds an accepted header and a
    table of program headers, each skipped or loadable, makes [elf_dump] return the
    status of [fclose] with the entry point of the header and the memory in which the segments have been loaded
    in table order. *)
Theorem elf_dump_loads file h phs fclose_ok entry m :
  ehdr_ok h → holds file 0 (ehdr_bytes h) → phdr_table file h phs → Forall (loadable file m) phs →
  elf_dump (Some file) fclose_ok entry m =
    Ret (elf_close fclose_ok, e_entry h, foldl (load_segment file) m phs).
Proof.
  intros Hok Hh Ht Hl. unfold elf_dump. destruct (elf_open_roundtrip file h Hok Hh) as (st & -> & Hc).
  destruct (copy_all_segments_loads file h phs m st Hok Hc Ht Hl) as [st' ->]. done.
Qed.

(** A file with one loadable segment: [body] at 0x80000000. *)
Definition example_phdr (n memsz : Z) : p_header := Phdr PT_LOAD 84 0x80000000 0x80000000 n memsz.
Definition example_file (body : list Z) (memsz : Z) : list Z :=
  ehdr_bytes example_ehdr ++ (phdr_words (example_phdr (Z.of_nat (length body)) memsz) ≫= be_digits 4) ++
  replicate 8 0 ++ body.

Lemma example_loadable : loadable (example_file [1; 2; 3; 4] 8) small_mmu (example_phdr 4 8).
Proof.
  split; [repeat constructor; vm_compute; congruence|].
  right. split; [done|]. split; [vm_compute; split; congruence|].
  split; [vm_compute; congruence|]. exists 0. repeat split; vm_compute; congruence.
Qed.

Lemma elf_dump_loads_witness :
  elf_dump (Some (example_file [1; 2; 3; 4] 8)) true 0 small_mmu =
    Ret (0, 0x80000000, load_segment (example_file [1; 2; 3; 4] 8) small_mmu (example_phdr 4 8)).
Proof.
  apply (elf_dump_loads (example_file [1; 2; 3; 4] 8) example_ehdr [example_phdr 4 8] true 0 small_mmu
    example_ehdr_ok (holds_prefix _ _)).
  - split; [reflexivity|]. intros [|i] ph; [|done]. intros [= <-]. split; [done|]. vm_compute. reflexivity.
  - constructor; [exact example_loadable|constructor].
Defined.






(** ** Headers the loader rejects *)

Definition slice (c : list Z) (p n : Z) : list Z := take (Z.to_nat n) (drop (Z.to_nat p) c).

Lemma fread_cases c p n :
  0 <= p → 0 < n →
  fread (Stream c p) n =
    if p + n <=? Z.of_nat (length c) then (slice c p n, true, Stream c (p + n))
    else (drop (Z.to_nat p) c, false, Stream c (Z.max p (Z.of_nat (length c)))).
Proof.
  intros Hp Hn. unfold fread, slice. cbn [contents position]. rewrite (proj2 (Z.ltb_lt 0 n)) by lia.
  cbn [andb]. destruct (Z.leb_spec (p + n) (Z.of_nat (length c))).
  - rewrite Z.min_l, (proj2 (Z.leb_le _ _)) by lia. done.
  - rewrite Z.min_r, (proj2 (Z.leb_gt _ _)) by lia. rewrite take_ge by (rewrite length_drop; lia).
    do 2 f_equal. lia.
Qed.

(** The numbers at [p], [p + size], ... *)
Definition words_at (c : list Z) (p : Z) (n : nat) : list Z :=
  (λ i, be_word (slice c (p + 4 * Z.of_nat i) 4)) <$> seq 0 n.
Definition halves_at (c : list Z) (p : Z) (n : nat) : list Z :=
  (λ i, be_half (slice c (p + 2 * Z.of_nat i) 2)) <$> seq 0 n.

Lemma fmap_seq_S {A} (f : nat → A) n : f <$> seq 0 (S n) = f 0%nat :: ((λ i, f (S i)) <$> seq 0 n).
Proof. cbn [seq fmap list_fmap]. by rewrite <-seq_shift, <-list_fmap_compose. Qed.

Lemma read_be_words_cases n c p :
  0 <= p →
  if p + 4 * Z.of_nat n <=? Z.of_nat (length c) then
    read_be_words n (Stream c p) = (inr (words_at c p n), Stream c (p + 4 * Z.of_nat n))
  else
    (read_be_words n (Stream c p)).1 = inl ELF_ERROR_IO_ERROR ∨ n = 0%nat.
Proof.
  revert p. induction n as [|n IH]; intros p Hp.
  - destruct (_ <=? _); [|by right]. cbn. do 2 f_equal. lia.
  - specialize (IH (p + 4) ltac:(lia)). cbn [read_be_words]. rewrite fread_cases by lia.
    replace (p + 4 + 4 * Z.of_nat n) with (p + 4 * Z.of_nat (S n)) in IH by lia.
    destruct (Z.leb_spec (p + 4) (Z.of_nat (length c))).
    + destruct (Z.leb_spec (p + 4 * Z.of_nat (S n)) (Z.of_nat (length c))).
      * rewrite (reader_bind_inr _ _ _ _ _ IH). unfold mret, reader_ret, words_at.
        rewrite fmap_seq_S. do 3 f_equal; [do 2 f_equal; lia|].
        apply list_fmap_ext. intros ? i _. do 2 f_equal. lia.
      * destruct IH as [IH|E0]; [|lia]. left. destruct (read_be_words n (Stream c (p + 4))) as [r st] eqn:E.
        cbn [fst] in IH. subst r. by rewrite (reader_bind_inl _ _ _ _ _ E).
    + rewrite (proj2 (Z.leb_gt _ _)) by lia. by left.
Qed.

Lemma read_be_half_words_cases n c p :
  0 <= p →
  if p + 2 * Z.of_nat n <=? Z.of_nat (length c) then
    read_be_half_words n (Stream c p) = (inr (halves_at c p n), Stream c (p + 2 * Z.of_nat n))
  else
    (read_be_half_words n (Stream c p)).1 = inl ELF_ERROR_IO_ERROR ∨ n = 0%nat.
Proof.
  revert p. induction n as [|n IH]; intros p Hp.
  - destruct (_ <=? _); [|by right]. cbn. do 2 f_equal. lia.
  - specialize (IH (p + 2) ltac:(lia)). cbn [read_be_half_words]. rewrite fread_cases by lia.
    replace (p + 2 + 2 * Z.of_nat n) with (p + 2 * Z.of_nat (S n)) in IH by lia.
    destruct (Z.leb_spec (p + 2) (Z.of_nat (length c))).
    + destruct (Z.leb_spec (p + 2 * Z.of_nat (S n)) (Z.of_nat (length c))).
      * rewrite (reader_bind_inr _ _ _ _ _ IH). unfold mret, reader_ret, halves_at.
        rewrite fmap_seq_S. do 3 f_equal; [do 2 f_equal; lia|].
        apply list_fmap_ext. intros ? i _. do 2 f_equal. lia.
      * destruct IH as [IH|E0]; [|lia]. left.
        destruct (read_be_half_words n (Stream c (p + 2))) as [r st] eqn:E.
        cbn [fst] in IH. subst r. by rewrite (reader_bind_inl _ _ _ _ _ E).
    + rewrite (proj2 (Z.leb_gt _ _)) by lia. by left.
Qed.

(** What the loader makes of the header of a file, read off the bytes. *)
Definition ehdr_verdict (c : list Z) : Z + ehdr :=
  let len := Z.of_nat (length c) in
  let ident := slice c 0 16 in
  let hs := halves_at c 16 2 in
  let ws := words_at c 20 5 in
  let ts := halves_at c 40 6 in
  if len <? 16 then inl ELF_ERROR_IO_ERROR
  else if negb (bool_decide (slice c 0 4 = [0x7F; 69; 76; 70])) then inl ELF_ERROR_NOT_ELF
  else if negb ((nth 4 c 0 =? 1) && (nth 5 c 0 =? 2)) then inl ELF_ERROR_NOT_SUPPORTED
  else if len <? 20 then inl ELF_ERROR_IO_ERROR
  else if negb ((nth 0 hs 0 =? 2) && (nth 1 hs 0 =? 8)) then inl ELF_ERROR_NOT_SUPPORTED
  else if len <? 52 then inl ELF_ERROR_IO_ERROR
  else inr (Ehdr ident 2 8 (nth 0 ws 0) (nth 1 ws 0) (nth 2 ws 0) (nth 3 ws 0) (nth 4 ws 0)
    (nth 0 ts 0) (nth 1 ts 0) (nth 2 ts 0) (nth 3 ts 0) (nth 4 ts 0) (nth 5 ts 0)).

Lemma nth_slice c n i : (i < Z.to_nat n)%nat → nth i (slice c 0 n) 0 = nth i c 0.
Proof. intros Hi. unfold slice. rewrite drop_0, !nth_lookup, lookup_take_lt by done. done. Qed.

Lemma take_slice c n k : (n <= Z.to_nat k)%nat → take n (slice c 0 k) = slice c 0 (Z.of_nat n).
Proof. intros Hn. unfold slice. rewrite drop_0, take_take, Nat.min_l, Nat2Z.id by done. done. Qed.

Lemma read_elf_ident_cases c :
  (∃ st, read_elf_ident (Stream c 0) =
    (if Z.of_nat (length c) <? 16 then inl ELF_ERROR_IO_ERROR
     else if negb (bool_decide (slice c 0 4 = [0x7F; 69; 76; 70])) then inl ELF_ERROR_NOT_ELF
     else if negb ((nth 4 c 0 =? 1) && (nth 5 c 0 =? 2)) then inl ELF_ERROR_NOT_SUPPORTED
     else inr (slice c 0 16), st) ∧ (16 <= Z.of_nat (length c) → st = Stream c 16)).
Proof.
  unfold read_elf_ident. rewrite fread_cases by (unfold EI_NIDENT; lia). unfold EI_NIDENT.
  destruct (Z.leb_spec (0 + 16) (Z.of_nat (length c))).
  - rewrite (proj2 (Z.ltb_ge _ _)) by lia. exists (Stream c 16). split; [|done].
    unfold check_magic_number, check_elf_class_32, check_data_encoding, check, EI_CLASS, EI_DATA,
      ELFCLASS32, ELFDATA2MSB.
    rewrite take_slice, !nth_slice by lia. change (Z.of_nat 4) with 4.
    destruct (bool_decide _); [|done]. cbn [negb].
    destruct (nth 4 c 0 =? 1); [|done]. destruct (nth 5 c 0 =? 2); done.
  - rewrite (proj2 (Z.ltb_lt _ _)) by lia. eexists. split; [done|lia].
Qed.

Lemma read_type_and_machine_cases c :
  16 <= Z.of_nat (length c) →
  ∃ st, read_type_and_machine (Stream c 16) =
    (if Z.of_nat (length c) <? 20 then inl ELF_ERROR_IO_ERROR
     else if negb ((nth 0 (halves_at c 16 2) 0 =? 2) && (nth 1 (halves_at c 16 2) 0 =? 8))
     then inl ELF_ERROR_NOT_SUPPORTED
     else inr (2, 8), st) ∧ (20 <= Z.of_nat (length c) → st = Stream c 20).
Proof.
  intros Hl. pose proof (read_be_half_words_cases 2 c 16 ltac:(lia)) as Hr.
  change (16 + 2 * Z.of_nat 2) with 20 in Hr.
  destruct (Z.leb_spec 20 (Z.of_nat (length c))).
  - rewrite (proj2 (Z.ltb_ge _ _)) by lia. exists (Stream c 20). split; [|done].
    unfold read_type_and_machine. rewrite (reader_bind_inr _ _ _ _ _ Hr).
    unfold check_type, check_machine, check, ET_EXEC, EM_MIPS.
    destruct (Z.eqb_spec (nth 0 (halves_at c 16 2) 0) 2) as [->|]; [|done].
    destruct (Z.eqb_spec (nth 1 (halves_at c 16 2) 0) 8) as [->|]; done.
  - rewrite (proj2 (Z.ltb_lt _ _)) by lia. destruct Hr as [Hr|]; [|done].
    destruct (read_be_half_words 2 (Stream c 16)) as [r st] eqn:E. cbn [fst] in Hr. subst r.
    exists st. split; [|lia]. unfold read_type_and_machine. by rewrite (reader_bind_inl _ _ _ _ _ E).
Qed.

(** A reader that runs out of file inside one of two blocks of numbers. *)
Lemma read_numbers_cases {A} c (f : list Z → list Z → A) :
  20 <= Z.of_nat (length c) →
  ((ws ← read_be_words 5; hs ← read_be_half_words 6; mret (f ws hs)) (Stream c 20)).1 =
    if Z.of_nat (length c) <? 52 then inl ELF_ERROR_IO_ERROR
    else inr (f (words_at c 20 5) (halves_at c 40 6)).
Proof.
  intros Hl. pose proof (read_be_words_cases 5 c 20 ltac:(lia)) as Hw.
  pose proof (read_be_half_words_cases 6 c 40 ltac:(lia)) as Hh.
  change (20 + 4 * Z.of_nat 5) with 40 in Hw. change (40 + 2 * Z.of_nat 6) with 52 in Hh.
  destruct (Z.leb_spec 40 (Z.of_nat (length c))).
  - rewrite (reader_bind_inr _ _ _ _ _ Hw).
    destruct (Z.leb_spec 52 (Z.of_nat (length c))), (Z.ltb_spec (Z.of_nat (length c)) 52); try lia.
    + by rewrite (reader_bind_inr _ _ _ _ _ Hh).
    + destruct Hh as [Hh|]; [|done]. destruct (read_be_half_words 6 _) as [r st] eqn:E.
      cbn [fst] in Hh. subst r. by rewrite (reader_bind_inl _ _ _ _ _ E).
  - rewrite (proj2 (Z.ltb_lt _ _)) by lia. destruct Hw as [Hw|]; [|done].
    destruct (read_be_words 5 _) as [r st] eqn:E.
    cbn [fst] in Hw. subst r. by rewrite (reader_bind_inl _ _ _ _ _ E).
Qed.

Lemma read_ehdr_cases c : (read_ehdr (Stream c 0)).1 = ehdr_verdict c.
Proof.
  unfold read_ehdr, ehdr_verdict.
  destruct (read_elf_ident_cases c) as (st & Hi & Hst). revert Hi.
  destruct (Z.ltb_spec (Z.of_nat (length c)) 16); intros Hi; [by rewrite (reader_bind_inl _ _ _ _ _ Hi)|].
  destruct (negb _); [by rewrite (reader_bind_inl _ _ _ _ _ Hi)|].
  destruct (negb _); [by rewrite (reader_bind_inl _ _ _ _ _ Hi)|].
  rewrite (reader_bind_inr _ _ _ _ _ Hi), Hst by done.
  destruct (read_type_and_machine_cases c ltac:(done)) as (st' & Ht & Hst'). revert Ht.
  destruct (Z.ltb_spec (Z.of_nat (length c)) 20); intros Ht; [by rewrite (reader_bind_inl _ _ _ _ _ Ht)|].
  destruct (negb _); [by rewrite (reader_bind_inl _ _ _ _ _ Ht)|].
  rewrite (reader_bind_inr _ _ _ _ _ Ht), Hst' by done.
  exact (read_numbers_cases c (λ ws hs, Ehdr (slice c 0 16) 2 8 (nth 0 ws 0) (nth 1 ws 0) (nth 2 ws 0)
    (nth 3 ws 0) (nth 4 ws 0) (nth 0 hs 0) (nth 1 hs 0) (nth 2 hs 0) (nth 3 hs 0) (nth 4 hs 0)
    (nth 5 hs 0)) ltac:(done)).
Qed.

(** The stream at the end of the header, and what [elf_dump] does with the verdict. *)
Lemma elf_open_cases c : ∃ st, elf_open (Some c) = (ehdr_verdict c, st).
Proof.
  unfold elf_open. rewrite <-read_ehdr_cases. destruct (read_ehdr (Stream c 0)) as [r st]. by exists st.
Qed.

(** C37: the loader accepts exactly the headers of 32-bit big-endian MIPS executables: on
    every file [elf_open] gives the error code of the first defect - short file, magic
    number, class and byte order, type and machine - or the header the bytes spell; and
    with a defect [elf_dump] returns that code and changes nothing. *)
Theorem read_ehdr_verdict c fclose_ok entry m :
  (elf_open (Some c)).1 = ehdr_verdict c ∧
  match ehdr_verdict c with
  | inl e => elf_dump (Some c) fclose_ok entry m = Ret (e, entry, m)
  | inr _ => True
  end.
Proof.
  unfold elf_dump. destruct (elf_open_cases c) as [st ->]. split; [done|].
  by destruct (ehdr_verdict c).
Qed.

(** ** What the loader can do *)

(** An outcome of the loader: a value, or an access through a null pointer or outside the
    memory; never the end of the process. *)
Definition loader_outcome {A} (P : A → Prop) (o : outcome A) : Prop :=
  match o with
  | Ret a => P a
  | Exit _ => False
  | Crash f => f = NullDeref ∨ f = OutOfBounds
  end.

Lemma loader_outcome_bind {A B} (P : A → Prop) (Q : B → Prop) (o : outcome A) (k : A → outcome B) :
  loader_outcome P o → (∀ a, P a → loader_outcome Q (k a)) → loader_outcome Q (o ≫= k).
Proof. destruct o; cbn; auto. Qed.

Lemma deref_outcome p : loader_outcome (λ _, True) (deref p).
Proof. destruct p; cbn; auto. Qed.

(** The memory is sound and only its bytes have changed. *)
Definition same_machine (m m' : mmu_t) : Prop := mmu_ok m' ∧ ∃ p, m' = m <| pmem := p |>.

Lemma same_machine_refl m : mmu_ok m → same_machine m m.
Proof. split; [done|]. exists (pmem m). by destruct m. Qed.

Lemma same_machine_trans m m1 m2 : same_machine m m1 → same_machine m1 m2 → same_machine m m2.
Proof. intros [_ [p ->]] [Hok [p' ->]]. split; [done|by exists p']. Qed.

Lemma memset_zero_safe seg n m : mmu_ok m → loader_outcome (same_machine m) (memset_zero seg n m).
Proof.
  intros Hm. unfold memset_zero. destruct (n =? 0); [by apply same_machine_refl|].
  eapply loader_outcome_bind; [apply deref_outcome|]. intros off _.
  destruct (_ && _); [|by right]. split; [|by eexists].
  destruct Hm as [Hs [] Hb Ha Hd]. split; cbn; try done.
  intros k b Hk. apply map_lookup_filter_Some in Hk as [Hk _]. exact (Hb k b Hk).
Qed.

Lemma pmem_store_bytes_safe m off bs :
  mmu_ok m → Forall u8 bs → loader_outcome (same_machine m) (pmem_store_bytes m off bs).
Proof.
  intros Hm Hb. revert m off Hm. induction Hb as [|b bs Hb _ IH]; intros m off Hm; cbn [pmem_store_bytes].
  { by apply same_machine_refl. }
  unfold pmem_store. destruct (_ && _); [|by right]. cbn [mbind outcome_bind].
  assert (same_machine m (m <| pmem := <[off := b]> (pmem m) |>)) as Hs.
  { split; [|by eexists]. apply (mmu_ok_put m off [b] Hm); by apply Forall_singleton. }
  specialize (IH _ (off + 1) (proj1 Hs)). destruct (pmem_store_bytes _ _ bs); [|done..].
  by eapply same_machine_trans.
Qed.

(** Bytes read off a file of bytes. *)
Lemma fread_contents st n : contents (fread st n).2 = contents st.
Proof. done. Qed.

Lemma fread_u8 st n : Forall u8 (contents st) → Forall u8 (fread st n).1.1.
Proof. intros Hf. cbn. by apply Forall_take, Forall_drop. Qed.

Lemma read_be_words_contents n st : contents (read_be_words n st).2 = contents st.
Proof.
  revert st. induction n as [|n IH]; intros st; cbn [read_be_words]; [done|].
  destruct (fread st 4) as [[buf full] st'] eqn:E. pose proof (fread_contents st 4) as Hc.
  rewrite E in Hc. cbn [snd] in Hc. destruct full; [|done].
  unfold mbind, reader_bind. rewrite <-Hc, <-(IH st'). by destruct (read_be_words n st') as [[] ?].
Qed.

Lemma store_bytes_safe seg bs m :
  mmu_ok m → Forall u8 bs → loader_outcome (same_machine m) (store_bytes seg bs m).
Proof.
  intros Hm Hb. unfold store_bytes. destruct bs; [by apply same_machine_refl|].
  eapply (loader_outcome_bind (λ _, True)); [apply deref_outcome|]. intros off _. by apply pmem_store_bytes_safe.
Qed.

(** The values the loader's functions return. *)
Definition elf_status (retval : Z) : Prop :=
  retval = 0 ∨ retval = ELF_ERROR_IO_ERROR ∨ retval = ELF_ERROR_NOT_SUPPORTED.

Definition copied (file : list Z) (m : mmu_t) (r : Z * stream_t * mmu_t) : Prop :=
  elf_status r.1.1 ∧ contents r.1.2 = file ∧ same_machine m r.2.

Section Safety.
Context (file : list Z) (file_u8 : Forall u8 file).

Lemma copy_segment_safe phdr st m :
  contents st = file → mmu_ok m → loader_outcome (copied file m) (copy_segment phdr st m).
Proof using file_u8.
  intros Hc Hm. unfold copy_segment. eapply loader_outcome_bind; [by apply memset_zero_safe|].
  intros m1 H1. unfold fseek. destruct (_ <? 0).
  { cbn. split; [unfold elf_status; cbn; auto|by split]. }
  pose proof (fread_contents (Stream (contents st) (p_offset phdr)) (p_filesz phdr)) as Hc'.
  pose proof (fread_u8 (Stream (contents st) (p_offset phdr)) (p_filesz phdr)) as Hu.
  destruct (fread _ _) as [[bs full] st1]. cbn [fst snd contents] in *. rewrite Hc in *.
  eapply loader_outcome_bind; [apply store_bytes_safe; [apply H1|by apply Hu]|].
  intros m2 H2. cbn. split; [destruct full; unfold elf_status; cbn; auto|].
  split; [done|by eapply same_machine_trans].
Qed.

Lemma copy_cur_segment_safe h st m :
  contents st = file → mmu_ok m → loader_outcome (copied file m) (copy_cur_segment h st m).
Proof using file_u8.
  intros Hc Hm. unfold copy_cur_segment.
  apply (loader_outcome_bind (copied file m)).
  - unfold copy_cur_segment_aux. pose proof (read_be_words_contents 6 st) as Hw.
    destruct (read_be_words 6 st) as [[e|ws] st1]; cbn [snd] in Hw; rewrite Hc in Hw.
    { split; [unfold elf_status; cbn; auto|]. by split; [|apply same_machine_refl]. }
    cbv zeta. destruct (one_of _ _).
    { split; [unfold elf_status; cbn; auto|]. by split; [|apply same_machine_refl]. }
    destruct (_ =? _); [by apply copy_segment_safe|].
    split; [unfold elf_status; cbn; auto|]. by split; [|apply same_machine_refl].
  - intros [[r st1] m1] (Hr & Hc1 & Hs). cbn [fst snd] in *. unfold fseek.
    destruct (_ <? 0); cbn; (split; [|split]); try done. unfold elf_status; cbn; auto.
Qed.

Lemma copy_all_segments_safe h st m :
  contents st = file → mmu_ok m → loader_outcome (copied file m) (copy_all_segments h st m).
Proof using file_u8.
  intros Hc Hm. unfold copy_all_segments, fseek. destruct (_ <? 0).
  { split; [unfold elf_status; cbn; auto|]. by split; [|apply same_machine_refl]. }
  cut (∀ n st m, contents st = file → mmu_ok m → loader_outcome (copied file m) (copy_segments n h st m)).
  { intros Hn. by apply Hn. }
  clear st m Hc Hm. induction n as [|n IH]; intros st m Hc Hm; cbn [copy_segments].
  { split; [unfold elf_status; cbn; auto|]. by split; [|apply same_machine_refl]. }
  eapply loader_outcome_bind; [by apply copy_cur_segment_safe|].
  intros [[r st1] m1] (Hr & Hc1 & Hs). cbn [fst snd] in *. destruct (r =? 0); [|done].
  specialize (IH st1 m1 Hc1 (proj1 Hs)). destruct (copy_segments n h st1 m1) as [r2| |]; [|done..].
  destruct IH as (? & ? & ?). split; [done|split; [done|by eapply same_machine_trans]].
Qed.
End Safety.

Lemma read_be_half_words_contents n st : contents (read_be_half_words n st).2 = contents st.
Proof.
  revert st. induction n as [|n IH]; intros st; cbn [read_be_half_words]; [done|].
  destruct (fread st 2) as [[buf full] st'] eqn:E. pose proof (fread_contents st 2) as Hc.
  rewrite E in Hc. cbn [snd] in Hc. destruct full; [|done].
  unfold mbind, reader_bind. rewrite <-Hc, <-(IH st').
  by destruct (read_be_half_words n st') as [[] ?].
Qed.

(** A reader that leaves the file alone. *)
Definition keeps_file {A} (r : reader A) : Prop := ∀ st, contents (r st).2 = contents st.

Lemma keeps_file_bind {A B} (r : reader A) (k : A → reader B) :
  keeps_file r → (∀ a, keeps_file (k a)) → keeps_file (r ≫= k).
Proof.
  intros Hr Hk st. unfold mbind, reader_bind. rewrite <-(Hr st).
  destruct (r st) as [[e|a] st']; [done|apply Hk].
Qed.

Lemma keeps_file_check b retval : keeps_file (check b retval).
Proof. by destruct b. Qed.

Lemma read_elf_ident_contents : keeps_file read_elf_ident.
Proof.
  intros st. unfold read_elf_ident. pose proof (fread_contents st EI_NIDENT) as Hc.
  destruct (fread st EI_NIDENT) as [[buf full] st']. cbn [snd] in Hc. rewrite <-Hc.
  destruct full; [|done]. revert st' Hc. intros st' _.
  by repeat first [apply keeps_file_check | apply keeps_file_bind; [|intros ?]].
Qed.

Lemma read_ehdr_contents : keeps_file read_ehdr.
Proof.
  unfold read_ehdr, read_type_and_machine.
  repeat first
    [ apply read_elf_ident_contents | exact (read_be_words_contents _)
    | exact (read_be_half_words_contents _) | apply keeps_file_check
    | apply keeps_file_bind; [|intros ?] | by intros ?
    | match goal with |- keeps_file (let '(_, _) := ?x in _) => destruct x end ].
Qed.

Lemma ehdr_verdict_range file :
  match ehdr_verdict file with
  | inl e => e = -1 ∨ e = -3 ∨ e = -4
  | inr h => u32 (e_entry h)
  end.
Proof.
  unfold ehdr_verdict. cbv zeta.
  repeat match goal with |- context [if ?b then _ else _] => destruct b; [auto|] end.
  cbn [e_entry]. unfold words_at. cbn [seq fmap list_fmap nth]. apply wrap32_u32.
Qed.

(** On every file the loader changes bytes of memory only, or accesses memory through a
    null pointer or beyond its end. *)
Lemma elf_dump_outcome file fclose_ok entry m :
  Forall u8 file → mmu_ok m →
  loader_outcome (λ r, same_machine m r.2) (elf_dump (Some file) fclose_ok entry m).
Proof.
  intros Hf Hm. unfold elf_dump, elf_open.
  pose proof (read_ehdr_contents (Stream file 0)) as Hc.
  destruct (read_ehdr (Stream file 0)) as [[e|h] st]; [by apply same_machine_refl|].
  eapply loader_outcome_bind; [exact (copy_all_segments_safe file Hf h st m Hc Hm)|].
  intros [[r st1] m1] (_ & _ & Hs). cbn [fst snd] in Hs. by destruct (r =? 0).
Qed.

Lemma elf_open_contents c : contents (elf_open (Some c)).2 = c.
Proof. apply (read_ehdr_contents (Stream c 0)). Qed.
