(* ===== verification/ElfTotal.v ===== *)
(** * The loader on every file (src/elf.c)

    What [elf_dump] does with any file whatever, damaged ones included: a specification on
    the bytes of the file, without streams, and the equality of the two. *)

From S2P Require Import Prelude Mips32 Io Bus Mem MemProps MemTheorems Elf ElfTheorems.

(** ** The specification *)

(** The program header at position [p], if the file has its 24 bytes. *)
Definition row_at (file : list Z) (p : Z) : option p_header :=
  let w k := be_word (slice file (p + 4 * k) 4) in
  if p + 24 <=? Z.of_nat (length file)
  then Some (Phdr (w 0) (w 1) (w 2) (w 3) (w 4) (w 5)) else None.

(** Loading one segment: the bytes the file has of it and the zeros must fit into the
    memory the segment's addresses name; a file that ends early, or a segment without
    bytes in the file, is reported as an error. *)
Definition segment_load (file : list Z) (m : mmu_t) (ph : p_header) : outcome (Z * mmu_t) :=
  let status := if (0 <? p_filesz ph) && (p_offset ph + p_filesz ph <=? Z.of_nat (length file))
                then 0 else ELF_ERROR_IO_ERROR in
  let n := Z.max (p_memsz ph) (Z.of_nat (length (segment_bytes file ph))) in
  if n =? 0 then Ret (status, m)
  else
    match segment_start m ph with
    | None => Crash NullDeref
    | Some off =>
      if (0 <=? off) && (off + n <=? pmem_len m) then Ret (status, load_segment file m ph)
      else Crash OutOfBounds
    end.

(** The [n] program headers from position [p] on, [step] bytes apart: notes are skipped,
    the first defect ends the loading. *)
Fixpoint load_table (file : list Z) (n : nat) (p step : Z) (m : mmu_t) : outcome (Z * mmu_t) :=
  match n with
  | O => Ret (0, m)
  | S n =>
    match row_at file p with
    | None => Ret (ELF_ERROR_IO_ERROR, m)
    | Some ph =>
      if one_of (p_type ph) [PT_NULL; PT_NOTE; PT_MIPS_ABIFLAGS] then load_table file n (p + step) step m
      else if p_type ph =? PT_LOAD then
        '(status, m) ← segment_load file m ph;
        if status =? 0 then load_table file n (p + step) step m else Ret (status, m)
      else Ret (ELF_ERROR_NOT_SUPPORTED, m)
    end
  end.

(** ** One segment *)

Lemma pmem_store_bytes_out m off bs :
  bs ≠ [] → (0 <=? off) && (off + Z.of_nat (length bs) <=? pmem_len m) = false →
  pmem_store_bytes m off bs = Crash OutOfBounds.
Proof.
  revert m off. induction bs as [|b bs IH]; intros m off Hne Hout; [done|].
  cbn [pmem_store_bytes length] in *. unfold pmem_store.
  destruct (Z.leb_spec 0 off), (Z.ltb_spec off (pmem_len m)); cbn [andb] in *; try done.
  apply Z.leb_gt in Hout. cbn [mbind outcome_bind]. apply IH.
  - intros ->. cbn in Hout. lia.
  - apply andb_false_iff. right. apply Z.leb_gt. cbn [pmem_len update]. lia.
Qed.

Lemma clear_nothing (p : gmap Z Z) off : filter (λ kb : Z * Z, kb.1 < off ∨ off + 0 <= kb.1) p = p.
Proof. apply map_filter_id. intros k b _. cbn. lia. Qed.

Lemma fread_segment file ph :
  0 <= p_offset ph → 0 <= p_filesz ph →
  (fread (Stream file (p_offset ph)) (p_filesz ph)).1 =
    (segment_bytes file ph,
     (0 <? p_filesz ph) && (p_offset ph + p_filesz ph <=? Z.of_nat (length file))).
Proof.
  intros Ho Hf. unfold fread, segment_bytes. cbn [contents position fst]. f_equal.
  - destruct (Z.leb_spec (p_filesz ph) (Z.max 0 (Z.of_nat (length file) - p_offset ph))).
    + by rewrite Z.min_l by lia.
    + rewrite Z.min_r, !take_ge by (rewrite ?length_drop; lia). done.
  - case_Z; cbn [andb]; done || lia.
Qed.

Lemma store_bytes_some off bs m : store_bytes (Some off) bs m = pmem_store_bytes m off bs.
Proof. by destruct bs. Qed.

Lemma store_bytes_none bs m :
  store_bytes None bs m = if Z.of_nat (length bs) =? 0 then Ret m else Crash NullDeref.
Proof. by destruct bs. Qed.

(** Copying the file's bytes behind the clearing, whether they fit or not. *)
Lemma segment_copy file m ph off :
  p_type ph = PT_LOAD → segment_start m ph = Some off →
  let bs := segment_bytes file ph in
  store_bytes (Some off) bs
    (m <| pmem := filter (λ kb : Z * Z, kb.1 < off ∨ off + p_memsz ph <= kb.1) (pmem m) |>) =
  if bool_decide (bs = []) || (0 <=? off) && (off + Z.of_nat (length bs) <=? pmem_len m)
  then Ret (load_segment file m ph) else Crash OutOfBounds.
Proof.
  intros Ht Hs. cbv zeta. unfold load_segment. rewrite Hs, Ht. cbn [PT_LOAD Z.eqb Pos.eqb].
  generalize (segment_bytes file ph) as bs. intros bs. rewrite store_bytes_some.
  case_bool_decide as Hb; [by subst|]. cbn [orb].
  destruct ((0 <=? off) && _) eqn:Hin; [|by rewrite pmem_store_bytes_out].
  apply andb_true_iff in Hin as [?%Z.leb_le ?%Z.leb_le].
  by rewrite pmem_store_bytes_in_range by (cbn [pmem_len update]; lia).
Qed.

(** Clearing and copying together. *)
Lemma segment_store file m ph :
  0 <= p_memsz ph → p_type ph = PT_LOAD →
  let bs := segment_bytes file ph in
  let n := Z.max (p_memsz ph) (Z.of_nat (length bs)) in
  (m1 ← memset_zero (segment_start m ph) (p_memsz ph) m; store_bytes (segment_start m ph) bs m1) =
    if n =? 0 then Ret m
    else match segment_start m ph with
         | None => Crash NullDeref
         | Some off => if (0 <=? off) && (off + n <=? pmem_len m) then Ret (load_segment file m ph)
                       else Crash OutOfBounds
         end.
Proof.
  intros Hz Ht bs n. unfold n, memset_zero. pose proof (Nat2Z.is_nonneg (length bs)) as Hlen.
  assert (bs = [] ↔ Z.of_nat (length bs) = 0) as Hnil.
  { clearbody bs. destruct bs; cbn [length]; split; intros; done || lia. }
  destruct (segment_start m ph) as [off|] eqn:Hs.
  2: { destruct (Z.eqb_spec (p_memsz ph) 0) as [E0|E0]; cbn [mbind outcome_bind deref].
       - rewrite store_bytes_none. by rewrite E0, Z.max_r by lia.
       - by rewrite (proj2 (Z.eqb_neq _ _)) by lia. }
  pose proof (segment_copy file m ph off Ht Hs) as Hc. cbv zeta in Hc. fold bs in Hc.
  destruct (Z.eqb_spec (p_memsz ph) 0) as [E0|E0].
  - rewrite E0, clear_nothing in Hc. cbn [mbind outcome_bind].
    assert (m <| pmem := pmem m |> = m) as Em by by destruct m. rewrite Em in Hc. rewrite Hc, E0.
    rewrite Z.max_r by lia. case_bool_decide as Hb.
    + assert (load_segment file m ph = m) as -> by (unfold load_segment; rewrite Hs, Ht;
        cbn [PT_LOAD Z.eqb Pos.eqb]; fold bs; rewrite Hb, E0; cbn [bytes_put]; by rewrite clear_nothing).
      by rewrite (proj1 Hnil Hb).
    + rewrite (proj2 (Z.eqb_neq _ _)) by (intros H; by apply Hb, Hnil). done.
  - rewrite (proj2 (Z.eqb_neq (Z.max _ _) 0)) by lia. cbn [deref mbind outcome_bind].
    destruct ((0 <=? off) && (off + p_memsz ph <=? pmem_len m)) eqn:Hin; cbn [mbind outcome_bind].
    + rewrite Hc. apply andb_true_iff in Hin as [?%Z.leb_le ?%Z.leb_le].
      case_bool_decide as Hb; [apply Hnil in Hb|]; cbn [orb]; case_Z; cbn [andb]; done || lia.
    + destruct (Z.leb_spec 0 off); [|done]. cbn [andb] in *. apply Z.leb_gt in Hin.
      by rewrite (proj2 (Z.leb_gt _ _)) by lia.
Qed.

Lemma copy_segment_total file p m ph :
  Forall u32 (phdr_words ph) → p_type ph = PT_LOAD →
  copy_segment ph (Stream file p) m =
    '(status, m) ← segment_load file m ph;
    Ret (status, (fread (Stream file (p_offset ph)) (p_filesz ph)).2, m).
Proof.
  intros Hu Ht. unfold phdr_words in Hu. rewrite !Forall_cons in Hu. unfold u32 in Hu.
  pose proof (fread_segment file ph ltac:(lia) ltac:(lia)) as Hr.
  pose proof (segment_store file m ph ltac:(lia) Ht) as Hst. cbv zeta in Hst.
  unfold copy_segment, segment_load, fseek. rewrite (proj2 (Z.ltb_ge (p_offset ph) 0)) by lia.
  cbn [contents]. fold (segment_start m ph). destruct (fread _ _) as [[bs full] st] eqn:Ef.
  cbn [fst] in Hr. injection Hr as -> ->. cbn [snd].
  destruct (memset_zero _ _ _) as [m1| |]; cbn [mbind outcome_bind] in *.
  - rewrite Hst. destruct (_ =? 0); [done|]. destruct (segment_start m ph); [|done]. by destruct ((0 <=? _) && _).
  - destruct (_ =? 0); [done|]. destruct (segment_start m ph); [|done]. by destruct ((0 <=? _) && _).
  - destruct (_ =? 0); [done|]. destruct (segment_start m ph); [destruct ((0 <=? _) && _); [done|]|];
      by injection Hst as ->.
Qed.

(** ** The table *)

Lemma row_read file p :
  0 <= p →
  match row_at file p with
  | Some ph => Forall u32 (phdr_words ph) ∧
               read_be_words 6 (Stream file p) = (inr (phdr_words ph), Stream file (p + 24))
  | None => (read_be_words 6 (Stream file p)).1 = inl ELF_ERROR_IO_ERROR
  end.
Proof.
  intros Hp. pose proof (read_be_words_cases 6 file p Hp) as Hr. unfold row_at.
  change (4 * Z.of_nat 6) with 24 in Hr. destruct (_ <=? _).
  - split; [repeat constructor; apply wrap32_u32|]. exact Hr.
  - by destruct Hr.
Qed.

(** One program header, and the stream at the next. *)
Lemma copy_cur_segment_total file h p m :
  0 <= p → 0 <= e_phentsize h →
  copy_cur_segment h (Stream file p) m =
    '(status, m) ← match row_at file p with
                   | None => Ret (ELF_ERROR_IO_ERROR, m)
                   | Some ph =>
                     if one_of (p_type ph) [PT_NULL; PT_NOTE; PT_MIPS_ABIFLAGS] then Ret (0, m)
                     else if p_type ph =? PT_LOAD then segment_load file m ph
                     else Ret (ELF_ERROR_NOT_SUPPORTED, m)
                   end;
    Ret (status, Stream file (p + e_phentsize h), m).
Proof.
  intros Hp He. unfold copy_cur_segment, copy_cur_segment_aux. cbn [position].
  pose proof (row_read file p Hp) as Hr. pose proof (read_be_words_contents 6 (Stream file p)) as Hc.
  unfold fseek. rewrite (proj2 (Z.ltb_ge (p + e_phentsize h) 0)) by lia.
  destruct (read_be_words 6 (Stream file p)) as [r st]. cbn [snd contents fst] in *.
  destruct (row_at file p) as [ph|]; [destruct Hr as [Hu [= -> ->]]|subst r];
    [|cbn [mbind outcome_bind]; by rewrite Hc].
  cbn [phdr_words nth]. cbv zeta. replace (Phdr _ _ _ _ _ _) with ph by by destruct ph.
  destruct (one_of _ _); [done|]. destruct (Z.eqb_spec (p_type ph) PT_LOAD) as [Ht|]; [|done].
  rewrite copy_segment_total by done.
  by destruct (segment_load file m ph) as [[status m1]| |].
Qed.

Lemma copy_segments_total file h n p m :
  0 <= p → 0 <= e_phentsize h →
  ('(status, _, m) ← copy_segments n h (Stream file p) m; Ret (status, m)) =
    load_table file n p (e_phentsize h) m.
Proof.
  intros Hp He. revert p m Hp. induction n as [|n IH]; intros p m Hp; [done|].
  cbn [copy_segments load_table]. rewrite copy_cur_segment_total by done.
  destruct (row_at file p) as [ph|]; [|done].
  destruct (one_of _ _); [cbn [mbind outcome_bind Z.eqb]; apply IH; lia|].
  destruct (_ =? _); [|done]. destruct (segment_load file m ph) as [[status m1]| |]; [|done..].
  cbn [mbind outcome_bind]. destruct (status =? 0); [|done]. apply IH. lia.
Qed.

Lemma ehdr_verdict_table file h :
  Forall u8 file → ehdr_verdict file = inr h → 0 <= e_phoff h ∧ 0 <= e_phentsize h.
Proof.
  intros Hf. unfold ehdr_verdict. cbv zeta.
  repeat match goal with |- context [if ?b then _ else _] => destruct b; [done|] end.
  intros [= <-]. cbn [e_phoff e_phentsize]. split.
  - unfold words_at. cbn [seq fmap list_fmap nth]. apply wrap32_u32.
  - unfold halves_at. cbn [seq fmap list_fmap nth]. unfold be_half.
    assert (∀ i, 0 <= nth i (slice file (40 + 2 * Z.of_nat 1) 2) 0) as Hn.
    { intros i. rewrite nth_lookup. destruct (_ !! i) as [b|] eqn:E; cbn; [|lia].
      assert (Forall u8 (slice file (40 + 2 * Z.of_nat 1) 2)) as Hs by by apply Forall_take, Forall_drop.
      pose proof (Forall_lookup_1 _ _ _ _ Hs E). unfold u8 in *. lia. }
    apply Z.lor_nonneg. split; [apply Z.shiftl_nonneg|]; apply Hn.
Qed.

(** C17: the loader on every file, damaged ones included: a file that cannot be opened and
    a rejected header leave the memory and the entry point alone; with an accepted
    header, [elf_dump] reports the entry point and does exactly what [load_table] says for
    the program headers at [e_phoff] - which status, which bytes of memory, and which
    segment, if any, is written through a null pointer or beyond the memory. Only bytes of
    the memory change, and the process is never ended. *)
Theorem elf_dump_every_file file fclose_ok entry m :
  Forall u8 file → mmu_ok m →
  elf_dump None fclose_ok entry m = Ret (ELF_ERROR_IO_ERROR, entry, m) ∧
  elf_dump (Some file) fclose_ok entry m =
    match ehdr_verdict file with
    | inl status => Ret (status, entry, m)
    | inr h =>
      '(status, m) ← load_table file (Z.to_nat (e_phnum h)) (e_phoff h) (e_phentsize h) m;
      Ret (if status =? 0 then elf_close fclose_ok else status, e_entry h, m)
    end ∧
  match elf_dump (Some file) fclose_ok entry m with
  | Ret (_, _, m') => same_machine m m'
  | Exit _ => False
  | Crash f => f = NullDeref ∨ f = OutOfBounds
  end.
Proof.
  intros Hf Hm. split; [done|]. split.
  2: { pose proof (elf_dump_outcome file fclose_ok entry m Hf Hm) as Hs.
       by destruct (elf_dump _ _ _ _) as [[[r e] m']| |]. }
  unfold elf_dump. destruct (elf_open_cases file) as [st Hst].
  pose proof (elf_open_contents file) as Hc. rewrite Hst in Hc |- *. cbn [snd] in Hc.
  destruct (ehdr_verdict file) as [status|h] eqn:Hv; [done|].
  destruct (ehdr_verdict_table file h Hf Hv) as [Hp He].
  unfold copy_all_segments, fseek. rewrite (proj2 (Z.ltb_ge _ _) Hp), Hc.
  rewrite <-(copy_segments_total file h _ _ m Hp He).
  destruct (copy_segments _ _ _ _) as [[[r st1] m1]| |]; [|done..]. cbn [mbind outcome_bind].
  by destruct (r =? 0).
Qed.

(** A file whose segment is cut short: an error, with the bytes that are there loaded. *)
Lemma elf_dump_every_file_witness :
  let file := take 86 (example_file [1; 2; 3; 4] 8) in
  ∃ m', elf_dump (Some file) true 0 small_mmu = Ret (ELF_ERROR_IO_ERROR, 0x80000000, m') ∧
    bytes_at (pmem m') 0 4 = [1; 2; 0; 0].
Proof.
  cbv zeta. set (file := take 86 (example_file [1; 2; 3; 4] 8)).
  assert (Forall u8 file) as Hf by (apply (bool_decide_unpack _); vm_compute; exact I).
  destruct (elf_dump_every_file file true 0 small_mmu Hf small_mmu_ok) as (_ & -> & _).
  exists (load_segment file small_mmu (example_phdr 4 8)).
  split; vm_compute; reflexivity.
Defined.
