(* ===== verification/Registers.v ===== *)
(** * Register numbers and register names (src/cpu.h, src/cp0.h)

    The constants of the two headers are the positions of their names in the tables the
    disassembler and the debugger print from. *)

From S2P Require Import Prelude Mips32 Cpu.

#[local] Open Scope string_scope.
#[local] Open Scope Z_scope.

(** The constants with the names they are meant for. *)
Definition gpr_constants : list (string * Z) := [
  ("zero", REG_ZERO); ("at", REG_AT); ("v0", REG_V0); ("v1", REG_V1); ("a0", REG_A0);
  ("a1", REG_A1); ("a2", REG_A2); ("a3", REG_A3); ("t0", REG_T0); ("t1", REG_T1);
  ("t2", REG_T2); ("t3", REG_T3); ("t4", REG_T4); ("t5", REG_T5); ("t6", REG_T6);
  ("t7", REG_T7); ("s0", REG_S0); ("s1", REG_S1); ("s2", REG_S2); ("s3", REG_S3);
  ("s4", REG_S4); ("s5", REG_S5); ("s6", REG_S6); ("s7", REG_S7); ("t8", REG_T8);
  ("t9", REG_T9); ("k0", REG_K0); ("k1", REG_K1); ("gp", REG_GP); ("sp", REG_SP);
  ("fp", REG_FP); ("ra", REG_RA); ("pc", REG_PC)].

Definition cp0_constants : list (string * Z) := [
  ("UNUSED", REG_UNUSED); ("Context", REG_CONTEXT); ("Random", REG_RANDOM);
  ("EntryLo0", REG_ENTRYLO0); ("EntryLo1", REG_ENTRYLO1); ("Context", REG_CONTEXT2);
  ("PageMask", REG_PAGEMASK); ("Wired", REG_WIRED); ("EntryHi", REG_ENTRYHI);
  ("HWREna", REG_HWRENA); ("BadVAddr", REG_BADVADDR); ("Count", REG_COUNT);
  ("Compare", REG_COMPARE); ("Status", REG_SR); ("IntCtl", REG_INTCTL); ("EPC", REG_EPC);
  ("SRSMap", REG_SRSMAP); ("Cause", REG_CAUSE); ("SRSCtl", REG_SRSCTL); ("PRId", REG_PRID);
  ("EBase", REG_EBASE); ("Config", REG_CONFIG); ("Config1", REG_CONFIG1);
  ("Config2", REG_CONFIG2); ("Config3", REG_CONFIG3); ("LLAddr", REG_LLADDR);
  ("Debug", REG_DEBUG); ("DEPC", REG_DEPC); ("DESAVE", REG_DESAVE); ("CacheErr", REG_CACHEERR);
  ("ECC", REG_ECC); ("ErrorEPC", REG_ERROREPC); ("TagLo", REG_TAGLO); ("DataLo", REG_DATALO);
  ("TagHi", REG_TAGHI); ("DataHi", REG_DATAHI); ("WatchLo", REG_WATCHLO);
  ("WatchHi", REG_WATCHHI); ("PerfCtl", REG_PERFCTL); ("PerfCnt", REG_PERFCNT)].

(** The constants of cpu.h number the names of [reg_names] from 0 on, none left out, and
    [register_to_number] inverts the table. *)
Lemma gpr_constants_named :
  map fst gpr_constants = reg_names ∧ map snd gpr_constants = seqZ 0 NUM_REGISTERS ∧
  ∀ name n, (name, n) ∈ gpr_constants → register_to_number name = n.
Proof.
  split; [reflexivity|]. split; [reflexivity|]. intros name n Hin.
  assert (Forall (λ p, register_to_number p.1 = p.2) gpr_constants) as Hall
    by (apply (bool_decide_unpack _); vm_compute; exact I).
  by apply (proj1 (Forall_forall _ _) Hall (name, n)).
Qed.

(** The constants of cp0.h number the names of [cp0_reg_names]; the place of the
    load-linked value is the one behind them, without a name. *)
Lemma cp0_constants_named :
  map fst cp0_constants = cp0_reg_names ∧ map snd cp0_constants = seqZ 0 CP0_NUM_REGS ∧
  REG_LLVAL = CP0_NUM_REGS.
Proof. split_and!; reflexivity. Qed.

(** The bits of the Status register that cp0.h names are distinct. *)
Lemma status_bits_distinct :
  NoDup [SR_IE; SR_EXL; SR_ERL; SR_KSU; SR_UX; SR_SX; SR_KX; SR_NMI; SR_SR; SR_TS; SR_BEV; SR_PX; SR_MX;
    SR_RE; SR_FR; SR_RP].
Proof. apply (bool_decide_unpack _). vm_compute. exact I. Qed.

(** The mask of the exception code, documented as bits 2 to 6 of Cause, is bits 1 to 5,
    and that of KSU, documented as two bits, is one. *)
Lemma field_masks : CAUSE_ExcCode = Z.shiftl (Z.ones 5) 1 ∧ SR_KSU = 2 ^ 4.
Proof. split; reflexivity. Qed.
