(* ===== verification/Encoding.v ===== *)
(** * Theorems on the instruction encoding, the tables and the arithmetic helpers

    src/mips32.h, src/mips32.c, src/cpu.h, src/cpu.c, src/tools.c, src/tools.h. *)

From S2P Require Import Prelude Mips32 Tools Cpu Exception Io Mem MemProps.

(** The three instruction formats and the field macros are inverse to each other: the
    struct of a format packed into a word and read back by [GET_x] is the same struct,
    and every word is the packing of the fields read from it, in each format. *)
Theorem instruction_formats :
  (∀ r, instr_r_wf r → decode_r (instr_r_raw r) = r) ∧
  (∀ r, instr_i_wf r → decode_i (instr_i_raw r) = r) ∧
  (∀ r, instr_j_wf r → decode_j (instr_j_raw r) = r) ∧
  ∀ w, u32 w → instr_r_raw (decode_r w) = w ∧ instr_i_raw (decode_i w) = w ∧
    instr_j_raw (decode_j w) = w.
Proof.
  split_and!; eauto using decode_r_raw, decode_i_raw, decode_j_raw.
  intros w Hw. split_and!; auto using raw_decode_r, raw_decode_i, raw_decode_j.
Qed.

(** [lw $v1, 4($sp)] *)
Lemma instruction_formats_witness :
  decode_i (instr_i_raw (InstrI 4 3 29 OPCODE_LW)) = InstrI 4 3 29 OPCODE_LW ∧
  instr_i_raw (decode_i 0x8FA30004) = 0x8FA30004.
Proof.
  destruct instruction_formats as (_ & Hi & _ & Hw). split.
  - apply Hi. unfold instr_i_wf, OPCODE_LW. cbn. lia.
  - apply Hw. unfold u32. lia.
Defined.

(** ** Register names *)

Lemma register_search_shift str names i :
  register_search str names i =
    if bool_decide (str ∈ names) then i + register_search str names 0 else 0.
Proof.
  revert i. induction names as [|name names IH]; intros i; [done|]. cbn [register_search].
  destruct (String.eqb_spec str name) as [->|Hne].
  - rewrite bool_decide_eq_true_2 by left. lia.
  - rewrite IH, (IH (0 + 1)). destruct (decide (str ∈ names)) as [Hin|Hin].
    + rewrite !bool_decide_eq_true_2 by (done || by right). lia.
    + rewrite bool_decide_eq_false_2 by done.
      rewrite bool_decide_eq_false_2; [done|]. intros [?|?]%elem_of_cons; done.
Qed.

Lemma register_search_lookup names i str :
  NoDup names → names !! i = Some str → register_search str names 0 = Z.of_nat i.
Proof.
  revert i. induction names as [|name names IH]; intros i; [done|].
  intros [Hn Hd]%NoDup_cons. cbn [register_search]. destruct i as [|i].
  - intros [= ->]. by rewrite String.eqb_refl.
  - cbn [lookup list_lookup]. intros Hi. destruct (String.eqb_spec str name) as [->|Hne].
    + by apply list_elem_of_lookup_2 in Hi.
    + rewrite register_search_shift.
      rewrite bool_decide_eq_true_2 by (by eapply list_elem_of_lookup_2).
      rewrite (IH i Hd Hi). lia.
Qed.

(** Looking up a register's name gives its number, for all 33 of them; a string that
    names no register gives 0, the number of $zero, where the comment announces -1. *)
Theorem register_to_number_spec str :
  (∀ i, reg_names !! i = Some str → register_to_number str = Z.of_nat i) ∧
  (str ∉ reg_names → register_to_number str = REG_ZERO).
Proof.
  unfold register_to_number. split.
  - intros i. apply register_search_lookup. apply (bool_decide_unpack _). vm_compute. exact I.
  - intros Hn. rewrite register_search_shift. by rewrite bool_decide_eq_false_2.
Qed.

Lemma register_to_number_spec_witness :
  register_to_number "ra" = REG_RA ∧ register_to_number "nosuch" = REG_ZERO.
Proof.
  split.
  - exact (proj1 (register_to_number_spec "ra") 31%nat eq_refl).
  - apply (proj2 (register_to_number_spec "nosuch")). apply (bool_decide_unpack _).
    vm_compute. exact I.
Defined.

(** ** Arithmetic helpers *)

(** [check_soverflow] tells, without computing the sum in a wider type, whether the
    32-bit sum of two [int32_t] differs from the sum; its own subtractions never
    overflow. *)
Theorem check_soverflow_exact a b :
  INT_MIN <= a <= INT_MAX → INT_MIN <= b <= INT_MAX →
  check_soverflow a b = (if s32 (a + b) =? a + b then 0 else 1) ∧
  (0 < b → INT_MIN <= INT_MAX - b <= INT_MAX) ∧ (b < 0 → INT_MIN <= INT_MIN - b <= INT_MAX).
Proof.
  intros Ha Hb. split.
  - rewrite check_soverflow_spec by done. unfold s32, INT_MIN, INT_MAX in *.
    case_decide; case_Z; try done; Z.div_mod_to_equations; lia.
  - unfold INT_MIN, INT_MAX in *. lia.
Qed.

Lemma check_soverflow_exact_witness :
  check_soverflow INT_MAX 1 = 1 ∧ check_soverflow (-1) INT_MIN = 1 ∧ check_soverflow (-1) 1 = 0.
Proof.
  split_and!.
  - rewrite (proj1 (check_soverflow_exact INT_MAX 1 ltac:(vm_compute; split; congruence)
      ltac:(vm_compute; split; congruence))). reflexivity.
  - rewrite (proj1 (check_soverflow_exact (-1) INT_MIN ltac:(vm_compute; split; congruence)
      ltac:(vm_compute; split; congruence))). reflexivity.
  - rewrite (proj1 (check_soverflow_exact (-1) 1 ltac:(vm_compute; split; congruence)
      ltac:(vm_compute; split; congruence))). reflexivity.
Defined.

(** [REVERSE] turns a word of the host into the word whose bytes, in the host's
    little-endian order, are the big-endian digits of the original, which is how a device
    descriptor comes to lie in the descriptor area in the guest's order; applied twice it
    is the identity. *)
Theorem REVERSE_byte_order x :
  u32 x → le_bytes (REVERSE x) = be_digits 4 x ∧ REVERSE (REVERSE x) = x.
Proof.
  intros Hx. split; [|by apply REVERSE_involutive].
  unfold le_bytes. rewrite <-(Z.shiftr_0_r (REVERSE x)) at 1.
  rewrite (REVERSE_byte x 0 ltac:(lia) : wrap8 (Z.shiftr (REVERSE x) 0) = wrap8 (Z.shiftr x 24)),
    (REVERSE_byte x 1 ltac:(lia) : wrap8 (Z.shiftr (REVERSE x) 8) = wrap8 (Z.shiftr x 16)),
    (REVERSE_byte x 2 ltac:(lia) : wrap8 (Z.shiftr (REVERSE x) 16) = wrap8 (Z.shiftr x 8)),
    (REVERSE_byte x 3 ltac:(lia) : wrap8 (Z.shiftr (REVERSE x) 24) = wrap8 (Z.shiftr x 0)).
  unfold wrap8. rewrite !Z.shiftr_div_pow2 by lia. cbn [be_digits]. done.
Qed.

Lemma REVERSE_byte_order_witness :
  le_bytes (REVERSE 0x12345678) = [0x12; 0x34; 0x56; 0x78] ∧
  REVERSE (REVERSE 0x12345678) = 0x12345678.
Proof. exact (REVERSE_byte_order 0x12345678 ltac:(unfold u32; lia)). Defined.

(** ** Mnemonics *)

(** The opcodes and function codes the simulator implements, with their mnemonics. *)
Definition opcode_names : list (Z * string) := [
  (OPCODE_J, "J"); (OPCODE_JAL, "JAL"); (OPCODE_BEQ, "BEQ"); (OPCODE_BNE, "BNE");
  (OPCODE_ADDI, "ADDI"); (OPCODE_ADDIU, "ADDIU"); (OPCODE_SLTI, "SLTI");
  (OPCODE_SLTIU, "SLTIU"); (OPCODE_ANDI, "ANDI"); (OPCODE_ORI, "ORI"); (OPCODE_LUI, "LUI");
  (OPCODE_LWL, "LWL"); (OPCODE_LW, "LW"); (OPCODE_LBU, "LBU"); (OPCODE_LHU, "LHU");
  (OPCODE_LWR, "LWR"); (OPCODE_LL, "LL"); (OPCODE_SW, "SW"); (OPCODE_SB, "SB");
  (OPCODE_SC, "SC"); (OPCODE_SH, "SH"); (OPCODE_CP0, "COP0")]%string.

Definition funct_names : list (Z * string) := [
  (FUNCT_JR, "JR"); (FUNCT_SYSCALL, "SYSCALL"); (FUNCT_ADD, "ADD"); (FUNCT_ADDU, "ADDU");
  (FUNCT_SUB, "SUB"); (FUNCT_SUBU, "SUBU"); (FUNCT_AND, "AND"); (FUNCT_OR, "OR");
  (FUNCT_NOR, "NOR"); (FUNCT_SLT, "SLT"); (FUNCT_SLTU, "SLTU"); (FUNCT_SLL, "SLL");
  (FUNCT_SRL, "SRL")]%string.

Definition names_code (table : list string) (p : Z * string) : Prop :=
  table !! Z.to_nat p.1 = Some p.2.

(** The mnemonic tables cover every opcode and function code a word can hold, and
    give each implemented code its mnemonic - except that the codes defined as
    OPCODE_SWL and OPCODE_SWR are those of SWR and SWL. *)
Theorem mnemonic_tables :
  (∀ w, u32 w → is_Some (op_codes !! Z.to_nat (GET_OPCODE w)) ∧
                is_Some (funct_codes !! Z.to_nat (GET_FUNCT w))) ∧
  Forall (names_code op_codes) opcode_names ∧ Forall (names_code funct_codes) funct_names ∧
  names_code op_codes (OPCODE_SWL, "SWR"%string) ∧ names_code op_codes (OPCODE_SWR, "SWL"%string).
Proof.
  split.
  - intros w Hw. pose proof (GET_OPCODE_range w Hw). pose proof (GET_FUNCT_range w).
    split; apply lookup_lt_is_Some; [change (length op_codes) with 64%nat
      |change (length funct_codes) with 64%nat]; lia.
  - split_and!; [repeat constructor..|reflexivity|reflexivity].
Qed.

Lemma mnemonic_tables_witness :
  is_Some (op_codes !! Z.to_nat (GET_OPCODE 0xFFFFFFFF)) ∧
  is_Some (funct_codes !! Z.to_nat (GET_FUNCT 0xFFFFFFFF)).
Proof. exact (proj1 mnemonic_tables 0xFFFFFFFF ltac:(unfold u32; lia)). Defined.
