(* ===== verification/Wellformed.v ===== *)
(** * The invariant of the processor core

    Register arrays of the declared lengths holding words, a hard-wired zero
    register, and pipeline registers whose fields are in range: every stage of
    src/sim.c keeps it, over any memory unit that meets [BusSpec]. *)

From S2P Require Import Prelude Mips32 Tools Cpu Exception Bus Decode Execute Memstage Writeback.
From S2P Require Import Forward Fetch Sim.

#[local] Set Default Proof Using "Type*".

Definition is_mtc0 (inst : Z) : bool :=
  (GET_OPCODE inst =? OPCODE_CP0) && (GET_RS inst =? CP0_MTC0).

(** A destination register: a general-purpose one, never the PC's slot, or a
    coprocessor one for MTC0. *)
Definition dst_ok (inst dst : Z) : Prop :=
  if is_mtc0 inst then 0 <= dst <= CP0_NUM_REGS else 0 <= dst <= REG_RA.

Record regs_ok (c : core_t) : Prop := {
  regs_length : length (regs c) = Z.to_nat NUM_REGISTERS;
  cp0_length : length (cp0 c) = Z.to_nat (CP0_NUM_REGS + 1);
  regs_u32 : Forall u32 (regs c);
  cp0_u32 : Forall u32 (cp0 c);
  regs_zero : aread (regs c) REG_ZERO = 0 }.

Record if_id_ok (f : if_id_t) : Prop := {
  ifid_inst_ok : u32 (ifid_inst f);
  ifid_next_pc_ok : u32 (ifid_next_pc f);
  ifid_exception_ok : ifid_exception f = EXC_None;
  ifid_BadVAddr_ok : ifid_BadVAddr f = 0 }.

Record id_ex_ok (d : id_ex_t) : Prop := {
  idex_inst_ok : u32 (idex_inst d);
  idex_next_pc_ok : u32 (idex_next_pc d);
  idex_rs_value_ok : u32 (idex_rs_value d);
  idex_rt_value_ok : u32 (idex_rt_value d);
  idex_jump_addr_ok : u32 (idex_jump_addr d);
  idex_shamt_ok : 0 <= idex_shamt d < 32;
  idex_imm_ok : - 2 ^ 15 <= idex_sign_ext_imm d < 2 ^ 15;
  idex_exception_ok : idex_exception d = EXC_None;
  idex_BadVAddr_ok : idex_BadVAddr d = 0;
  idex_dst_ok : dst_ok (idex_inst d) (if idex_c_reg_dst d then idex_rd d else idex_rt d) }.

Record ex_mem_ok (x : ex_mem_t) : Prop := {
  exmem_inst_ok : u32 (exmem_inst x);
  exmem_next_pc_ok : u32 (exmem_next_pc x);
  exmem_alu_res_ok : u32 (exmem_alu_res x);
  exmem_rt_value_ok : u32 (exmem_rt_value x);
  exmem_BadVAddr_ok : exmem_BadVAddr x = 0;
  exmem_dst_ok : dst_ok (exmem_inst x) (exmem_reg_dst x) }.

Record mem_wb_ok (w : mem_wb_t) : Prop := {
  memwb_inst_ok : u32 (memwb_inst w);
  memwb_next_pc_ok : u32 (memwb_next_pc w);
  memwb_alu_res_ok : u32 (memwb_alu_res w);
  memwb_read_data_ok : u32 (memwb_read_data w);
  memwb_BadVAddr_ok : memwb_BadVAddr w = 0;
  memwb_dst_ok : dst_ok (memwb_inst w) (memwb_reg_dst w) }.

Record core_ok (c : core_t) : Prop := {
  core_regs : regs_ok c;
  core_if_id : if_id_ok (if_id c);
  core_id_ex : id_ex_ok (id_ex c);
  core_ex_mem : ex_mem_ok (ex_mem c);
  core_mem_wb : mem_wb_ok (mem_wb c) }.

(** The fields of an updated record, those that did not change by assumption. *)
Ltac ok_fields := split; cbn; try assumption.

(** ** Zeroed pipeline registers *)

Lemma zero_if_id_ok : if_id_ok zero_if_id.
Proof. split; cbn; done || (unfold u32; lia). Qed.
Lemma zero_id_ex_ok : id_ex_ok zero_id_ex.
Proof. split; cbn; try done; unfold u32; try lia. Qed.
Lemma zero_ex_mem_ok : ex_mem_ok zero_ex_mem.
Proof. split; cbn; try done; unfold u32; try lia. Qed.
Lemma zero_mem_wb_ok : mem_wb_ok zero_mem_wb.
Proof. split; cbn; try done; unfold u32; try lia. Qed.
#[export] Hint Resolve zero_if_id_ok zero_id_ex_ok zero_ex_mem_ok zero_mem_wb_ok : mach.

Lemma zero_core_ok : core_ok zero_core.
Proof.
  split; cbn -[replicate]; auto with mach.
  split; cbn -[replicate]; try done; repeat constructor; unfold u32; lia.
Qed.

(** ** The register arrays *)

Lemma regs_ok_same c c' : regs c' = regs c → cp0 c' = cp0 c → regs_ok c → regs_ok c'.
Proof. intros Hr Hc []. split; by rewrite ?Hr, ?Hc. Qed.

Lemma regs_ok_set c i v :
  regs_ok c → 0 <= i < NUM_REGISTERS → u32 v → (i = REG_ZERO → v = 0) →
  regs_ok (c <| regs := <[Z.to_nat i := v]> (regs c) |>).
Proof.
  intros [Hl Hc Hr Hp Hz] Hi Hv H0. split; cbn; try done.
  - by rewrite length_insert.
  - by apply Forall_insert.
  - unfold NUM_REGISTERS, REG_ZERO in *. destruct (decide (i = 0)) as [->|].
    + rewrite aread_insert_eq by lia. auto.
    + by rewrite aread_insert_ne by lia.
Qed.

Lemma regs_ok_set_cp0 c i v : regs_ok c → u32 v → regs_ok (set_cp0 c i v).
Proof.
  intros [Hl Hc Hr Hp Hz] Hv. split; cbn; try done.
  - by rewrite length_insert.
  - by apply Forall_insert.
Qed.

Lemma regs_ok_set_PC c v : regs_ok c → u32 v → regs_ok (set_PC c v).
Proof. intros. apply regs_ok_set; auto; unfold NUM_REGISTERS, REG_PC, REG_ZERO; lia. Qed.

Lemma regs_read c i : regs_ok c → u32 (aread (regs c) i).
Proof. intros []. by apply aread_u32. Qed.
Lemma cp0_read c i : regs_ok c → u32 (aread (cp0 c) i).
Proof. intros []. by apply aread_u32. Qed.
#[export] Hint Resolve regs_ok_set_PC regs_ok_set_cp0 regs_read cp0_read : mach.

Lemma get_cause_u32 e b : u32 (get_cause e b).
Proof. destruct e, b; vm_compute; split; congruence. Qed.
#[export] Hint Resolve get_cause_u32 : mach.

(** ** Write back *)

Lemma flush_younger_ok c : core_ok c → core_ok (flush_younger c).
Proof. intros []. split; cbn; auto with mach. by apply (regs_ok_same c). Qed.

Lemma core_ok_set_PC c v : core_ok c → u32 v → core_ok (set_PC c v).
Proof. intros [] ?. split; auto with mach. Qed.

Lemma core_ok_set_cp0 c i v : core_ok c → u32 v → core_ok (set_cp0 c i v).
Proof. intros [] ?. split; auto with mach. Qed.

Lemma core_ok_mem_wb c w : core_ok c → mem_wb_ok w → core_ok (c <| mem_wb := w |>).
Proof. intros [] ?. split; cbn; auto. by apply (regs_ok_same c). Qed.

Lemma core_regs_read c i : core_ok c → u32 (aread (regs c) i).
Proof. intros []. auto with mach. Qed.
Lemma core_cp0_read c i : core_ok c → u32 (aread (cp0 c) i).
Proof. intros []. auto with mach. Qed.
#[export] Hint Resolve flush_younger_ok core_ok_set_PC core_ok_set_cp0 core_ok_mem_wb
  core_regs_read core_cp0_read : mach.

Lemma handle_exception_ok c : core_ok c → core_ok (handle_exception c).
Proof.
  intros Hc. assert (core_ok (flush_younger c)) as Hf by auto with mach.
  assert (u32 EXCEPTION_HANDLER) by (unfold u32, EXCEPTION_HANDLER; lia).
  assert (u32 SR_EXL) by (vm_compute; split; congruence).
  cbv beta delta [handle_exception].
  name_let c0. pose proof (core_mem_wb _ Hf) as [? Hn _ _ Hb _]. name_let w. fold c0 in Hb, Hn.
  fold w in Hb, Hn. assert (core_ok c0) by done. clearbody w c0.
  name_let c1. assert (core_ok c1) by (unfold c1; auto with mach). clearbody c1.
  name_let cause. assert (u32 cause) by (unfold cause; auto with mach). clearbody cause.
  name_let c2. assert (core_ok c2) by (unfold c2; auto with mach). clearbody c2.
  name_let c3. assert (core_ok c3) by (unfold c3; case_decide; rewrite ?Hb; auto with mach).
  clearbody c3.
  name_let c4. assert (core_ok c4) by (unfold c4; auto with mach). clearbody c4.
  name_let c5. assert (core_ok c5) by (unfold c5; auto with mach). clearbody c5.
  name_let c6. assert (core_ok c6) by (unfold c6; case_match; auto with mach). clearbody c6.
  auto with mach.
Qed.

Lemma wb_eret_ok c : core_ok c → core_ok (wb_eret c).
Proof.
  intros Hc. cbv beta delta [wb_eret].
  name_let c0. assert (core_ok c0) by (unfold c0; auto with mach). clearbody c0.
  name_let c1. assert (core_ok c1) by (unfold c1; auto with mach). clearbody c1.
  name_let c2. assert (core_ok c2) by (unfold c2; auto with mach). clearbody c2.
  auto with mach.
Qed.

Lemma wb_data_u32 w : mem_wb_ok w → u32 (wb_data w).
Proof. intros []. unfold wb_data. by case_match. Qed.

Lemma wb_write_ok c : core_ok c → ∃ c', wb_write c = Ret c' ∧ core_ok c'.
Proof.
  intros [Hr Hf Hd Hx Hw]. pose proof (wb_data_u32 _ Hw) as Hv.
  pose proof (memwb_dst_ok _ Hw) as Hdst. unfold wb_write.
  destruct (memwb_c_reg_write (mem_wb c)); [|exists c; split; [done|by split]].
  fold (is_mtc0 (memwb_inst (mem_wb c))). unfold dst_ok in Hdst.
  destruct (is_mtc0 _); unfold CP0_NUM_REGS, REG_RA in Hdst.
  - rewrite aset_in_range by (rewrite (cp0_length c Hr); unfold CP0_NUM_REGS; lia).
    eexists; split; [done|]. split; cbn; auto.
    apply (regs_ok_set_cp0 c); auto.
  - rewrite aset_in_range by (rewrite (regs_length c Hr); unfold NUM_REGISTERS; lia).
    eexists; split; [done|]. split; cbn; auto. apply regs_ok_set; auto.
    + unfold NUM_REGISTERS. lia.
    + case_match; auto with mach.
    + unfold REG_ZERO. by intros ->.
Qed.

Lemma interpret_wb_ok c g : core_ok c → ∃ c' g', interpret_wb c g = Ret (c', g') ∧ core_ok c'.
Proof.
  intros Hc. unfold interpret_wb. case_match; [eauto using wb_eret_ok|].
  case_decide; [case_match; eauto using handle_exception_ok|].
  destruct (wb_write_ok c Hc) as (c' & -> & Hc'). cbn. eauto.
Qed.

(** ** Memory access *)

Section MemoryStage.
Context {M : Type} {ok : M → Prop} `{BusSpec M ok}.
Implicit Types (c : core_t) (m : M) (w : mem_wb_t) (x : ex_mem_t).

(** A call that fails because the memory unit does, in the same way. *)
Definition fails_like {A B} (o : outcome A) (o' : outcome B) : Prop :=
  match o, o' with
  | Crash f, Crash f' => f = f'
  | Exit n, Exit n' => n = n'
  | _, _ => False
  end.

Definition bus_fault {A} (o : outcome A) : Prop :=
  ∃ m v d sz, ok m ∧ u32 v ∧ u32 d ∧
    (fails_like o (bus_read m v d sz) ∨ fails_like o (bus_write m v d sz)).

(** The result satisfies [P]; anything else comes from the memory unit. *)
Definition yields {A} (o : outcome A) (P : A → Prop) : Prop :=
  match o with Ret a => P a | _ => bus_fault o end.

Lemma yields_bind {A B} (o : outcome A) (k : A → outcome B) P Q :
  yields o P → (∀ a, P a → yields (k a) Q) → yields (o ≫= k) Q.
Proof.
  destruct o; cbn [yields mbind outcome_bind]; intros Ho Hk; [by apply Hk|..];
    destruct Ho as (m & v & d & sz & Ho); by exists m, v, d, sz.
Qed.

Lemma yields_mono {A} (o : outcome A) (P Q : A → Prop) :
  yields o P → (∀ a, P a → Q a) → yields o Q.
Proof. destruct o; cbn; auto. Qed.

Lemma yields_bus_read m v d sz :
  ok m → u32 v → u32 d → yields (bus_read m v d sz) (λ r, r.1 = EXC_None ∧ u32 r.2).
Proof.
  intros Hm Hv Hd. destruct (bus_read m v d sz) as [[e y]| |] eqn:E; cbn [yields].
  - by eapply bus_read_spec in E.
  - exists m, v, d, sz. rewrite E. cbn. auto.
  - exists m, v, d, sz. rewrite E. cbn. auto.
Qed.

Lemma yields_bus_write m v d sz :
  ok m → u32 v → u32 d → yields (bus_write m v d sz) (λ r, ok r.2).
Proof.
  intros Hm Hv Hd. destruct (bus_write m v d sz) as [[e y]| |] eqn:E; cbn [yields].
  - by apply bus_write_spec in E as [_ ?].
  - exists m, v, d, sz. rewrite E. cbn. auto.
  - exists m, v, d, sz. rewrite E. cbn. auto.
Qed.

Lemma byte_shift_cases a : byte_shift a ∈ [0; 8; 16; 24].
Proof.
  unfold byte_shift. pose proof (land_mask_range 2 a ltac:(lia)) as Ha.
  change (2 ^ 2 - 1) with 3 in Ha. change (2 ^ 2) with 4 in Ha. rewrite !elem_of_cons. lia.
Qed.

Lemma byte_shift_range a : 0 <= byte_shift a <= 24.
Proof. pose proof (byte_shift_cases a) as Hs. rewrite !elem_of_cons, elem_of_nil in Hs. lia. Qed.

Lemma word_addr_u32 a : u32 a → u32 (word_addr a).
Proof. unfold word_addr. auto with mach. Qed.

(** The words the unaligned accesses compute are words. *)
Lemma lwl_data_u32 reg t a : u32 reg → u32 t → u32 (lwl_data reg t a).
Proof. unfold lwl_data. auto with mach. Qed.
Lemma lwr_data_u32 reg t a : u32 reg → u32 t → u32 (lwr_data reg t a).
Proof. pose proof (byte_shift_range a). unfold lwr_data. auto with mach lia. Qed.
Lemma swl_data_u32 reg t a : u32 reg → u32 t → u32 (swl_data reg t a).
Proof. pose proof (byte_shift_range a). unfold swl_data. intros.
  apply u32_shiftr; [lia|]. apply u32_lor; auto with mach. apply u32_shiftr; [lia|done]. Qed.
Lemma swr_data_u32 reg t a : u32 reg → u32 t → u32 (swr_data reg t a).
Proof. unfold swr_data. auto with mach. Qed.

Lemma mem_latch_ok x w : ex_mem_ok x → mem_wb_ok w → mem_wb_ok (mem_latch x w).
Proof. intros [] []. by split. Qed.

Lemma mem_wb_ok_data w e v : mem_wb_ok w → u32 v →
  mem_wb_ok (w <| memwb_exception := e |> <| memwb_read_data := v |>).
Proof. intros [] ?. by split. Qed.

Lemma mem_wb_ok_exception w e : mem_wb_ok w → mem_wb_ok (w <| memwb_exception := e |>).
Proof. intros []. by split. Qed.

Lemma mem_wb_ok_caught w e v : mem_wb_ok w → v = 0 →
  mem_wb_ok (w <| memwb_exception := e |> <| memwb_BadVAddr := v |>).
Proof. intros [] ?. by split. Qed.

Lemma mem_load_yields c m w addr sz :
  ok m → mem_wb_ok w → u32 addr → yields (mem_load c m w addr sz) mem_wb_ok.
Proof.
  intros Hm Hw Ha. unfold mem_load.
  eapply yields_bind; [apply yields_bus_read; auto using memwb_read_data_ok|].
  intros [e v] [_ Hv]. by apply mem_wb_ok_data.
Qed.

Lemma mem_store_yields m w addr v sz :
  ok m → mem_wb_ok w → u32 addr → u32 v →
  yields (mem_store m w addr v sz) (λ r, mem_wb_ok r.1 ∧ ok r.2).
Proof.
  intros Hm Hw Ha Hv. unfold mem_store.
  eapply yields_bind; [by apply yields_bus_write|].
  intros [e m'] Hm'. split; [by apply mem_wb_ok_exception|done].
Qed.

Lemma yields_read_word m a :
  ok m → u32 a →
  yields (bus_read m (word_addr a) 0x00 MEM_OP_WORD) (λ r, r.1 = EXC_None ∧ u32 r.2).
Proof. intros Hm Ha. apply yields_bus_read; [done|by apply word_addr_u32|auto with mach]. Qed.

Lemma dst_ok_gpr inst dst :
  dst_ok inst dst → (GET_OPCODE inst =? OPCODE_CP0) = false → 0 <= dst <= REG_RA.
Proof. unfold dst_ok, is_mtc0. intros Hd Ho. by rewrite Ho in Hd. Qed.

(** The unaligned loads read the old value of the destination register. *)
Lemma yields_reg c dst :
  regs_ok c → 0 <= dst <= REG_RA → yields (aget (regs c) dst) u32.
Proof.
  intros Hc Hd. destruct (aget_in_range (regs c) dst) as [v Hv].
  - rewrite (regs_length c Hc). unfold NUM_REGISTERS, REG_RA in *. lia.
  - rewrite Hv. apply aget_Ret in Hv as [_ Hv]. cbn.
    by eapply (Forall_lookup_1 _ _ _ _ (regs_u32 c Hc)).
Qed.

Lemma mem_read_switch_yields c m w x :
  regs_ok c → ok m → mem_wb_ok w → ex_mem_ok x → memwb_inst w = exmem_inst x →
  yields (mem_read_switch c m w x) mem_wb_ok.
Proof.
  intros Hc Hm Hw Hx Hi. pose proof (exmem_alu_res_ok x Hx) as Ha.
  assert ((GET_OPCODE (memwb_inst w) =? OPCODE_CP0) = false → 0 <= exmem_reg_dst x <= REG_RA) as Hd.
  { rewrite Hi. apply dst_ok_gpr. by apply exmem_dst_ok. }
  unfold mem_read_switch. revert Hd. generalize (GET_OPCODE (memwb_inst w)) as op. intros op Hd.
  case_Z; auto using mem_load_yields; subst op; specialize (Hd eq_refl).
  - unfold mem_lwl. eapply yields_bind; [by apply yields_read_word|].
    intros [exc t] [_ Ht]. eapply yields_bind; [by apply yields_reg|]. intros reg Hreg.
    by apply mem_wb_ok_data, lwl_data_u32.
  - unfold mem_lwr. eapply yields_bind; [by apply yields_read_word|].
    intros [exc t] [_ Ht]. eapply yields_bind; [by apply yields_reg|]. intros reg Hreg.
    by apply mem_wb_ok_data, lwr_data_u32.
Qed.

Lemma mem_write_switch_yields c m w x :
  regs_ok c → ok m → mem_wb_ok w → ex_mem_ok x →
  yields (mem_write_switch c m w x) (λ r, mem_wb_ok r.1 ∧ ok r.2).
Proof.
  intros Hc Hm Hw Hx. destruct Hx. unfold mem_write_switch.
  generalize (GET_OPCODE (memwb_inst w)) as op. intros op.
  case_Z; [by apply mem_store_yields|by apply mem_store_yields|by apply mem_store_yields| | |by split].
  - unfold mem_swl. eapply yields_bind; [by apply yields_read_word|].
    intros [exc t] [_ Ht]. apply mem_store_yields; [done|by apply mem_wb_ok_exception
      |by apply word_addr_u32|apply swl_data_u32; [by apply regs_read|done]].
  - unfold mem_swr. eapply yields_bind; [by apply yields_read_word|].
    intros [exc t] [_ Ht]. apply mem_store_yields; [done|by apply mem_wb_ok_exception
      |by apply word_addr_u32|apply swr_data_u32; [by apply regs_read|done]].
Qed.

Lemma interpret_mem_yields c m :
  core_ok c → ok m → yields (interpret_mem c m) (λ r, core_ok r.1 ∧ ok r.2).
Proof.
  intros Hc Hm. destruct (Hc) as [Hr _ _ Hx Hw]. pose proof (mem_latch_ok _ _ Hx Hw) as Hl.
  unfold interpret_mem. case_decide; [|case_match; [|case_match]].
  - split; [|done]. apply core_ok_mem_wb; [done|].
    apply mem_wb_ok_caught; [done|]. by apply exmem_BadVAddr_ok.
  - eapply yields_bind; [by apply mem_read_switch_yields|].
    intros w' Hw'. split; [by apply core_ok_mem_wb|done].
  - eapply yields_bind; [by apply mem_write_switch_yields|].
    intros [w' m'] [Hw' Hm']. split; [by apply core_ok_mem_wb|done].
  - split; [by apply core_ok_mem_wb|done].
Qed.
End MemoryStage.

(** ** Execute *)

Section ExecuteStage.
Implicit Types (c : core_t) (d : id_ex_t) (x : ex_mem_t).

Lemma u32_bool (b : bool) : u32 (if b then 1 else 0).
Proof. destruct b; auto with mach. Qed.

Lemma set_alu_res_ok x v : ex_mem_ok x → u32 v → ex_mem_ok (set_alu_res x v).
Proof. intros [] ?. by split. Qed.
Lemma raise_ok x e : ex_mem_ok x → ex_mem_ok (raise x e).
Proof. intros []. by split. Qed.

(** Solves the branches of a chain of conditionals one after the other. *)
  Tactic Notation "branches" tactic3(tac) :=
  repeat match goal with
  | |- _ (if ?b then _ else _) => destruct b; [solve [tac]|]
  end.

(** A result of the ALU is a word. *)
Ltac alu_word :=
  lazymatch goal with
  | |- u32 (if _ then _ else _) => apply u32_bool
  | |- u32 (Z.shiftr _ _) => apply u32_shiftr; [lia|assumption]
  | |- _ => auto with mach
  end.

Lemma alu_r_type_ok d a b x :
  id_ex_ok d → u32 a → u32 b → ex_mem_ok x → ex_mem_ok (alu_r_type d a b x).
Proof.
  intros Hd Ha Hb Hx. pose proof (idex_shamt_ok d Hd). unfold alu_r_type. cbv zeta.
  branches (idtac; lazymatch goal with
    | |- ex_mem_ok (set_alu_res _ _) => apply set_alu_res_ok; [assumption|alu_word]
    | |- _ => by apply raise_ok
    end).
  done.
Qed.

Lemma alu_i_type_ok d a b x :
  u32 a → u32 b → ex_mem_ok x → ex_mem_ok (alu_i_type d a b x).
Proof.
  intros Ha Hb Hx. unfold alu_i_type. cbv zeta.
  branches (apply set_alu_res_ok; [|alu_word];
    lazymatch goal with
    | |- ex_mem_ok (if _ then _ else _) => case_match; [by apply raise_ok|assumption]
    | |- _ => assumption
    end).
  done.
Qed.

(** The parts of the core a branch or jump changes. *)
Definition front_ok c : Prop := regs_ok c ∧ if_id_ok (if_id c) ∧ id_ex_ok (id_ex c).

Definition same_back c c' : Prop :=
  ex_mem c' = ex_mem c ∧ mem_wb c' = mem_wb c ∧ idex_inst (id_ex c') = idex_inst (id_ex c).

Lemma front_ok_mark c : front_ok c → front_ok (mark_branch_delay c).
Proof.
  intros (Hr & [] & Hd). split_and!; [by apply (regs_ok_same c)|split; assumption|exact Hd].
Qed.

Lemma front_ok_set_PC c v : front_ok c → u32 v → front_ok (set_PC c v).
Proof. intros (Hr & Hf & Hd) Hv. split_and!; [by apply regs_ok_set_PC|exact Hf|exact Hd]. Qed.

Lemma front_ok_jump_addr c v :
  front_ok c → u32 v → front_ok (c <| id_ex := (id_ex c) <| idex_jump_addr := v |> |>).
Proof.
  intros (Hr & Hf & []) Hv. split_and!; [by apply (regs_ok_same c)|exact Hf|].
  split; assumption.
Qed.

Lemma branch_target_u32 d : u32 (branch_target d).
Proof. apply wrap32_u32. Qed.

Lemma ex_jump_ok c : front_ok c → front_ok (ex_jump c) ∧ same_back c (ex_jump c).
Proof.
  intros Hc. unfold ex_jump. cbv zeta. destruct (idex_c_jump (id_ex c)); [|done].
  assert (∀ c', front_ok c' →
    front_ok (set_PC (mark_branch_delay c') (idex_jump_addr (id_ex (mark_branch_delay c'))))) as Hj.
  { intros c' Hc'. apply front_ok_set_PC; [by apply front_ok_mark|].
    by destruct Hc' as (_ & _ & []). }
  case_match; (split; [|done]); apply Hj; [|done].
  apply front_ok_jump_addr; [done|]. by destruct Hc as (_ & _ & []).
Qed.

Lemma ex_beq_ok c : front_ok c → front_ok (ex_beq c) ∧ same_back c (ex_beq c).
Proof.
  intros Hc. unfold ex_beq. cbv zeta. case_match; [|done]. split; [|done].
  apply front_ok_mark, front_ok_set_PC, branch_target_u32. done.
Qed.

Lemma ex_bne_ok c : front_ok c → front_ok (ex_bne c) ∧ same_back c (ex_bne c).
Proof.
  intros Hc. unfold ex_bne. cbv zeta. case_match; [|done]. split; [|done].
  apply front_ok_mark, front_ok_set_PC, branch_target_u32. done.
Qed.

Lemma same_back_trans c1 c2 c3 : same_back c1 c2 → same_back c2 c3 → same_back c1 c3.
Proof. unfold same_back. intros (-> & -> & ->) (-> & -> & ->). done. Qed.

Lemma ex_branches_ok c :
  front_ok c →
  front_ok (ex_bne (ex_beq (ex_jump c))) ∧ same_back c (ex_bne (ex_beq (ex_jump c))).
Proof.
  intros Hc. destruct (ex_jump_ok c Hc) as [H1 S1]. destruct (ex_beq_ok _ H1) as [H2 S2].
  destruct (ex_bne_ok _ H2) as [H3 S3]. eauto using same_back_trans.
Qed.

(** The ALU changes the EX/MEM register only. *)
Lemma interpret_ex_alu_ok c : core_ok c → core_ok (interpret_ex_alu c).
Proof.
  intros [Hr Hf Hd Hx Hw].
  assert (∀ x, ex_mem_ok x → core_ok (c <| ex_mem := x |>)) as Hset.
  { intros x Hx'. split; try assumption. by apply (regs_ok_same c). }
  assert (u32 (idex_rs_value (id_ex c))) by by apply idex_rs_value_ok.
  assert (u32 (alu_b (id_ex c))).
  { unfold alu_b. case_match; [apply wrap32_u32|by apply idex_rt_value_ok]. }
  unfold interpret_ex_alu. cbv zeta. case_match; [|case_match].
  - apply Hset, set_alu_res_ok; [|apply wrap32_u32]. case_match; [by apply raise_ok|done].
  - by split.
  - apply Hset. case_match; [apply alu_i_type_ok; [done..|]|];
      (case_match; [by apply alu_r_type_ok|done]).
Qed.

Lemma interpret_ex_ok c : core_ok c → core_ok (interpret_ex c).
Proof.
  intros [Hr Hf Hd Hx Hw]. unfold interpret_ex. cbv zeta.
  rewrite decide_False by (rewrite (idex_exception_ok _ Hd); auto).
  set (c0 := c <| ex_mem := ex_latch (id_ex c) (ex_mem c) |>).
  assert (front_ok c0) as H0 by (split_and!; [by apply (regs_ok_same c)|exact Hf|exact Hd]).
  destruct (ex_branches_ok c0 H0) as [(Hr1 & Hf1 & Hd1) (Ex & Ew & Ei)].
  revert Hr1 Hf1 Hd1 Ex Ew Ei. generalize (ex_bne (ex_beq (ex_jump c0))). intros c1 Hr1 Hf1 Hd1 Ex Ew Ei.
  apply interpret_ex_alu_ok. split; [by apply (regs_ok_same c1)|exact Hf1|exact Hd1| |].
  - pose proof (idex_dst_ok _ Hd1) as Hdst. rewrite Ei in Hdst.
    cbn [update ex_mem]. rewrite Ex. destruct Hx, Hd. split; try assumption.
  - cbn [update mem_wb]. rewrite Ew. exact Hw.
Qed.
End ExecuteStage.

(** ** Decode, fetch and forwarding *)

Section FrontStages.
Implicit Types (c : core_t) (e : id_ex_t).

Lemma dst_ok_small inst dst : 0 <= dst < 32 → dst_ok inst dst.
Proof. unfold dst_ok, CP0_NUM_REGS, REG_RA. case_match; lia. Qed.

Lemma jump_target_u32 e : u32 (jump_target e).
Proof.
  unfold jump_target. apply u32_lor.
  - apply u32_land_r. unfold u32. lia.
  - pose proof (GET_ADDRESS_range (idex_inst e)). unfold u32.
    rewrite Z.shiftl_mul_pow2 by lia. lia.
Qed.

(** What decode leaves in ID/EX before the control unit. *)
Definition latched c e : Prop :=
  id_ex_ok e ∧ idex_c_reg_dst e = false ∧ 0 <= idex_rd e < 32 ∧ 0 <= idex_rt e < 32 ∧
  idex_inst e = ifid_inst (if_id c).

Lemma control_cp0_ok c e :
  regs_ok c → latched c e → (GET_OPCODE (ifid_inst (if_id c)) =? OPCODE_CP0) = true →
  id_ex_ok (control_cp0 c (ifid_inst (if_id c)) e).
Proof.
  intros Hr (He & Hdst & Hrd & Hrt & Hi) Hop. unfold control_cp0. rewrite <-Hi in *.
  pose proof (GET_RD_range (idex_inst e)). pose proof (GET_RT_range (idex_inst e)).
  destruct (_ =? CP0_MFC0) eqn:?; [|destruct (_ =? CP0_MTC0) eqn:Hmt; [|done]].
  - destruct He. ok_fields; [by apply cp0_read|exact u32_0|by apply dst_ok_small].
  - destruct He. ok_fields; [by apply regs_read|exact u32_0|].
    unfold dst_ok, is_mtc0.
    rewrite Hop, Hmt. cbn [andb]. unfold CP0_NUM_REGS. lia.
Qed.

Lemma control_switch_ok c e :
  regs_ok c → latched c e → id_ex_ok (control_switch c (ifid_inst (if_id c)) e).
Proof.
  intros Hr Hl. pose proof Hl as (He & Hdst & Hrd & Hrt & Hi). unfold control_switch. cbv zeta.
  pose proof (jump_target_u32 e) as Hj. pose proof (dst_ok_small (idex_inst e) _ Hrd) as Hd.
  pose proof (dst_ok_small (idex_inst e) _ Hrt) as Ht.
  destruct (_ =? OPCODE_R); [case_match|].
  { destruct He. ok_fields. }
  { destruct He. ok_fields. }
  destruct (one_of _ _). { destruct He. ok_fields. }
  destruct (one_of _ _).
  { destruct He. ok_fields. }
  destruct (one_of _ _). { destruct He. ok_fields. }
  destruct (_ =? OPCODE_BEQ). { destruct He. ok_fields. }
  destruct (_ =? OPCODE_BNE). { destruct He. ok_fields. }
  destruct (one_of _ _). { destruct He. ok_fields. }
  destruct (_ =? OPCODE_J). { destruct He. ok_fields. }
  destruct (_ =? OPCODE_JAL).
  { destruct He. ok_fields; [apply wrap32_u32|].
    apply dst_ok_small. unfold REG_RA. lia. }
  destruct (_ =? OPCODE_CP0) eqn:Hop; [by apply control_cp0_ok|done].
Qed.

Lemma id_latch_ok c :
  core_ok c →
  latched c (clear_control ((id_latch c (id_ex c)) <| idex_exception := EXC_None |>)).
Proof.
  intros [Hr [] [] _ _].
  pose proof (GET_RD_range (ifid_inst (if_id c))). pose proof (GET_RT_range (ifid_inst (if_id c))).
  split; [|split; [reflexivity|split; [assumption|split; [assumption|reflexivity]]]]. ok_fields.
  - by apply regs_read.
  - by apply regs_read.
  - apply GET_SHAMT_range.
  - apply SIGN_EXTEND_range.
  - reflexivity.
  - by apply dst_ok_small.
Qed.

Lemma interpret_id_ok c : core_ok c → core_ok (interpret_id c).
Proof.
  intros Hc. pose proof (id_latch_ok c Hc) as Hl. destruct Hc as [Hr Hf Hd Hx Hw].
  unfold interpret_id. cbv zeta. rewrite decide_False by (rewrite (ifid_exception_ok _ Hf); auto).
  split; [by apply (regs_ok_same c)|exact Hf| |exact Hx|exact Hw].
  exact (control_switch_ok c _ Hr Hl).
Qed.

Lemma forward_mux_ok c r v : core_ok c → forward_mux c r = Replace v → u32 v.
Proof.
  intros [_ _ _ Hx Hw]. unfold forward_mux. cbv zeta.
  repeat case_match; intros [= <-]; [by apply exmem_alu_res_ok|by apply wb_data_u32].
Qed.

Lemma forwarding_unit_ok c : core_ok c → core_ok (forwarding_unit c).
Proof.
  intros Hc. unfold forwarding_unit. case_match; [done|]. unfold forward_A, forward_B.
  destruct (forward_mux c _) as [|v|] eqn:EA; [| |done].
  - destruct (forward_mux c (idex_rt (id_ex c))) as [|v|] eqn:EB; [done| |done].
    apply forward_mux_ok in EB; [|done]. destruct Hc as [Hr Hf [] Hx Hw].
    split; cbn; try assumption; [by apply (regs_ok_same c)|]. ok_fields.
  - apply forward_mux_ok in EA; [|done].
    set (c1 := c <| id_ex := (id_ex c) <| idex_rs_value := v |> |>).
    assert (core_ok c1) as H1.
    { destruct Hc as [Hr Hf [] Hx Hw].
      split; cbn; try assumption; [by apply (regs_ok_same c)|]. ok_fields. }
    clearbody c1. clear c v Hc EA H.
    destruct (forward_mux c1 _) as [|v|] eqn:EB; [done| |done].
    apply forward_mux_ok in EB; [|done]. destruct H1 as [Hr Hf [] Hx Hw].
    split; cbn; try assumption; [by apply (regs_ok_same c1)|]. ok_fields.
Qed.
End FrontStages.

(** ** Fetch and the clock tick *)

Section Clock.
Context {M : Type} {ok : M → Prop} `{BusSpec M ok}.
Implicit Types (c : core_t) (m : M).

Lemma core_if_id_ok c f : core_ok c → if_id_ok f → core_ok (c <| if_id := f |>).
Proof. intros [] Hf. split; cbn; try assumption. by apply (regs_ok_same c). Qed.

Lemma interpret_if_yields c m :
  core_ok c → ok m → yields (ok := ok) (interpret_if c m) core_ok.
Proof.
  intros Hc Hm. unfold interpret_if.
  eapply yields_bind; [by apply yields_bus_read; [|apply core_regs_read|apply u32_0]|].
  intros [e inst] [He Hi]. cbn in He, Hi. subst e. cbv zeta.
  set (c0 := c <| if_id := (if_id c) <| ifid_exception := EXC_None |> |>).
  assert (core_ok c0) as Hc0.
  { apply core_if_id_ok; [done|]. destruct Hc as [_ [] _ _ _]. ok_fields. reflexivity. }
  destruct (load_use_hazard _ _); cbn [yields].
  - apply core_if_id_ok; [done|]. destruct Hc0 as [_ [] _ _ _]. ok_fields. exact u32_0.
  - set (c1 := set_PC _ _). assert (core_ok c1) as H1.
    { apply core_ok_set_PC; [|apply wrap32_u32]. apply core_if_id_ok; [done|].
      destruct Hc0 as [_ [] _ _ _]. by ok_fields. }
    apply core_if_id_ok; [done|]. pose proof (core_regs_read c1 REG_PC H1).
    destruct H1 as [_ [] _ _ _]. by ok_fields.
Qed.

Lemma tick_core_yields c m g :
  core_ok c → ok m → yields (ok := ok) (tick_core c m g) (λ r, core_ok r.1.1 ∧ ok r.1.2).
Proof.
  intros Hc Hm. unfold tick_core.
  destruct (interpret_wb_ok c g Hc) as (c1 & g' & -> & H1). cbn [mbind outcome_bind].
  eapply yields_bind; [by apply interpret_mem_yields|]. intros [c2 m2] [H2 Hm2].
  eapply yields_bind; [apply interpret_if_yields; [|done]|].
  { by apply interpret_id_ok, interpret_ex_ok. }
  intros c3 H3. split; [by apply forwarding_unit_ok|done].
Qed.

Lemma tick_cores_yields cs m g :
  Forall core_ok cs → ok m →
  yields (ok := ok) (tick_cores cs m g)
    (λ r, Forall core_ok r.1.1 ∧ length r.1.1 = length cs ∧ ok r.1.2).
Proof.
  intros Hcs. revert m g. induction Hcs as [|c cs Hc _ IH]; intros m g Hm; cbn [tick_cores].
  - done.
  - eapply yields_bind; [by apply tick_core_yields|]. intros [[c' m'] g'] [Hc' Hm'].
    eapply yields_bind; [by apply IH|]. intros [[cs' m''] g''] (Hcs' & Hl & Hm'').
    cbn in *. split_and!; [by constructor|by f_equal|done].
Qed.
End Clock.
