(* ===== verification/Faults.v ===== *)
(** * What stops a clock tick (src/sim.c: tick, interpret_mem, interpret_if)

    A tick that fails does so in one of the memory calls of one of its cores, made on the
    memory as the cores before it have left it: no access of the pipeline to its register
    arrays, or to anything else, fails. *)

From S2P Require Import Prelude Mips32 Tools Cpu Exception Bus Decode Execute Memstage Writeback.
From S2P Require Import Forward Fetch Sim Wellformed.

#[local] Set Default Proof Using "Type*".

Section Faults.
Context {M : Type} {ok : M → Prop} `{BusSpec M ok}.
Implicit Types (c : core_t) (m : M) (x : ex_mem_t).

(** The widths of the aligned loads and stores. *)
Definition load_size (op : Z) : option mem_op_size_t :=
  if op =? OPCODE_LW then Some MEM_OP_WORD
  else if op =? OPCODE_LBU then Some MEM_OP_BYTE
  else if op =? OPCODE_LHU then Some MEM_OP_HALF else None.

Definition store_size (op : Z) : option mem_op_size_t :=
  if op =? OPCODE_SW then Some MEM_OP_WORD
  else if op =? OPCODE_SB then Some MEM_OP_BYTE
  else if op =? OPCODE_SH then Some MEM_OP_HALF else None.

(** The outcome is the failure of a memory call of the instruction in EX/MEM: the load, the
    store, or an access to the word around its address that an unaligned one makes. *)
Inductive data_fault {A} c m (o : outcome A) : Prop :=
  | fault_load sz :
      exmem_c_mem_read (ex_mem c) = true →
      load_size (GET_OPCODE (exmem_inst (ex_mem c))) = Some sz →
      fails_like o (bus_read m (exmem_alu_res (ex_mem c)) (memwb_read_data (mem_wb c)) sz) →
      data_fault c m o
  | fault_load_around :
      exmem_c_mem_read (ex_mem c) = true →
      one_of (GET_OPCODE (exmem_inst (ex_mem c))) [OPCODE_LWL; OPCODE_LWR] = true →
      fails_like o (bus_read m (word_addr (exmem_alu_res (ex_mem c))) 0 MEM_OP_WORD) →
      data_fault c m o
  | fault_store sz :
      exmem_c_mem_write (ex_mem c) = true →
      store_size (GET_OPCODE (exmem_inst (ex_mem c))) = Some sz →
      fails_like o (bus_write m (exmem_alu_res (ex_mem c)) (exmem_rt_value (ex_mem c)) sz) →
      data_fault c m o
  | fault_store_around :
      exmem_c_mem_write (ex_mem c) = true →
      one_of (GET_OPCODE (exmem_inst (ex_mem c))) [OPCODE_SWL; OPCODE_SWR] = true →
      fails_like o (bus_read m (word_addr (exmem_alu_res (ex_mem c))) 0 MEM_OP_WORD) →
      data_fault c m o
  | fault_merge e t merged :
      exmem_c_mem_write (ex_mem c) = true →
      (GET_OPCODE (exmem_inst (ex_mem c)) = OPCODE_SWL ∧ merged = swl_data ∨
       GET_OPCODE (exmem_inst (ex_mem c)) = OPCODE_SWR ∧ merged = swr_data) →
      bus_read m (word_addr (exmem_alu_res (ex_mem c))) 0 MEM_OP_WORD = Ret (e, t) →
      fails_like o (bus_write m (word_addr (exmem_alu_res (ex_mem c)))
        (merged (aread (regs c) (GET_RT (exmem_inst (ex_mem c)))) t (exmem_alu_res (ex_mem c)))
        MEM_OP_WORD) →
      data_fault c m o.

(** The failure of a core's tick: after write back, in the data access of the instruction in
    EX/MEM, or else in the fetch at the PC that EX leaves, on the memory MEM leaves. *)
Definition core_fault {A} c m (g : bool) (o : outcome A) : Prop :=
  ∃ c1 g1, interpret_wb c g = Ret (c1, g1) ∧
    (exmem_exception (ex_mem c1) = EXC_None ∧ data_fault c1 m o ∨
     ∃ c2 m2, interpret_mem c1 m = Ret (c2, m2) ∧
       fails_like o (bus_read m2 (PC (interpret_ex c2)) 0 MEM_OP_WORD)).

(** A result, or a failure for a reason. *)
Definition blames {A} (o : outcome A) (why : outcome A → Prop) : Prop :=
  match o with Ret _ => True | _ => why o end.

(** The outcome of a call followed by something that does not fail. *)
Lemma blames_bind {A B} (o : outcome A) (k : A → outcome B) (why : outcome B → Prop) :
  (∀ r, fails_like r o → why r) → (∀ a, o = Ret a → blames (k a) why) → blames (o ≫= k) why.
Proof. destruct o as [a|n|f]; intros Hw Hk; [by apply Hk|by apply Hw..]. Qed.

Lemma register_read_blames {B} c dst (k : Z → outcome B) why :
  core_ok c → 0 <= dst <= REG_RA → (∀ v, blames (k v) why) →
  blames (reg ← aget (regs c) dst; k reg) why.
Proof.
  intros Hc Hd Hk. rewrite aget_aread; [apply Hk|].
  rewrite (regs_length _ (core_regs _ Hc)). unfold NUM_REGISTERS, REG_RA in *. lia.
Qed.

Lemma mem_read_switch_fault c m :
  core_ok c → exmem_c_mem_read (ex_mem c) = true →
  blames (mem_read_switch c m (mem_latch (ex_mem c) (mem_wb c)) (ex_mem c)) (data_fault c m).
Proof.
  intros Hc Hr. pose proof (exmem_dst_ok _ (core_ex_mem _ Hc)) as Hd. pose proof (dst_ok_gpr _ _ Hd) as Hdst.
  pose proof (fault_load (A := mem_wb_t) c m) as Hload.
  pose proof (fault_load_around (A := mem_wb_t) c m) as Haround.
  unfold mem_read_switch. change (memwb_inst (mem_latch _ _)) with (exmem_inst (ex_mem c)).
  unfold load_size, one_of in *. cbn [existsb] in *.
  revert Hload Haround Hdst. generalize (GET_OPCODE (exmem_inst (ex_mem c))) as op. intros op Hload Haround Hdst.
  destruct (op =? OPCODE_LW); [|destruct (op =? OPCODE_LBU); [|destruct (op =? OPCODE_LHU)]].
  1-3: apply blames_bind; [intros r Hf; by apply (Hload r _ Hr eq_refl)|by intros [e v] _].
  - destruct (Z.eqb_spec op OPCODE_LWL) as [->|]; [|destruct (Z.eqb_spec op OPCODE_LWR) as [->|]; [|done]].
    + unfold mem_lwl. apply blames_bind; [intros r; by apply Haround|]. intros [e t] _.
      by apply register_read_blames; [|by apply Hdst|].
    + unfold mem_lwr. apply blames_bind; [intros r; by apply Haround|]. intros [e t] _.
      by apply register_read_blames; [|by apply Hdst|].
Qed.

Lemma mem_write_switch_fault c m :
  exmem_c_mem_write (ex_mem c) = true →
  blames (mem_write_switch c m (mem_latch (ex_mem c) (mem_wb c)) (ex_mem c)) (data_fault c m).
Proof.
  intros Hw.
  pose proof (fault_store (A := mem_wb_t * M) c m) as Hstore.
  pose proof (fault_store_around (A := mem_wb_t * M) c m) as Haround.
  pose proof (fault_merge (A := mem_wb_t * M) c m) as Hmerge.
  unfold mem_write_switch. change (memwb_inst (mem_latch _ _)) with (exmem_inst (ex_mem c)).
  unfold store_size, one_of in *. cbn [existsb] in *. unfold mem_swl, mem_swr, mem_store.
  revert Hstore Haround Hmerge. generalize (GET_OPCODE (exmem_inst (ex_mem c))) as op.
  intros op Hstore Haround Hmerge.
  destruct (op =? OPCODE_SW); [|destruct (op =? OPCODE_SB); [|destruct (op =? OPCODE_SH)]].
  1-3: apply blames_bind; [intros r Hf; by apply (Hstore r _ Hw eq_refl)|by intros [e v] _].
  destruct (Z.eqb_spec op OPCODE_SWL) as [->|]; [|destruct (Z.eqb_spec op OPCODE_SWR) as [->|]; [|done]].
  all: apply blames_bind; [intros r; by apply Haround|]; intros [e t] Ht;
    (apply blames_bind; [intros r; eapply Hmerge; eauto|by intros [e' m'] _]).
Qed.

Lemma fails_like_trans {A B C} (o1 : outcome A) (o2 : outcome B) (o3 : outcome C) :
  fails_like o1 o2 → fails_like o2 o3 → fails_like o1 o3.
Proof. destruct o1, o2, o3; cbn; try done; congruence. Qed.

Lemma data_fault_like {A B} c m (o : outcome A) (o' : outcome B) :
  fails_like o' o → data_fault c m o → data_fault c m o'.
Proof.
  intros Ho [sz ? ? Hf|? ? Hf|sz ? ? Hf|? ? Hf|e t v ? ? ? Hf]; pose proof (fails_like_trans _ _ _ Ho Hf);
    [by eapply fault_load|by eapply fault_load_around|by eapply fault_store
    |by eapply fault_store_around|by eapply fault_merge].
Qed.

Lemma blames_map {A B} c m (o : outcome A) (k : A → outcome B) :
  blames o (data_fault c m) → (∀ a, ∃ b, k a = Ret b) → blames (o ≫= k) (data_fault c m).
Proof.
  destruct o as [a|n|f]; intros Hf Hk; [by destruct (Hk a) as [b Hb]; cbn; rewrite Hb|..];
    by eapply data_fault_like; [|exact Hf].
Qed.

Lemma interpret_mem_fault c m :
  core_ok c →
  blames (interpret_mem c m) (λ o, exmem_exception (ex_mem c) = EXC_None ∧ data_fault c m o).
Proof.
  intros Hc. unfold interpret_mem. case_decide as He; [done|].
  assert (exmem_exception (ex_mem c) = EXC_None) as He' by (by destruct (exmem_exception (ex_mem c)); try done; destruct He).
  assert (∀ o : outcome (core_t * M), blames o (data_fault c m) →
    blames o (λ o, exmem_exception (ex_mem c) = EXC_None ∧ data_fault c m o)) as Hb by by intros [].
  destruct (exmem_c_mem_read (ex_mem c)) eqn:Hr; [|destruct (exmem_c_mem_write (ex_mem c)) eqn:Hw; [|done]];
    apply Hb, blames_map; [by apply mem_read_switch_fault|by eexists
    |by apply mem_write_switch_fault|by intros [w m']; eexists].
Qed.

Lemma interpret_if_fault c m :
  blames (interpret_if c m) (λ o, fails_like o (bus_read m (PC c) 0 MEM_OP_WORD)).
Proof.
  unfold interpret_if. apply blames_bind; [done|]. intros [e w] _. cbv zeta. by destruct (load_use_hazard _ _).
Qed.

Lemma interpret_id_PC c : PC (interpret_id c) = PC c.
Proof. unfold interpret_id. by case_decide. Qed.

(** One core. *)
Lemma tick_core_fault c m g :
  core_ok c → ok m → blames (tick_core c m g) (core_fault c m g).
Proof.
  intros Hc Hm. unfold tick_core. destruct (interpret_wb_ok c g Hc) as (c1 & g1 & Hwb & Hc1).
  rewrite Hwb. cbn [mbind outcome_bind].
  pose proof (interpret_mem_fault c1 m Hc1) as Hmem.
  destruct (interpret_mem c1 m) as [[c2 m2]|n|f] eqn:Em.
  - cbn [mbind outcome_bind]. pose proof (interpret_if_fault (interpret_id (interpret_ex c2)) m2) as Hif.
    rewrite interpret_id_PC in Hif.
    destruct (interpret_if _ _) as [c3|n|f]; [done|..]; exists c1, g1; (split; [done|]); right;
      exists c2, m2; by split.
  - exists c1, g1. split; [done|]. left. destruct Hmem as [He Hf]. split; [done|].
    by eapply data_fault_like; [|exact Hf].
  - exists c1, g1. split; [done|]. left. destruct Hmem as [He Hf]. split; [done|].
    by eapply data_fault_like; [|exact Hf].
Qed.

Lemma core_fault_like {A B} c m g (o : outcome A) (o' : outcome B) :
  fails_like o' o → core_fault c m g o → core_fault c m g o'.
Proof.
  intros Ho (c1 & g1 & Hwb & [[He Hf]|(c2 & m2 & Hmem & Hf)]); exists c1, g1; (split; [done|]).
  - left. split; [done|]. by eapply data_fault_like.
  - right. exists c2, m2. split; [done|]. by eapply fails_like_trans.
Qed.

(** All cores: the ones before the failing core have had their tick. *)
Lemma tick_cores_fault cs m g :
  Forall core_ok cs → ok m →
  blames (tick_cores cs m g) (λ o, ∃ i c cs' m' g',
    cs !! i = Some c ∧ tick_cores (take i cs) m g = Ret (cs', m', g') ∧ ok m' ∧ core_fault c m' g' o).
Proof.
  intros Hcs. revert m g. induction Hcs as [|c cs Hc _ IH]; intros m g Hm; cbn [tick_cores]; [done|].
  pose proof (tick_core_fault c m g Hc Hm) as Hf. pose proof (tick_core_yields (ok := ok) c m g Hc Hm) as Hy.
  destruct (tick_core c m g) as [[[c1 m1] g1]|n|f] eqn:Et; cbn [mbind outcome_bind].
  - destruct Hy as [_ Hm1]. cbn [fst snd] in Hm1. specialize (IH m1 g1 Hm1).
    destruct (tick_cores cs m1 g1) as [[[cs1 m2] g2]|n|f]; [done|..]; cbn in IH |- *;
      destruct IH as (i & c' & cs' & m' & g' & Hi & Hr & Hm' & Hcf);
      exists (S i), c', (c1 :: cs'), m', g'; (split; [done|]); cbn [take tick_cores]; rewrite Et;
      cbn [mbind outcome_bind]; rewrite Hr; (split; [done|]); (split; [done|]); by eapply core_fault_like; [|exact Hcf].
  - exists 0%nat, c, [], m, g. split_and!; [done..|]. by eapply core_fault_like; [|exact Hf].
  - exists 0%nat, c, [], m, g. split_and!; [done..|]. by eapply core_fault_like; [|exact Hf].
Qed.
End Faults.
