(* ===== verification/Isa.v ===== *)
(** * The instruction-set specification

    What the instructions of the simulated subset mean, one at a time: registers, a
    memory, a program counter and the address of the next instruction (the branch
    delay slot). Nothing here knows of the pipeline; Refine.v relates the two.

    Left out are the instructions the pipeline executes differently from the
    architecture (SUB, JAL, LL, SC and the unaligned stores) and the system ones. *)

From S2P Require Import Prelude Mips32 Cpu Bus.

(** ** Instructions *)

Inductive alu_op :=
  | AluAdd | AluSub | AluAnd | AluOr | AluNor | AluSlt | AluSltu | AluSll (shamt : Z)
  | AluSrl (shamt : Z) | AluSnd.

(** What a load reads: a datum of some size, or one of the two halves of an unaligned
    word, from the address to the end of its aligned word (LWL) or from the start of
    that word to the address (LWR). *)
Inductive load_kind := LoadAll (size : mem_op_size_t) | LoadLeft | LoadRight.

Inductive instr :=
  | IAlu (op : alu_op) (trap : bool) (rd : Z)             (** operands rs, rt *)
  | IAluImm (op : alu_op) (trap : bool) (imm rt : Z)      (** operands rs, [imm] *)
  | ILoad (kind : load_kind) (imm rt : Z)
  | IStore (size : mem_op_size_t) (imm : Z)
  | IBranch (on_equal : bool) (imm : Z)
  | IJump (target : Z)                                    (** a word index, 26 bits *)
  | IJumpReg
  | ISyscall.

(** [trap] is set for the instructions that trap on signed overflow. *)
Definition isa_decode_special (w : Z) : option instr :=
  let alu op trap := Some (IAlu op trap (GET_RD w)) in
  let f := GET_FUNCT w in
  if f =? FUNCT_ADD then alu AluAdd true
  else if f =? FUNCT_ADDU then alu AluAdd false
  else if f =? FUNCT_SUBU then alu AluSub false
  else if f =? FUNCT_AND then alu AluAnd false
  else if f =? FUNCT_OR then alu AluOr false
  else if f =? FUNCT_NOR then alu AluNor false
  else if f =? FUNCT_SLT then alu AluSlt false
  else if f =? FUNCT_SLTU then alu AluSltu false
  else if f =? FUNCT_SLL then alu (AluSll (GET_SHAMT w)) false
  else if f =? FUNCT_SRL then alu (AluSrl (GET_SHAMT w)) false
  else if f =? FUNCT_JR then Some IJumpReg
  else if f =? FUNCT_SYSCALL then Some ISyscall
  else None.

Definition isa_decode (w : Z) : option instr :=
  let zimm := GET_IMM w in
  let simm := SIGN_EXTEND (GET_IMM w) in
  let imm op trap v := Some (IAluImm op trap v (GET_RT w)) in
  let op := GET_OPCODE w in
  if op =? OPCODE_R then isa_decode_special w
  else if op =? OPCODE_J then Some (IJump (GET_ADDRESS w))
  else if op =? OPCODE_BEQ then Some (IBranch true simm)
  else if op =? OPCODE_BNE then Some (IBranch false simm)
  else if op =? OPCODE_ADDI then imm AluAdd true simm
  else if op =? OPCODE_ADDIU then imm AluAdd false simm
  else if op =? OPCODE_SLTI then imm AluSlt false simm
  else if op =? OPCODE_SLTIU then imm AluSltu false simm
  else if op =? OPCODE_ANDI then imm AluAnd false zimm
  else if op =? OPCODE_ORI then imm AluOr false zimm
  else if op =? OPCODE_LUI then imm AluSnd false (zimm * 2 ^ 16)
  else if op =? OPCODE_LW then Some (ILoad (LoadAll MEM_OP_WORD) simm (GET_RT w))
  else if op =? OPCODE_LBU then Some (ILoad (LoadAll MEM_OP_BYTE) simm (GET_RT w))
  else if op =? OPCODE_LHU then Some (ILoad (LoadAll MEM_OP_HALF) simm (GET_RT w))
  else if op =? OPCODE_LWL then Some (ILoad LoadLeft simm (GET_RT w))
  else if op =? OPCODE_LWR then Some (ILoad LoadRight simm (GET_RT w))
  else if op =? OPCODE_SW then Some (IStore MEM_OP_WORD simm)
  else if op =? OPCODE_SB then Some (IStore MEM_OP_BYTE simm)
  else if op =? OPCODE_SH then Some (IStore MEM_OP_HALF simm)
  else None.

(** ** Meaning of the operations, on unsigned words *)

Definition alu_value (op : alu_op) (a b : Z) : Z :=
  match op with
  | AluAdd => (a + b) mod 2 ^ 32
  | AluSub => (a - b) mod 2 ^ 32
  | AluAnd => Z.land a b
  | AluOr => Z.lor a b
  | AluNor => 2 ^ 32 - 1 - Z.lor a b
  | AluSlt => if s32 a <? s32 b then 1 else 0
  | AluSltu => if a <? b then 1 else 0
  | AluSll n => (b * 2 ^ n) mod 2 ^ 32
  | AluSrl n => b / 2 ^ n
  | AluSnd => b
  end.

(** The signed sum of two words is a signed word. *)
Definition sum_fits (a b : Z) : bool :=
  (INT_MIN <=? s32 a + s32 b) && (s32 a + s32 b <=? INT_MAX).

(** A register with value [old] after LWL or LWR of the aligned word [t], [k] bytes
    behind its start: the last [4 - k] bytes of [t] in front of the last [k] of [old], or
    the first [k + 1] bytes of [t] behind the first [3 - k] of [old]. *)
Definition merge_left (k t old : Z) : Z := (t * 2 ^ (8 * k)) mod 2 ^ 32 + old mod 2 ^ (8 * k).

Definition merge_right (k t old : Z) : Z :=
  old / 2 ^ (8 * (k + 1)) * 2 ^ (8 * (k + 1)) + t / 2 ^ (8 * (3 - k)).

(** What an instruction does to the registers and the memory. *)
Inductive uop :=
  | UNone
  | UWrite (r v : Z)
  | ULoad (kind : load_kind) (r addr : Z)
  | UStore (size : mem_op_size_t) (addr v : Z).

(** [exec i pc a b], with [a] and [b] the values of the rs and rt registers: the
    effect and, for a transfer of control, its target. [None] is a trap. *)
Definition exec (i : instr) (pc a b : Z) : option (uop * option Z) :=
  let pc4 := (pc + 4) mod 2 ^ 32 in
  match i with
  | IAlu op trap rd =>
    if trap && negb (sum_fits a b) then None else Some (UWrite rd (alu_value op a b), None)
  | IAluImm op trap imm rt =>
    let imm := imm mod 2 ^ 32 in
    if trap && negb (sum_fits a imm) then None else Some (UWrite rt (alu_value op a imm), None)
  | ILoad kind imm rt => Some (ULoad kind rt ((a + imm) mod 2 ^ 32), None)
  | IStore size imm => Some (UStore size ((a + imm) mod 2 ^ 32) b, None)
  | IBranch on_equal imm =>
    Some (UNone, if Bool.eqb (a =? b) on_equal then Some ((pc4 + imm * 4) mod 2 ^ 32) else None)
  | IJump target => Some (UNone, Some (pc4 / 2 ^ 28 * 2 ^ 28 + target * 4))
  | IJumpReg => Some (UNone, Some a)
  | ISyscall => None
  end.

(** The executions on which the pipeline raises no spurious overflow: it checks the
    address sum of a load or store, and the sum of the two register operands of a
    branch or jump, as if they were an ADD. *)
Definition quiet (i : instr) (a b : Z) : bool :=
  match i with
  | ILoad _ imm _ | IStore _ imm => sum_fits a imm
  | IBranch _ _ | IJump _ | IJumpReg => sum_fits a b
  | _ => true
  end.

(** ** The machine *)

Section Isa.
Context {M : Type} `{Bus M}.

(** The program: the words at the addresses that are executed. It is not modified. *)
Variable code : Z → option Z.

Definition code_ok (m : M) : Prop :=
  ∀ a w, code a = Some w →
    u32 w ∧ ∀ dst, u32 dst → bus_read m a dst MEM_OP_WORD = Ret (EXC_None, w).

Record isa_state := IsaState { isa_regs : Z → Z; isa_mem : M; isa_pc : Z; isa_npc : Z }.

Definition rset (R : Z → Z) (r v : Z) : Z → Z :=
  λ x, if x =? r then if r =? 0 then 0 else v else R x.

(** [t] is the aligned word around the address. *)
Definition word_around (m : M) (addr t : Z) : Prop :=
  u32 t ∧ bus_read m (addr - addr mod 4) 0 MEM_OP_WORD = Ret (EXC_None, t).

(** The value a load gives a register that holds [old]. A datum read is the same
    whatever the destination of the access held before. *)
Inductive load_value (m : M) (addr old : Z) : load_kind → Z → Prop :=
  | load_all size v :
      (∀ dst, u32 dst → bus_read m addr dst size = Ret (EXC_None, v)) →
      load_value m addr old (LoadAll size) v
  | load_left t :
      word_around m addr t → load_value m addr old LoadLeft (merge_left (addr mod 4) t old)
  | load_right t :
      word_around m addr t → load_value m addr old LoadRight (merge_right (addr mod 4) t old).

Inductive uop_step : uop → (Z → Z) → M → (Z → Z) → M → Prop :=
  | step_none R m : uop_step UNone R m R m
  | step_write R m r v : uop_step (UWrite r v) R m (rset R r v) m
  | step_load R m kind r addr v :
      0 <= r < 32 → load_value m addr (R r) kind v →
      uop_step (ULoad kind r addr) R m (rset R r v) m
  | step_store R m size addr v m' :
      bus_write m addr v size = Ret (EXC_None, m') →
      uop_step (UStore size addr v) R m R m'.

(** One instruction: the next one executed is that of the delay slot. *)
Inductive isa_step : isa_state → isa_state → Prop :=
  | isa_step_intro R m pc npc w i u target R' m' :
      code pc = Some w → isa_decode w = Some i →
      exec i pc (R (GET_RS w)) (R (GET_RT w)) = Some (u, target) →
      quiet i (R (GET_RS w)) (R (GET_RT w)) = true →
      uop_step u R m R' m' → code_ok m' →
      isa_step (IsaState R m pc npc)
               (IsaState R' m' npc (default ((npc + 4) mod 2 ^ 32) target)).

Inductive isa_steps : nat → isa_state → isa_state → Prop :=
  | isa_steps_O s : isa_steps O s s
  | isa_steps_S n s1 s2 s3 : isa_step s1 s2 → isa_steps n s2 s3 → isa_steps (S n) s1 s3.
End Isa.
