(* ===== verification/Merge.v ===== *)
(** * The merges of LWL and LWR (src/sim.c: interpret_mem) as arithmetic

    The masks and shifts of the memory stage against [merge_left] and [merge_right], the
    quotients and remainders of the instruction-set specification. *)

From S2P Require Import Prelude Mips32 Cpu Bus Memstage Wellformed Isa.

Lemma mask_right_ones s : 0 <= s <= 32 → mask_right s = Z.ones (32 - s).
Proof.
  intros Hs. unfold mask_right. destruct (Z.leb_spec 32 s) as [Hle|Hlt].
  - by replace s with 32 by lia.
  - change 0xffffffff with (Z.ones 32). by rewrite Z.shiftr_div_pow2, Z.ones_div_pow2 by lia.
Qed.

Lemma mask_left_ones s : 0 <= s <= 32 → mask_left s = Z.shiftl (Z.ones (32 - s)) s.
Proof.
  intros Hs. unfold mask_left. destruct (Z.leb_spec 32 s) as [Hle|Hlt].
  - by replace s with 32 by lia.
  - change 0xffffffff with (Z.ones 32). unfold wrap32. rewrite <-Z.land_ones by lia.
    apply Z.bits_inj'. intros k Hk. rewrite Z.land_spec, !Z.shiftl_spec by lia.
    destruct (Z.ltb_spec k s); [by rewrite !(Z.testbit_neg_r _ (k - s)) by lia|].
    destruct (Z.ltb_spec k 32).
    + by rewrite (Z.ones_spec_low 32), (Z.ones_spec_low 32), (Z.ones_spec_low (32 - s)) by lia.
    + by rewrite (Z.ones_spec_high 32 k), (Z.ones_spec_high (32 - s)), andb_false_r by lia.
Qed.

(** The mask of the high bits clears the low ones. *)
Lemma land_high_mask n x :
  0 <= n <= 32 → u32 x → Z.land x (Z.shiftl (Z.ones (32 - n)) n) = x / 2 ^ n * 2 ^ n.
Proof.
  unfold u32. intros Hn Hx. rewrite <-Z.shiftr_div_pow2, <-Z.shiftl_mul_pow2 by lia.
  apply Z.bits_inj'. intros k Hk. rewrite Z.land_spec, !Z.shiftl_spec by lia.
  destruct (Z.ltb_spec k n); [rewrite !(Z.testbit_neg_r _ (k - n)) by lia; apply andb_false_r|].
  rewrite Z.shiftr_spec by lia. replace (k - n + n) with k by lia.
  destruct (Z.ltb_spec k 32).
  - rewrite Z.ones_spec_low by lia. apply andb_true_r.
  - by rewrite (bits_above 32 x k) by lia.
Qed.

(** The address of the aligned word. *)
Lemma word_addr_align a : u32 a → word_addr a = a - a mod 4.
Proof.
  intros Ha. unfold word_addr. change 0xfffffffc with (Z.shiftl (Z.ones (32 - 2)) 2).
  rewrite land_high_mask by (done || lia). change (2 ^ 2) with 4. Z.div_mod_to_equations. lia.
Qed.

Lemma byte_shift_mod a : byte_shift a = 8 * (a mod 4) ∧ 0 <= a mod 4 < 4.
Proof.
  unfold byte_shift. rewrite (land_mask_mod 2 a ltac:(lia) : Z.land a 3 = a mod 4).
  pose proof (Z.mod_pos_bound a 4 ltac:(lia)). lia.
Qed.

Lemma lwl_data_merge reg t a : lwl_data reg t a = merge_left (a mod 4) t reg.
Proof.
  unfold lwl_data, merge_left. cbv zeta. destruct (byte_shift_mod a) as [-> Hk].
  set (k := a mod 4) in *. rewrite mask_right_ones by lia.
  replace (32 - (32 - 8 * k)) with (8 * k) by lia.
  rewrite Z.land_ones, Z.lor_comm by lia. unfold wrap32.
  assert ((Z.shiftl t (8 * k)) mod 2 ^ 32 = Z.shiftl (t mod 2 ^ (32 - 8 * k)) (8 * k)) as E.
  { rewrite !Z.shiftl_mul_pow2 by lia. replace (2 ^ 32) with (2 ^ (32 - 8 * k) * 2 ^ (8 * k)).
    - rewrite Z.mul_mod_distr_r by (apply Z.pow_nonzero; lia). done.
    - rewrite <-Z.pow_add_r by lia. f_equal. lia. }
  rewrite <-Z.shiftl_mul_pow2, E by lia. rewrite (Z.shiftl_mul_pow2 _ (8 * k)) by lia.
  rewrite <-lor_shiftl_add, Z.shiftl_mul_pow2; lia || by apply Z.mod_pos_bound; lia.
Qed.

Lemma lwr_data_merge reg t a :
  u32 reg → u32 t → lwr_data reg t a = merge_right (a mod 4) t reg.
Proof.
  unfold u32, lwr_data, merge_right. intros Hr Ht. cbv zeta.
  destruct (byte_shift_mod a) as [-> Hk]. set (k := a mod 4) in *.
  rewrite mask_left_ones by lia. replace (8 + 8 * k) with (8 * (k + 1)) by lia.
  rewrite land_high_mask, <-Z.shiftl_mul_pow2, Z.shiftr_div_pow2 by (done || lia).
  replace (24 - 8 * k) with (8 * (3 - k)) by lia.
  assert (0 <= t / 2 ^ (8 * (3 - k)) < 2 ^ (8 * (k + 1))) as Hs.
  { split; [apply Z.div_pos; lia|]. apply Z.div_lt_upper_bound; [lia|].
    rewrite <-Z.pow_add_r by lia. replace (8 * (3 - k) + 8 * (k + 1)) with 32 by lia. lia. }
  rewrite lor_shiftl_add by (done || lia). by rewrite Z.shiftl_mul_pow2 by lia.
Qed.
