(* ===== verification/Unaligned.v ===== *)
(** * Theorems on the unaligned accesses (src/sim.c: interpret_mem, LWL, LWR, SWL, SWR)

    Words are compared through their big-endian digits: the bytes at ascending
    addresses. *)

From S2P Require Import Prelude Mips32 Cpu Bus Mem MemProps MemTheorems Memstage Wellformed Isa.
From S2P Require Import Merge.
From coqutil Require Import Z.bitblast.
From Stdlib Require Import Btauto.

(** ** The merges, byte by byte *)

(** The offset of an address in its word. *)
Definition word_offset (a : Z) : nat := Z.to_nat (Z.land a 3).

Lemma be_digits_4 x :
  be_digits 4 x = [wrap8 (Z.shiftr x 24); wrap8 (Z.shiftr x 16); wrap8 (Z.shiftr x 8); wrap8 (Z.shiftr x 0)].
Proof. unfold wrap8. rewrite !Z.shiftr_div_pow2 by lia. reflexivity. Qed.

Lemma word_offset_cases a :
  ∃ k, k ∈ [0; 1; 2; 3]%nat ∧ word_offset a = k ∧ byte_shift a = 8 * Z.of_nat k.
Proof.
  pose proof (land_mask_range 2 a ltac:(lia) : 0 <= Z.land a 3 < 4).
  exists (word_offset a). unfold word_offset, byte_shift. split; [|split; [done|lia]].
  assert (Z.land a 3 = 0 ∨ Z.land a 3 = 1 ∨ Z.land a 3 = 2 ∨ Z.land a 3 = 3) as
    [-> | [-> | [-> | ->]]] by lia; cbn; repeat constructor.
Qed.

(** Case analysis on the offset, then byte by byte, bit by bit. *)
Ltac merge_cases a :=
  let k := fresh "k" in let Hk := fresh in let Hs := fresh in let Hr := fresh in
  destruct (word_offset_cases a) as (k & Hk & -> & Hs);
  assert (0 <= 8 * Z.of_nat k <= 24) as Hr
    by (rewrite !elem_of_cons, elem_of_nil in Hk; lia);
  rewrite ?Hs, ?mask_right_ones, ?mask_left_ones by lia; clear Hs Hr;
  rewrite !be_digits_4;
  repeat (apply elem_of_cons in Hk as [->|Hk]; [|]); [..|by apply elem_of_nil in Hk];
  unfold wrap8, wrap32;
  repeat match goal with |- context [8 * Z.of_nat ?n] =>
    let v := eval vm_compute in (8 * Z.of_nat n) in change (8 * Z.of_nat n) with v end;
  cbn [Nat.sub drop take app]; repeat apply (f_equal2 cons); try reflexivity; Z.bitblast;
  repeat match goal with |- context [Z.testbit ?x ?n] =>
    first [rewrite (Z.testbit_neg_r x n) by lia | rewrite (bits_above 32 x n) by (assumption || lia)] end;
  btauto.

(** LWL puts the bytes from the address to the end of its word in front of the register's
    last ones; LWR the bytes from the start of the word to the address behind the
    register's first ones. *)
Lemma lwl_data_digits reg t a :
  u32 reg → u32 t →
  be_digits 4 (lwl_data reg t a) =
    drop (word_offset a) (be_digits 4 t) ++ drop (4 - word_offset a) (be_digits 4 reg).
Proof. unfold u32, lwl_data. cbv zeta. intros Hr Ht. merge_cases a. Qed.

Lemma lwr_data_digits reg t a :
  u32 reg → u32 t →
  be_digits 4 (lwr_data reg t a) =
    take (3 - word_offset a) (be_digits 4 reg) ++ take (1 + word_offset a) (be_digits 4 t).
Proof. unfold u32, lwr_data. cbv zeta. intros Hr Ht. merge_cases a. Qed.

(** SWR puts the register's last bytes at the start of the word, up to the address. *)
Lemma swr_data_digits reg t a :
  u32 reg → u32 t →
  be_digits 4 (swr_data reg t a) =
    drop (3 - word_offset a) (be_digits 4 reg) ++ drop (1 + word_offset a) (be_digits 4 t).
Proof. unfold u32, swr_data. cbv zeta. intros Hr Ht. merge_cases a. Qed.

(** SWL should put the register's first bytes at the address, up to the end of the word;
    the word is then shifted right once more. *)
Lemma swl_data_digits reg t a :
  u32 reg → u32 t →
  be_digits 4 (swl_data reg t a) =
    replicate (3 - word_offset a) 0 ++
    take (1 + word_offset a)
      (take (word_offset a) (be_digits 4 t) ++ take (4 - word_offset a) (be_digits 4 reg)).
Proof. unfold u32, swl_data. cbv zeta. intros Hr Ht. merge_cases a. Qed.

(** ** Numerals and slices of memory *)

Lemma be_digits_mod n x y :
  x mod 2 ^ (8 * Z.of_nat n) = y mod 2 ^ (8 * Z.of_nat n) → be_digits n x = be_digits n y.
Proof.
  revert x y. induction n as [|n IH]; intros x y; [done|]. cbn [be_digits].
  replace (8 * Z.of_nat (S n)) with (8 * Z.of_nat n + 8) by lia.
  rewrite Z.pow_add_r by lia. set (M := 2 ^ (8 * Z.of_nat n)). assert (0 < M) by (unfold M; lia).
  rewrite !Z.rem_mul_r by lia. intros He.
  destruct (Z.div_mod_unique M ((x / M) mod 2 ^ 8) ((y / M) mod 2 ^ 8) (x mod M) (y mod M))
    as [Hq Hr].
  - left. apply Z.mod_pos_bound. lia.
  - left. apply Z.mod_pos_bound. lia.
  - lia.
  - f_equal; [exact Hq|]. by apply IH.
Qed.

Lemma be_digits_value bs : Forall u8 bs → be_digits (length bs) (be_value bs) = bs.
Proof.
  intros Hb. induction Hb as [|b bs Hb Hbs IH]; [done|]. cbn [length be_digits be_value].
  pose proof (be_value_range bs Hbs) as Hr. unfold u8 in Hb. f_equal.
  - rewrite Z.div_add_l by lia. rewrite (Z.div_small (be_value bs)) by lia.
    rewrite Z.add_0_r. apply Z.mod_small. lia.
  - etransitivity; [|exact IH]. apply be_digits_mod. by rewrite Z.add_comm, Z.mod_add by lia.
Qed.

Lemma be_digits_inj x y : u32 x → u32 y → be_digits 4 x = be_digits 4 y → x = y.
Proof.
  unfold u32. intros Hx Hy He. apply (f_equal be_value) in He. rewrite !be_value_digits in He.
  change (2 ^ (8 * Z.of_nat 4)) with (2 ^ 32) in He. by rewrite !Z.mod_small in He by lia.
Qed.

Lemma bytes_at_app p off n n' :
  bytes_at p off (n + n') = bytes_at p off n ++ bytes_at p (off + Z.of_nat n) n'.
Proof.
  revert off. induction n as [|n IH]; intros off; cbn [Nat.add bytes_at app].
  - by replace (off + Z.of_nat 0) with off by lia.
  - rewrite IH. by replace (off + 1 + Z.of_nat n) with (off + Z.of_nat (S n)) by lia.
Qed.

Lemma drop_bytes_at p off n n' : drop n (bytes_at p off (n + n')) = bytes_at p (off + Z.of_nat n) n'.
Proof. rewrite bytes_at_app. apply drop_app_length'. by rewrite bytes_at_length. Qed.

Lemma take_bytes_at p off n n' : take n (bytes_at p off (n + n')) = bytes_at p off n.
Proof. rewrite bytes_at_app. apply take_app_length'. by rewrite bytes_at_length. Qed.

Lemma word_value_u32 m off : mmu_ok m → u32 (be_value (bytes_at (pmem m) off 4)).
Proof.
  intros Hm. pose proof (be_value_range _ (bytes_at_u8 _ off 4 (ok_bytes m Hm))) as Hr.
  rewrite bytes_at_length in Hr. exact Hr.
Qed.

Lemma word_value_digits m off :
  mmu_ok m → be_digits 4 (be_value (bytes_at (pmem m) off 4)) = bytes_at (pmem m) off 4.
Proof.
  intros Hm. pose proof (be_digits_value _ (bytes_at_u8 _ off 4 (ok_bytes m Hm))) as Hd.
  by rewrite bytes_at_length in Hd.
Qed.

(** ** Loads *)

Lemma word_addr_eq a : u32 a → word_addr a = a - Z.of_nat (word_offset a).
Proof.
  intros Ha. rewrite word_addr_align by done. unfold word_offset.
  rewrite (land_mask_mod 2 a ltac:(lia) : Z.land a 3 = a mod 4).
  pose proof (Z.mod_pos_bound a 4 ltac:(lia)). lia.
Qed.

(** The address [v] of the first kernel segment with [n] bytes behind it in memory. *)
Definition kseg0_span (m : mmu_t) (v n : Z) : Prop :=
  KSEG0_VSTART <= v ∧ v + n <= KSEG0_VSTART + KSEG0_SIZE ∧
  v + n <= KSEG0_VSTART + wrap32 (pmem_len m / 8).

Lemma word_offset_small a : (word_offset a < 4)%nat.
Proof.
  destruct (word_offset_cases a) as (k & Hk & -> & _).
  rewrite !elem_of_cons, elem_of_nil in Hk. lia.
Qed.

(** The aligned word around an address of the first kernel segment. *)
Definition around (m : mmu_t) (v : Z) : Z :=
  be_value (bytes_at (pmem m) (v - KSEG0_VSTART - Z.of_nat (word_offset v)) 4).

Lemma mmu_read_word_around m v dst :
  mmu_ok m → kseg0_span m v 1 →
  mmu_read m (word_addr v) dst MEM_OP_WORD =
    Ret (EXC_None, around m v).
Proof.
  unfold kseg0_span, around, KSEG0_VSTART, KSEG0_SIZE. intros Hm (H1 & H2 & H3).
  assert (Z.of_nat (word_offset v) = v mod 4) as Ho.
  { unfold word_offset. rewrite (land_mask_mod 2 v ltac:(lia) : Z.land v 3 = v mod 4).
    apply Z2Nat.id. apply Z.mod_pos_bound. lia. }
  rewrite word_addr_eq, Ho by (unfold u32; lia).
  assert (0x80000000 <= v - v mod 4) by (clear H3; Z.div_mod_to_equations; lia).
  pose proof (Z.mod_pos_bound v 4 ltac:(lia)).
  rewrite mmu_read_kseg0; [|done|lia..].
  cbn [op_bytes]. do 4 f_equal. lia.
Qed.

Lemma mem_lwl_spec c m w x v reg :
  mmu_ok m → exmem_alu_res x = v → kseg0_span m v 1 → aget (regs c) (exmem_reg_dst x) = Ret reg →
  mem_lwl c m w x = Ret (w <| memwb_exception := EXC_None |> <| memwb_read_data :=
    lwl_data reg (around m v) v |>).
Proof.
  intros Hm <- Hs Hr. unfold mem_lwl. cbn [bus_read mmu_bus].
  rewrite mmu_read_word_around by done. cbn [mbind outcome_bind]. by rewrite Hr.
Qed.

Lemma mem_lwr_spec c m w x v reg :
  mmu_ok m → exmem_alu_res x = v → kseg0_span m v 1 → aget (regs c) (exmem_reg_dst x) = Ret reg →
  mem_lwr c m w x = Ret (w <| memwb_exception := EXC_None |> <| memwb_read_data :=
    lwr_data reg (around m v) v |>).
Proof.
  intros Hm <- Hs Hr. unfold mem_lwr. cbn [bus_read mmu_bus].
  rewrite mmu_read_word_around by done. cbn [mbind outcome_bind]. by rewrite Hr.
Qed.

Lemma word_offset_add3 v :
  0 <= v → word_offset (v + 3) = if (word_offset v =? 0)%nat then 3%nat else (word_offset v - 1)%nat.
Proof.
  intros Hv. unfold word_offset.
  rewrite (land_mask_mod 2 v ltac:(lia) : Z.land v 3 = v mod 4),
    (land_mask_mod 2 (v + 3) ltac:(lia) : Z.land (v + 3) 3 = (v + 3) mod 4).
  destruct (Nat.eqb_spec (Z.to_nat (v mod 4)) 0); Z.div_mod_to_equations; lia.
Qed.

(** The bytes that the two halves of an unaligned load put together. *)
Lemma unaligned_digits p off k (reg : list Z) :
  (0 < k < 4)%nat →
  take (4 - k) (drop k (bytes_at p (off - Z.of_nat k) 4) ++ reg) ++
    take k (bytes_at p (off + 4 - Z.of_nat k) 4) = bytes_at p off 4.
Proof.
  intros Hk. replace 4%nat with (k + (4 - k))%nat at 2 3 by lia.
  rewrite drop_bytes_at, take_bytes_at.
  rewrite take_app_length' by by rewrite bytes_at_length.
  replace (off - Z.of_nat k + Z.of_nat k) with off by lia.
  replace (off + 4 - Z.of_nat k) with (off + Z.of_nat (4 - k)) by lia.
  rewrite <-bytes_at_app. f_equal. lia.
Qed.

(** The two merges give the word at the address. *)
Lemma lwr_lwl_data m v reg :
  mmu_ok m → 0 <= v → u32 reg →
  lwr_data (lwl_data reg (around m v) v) (around m (v + 3)) (v + 3) =
    be_value (bytes_at (pmem m) (v - KSEG0_VSTART) 4).
Proof.
  intros Hm Hv Hreg. unfold around.
  apply be_digits_inj; [apply lwr_data_u32; [apply lwl_data_u32|]|..]; try by apply word_value_u32.
  { exact Hreg. }
  rewrite lwr_data_digits, lwl_data_digits, !word_value_digits by
    (try apply lwl_data_u32; try apply word_value_u32; done).
  rewrite word_offset_add3 by done. set (off := v - KSEG0_VSTART).
  pose proof (word_offset_small v). destruct (Nat.eqb_spec (word_offset v) 0) as [E|E].
  - change (take (3 - 3) ?l) with (@nil Z). change (1 + 3)%nat with 4%nat. cbn [app].
    rewrite take_ge by (rewrite bytes_at_length; lia). f_equal. unfold off. lia.
  - replace (3 - (word_offset v - 1))%nat with (4 - word_offset v)%nat by lia.
    replace (1 + (word_offset v - 1))%nat with (word_offset v) by lia.
    rewrite <-(unaligned_digits (pmem m) off (word_offset v) (drop (4 - word_offset v) (be_digits 4 reg)))
      by lia.
    do 3 f_equal. unfold off. lia.
Qed.

Lemma kseg0_span_ends m v :
  kseg0_span m v 4 → kseg0_span m v 1 ∧ kseg0_span m (v + 3) 1 ∧ 0 <= v.
Proof. intros (? & ? & ?). unfold kseg0_span, KSEG0_VSTART in *. lia. Qed.

(** In the specification, LWL at an address and LWR three bytes further load the word at
    that address. *)
Lemma load_halves m v old :
  mmu_ok m → kseg0_span m v 4 → u32 old →
  ∃ x, load_value m v old LoadLeft x ∧
    load_value m (v + 3) x LoadRight (be_value (bytes_at (pmem m) (v - KSEG0_VSTART) 4)).
Proof.
  intros Hm Hs Hold. destruct (kseg0_span_ends m v Hs) as (Hs1 & Hs3 & Hv).
  assert (∀ a, kseg0_span m a 1 → word_around m a (around m a)) as Ha.
  { intros a Ha. split; [by apply word_value_u32|].
    rewrite <-word_addr_align by (destruct Ha as (? & ? & _);
      unfold u32, KSEG0_VSTART, KSEG0_SIZE in *; lia).
    by apply mmu_read_word_around. }
  rewrite <-(lwr_lwl_data m v old Hm Hv Hold), lwr_data_merge, lwl_data_merge.
  - eexists. split; constructor; by apply Ha.
  - apply lwl_data_u32; [done|by apply word_value_u32].
  - by apply word_value_u32.
Qed.

(** C18: LWL at an address and LWR three bytes further, into the same register, load the
    word at that address whatever its alignment: the four bytes from the address on, in
    big-endian order, with nothing left of the register's old value. *)
Theorem unaligned_load c m w x c' w' x' v reg :
  mmu_ok m → kseg0_span m v 4 → u32 reg →
  exmem_alu_res x = v → aget (regs c) (exmem_reg_dst x) = Ret reg →
  exmem_alu_res x' = v + 3 →
  ∃ w1, mem_lwl c m w x = Ret w1 ∧ memwb_exception w1 = EXC_None ∧
    (aget (regs c') (exmem_reg_dst x') = Ret (memwb_read_data w1) →
     ∃ w2, mem_lwr c' m w' x' = Ret w2 ∧ memwb_exception w2 = EXC_None ∧
       memwb_read_data w2 = be_value (bytes_at (pmem m) (v - KSEG0_VSTART) 4)).
Proof.
  intros Hm Hs Hreg Hx Hr Hx'.
  destruct (kseg0_span_ends m v Hs) as (Hs1 & Hs3 & Hv).
  eexists. split; [by eapply mem_lwl_spec|]. split; [done|]. cbn [memwb_read_data update].
  intros Hr'. eexists. split; [by eapply mem_lwr_spec|]. split; [done|].
  exact (lwr_lwl_data m v reg Hm Hv Hreg).
Qed.

(** A core with 0xAABBCCDD in $t1, and the load [lwl $t1, ...] at an odd address. *)
Definition unaligned_core (v : Z) : core_t :=
  zero_core <| regs := <[Z.to_nat 9 := v]> (regs zero_core) |>.
Definition unaligned_op (v : Z) : ex_mem_t :=
  zero_ex_mem <| exmem_reg_dst := 9 |> <| exmem_alu_res := v |>.
Definition unaligned_memory : mmu_t :=
  small_mmu <| pmem := bytes_put ∅ 16 [1; 2; 3; 4; 5; 6; 7; 8] |>.

Lemma unaligned_memory_ok : mmu_ok unaligned_memory.
Proof.
  apply (mmu_ok_put small_mmu 16); [exact small_mmu_ok|]. repeat constructor; vm_compute; congruence.
Qed.

Lemma unaligned_span : kseg0_span unaligned_memory 0x80000011 4.
Proof. split; [|split]; vm_compute; congruence. Qed.

Lemma unaligned_load_witness :
  ∃ w1, mem_lwl (unaligned_core 0xAABBCCDD) unaligned_memory zero_mem_wb (unaligned_op 0x80000011)
      = Ret w1 ∧
    ∃ w2, mem_lwr (unaligned_core 0x020304DD) unaligned_memory zero_mem_wb
        (unaligned_op 0x80000014) = Ret w2 ∧ memwb_read_data w2 = 0x02030405.
Proof.
  destruct (unaligned_load (unaligned_core 0xAABBCCDD) unaligned_memory zero_mem_wb
    (unaligned_op 0x80000011) (unaligned_core 0x020304DD) zero_mem_wb (unaligned_op 0x80000014)
    0x80000011 0xAABBCCDD unaligned_memory_ok unaligned_span ltac:(unfold u32; lia) eq_refl
    eq_refl eq_refl) as (w1 & H1 & _ & H2).
  exists w1. split; [exact H1|]. destruct H2 as (w2 & H2 & _ & H3).
  - vm_compute in H1. injection H1 as <-. vm_compute. reflexivity.
  - exists w2. split; [exact H2|]. rewrite H3. vm_compute. reflexivity.
Defined.

(** ** Stores *)

(** The word around an address is replaced. *)
Lemma mem_store_word_around m w v x :
  mmu_ok m → kseg0_span m v 1 → u32 x →
  let base := v - KSEG0_VSTART - Z.of_nat (word_offset v) in
  ∃ m', mem_store m w (word_addr v) x MEM_OP_WORD = Ret (w <| memwb_exception := EXC_None |>, m') ∧
    mmu_ok m' ∧ bytes_at (pmem m') base 4 = be_digits 4 x ∧
    ∀ o, o < base ∨ base + 4 <= o → pmem m' !! o = pmem m !! o.
Proof.
  intros Hm (H1 & H2 & H3) Hx base. unfold KSEG0_VSTART, KSEG0_SIZE in *.
  assert (Z.of_nat (word_offset v) = v mod 4) as Ho.
  { unfold word_offset. rewrite (land_mask_mod 2 v ltac:(lia) : Z.land v 3 = v mod 4).
    apply Z2Nat.id. apply Z.mod_pos_bound. lia. }
  assert (0x80000000 <= v - v mod 4) by (clear H3; Z.div_mod_to_equations; lia).
  pose proof (Z.mod_pos_bound v 4 ltac:(lia)).
  assert (host_offset m (word_addr v) = Some base) as Hb.
  { rewrite word_addr_eq, host_offset_kseg0, (proj2 (Z.ltb_lt _ _)) by (done || unfold u32; lia).
    f_equal. unfold base. lia. }
  unfold mem_store. cbn [bus_write mmu_bus].
  rewrite mmu_write_memory, Hb by
    (done || rewrite word_addr_eq by (unfold u32; lia); unfold IO_DESCRIPTOR_AREA; lia).
  cbn [mbind outcome_bind op_bytes]. eexists. split; [reflexivity|].
  split; [apply mmu_ok_put; [done|apply be_digits_u8]|]. cbn [pmem update]. split.
  - rewrite <-(be_digits_length 4 x) at 2. apply bytes_at_put.
  - intros o Hout. apply bytes_put_lookup_ne. rewrite be_digits_length. lia.
Qed.

(** C39: the unaligned stores on the word around the address, byte by byte, everything
    outside it unchanged: SWR stores the register's last bytes at the start of the word,
    up to the address, and keeps the others; SWL should keep the bytes below the address
    and store the register's first bytes from there on, but the merged word is then
    shifted right, so the stored bytes are right only for the last byte of the word. *)
Theorem unaligned_store c m w x v :
  mmu_ok m → regs_ok c → kseg0_span m v 1 → exmem_alu_res x = v →
  let k := word_offset v in
  let base := v - KSEG0_VSTART - Z.of_nat k in
  let reg := be_digits 4 (aread (regs c) (GET_RT (exmem_inst x))) in
  let old := bytes_at (pmem m) base 4 in
  (∃ w' m', mem_swr c m w x = Ret (w', m') ∧ memwb_exception w' = EXC_None ∧ mmu_ok m' ∧
     bytes_at (pmem m') base 4 = drop (3 - k) reg ++ drop (1 + k) old ∧
     ∀ o, o < base ∨ base + 4 <= o → pmem m' !! o = pmem m !! o) ∧
  (∃ w' m', mem_swl c m w x = Ret (w', m') ∧ memwb_exception w' = EXC_None ∧ mmu_ok m' ∧
     bytes_at (pmem m') base 4 =
       replicate (3 - k) 0 ++ take (1 + k) (take k old ++ take (4 - k) reg) ∧
     ∀ o, o < base ∨ base + 4 <= o → pmem m' !! o = pmem m !! o).
Proof.
  intros Hm Hr Hs <-. cbv zeta. set (v := exmem_alu_res x) in *.
  assert (u32 (aread (regs c) (GET_RT (exmem_inst x)))) as Hu by by apply regs_read.
  unfold mem_swr, mem_swl. cbn [bus_read mmu_bus]. fold v.
  rewrite mmu_read_word_around by done. cbn [mbind outcome_bind].
  set (base := v - KSEG0_VSTART - Z.of_nat (word_offset v)).
  pose proof (word_value_u32 m base Hm) as Ht. pose proof (word_value_digits m base Hm) as Hd.
  set (t := be_value (bytes_at (pmem m) base 4)) in *.
  set (reg := aread (regs c) (GET_RT (exmem_inst x))) in *. set (w1 := w <| memwb_exception := EXC_None |>).
  destruct (mem_store_word_around m w1 v (swr_data reg t v) Hm Hs (swr_data_u32 _ _ _ Hu Ht))
    as (mr & Hmr & Hok & Hb & Ho).
  destruct (mem_store_word_around m w1 v (swl_data reg t v) Hm Hs (swl_data_u32 _ _ _ Hu Ht))
    as (ml & Hml & Hok' & Hb' & Ho').
  split.
  - eexists _, mr. split; [exact Hmr|]. split; [done|]. split; [done|]. split; [|exact Ho].
    fold base in Hb. by rewrite Hb, swr_data_digits, Hd.
  - eexists _, ml. split; [exact Hml|]. split; [done|]. split; [done|]. split; [|exact Ho'].
    fold base in Hb'. by rewrite Hb', swl_data_digits, Hd.
Qed.

Lemma unaligned_store_witness :
  (∃ w' m', mem_swr (unaligned_core 0) unaligned_memory zero_mem_wb (unaligned_op 0x80000011)
      = Ret (w', m') ∧ bytes_at (pmem m') 16 4 = [0; 0; 3; 4]) ∧
  (∃ w' m', mem_swl (unaligned_core 0) unaligned_memory zero_mem_wb (unaligned_op 0x80000011)
      = Ret (w', m') ∧ bytes_at (pmem m') 16 4 = [0; 0; 1; 0]).
Proof.
  assert (regs_ok (unaligned_core 0)) as Hr.
  { apply regs_ok_set; [exact (core_regs _ zero_core_ok)|vm_compute; split; congruence
      |exact u32_0|done]. }
  assert (kseg0_span unaligned_memory 0x80000011 1) as Hs
    by (split; [|split]; vm_compute; congruence).
  destruct (unaligned_store (unaligned_core 0) unaligned_memory zero_mem_wb (unaligned_op 0x80000011)
    0x80000011 unaligned_memory_ok Hr Hs eq_refl)
    as [(w1 & m1 & H1 & _ & _ & Hb1 & _) (w2 & m2 & H2 & _ & _ & Hb2 & _)].
  split; [exists w1, m1|exists w2, m2]; (split; [assumption|]).
  - transitivity (bytes_at (pmem m1) (0x80000011 - KSEG0_VSTART - 1) 4); [reflexivity|].
    etransitivity; [exact Hb1|]. vm_compute. reflexivity.
  - transitivity (bytes_at (pmem m2) (0x80000011 - KSEG0_VSTART - 1) 4); [reflexivity|].
    etransitivity; [exact Hb2|]. vm_compute. reflexivity.
Defined.
