(* ===== verification/Machine.v ===== *)
(** * Theorems on the clock tick, the machine and the run loop (src/sim.c)

    The invariants of the whole machine over any number of ticks, what can stop a
    run, and what [hw_init] builds. *)

From S2P Require Import Prelude Mips32 Tools Cpu Exception Io Bus Mem MemProps Decode Execute.
From S2P Require Import Memstage Writeback Forward Fetch Sim Wellformed Faults.

#[local] Set Default Proof Using "Type*".

(** The invariant of the machine, and of a machine whose only device, if any, is the
    last of the list. *)
Definition hardware_ok (hw : hardware_t) : Prop :=
  Forall core_ok (core (cpu hw)) ∧ mmu_ok (mmu hw).

Definition mmu_isolated (m : mmu_t) : Prop := mmu_ok m ∧ (length (devices m) <= 1)%nat.

Definition hardware_isolated (hw : hardware_t) : Prop :=
  Forall core_ok (core (cpu hw)) ∧ mmu_isolated (mmu hw).

(** The result of [hw_init] with every allocation successful. *)
Definition initial_core (m : mmu_t) : core_t := set_SP m (core_enable_interrupts zero_core).

Definition initial_hardware (alloc_dev : bool) (n : nat) (memsz : Z) : hardware_t :=
  let m := default (Mmu ∅ 0 0 [] 0 [] 0 0 0 0) (mmu_init true memsz) in
  Hardware (Cpu (initial_core m :: replicate n zero_core) (Z.of_nat (S n)))
    (mmu_add_device m (shutdown_device_create alloc_dev)).

(** ** The memory unit without reachable devices *)

Lemma pmem_store_bytes_devices m off bs m' :
  pmem_store_bytes m off bs = Ret m' → devices m' = devices m.
Proof.
  revert m off. induction bs as [|b bs IH]; cbn [pmem_store_bytes]; intros m off Hs;
    [by injection Hs as <-|].
  apply bind_Ret_inv in Hs as (m1 & Hb & Hs). apply IH in Hs as ->.
  unfold pmem_store in Hb. destruct (_ && _); [|done]. by injection Hb as <-.
Qed.

Lemma devices_write m v src sz e m' :
  mmu_write m v src sz = Ret (e, m') → devices m' = devices m.
Proof.
  unfold mmu_write. destruct (IO_REGISTER_AREA <=? v); [|destruct (IO_DESCRIPTOR_AREA <=? v)].
  - intros H. apply bind_Ret_inv in H as (d & Hd & [= <- <-]).
    by apply io_write_devices_same in Hd as ->.
  - by intros [= <- <-].
  - intros H. apply bind_Ret_inv in H as (off & _ & H).
    apply bind_Ret_inv in H as (m1 & Hs & [= <- <-]). by eapply pmem_store_bytes_devices.
Qed.

#[export] Instance mmu_isolated_spec : BusSpec mmu_t mmu_isolated.
Proof.
  split.
  - intros m v dst sz e x [Hm _]. by apply mmu_read_ok.
  - intros m v src sz e m' [Hm Hl] Hv Hs Hw.
    destruct (mmu_write_ok m v src sz e m') as [He Hm']; [done..|]. split; [done|].
    split; [done|]. by rewrite (devices_write _ _ _ _ _ _ Hw).
Qed.

Definition never_exits {A} (o : outcome A) : Prop := ∀ n, o ≠ Exit n.

Lemma never_exits_bind {A B} (o : outcome A) (k : A → outcome B) :
  never_exits o → (∀ a, never_exits (k a)) → never_exits (o ≫= k).
Proof. intros Ho Hk n. destruct o; cbn; [apply Hk|by destruct (Ho code)|done]. Qed.

Lemma never_exits_Ret {A} (a : A) : never_exits (Ret a).
Proof. done. Qed.
Lemma never_exits_aget {A} (l : list A) i : never_exits (aget l i).
Proof. intros n. unfold aget. case_match; [done|]. by case_match. Qed.
Lemma never_exits_area_byte m k : never_exits (area_byte m k).
Proof. apply never_exits_bind; intros; apply never_exits_aget. Qed.
Lemma never_exits_pmem_load m off : never_exits (pmem_load m off).
Proof. intros n. unfold pmem_load. by case_match. Qed.
Lemma never_exits_pmem_store m off b : never_exits (pmem_store m off b).
Proof. intros n. unfold pmem_store. by case_match. Qed.
Lemma never_exits_pmem_store_bytes m off bs : never_exits (pmem_store_bytes m off bs).
Proof.
  revert m off. induction bs as [|b bs IH]; intros; [done|]. cbn [pmem_store_bytes].
  apply never_exits_bind; [apply never_exits_pmem_store|]. intros. apply IH.
Qed.
Lemma never_exits_deref p : never_exits (deref p).
Proof. by destruct p. Qed.

(** Only a device call ends the process, and the last device is never called. *)
Ltac never_exits :=
  repeat first
    [ apply never_exits_Ret | apply never_exits_area_byte | apply never_exits_pmem_load
    | apply never_exits_pmem_store_bytes | apply never_exits_deref
    | apply never_exits_bind; [|intros ?] ].

Lemma isolated_no_exit m v x sz :
  mmu_isolated m → never_exits (mmu_read m v x sz) ∧ never_exits (mmu_write m v x sz).
Proof.
  intros [Hm Hl]. unfold mmu_read, mmu_write. destruct (IO_REGISTER_AREA <=? v).
  - by destruct (devices m) as [|d [|d' l]]; [..|cbn in Hl; lia].
  - destruct (IO_DESCRIPTOR_AREA <=? v).
    + split; [|done]. destruct sz; unfold area_read; never_exits.
    + split; [|destruct sz; never_exits]. never_exits. destruct sz; never_exits.
Qed.

(** ** The clock tick *)

Lemma tick_yields ok `{!BusSpec mmu_t ok} hw g :
  Forall core_ok (core (cpu hw)) → ok (mmu hw) →
  yields (ok := ok) (tick hw g) (λ r, Forall core_ok (core (cpu r.1)) ∧ ok (mmu r.1) ∧
    length (core (cpu r.1)) = length (core (cpu hw))).
Proof.
  intros Hc Hm. unfold tick. eapply yields_bind; [by apply tick_cores_yields|].
  intros [[cs m] g'] (Hcs & Hl & Hm'). by split_and!.
Qed.

Lemma run_step_yields ok `{!BusSpec mmu_t ok} hw g :
  core (cpu hw) ≠ [] → Forall core_ok (core (cpu hw)) → ok (mmu hw) →
  yields (ok := ok) (run_step hw g) (λ r, Forall core_ok (core (cpu r.1)) ∧ ok (mmu r.1) ∧
    length (core (cpu r.1)) = length (core (cpu hw))).
Proof.
  intros Hne Hc Hm. unfold run_step. destruct (core (cpu hw)) as [|c cs] eqn:E; [done|].
  assert (core_ok c) as Hc0 by by apply Forall_cons in Hc as [? _].
  pose proof (yields_bus_read (mmu hw) (aread (regs c) REG_PC) 0 MEM_OP_WORD Hm
    (core_regs_read c REG_PC Hc0) u32_0) as Hr.
  eapply yields_bind; [exact Hr|]. intros _ _. rewrite <-E in Hc |- *.
  by apply tick_yields.
Qed.

Lemma bus_fault_isolated {A} (o : outcome A) :
  bus_fault (ok := mmu_isolated) o → never_exits o.
Proof.
  intros (m & v & d & sz & Hm & _ & _ & Hf) n ->. destruct (isolated_no_exit m v d sz Hm) as [Hr Hw].
  destruct Hf as [Hf|Hf]; cbn in Hf.
  - change (bus_read m v d sz) with (mmu_read m v d sz) in Hf.
    destruct (mmu_read m v d sz) as [|k|]; [done|by apply (Hr k)|done].
  - change (bus_write m v d sz) with (mmu_write m v d sz) in Hf.
    destruct (mmu_write m v d sz) as [|k|]; [done|by apply (Hw k)|done].
Qed.

(** ** The machine *)

(** C10: one clock tick keeps the machine's invariant, whatever the program, whatever
    the number of cores: register arrays of the declared length holding words, $zero
    equal to 0, destination numbers in range (the PC's slot is never one), no exception
    in flight before EX. A tick that fails does so in a memory call of one of its cores,
    and in the same way: the load or store of its instruction in EX/MEM, at the address
    and with the data held there, or the fetch at the PC that EX leaves - on the memory
    that the ticks of the cores before it leave. No register-array access is ever out of
    bounds. *)
Theorem tick_preserves_invariant hw g :
  hardware_ok hw →
  match tick hw g with
  | Ret (hw', _) => hardware_ok hw' ∧ length (core (cpu hw')) = length (core (cpu hw))
  | failure => ∃ i c cs m g', core (cpu hw) !! i = Some c ∧
      tick_cores (take i (core (cpu hw))) (mmu hw) g = Ret (cs, m, g') ∧ mmu_ok m ∧
      core_fault c m g' failure
  end.
Proof.
  intros [Hc Hm]. pose proof (tick_yields mmu_ok hw g Hc Hm) as Hy.
  pose proof (tick_cores_fault (ok := mmu_ok) (core (cpu hw)) (mmu hw) g Hc Hm) as Hf.
  unfold tick in *. destruct (tick_cores _ _ _) as [[[cs m] g']|n|f]; cbn [mbind outcome_bind] in *.
  - destruct Hy as (? & ? & ?). by split_and!.
  - destruct Hf as (i & c & cs & m & g' & Hi & Hr & Hm' & Hcf). exists i, c, cs, m, g'.
    split_and!; [done..|]. by eapply core_fault_like; [|exact Hcf].
  - destruct Hf as (i & c & cs & m & g' & Hi & Hr & Hm' & Hcf). exists i, c, cs, m, g'.
    split_and!; [done..|]. by eapply core_fault_like; [|exact Hcf].
Qed.

(** ** What [hw_init] builds *)

Lemma initial_core_ok m : core_ok (initial_core m).
Proof.
  pose proof zero_core_ok as [Hr Hf Hd Hx Hw]. split; try assumption.
  assert (regs_ok (core_enable_interrupts zero_core)) as He.
  { apply (regs_ok_set_cp0 zero_core REG_SR); [done|]. vm_compute. split; congruence. }
  apply (regs_ok_set (core_enable_interrupts zero_core)); [done| |apply wrap32_u32|done].
  unfold NUM_REGISTERS, REG_SP. lia.
Qed.

Lemma mmu_add_device_isolated alloc memsz m :
  0 <= memsz → mmu_init true memsz = Some m →
  mmu_isolated (mmu_add_device m (shutdown_device_create alloc)).
Proof.
  intros Hs Hm. pose proof (mmu_init_ok true memsz m Hs Hm) as Hok.
  assert (devices m = []) as Hd by (by apply (inj Some) in Hm as <-).
  destruct alloc.
  - change (shutdown_device_create true) with (Some (default zero_device (shutdown_device_create true))).
    split; [|by rewrite mmu_add_device_devices, Hd]. apply mmu_add_device_ok; [done|].
    split; [done|]. repeat constructor; vm_compute; congruence.
  - split; [exact Hok|]. change (mmu_add_device m (shutdown_device_create false)) with m.
    rewrite Hd. cbn. lia.
Qed.

(** C24: [hw_init] on every outcome of its allocations and every core count: a failed
    allocation or a negative count ends the process, zero cores store outside the
    allocation, and otherwise the machine satisfies the invariant, with the stack
    pointer of the first core at the top of the kernel segment, its interrupts enabled
    and every other register zero. *)
Theorem hw_init_cases alloc_hw alloc_mmu alloc_cpu alloc_dev cores memsz :
  0 <= memsz →
  let r := hw_init alloc_hw alloc_mmu alloc_cpu alloc_dev cores memsz in
  if negb alloc_hw then r = Exit 1
  else if negb alloc_mmu || negb alloc_cpu || (s32 cores <? 0) then r = Exit (-1)
  else if s32 cores =? 0 then r = Crash OutOfBounds
  else
    let hw := initial_hardware alloc_dev (Z.to_nat (s32 cores) - 1) memsz in
    r = Ret hw ∧ hardware_isolated hw ∧
    ∃ c, core (cpu hw) !! 0%nat = Some c ∧
      aread (regs c) REG_SP = wrap32 (KSEG0_VSTART + wrap32 (memsz / 8) - 4) ∧
      aread (cp0 c) REG_SR = SR_IE ∧ PC c = 0.
Proof.
  intros Hs r. unfold r. clear r. unfold hw_init.
  destruct alloc_hw; [|done]. destruct alloc_mmu; [|done].
  change (negb true || negb alloc_cpu) with (negb alloc_cpu).
  destruct (mmu_init true memsz) as [m|] eqn:Hm; [|done]. unfold cpu_init.
  destruct (negb alloc_cpu || (s32 cores <? 0)) eqn:Ha; [done|].
  apply orb_false_iff in Ha as [_ Hc]. apply Z.ltb_ge in Hc.
  destruct (Z.eqb_spec (s32 cores) 0) as [->|Hne]; [done|].
  replace (Z.to_nat (s32 cores)) with (S (Z.to_nat (s32 cores) - 1)) by lia.
  set (n := (Z.to_nat (s32 cores) - 1)%nat). cbn [replicate mbind outcome_bind set_core0 core].
  replace (S n - 1)%nat with n by lia. split_and!.
  - unfold initial_hardware. rewrite Hm. cbn [default]. unfold init_io. cbn [update mmu].
    replace (s32 cores) with (Z.of_nat (S n)) by (subst n; lia). done.
  - unfold initial_hardware. rewrite Hm. cbn [default]. split; cbn [cpu mmu core].
    + constructor; [apply initial_core_ok|]. apply Forall_replicate. exact zero_core_ok.
    + by apply (mmu_add_device_isolated alloc_dev memsz m).
  - eexists. split; [done|]. apply (inj Some) in Hm as <-. split_and!; [|done|done].
    unfold initial_core, set_SP. unfold initial_hardware. cbn [default update regs mmu_init negb].
    rewrite aread_insert_eq; [done|]. vm_compute. split; congruence.
Qed.

Lemma hw_init_cases_witness :
  hw_init true true true true 2 4096 = Ret (initial_hardware true 1 4096) ∧
  hardware_isolated (initial_hardware true 1 4096) ∧
  ∃ c, core (cpu (initial_hardware true 1 4096)) !! 0%nat = Some c ∧
    aread (regs c) REG_SP = wrap32 (KSEG0_VSTART + wrap32 (4096 / 8) - 4) ∧
    aread (cp0 c) REG_SR = SR_IE ∧ PC c = 0.
Proof. exact (hw_init_cases true true true true 2 4096 ltac:(lia)). Defined.

Lemma initial_hardware_ok : hardware_isolated (initial_hardware true 1 4096).
Proof.
  assert (mmu_init true 4096 = mmu_init true 4096) as Hm by done. split.
  - constructor; [apply initial_core_ok|]. apply Forall_replicate. exact zero_core_ok.
  - eapply mmu_add_device_isolated; [|done]. lia.
Qed.

Lemma tick_preserves_invariant_witness :
  hardware_ok (initial_hardware true 1 4096) ∧
  ∃ i c cs m g, core (cpu (initial_hardware true 1 4096)) !! i = Some c ∧
    tick_cores (take i (core (cpu (initial_hardware true 1 4096)))) (mmu (initial_hardware true 1 4096)) false =
      Ret (cs, m, g) ∧ core_fault c m g (tick (initial_hardware true 1 4096) false).
Proof.
  assert (hardware_ok (initial_hardware true 1 4096)) as Hok.
  { destruct initial_hardware_ok as [Hc [Hm _]]. by split. }
  split; [exact Hok|]. pose proof (tick_preserves_invariant (initial_hardware true 1 4096) false Hok) as Ht.
  assert (tick (initial_hardware true 1 4096) false = Crash NullDeref) as E by (vm_compute; reflexivity).
  rewrite E in Ht |- *. destruct Ht as (i & c & cs & m & g & Hi & Hr & _ & Hf).
  exists i, c, cs, m, g. split; [exact Hi|]. split; [exact Hr|exact Hf].
Defined.

(** ** The run loop *)

Lemma run_loop_isolated fuel hw g r :
  core (cpu hw) ≠ [] → hardware_isolated hw → run_loop fuel hw g = Some r →
  never_exits r ∧ ∀ hw', r = Ret hw' → hardware_isolated hw' ∧ core (cpu hw') ≠ [].
Proof.
  revert hw g. induction fuel as [|fuel IH]; intros hw g Hne [Hc Hm]; cbn [run_loop].
  - destruct g; [|done]. intros [= <-]. split; [done|]. by intros hw' [= <-].
  - destruct g; [intros [= <-]; split; [done|]; by intros hw' [= <-]|].
    pose proof (run_step_yields mmu_isolated hw false Hne Hc Hm) as Hy.
    destruct (run_step hw false) as [[hw1 g1]|n|f]; cbn [yields] in Hy.
    + destruct Hy as (Hc1 & Hm1 & Hl). cbn [fst] in *. apply IH; [|by split].
      intros E. rewrite E in Hl. by destruct (core (cpu hw)).
    + by destruct (bus_fault_isolated _ Hy n).
    + intros [= <-]. by split.
Qed.

(** C23: on a machine whose shutdown device is its only device - the machine
    [hw_init] builds - no program ever powers the simulator off: whatever number of
    ticks it runs, the process is not ended through [exit]. *)
Theorem run_never_powers_off fuel hw g code :
  core (cpu hw) ≠ [] → hardware_isolated hw → run_loop fuel hw g ≠ Some (Exit code).
Proof.
  intros Hne Hi Hr. destruct (run_loop_isolated fuel hw g _ Hne Hi Hr) as [Hn _].
  by apply (Hn code).
Qed.

Lemma run_never_powers_off_witness :
  run_loop 100 (initial_hardware true 1 4096) false ≠ Some (Exit 0).
Proof. exact (run_never_powers_off 100 (initial_hardware true 1 4096) false 0
  ltac:(discriminate) initial_hardware_ok). Defined.

Lemma run_loop_mono n n' hw g o :
  (n <= n')%nat → run_loop n hw g = Some o → run_loop n' hw g = Some o.
Proof.
  revert n' hw g. induction n as [|n IH]; intros n' hw g Hn.
  - destruct n'; cbn [run_loop]; by destruct g.
  - destruct n' as [|n']; [lia|]. cbn [run_loop]. destruct g; [done|].
    destruct (run_step hw false) as [[hw1 g1]|k|f]; [|done|done]. apply IH. lia.
Qed.

(** The result of a run does not depend on the bound on the number of ticks: a run
    that ends within [n] ticks ends the same way within any larger bound, and one that
    has not ended within [n] has not ended within any smaller bound. *)
Theorem run_fuel_mono n n' hw r :
  (n <= n')%nat → run n hw = Some r → run n' hw = Some r.
Proof.
  unfold run. intros Hn. destruct (run_loop n hw false) as [o|] eqn:E; [|done].
  by rewrite (run_loop_mono n n' hw false o Hn E).
Qed.

(** A machine with [words] at the start of the kernel segment, about to run them. *)
Definition program_hardware (words : list Z) : hardware_t :=
  let hw := initial_hardware true 0 4096 in
  Hardware ((cpu hw) <| core := (λ c, set_PC c KSEG0_VSTART) <$> core (cpu hw) |>)
    ((mmu hw) <| pmem := bytes_put ∅ 0 (words ≫= be_digits 4) |>).

(** [addiu $v1, $zero, 42; addiu $v0, $zero, 10; syscall] *)
Definition exit_program : list Z := [0x2403002A; 0x2402000A; 0x0000000C].

Lemma run_fuel_mono_witness :
  run 7 (program_hardware exit_program) = Some (Ret 42) ∧
  run 1000 (program_hardware exit_program) = Some (Ret 42).
Proof.
  assert (run 7 (program_hardware exit_program) = Some (Ret 42)) as H by (vm_compute; reflexivity).
  split; [exact H|]. exact (run_fuel_mono 7 1000 _ _ ltac:(lia) H).
Defined.

(** ** The end of a run *)

(** C22: the run ends only at the exit system call: write-back sets [g_finished] exactly
    when the retiring instruction is a SYSCALL and $v0 holds 10, and then leaves the core
    as it is; no other stage touches the flag. *)
Theorem finished_iff_exit_syscall {M} `{Bus M} (c : core_t) (m : M) g c' m' g' :
  tick_core c m g = Ret (c', m', g') →
  g' = g || (negb (memwb_inst (mem_wb c) =? INSTRUCTION_ERET)
             && bool_decide (memwb_exception (mem_wb c) = EXC_Syscall)
             && (aread (regs c) REG_V0 =? 10)).
Proof.
  unfold tick_core. intros Ht. apply bind_Ret_inv in Ht as ([c1 g1] & Hw & Ht).
  apply bind_Ret_inv in Ht as ([c2 m2] & _ & Ht). apply bind_Ret_inv in Ht as (c3 & _ & [= _ _ <-]).
  revert Hw. unfold interpret_wb. destruct (_ =? INSTRUCTION_ERET); cbn [negb andb].
  - intros [= _ <-]. by rewrite orb_false_r.
  - case_decide as Hx.
    + destruct (_ && _); intros [= _ <-]; [by rewrite orb_true_r|by rewrite orb_false_r].
    + rewrite bool_decide_eq_false_2 by congruence. cbn [andb]. rewrite orb_false_r.
      intros Hb. by apply bind_Ret_inv in Hb as (? & _ & [= _ <-]).
Qed.

(** A core about to retire a SYSCALL with 10 in $v0. *)
Definition exit_core : core_t :=
  set_PC (zero_core <| regs := <[Z.to_nat REG_V0 := 10]> (regs zero_core) |>
                    <| mem_wb := zero_mem_wb <| memwb_exception := EXC_Syscall |> |>) KSEG0_VSTART.

Lemma finished_iff_exit_syscall_witness :
  ∃ c' m' g', tick_core exit_core (mmu (program_hardware [])) false = Ret (c', m', g') ∧ g' = true.
Proof.
  assert (∃ c' m' g', tick_core exit_core (mmu (program_hardware [])) false = Ret (c', m', g'))
    as (c' & m' & g' & Ht) by (vm_compute; do 3 eexists; reflexivity).
  exists c', m', g'. split; [exact Ht|].
  rewrite (finished_iff_exit_syscall _ _ _ _ _ _ Ht). vm_compute. reflexivity.
Defined.
