(* ===== verification/DecodeExecute.v ===== *)
(** * Decode and execute against the instruction-set specification

    The control unit sets the lines the datapath needs, the ALU computes the specified
    values, and the execute stage produces the specified effect and transfer of
    control. *)

From S2P Require Import Prelude Mips32 Tools Cpu Exception Bus Decode Execute Memstage Writeback.
From S2P Require Import Forward Fetch Sim Wellformed Isa.

#[local] Set Default Proof Using "Type*".

(** The control lines of ID/EX. *)
Record control := Control {
  ctl_reg_dst : bool; ctl_alu_op : Z; ctl_alu_src : bool; ctl_beq : bool; ctl_bne : bool;
  ctl_mem_read : bool; ctl_mem_write : bool; ctl_reg_write : bool; ctl_mem_to_reg : bool;
  ctl_jump : bool }.

Definition control_of (d : id_ex_t) : control :=
  Control (idex_c_reg_dst d) (idex_c_alu_op d) (idex_c_alu_src d) (idex_c_beq d)
    (idex_c_bne d) (idex_c_mem_read d) (idex_c_mem_write d) (idex_c_reg_write d)
    (idex_c_mem_to_reg d) (idex_c_jump d).

(** The table of the single-cycle control unit. *)
Definition control_table (i : instr) : control :=
  match i with
  | IAlu _ _ _ | ISyscall => Control true 2 false false false false false true false false
  | IAluImm _ _ _ _ => Control false 3 true false false false false true false false
  | ILoad _ _ _ => Control false 0 true false false true false true true false
  | IStore _ _ => Control false 0 true false false false true false false false
  | IBranch on_equal _ =>
    Control false 0 false on_equal (negb on_equal) false false false false false
  | IJump _ | IJumpReg => Control false 0 false false false false false false false true
  end.

(** ID/EX holds the decoded word [w] at [n - 4] with operands [a] and [b]. *)
Record decoded (w n a b : Z) (i : instr) (d : id_ex_t) : Prop := {
  dec_instr : isa_decode w = Some i;
  dec_control : control_of d = control_table i;
  dec_inst : idex_inst d = w;
  dec_next_pc : idex_next_pc d = n;
  dec_rs_value : idex_rs_value d = a;
  dec_rt_value : idex_rt_value d = b;
  dec_rs : idex_rs d = GET_RS w;
  dec_rt : idex_rt d = GET_RT w;
  dec_rd : idex_rd d = GET_RD w;
  dec_shamt : idex_shamt d = GET_SHAMT w;
  dec_funct : idex_funct d = GET_FUNCT w;
  dec_imm : idex_sign_ext_imm d = SIGN_EXTEND (GET_IMM w);
  dec_exception : idex_exception d = EXC_None;
  dec_jump_addr : ∀ t, i = IJump t → idex_jump_addr d = jump_target d }.

(** The memory operation an opcode stands for. *)
Definition load_op (op : Z) : option load_kind :=
  if op =? OPCODE_LW then Some (LoadAll MEM_OP_WORD)
  else if op =? OPCODE_LBU then Some (LoadAll MEM_OP_BYTE)
  else if op =? OPCODE_LHU then Some (LoadAll MEM_OP_HALF)
  else if op =? OPCODE_LWL then Some LoadLeft
  else if op =? OPCODE_LWR then Some LoadRight else None.

Definition store_op (op : Z) : option mem_op_size_t :=
  if op =? OPCODE_SW then Some MEM_OP_WORD
  else if op =? OPCODE_SB then Some MEM_OP_BYTE
  else if op =? OPCODE_SH then Some MEM_OP_HALF else None.

(** EX/MEM holds an instruction with effect [u]. *)
Definition carries (x : ex_mem_t) (u : uop) : Prop :=
  exmem_exception x = EXC_None ∧ (GET_OPCODE (exmem_inst x) =? OPCODE_CP0) = false ∧
  match u with
  | UNone => exmem_c_reg_write x = false ∧ exmem_c_mem_read x = false ∧
             exmem_c_mem_write x = false
  | UWrite r v => exmem_c_reg_write x = true ∧ exmem_c_mem_read x = false ∧
      exmem_c_mem_write x = false ∧ exmem_c_mem_to_reg x = false ∧
      exmem_reg_dst x = r ∧ exmem_alu_res x = v
  | ULoad sz r addr => exmem_c_reg_write x = true ∧ exmem_c_mem_read x = true ∧
      exmem_c_mem_to_reg x = true ∧ exmem_reg_dst x = r ∧ exmem_alu_res x = addr ∧
      load_op (GET_OPCODE (exmem_inst x)) = Some sz
  | UStore sz addr v => exmem_c_reg_write x = false ∧ exmem_c_mem_read x = false ∧
      exmem_c_mem_write x = true ∧ exmem_alu_res x = addr ∧ exmem_rt_value x = v ∧
      store_op (GET_OPCODE (exmem_inst x)) = Some sz
  end.

(** ** Arithmetic *)

Lemma check_soverflow_fits a b :
  check_soverflow (s32 a) (s32 b) = if sum_fits a b then 0 else 1.
Proof.
  unfold check_soverflow, sum_fits. pose proof (s32_range a). pose proof (s32_range b).
  unfold INT_MAX, INT_MIN. case_Z; cbn; lia.
Qed.

Lemma s32_idemp_mod x : s32 (x mod 2 ^ 32) = s32 x.
Proof. unfold s32. by rewrite Zplus_mod_idemp_l. Qed.

Lemma wrap32_lnot x : u32 x → wrap32 (Z.lnot x) = 2 ^ 32 - 1 - x.
Proof. unfold u32, wrap32, Z.lnot. intros. Z.div_mod_to_equations. lia. Qed.

Lemma sign_extend_small v : 0 <= v < 2 ^ 16 → SIGN_EXTEND v mod 2 ^ 16 = v.
Proof. unfold SIGN_EXTEND, s16. intros. Z.div_mod_to_equations. lia. Qed.

(** [b & ZERO_EXTEND_MASK] undoes the sign extension of an immediate. *)
Lemma zero_extend_mask v :
  0 <= v < 2 ^ 16 → Z.land (wrap32 (SIGN_EXTEND v)) ZERO_EXTEND_MASK = v.
Proof.
  intros Hv. unfold ZERO_EXTEND_MASK. change 0x0000FFFF with (2 ^ 16 - 1).
  rewrite land_mask_mod by lia. unfold wrap32.
  rewrite <-(sign_extend_small v) at 2 by done.
  pose proof (SIGN_EXTEND_range v). Z.div_mod_to_equations. lia.
Qed.

Lemma jump_target_spec d :
  u32 (idex_next_pc d) →
  jump_target d = idex_next_pc d / 2 ^ 28 * 2 ^ 28 + GET_ADDRESS (idex_inst d) * 4.
Proof.
  unfold u32, jump_target. intros Hn. pose proof (GET_ADDRESS_range (idex_inst d)).
  assert (Z.land (idex_next_pc d) 0xF0000000 = Z.shiftl (idex_next_pc d / 2 ^ 28) 28) as ->.
  { rewrite <-Z.shiftr_div_pow2 by lia. apply Z.bits_inj'. intros k Hk.
    rewrite Z.land_spec, Z.shiftl_spec by lia.
    change 0xF0000000 with (Z.shiftl (Z.ones 4) 28). rewrite Z.shiftl_spec by lia.
    destruct (Z.ltb_spec k 28).
    - rewrite (Z.testbit_neg_r (Z.ones 4)), (Z.testbit_neg_r (Z.shiftr _ _)) by lia.
      apply andb_false_r.
    - rewrite Z.shiftr_spec by lia. replace (k - 28 + 28) with k by lia.
      destruct (Z.ltb_spec k 32).
      + rewrite Z.ones_spec_low by lia. apply andb_true_r.
      + rewrite (bits_above 32 (idex_next_pc d) k) by lia. done. }
  rewrite (Z.shiftl_mul_pow2 (GET_ADDRESS _)) by lia. rewrite lor_shiftl_add by lia. lia.
Qed.

Lemma branch_target_spec d :
  branch_target d = (idex_next_pc d + idex_sign_ext_imm d * 4) mod 2 ^ 32.
Proof.
  unfold branch_target, wrap32. rewrite Zplus_mod_idemp_r, Z.shiftl_mul_pow2 by lia. done.
Qed.

(** ** The control unit *)

(** Case analysis on a chain of conditionals in a hypothesis. *)
Ltac decode_cases H :=
  repeat match type of H with
  | (if ?a =? ?b then _ else _) = _ => destruct (Z.eqb_spec a b)
  end.

(** The fields [interpret_id] latches. *)
Record latches (w n a b : Z) (e : id_ex_t) : Prop := {
  lat_control : control_of e = Control false 0 false false false false false false false false;
  lat_inst : idex_inst e = w;
  lat_next_pc : idex_next_pc e = n;
  lat_rs_value : idex_rs_value e = a;
  lat_rt_value : idex_rt_value e = b;
  lat_rs : idex_rs e = GET_RS w;
  lat_rt : idex_rt e = GET_RT w;
  lat_rd : idex_rd e = GET_RD w;
  lat_shamt : idex_shamt e = GET_SHAMT w;
  lat_funct : idex_funct e = GET_FUNCT w;
  lat_imm : idex_sign_ext_imm e = SIGN_EXTEND (GET_IMM w);
  lat_exception : idex_exception e = EXC_None }.

Lemma id_latch_latches c :
  let w := ifid_inst (if_id c) in
  latches w (ifid_next_pc (if_id c)) (aread (regs c) (GET_RS w)) (aread (regs c) (GET_RT w))
    (clear_control ((id_latch c (id_ex c)) <| idex_exception := EXC_None |>)).
Proof. split; reflexivity. Qed.

(** Evaluates the comparisons of constants in the goal. *)
Ltac eval_tests :=
  repeat match goal with
  | |- context [?a =? ?b] => is_const a; is_const b;
    let v := eval vm_compute in (a =? b) in
    lazymatch v with true => change (a =? b) with true | false => change (a =? b) with false end
  | |- context [one_of ?a ?l] => is_const a;
    let v := eval vm_compute in (one_of a l) in
    lazymatch v with
    | true => change (one_of a l) with true
    | false => change (one_of a l) with false
    end
  end; cbv beta iota.

(** The fields of a decoded record, after the control unit. *)
Ltac decoded_fields :=
  split; [assumption|unfold control_of; cbn; congruence|cbn; assumption..|
          intros ? ?; first [discriminate | reflexivity]].

Lemma control_switch_special c w n a b e i :
  latches w n a b e → GET_OPCODE w = OPCODE_R → isa_decode_special w = Some i →
  decoded w n a b i (control_switch c w e).
Proof.
  intros Hl Hop Hs. assert (isa_decode w = Some i) as Hi by (unfold isa_decode; by rewrite Hop).
  destruct Hl. injection lat_control0 as ??????????. unfold control_switch.
  rewrite lat_inst0, Hop. eval_tests. unfold isa_decode_special in Hs. cbv zeta in Hs.
  revert Hs Hi. generalize (GET_FUNCT w) as f. intros f Hs Hi.
  decode_cases Hs; try discriminate; injection Hs as <-; subst f; eval_tests; decoded_fields.
Qed.

Lemma control_switch_decoded c w n a b e i :
  latches w n a b e → isa_decode w = Some i → decoded w n a b i (control_switch c w e).
Proof.
  intros Hl Hi. destruct (Z.eqb_spec (GET_OPCODE w) OPCODE_R) as [Hop|Hop].
  { apply control_switch_special; [done..|]. revert Hi. unfold isa_decode. by rewrite Hop. }
  destruct Hl. injection lat_control0 as ??????????. unfold control_switch.
  pose proof Hi as Hd. unfold isa_decode in Hd. cbv zeta in *.
  rewrite (proj2 (Z.eqb_neq _ _) Hop) in *. clear Hop.
  revert Hd Hi. generalize (GET_OPCODE w) as op. intros op Hd Hi.
  decode_cases Hd; try discriminate; injection Hd as <-; subst op; eval_tests; decoded_fields.
Qed.

Lemma interpret_id_decoded c i :
  ifid_exception (if_id c) = EXC_None → isa_decode (ifid_inst (if_id c)) = Some i →
  ∃ d, interpret_id c = c <| id_ex := d |> ∧
    decoded (ifid_inst (if_id c)) (ifid_next_pc (if_id c))
      (aread (regs c) (GET_RS (ifid_inst (if_id c))))
      (aread (regs c) (GET_RT (ifid_inst (if_id c)))) i d.
Proof.
  intros He Hi. unfold interpret_id. cbv zeta. rewrite decide_False by (rewrite He; auto).
  eexists. split; [reflexivity|].
  exact (control_switch_decoded c _ _ _ _ _ i (id_latch_latches c) Hi).
Qed.

(** C12: the control unit implements the single-cycle control table: for every
    instruction of the specified subset, [interpret_id] leaves in ID/EX the
    instruction's control lines, its register numbers, its sign-extended immediate, the
    jump target, and the values of its rs and rt registers, and changes nothing else. *)
Theorem interpret_id_decodes c i :
  ifid_exception (if_id c) = EXC_None →
  let w := ifid_inst (if_id c) in
  isa_decode w = Some i →
  decoded w (ifid_next_pc (if_id c)) (aread (regs c) (GET_RS w)) (aread (regs c) (GET_RT w)) i
    (id_ex (interpret_id c)) ∧
  interpret_id c = c <| id_ex := id_ex (interpret_id c) |>.
Proof.
  intros He w Hi. destruct (interpret_id_decoded c i He Hi) as (d & -> & Hd).
  split; [exact Hd|reflexivity].
Qed.

Lemma interpret_id_decodes_witness :
  (** [lw $t0, -4($sp)] *)
  let c := zero_core <| regs := <[29%nat := 0x80000100]> (regs zero_core) |>
                     <| if_id := zero_if_id <| ifid_inst := 0x8FA8FFFC |> |> in
  decoded 0x8FA8FFFC 0 0x80000100 0 (ILoad (LoadAll MEM_OP_WORD) (-4) 8) (id_ex (interpret_id c)).
Proof.
  exact (proj1 (interpret_id_decodes
    (zero_core <| regs := <[29%nat := 0x80000100]> (regs zero_core) |>
               <| if_id := zero_if_id <| ifid_inst := 0x8FA8FFFC |> |>)
    (ILoad (LoadAll MEM_OP_WORD) (-4) 8) eq_refl ltac:(vm_compute; reflexivity))).
Defined.

(** ** The ALU *)

Lemma alu_r_type_spec d a b x w op trap rd :
  isa_decode_special w = Some (IAlu op trap rd) →
  idex_funct d = GET_FUNCT w → idex_shamt d = GET_SHAMT w → u32 a → u32 b →
  alu_r_type d a b x = set_alu_res x (alu_value op a b).
Proof.
  intros Hd Hf Hs Ha Hb. pose proof (GET_SHAMT_range w). unfold alu_r_type. cbv zeta.
  rewrite Hf, Hs. unfold isa_decode_special in Hd. cbv zeta in Hd.
  revert Hd. generalize (GET_FUNCT w) as f. intros f Hd.
  decode_cases Hd; try discriminate; injection Hd as <- <- <-; subst f; eval_tests; f_equal;
    unfold alu_value.
  - by rewrite wrap32_add_s32.
  - apply wrap32_lnot. auto with mach.
  - by rewrite Z.shiftl_mul_pow2 by lia.
  - by rewrite Z.shiftr_div_pow2 by lia.
Qed.

Lemma alu_i_type_spec d a x w op trap v rt :
  isa_decode w = Some (IAluImm op trap v rt) → idex_inst d = w → u32 a →
  alu_i_type d a (wrap32 (SIGN_EXTEND (GET_IMM w))) x =
    set_alu_res (if trap && negb (sum_fits a (v mod 2 ^ 32))
                 then raise x EXC_ArithmeticOverflow else x)
      (alu_value op a (v mod 2 ^ 32)).
Proof.
  intros Hd Hi Ha. pose proof (GET_IMM_range w) as Hr. pose proof (SIGN_EXTEND_range (GET_IMM w)).
  pose proof (zero_extend_mask (GET_IMM w) Hr) as Hm.
  pose proof (sign_extend_small (GET_IMM w) Hr) as Hse.
  unfold alu_i_type. cbv zeta. rewrite Hi. unfold isa_decode, isa_decode_special in Hd. cbv zeta in Hd.
  revert Hd. generalize (GET_OPCODE w) as o. intros o Hd.
  destruct (Z.eqb_spec o OPCODE_R). { by decode_cases Hd. }
  decode_cases Hd; try discriminate; injection Hd as <- <- <- <-; subst o; eval_tests; cbn [andb negb]; unfold alu_value.
  - rewrite check_soverflow_fits, wrap32_add_s32. unfold wrap32.
    by destruct (sum_fits a (SIGN_EXTEND (GET_IMM w) mod 2 ^ 32)).
  - done.
  - done.
  - done.
  - rewrite Hm. by rewrite (Z.mod_small (GET_IMM w)) by lia.
  - rewrite Hm. by rewrite (Z.mod_small (GET_IMM w)) by lia.
  - f_equal. unfold wrap32. rewrite Z.shiftl_mul_pow2 by lia. revert H Hse Hr.
    generalize (SIGN_EXTEND (GET_IMM w)) (GET_IMM w). intros. Z.div_mod_to_equations. lia.
Qed.

(** ** The execute stage *)

(** [interpret_ex] changes the PC, the delay-slot mark and EX/MEM, and the jump
    address in ID/EX (which decode overwrites). *)
Definition ex_frame (c c' : core_t) (pc : Z) (x : ex_mem_t) : Prop :=
  ∃ bd ja,
    c' = Core (<[Z.to_nat REG_PC := pc]> (regs c)) (cp0 c)
      ((if_id c) <| ifid_is_branch_delay := bd |>) ((id_ex c) <| idex_jump_addr := ja |>)
      x (mem_wb c).

(** The ALU as a function of ID/EX and EX/MEM. *)
Definition alu_stage (d : id_ex_t) (x : ex_mem_t) : ex_mem_t :=
  ex_mem (interpret_ex_alu (Core [] [] zero_if_id d x zero_mem_wb)).

Lemma interpret_ex_alu_stage c :
  interpret_ex_alu c = c <| ex_mem := alu_stage (id_ex c) (ex_mem c) |>.
Proof.
  destruct c as [r p f d x w]. unfold alu_stage, interpret_ex_alu. cbv zeta. cbn [id_ex ex_mem].
  destruct (idex_c_alu_op d =? 0x00); [done|]. by destruct (idex_c_alu_op d =? 0x01).
Qed.

Lemma alu_stage_jump_addr d x ja : alu_stage (d <| idex_jump_addr := ja |>) x = alu_stage d x.
Proof.
  unfold alu_stage, interpret_ex_alu. cbv zeta. cbn [id_ex update idex_c_alu_op].
  destruct (idex_c_alu_op d =? 0x00); [reflexivity|].
  destruct (idex_c_alu_op d =? 0x01); reflexivity.
Qed.

Lemma set_PC_id c : length (regs c) = Z.to_nat NUM_REGISTERS → set_PC c (PC c) = c.
Proof.
  intros Hl. destruct c as [r p f d x w]. unfold set_PC, PC, aread. cbn in *.
  change (Core (<[Z.to_nat REG_PC := nth (Z.to_nat REG_PC) r 0]> r) p f d x w = Core r p f d x w).
  f_equal. apply list_insert_id. rewrite nth_lookup.
  destruct (lookup_lt_is_Some_2 r (Z.to_nat REG_PC)) as [v Hv]; [by rewrite Hl; vm_compute; lia|].
  by rewrite Hv.
Qed.

(** The transfer of control a decoded instruction makes, on its operands. *)
Definition transfer (d : id_ex_t) : option Z :=
  if idex_c_jump d then
    Some (if ((GET_OPCODE (idex_inst d) =? OPCODE_R) && (GET_FUNCT (idex_inst d) =? FUNCT_JR))
             || (idex_inst d =? INSTRUCTION_ERET)
          then idex_rs_value d else idex_jump_addr d)
  else if (idex_c_beq d && (idex_rs_value d =? idex_rt_value d))
          || (idex_c_bne d && negb (idex_rs_value d =? idex_rt_value d))
  then Some (branch_target d) else None.

Lemma ex_jump_off c : idex_c_jump (id_ex c) = false → ex_jump c = c.
Proof. unfold ex_jump. cbv zeta. by intros ->. Qed.
Lemma ex_beq_off c :
  idex_c_beq (id_ex c) && (idex_rs_value (id_ex c) =? idex_rt_value (id_ex c)) = false →
  ex_beq c = c.
Proof. unfold ex_beq. cbv zeta. by intros ->. Qed.
Lemma ex_bne_off c :
  idex_c_bne (id_ex c) && negb (idex_rs_value (id_ex c) =? idex_rt_value (id_ex c)) = false →
  ex_bne c = c.
Proof. unfold ex_bne. cbv zeta. by intros ->. Qed.

Lemma ex_frame_refl c :
  length (regs c) = Z.to_nat NUM_REGISTERS → ex_frame c c (PC c) (ex_mem c).
Proof.
  intros Hl. exists (ifid_is_branch_delay (if_id c)), (idex_jump_addr (id_ex c)).
  rewrite <-(set_PC_id c Hl) at 1. destruct c as [r p [] [] x w]. reflexivity.
Qed.

Lemma ex_frame_branch c v : ex_frame c (mark_branch_delay (set_PC c v)) v (ex_mem c).
Proof.
  exists true, (idex_jump_addr (id_ex c)). destruct c as [r p f [] x w]. reflexivity.
Qed.

Lemma ex_jump_frame c v :
  transfer (id_ex c) = Some v → idex_c_jump (id_ex c) = true → ex_frame c (ex_jump c) v (ex_mem c).
Proof.
  unfold transfer, ex_jump. cbv zeta. intros Ht Hj. rewrite Hj in *. apply (inj Some) in Ht as <-.
  destruct (_ || _).
  - exists true, (idex_rs_value (id_ex c)). destruct c as [r p f [] x w]. reflexivity.
  - exists true, (idex_jump_addr (id_ex c)). destruct c as [r p f [] x w]. reflexivity.
Qed.

Lemma ex_branches_spec c :
  length (regs c) = Z.to_nat NUM_REGISTERS →
  (idex_c_jump (id_ex c) = true → idex_c_beq (id_ex c) = false ∧ idex_c_bne (id_ex c) = false) →
  ex_frame c (ex_bne (ex_beq (ex_jump c))) (default (PC c) (transfer (id_ex c))) (ex_mem c).
Proof.
  intros Hl Hj. destruct (idex_c_jump (id_ex c)) eqn:Ej.
  - destruct (Hj eq_refl) as [Eq En].
    assert (∃ v, transfer (id_ex c) = Some v) as [v Hv] by (unfold transfer; rewrite Ej; eauto).
    rewrite Hv. pose proof (ex_jump_frame c v Hv Ej) as (bd & ja & Hf).
    rewrite (ex_beq_off (ex_jump c)) by (rewrite Hf; cbn; rewrite Eq; reflexivity).
    rewrite (ex_bne_off (ex_jump c)) by (rewrite Hf; cbn; rewrite En; reflexivity).
    exists bd, ja. exact Hf.
  - rewrite (ex_jump_off c) by done. unfold transfer. rewrite Ej.
    destruct (idex_c_beq (id_ex c) && (idex_rs_value (id_ex c) =? idex_rt_value (id_ex c))) eqn:Eb.
    + assert (ex_beq c = mark_branch_delay (set_PC c (branch_target (id_ex c)))) as ->
        by (unfold ex_beq; by rewrite Eb).
      apply andb_true_iff in Eb as [_ Ev].
      rewrite ex_bne_off; [apply ex_frame_branch|]. cbn. by rewrite Ev, andb_false_r.
    + rewrite (ex_beq_off c Eb). cbn [orb].
      destruct (idex_c_bne (id_ex c) && _) eqn:En.
      * assert (ex_bne c = mark_branch_delay (set_PC c (branch_target (id_ex c)))) as ->
          by (unfold ex_bne; by rewrite En).
        apply ex_frame_branch.
      * rewrite (ex_bne_off c En). by apply ex_frame_refl.
Qed.

(** What the execute stage leaves in EX/MEM. *)
Definition ex_output (d : id_ex_t) (x : ex_mem_t) : ex_mem_t :=
  alu_stage d ((ex_latch d x) <| exmem_reg_dst :=
    if idex_c_reg_dst d then idex_rd d else idex_rt d |>).

Lemma interpret_ex_spec c :
  idex_exception (id_ex c) = EXC_None →
  length (regs c) = Z.to_nat NUM_REGISTERS →
  (idex_c_jump (id_ex c) = true → idex_c_beq (id_ex c) = false ∧ idex_c_bne (id_ex c) = false) →
  ex_frame c (interpret_ex c) (default (PC c) (transfer (id_ex c)))
    (ex_output (id_ex c) (ex_mem c)).
Proof.
  intros He Hl Hj. unfold interpret_ex. cbv zeta. rewrite decide_False by (rewrite He; auto).
  set (x := ex_latch (id_ex c) (ex_mem c)).
  set (c0 := c <| ex_mem := x |>).
  destruct (ex_branches_spec c0 Hl Hj) as (bd & ja & ->).
  rewrite interpret_ex_alu_stage. cbn [update id_ex ex_mem idex_c_reg_dst idex_rd idex_rt].
  exists bd, ja. unfold ex_output. fold x. rewrite <-(alu_stage_jump_addr (id_ex c) _ ja). reflexivity.
Qed.

(** ** Inversion of the instruction decoder *)

Lemma isa_decode_not_cp0 w i : isa_decode w = Some i → (GET_OPCODE w =? OPCODE_CP0) = false.
Proof.
  intros Hd. apply Z.eqb_neq. intros Hop. revert Hd. unfold isa_decode. rewrite Hop. cbv zeta.
  eval_tests. discriminate.
Qed.

(** What an instruction of each form says about the word it was decoded from. *)
Definition decode_facts (w : Z) (i : instr) : Prop :=
  match i with
  | IAlu op trap rd =>
    GET_OPCODE w = OPCODE_R ∧ isa_decode_special w = Some i ∧ rd = GET_RD w
  | IAluImm op trap v rt => rt = GET_RT w
  | ILoad sz imm rt =>
    load_op (GET_OPCODE w) = Some sz ∧ imm = SIGN_EXTEND (GET_IMM w) ∧ rt = GET_RT w
  | IStore sz imm => store_op (GET_OPCODE w) = Some sz ∧ imm = SIGN_EXTEND (GET_IMM w)
  | IBranch _ imm => imm = SIGN_EXTEND (GET_IMM w)
  | IJump t => GET_OPCODE w = OPCODE_J ∧ t = GET_ADDRESS w
  | IJumpReg => GET_OPCODE w = OPCODE_R ∧ GET_FUNCT w = FUNCT_JR
  | ISyscall => GET_OPCODE w = OPCODE_R ∧ GET_FUNCT w = FUNCT_SYSCALL
  end.

Lemma isa_decode_special_facts w i :
  GET_OPCODE w = OPCODE_R → isa_decode_special w = Some i → decode_facts w i.
Proof.
  intros Hop Hs. pose proof Hs as Hd. unfold isa_decode_special in Hd. cbv zeta in Hd.
  decode_cases Hd; try discriminate; injection Hd as <-; cbn; auto.
Qed.

Lemma isa_decode_facts w i : isa_decode w = Some i → decode_facts w i.
Proof.
  intros Hd. destruct (Z.eqb_spec (GET_OPCODE w) OPCODE_R) as [Hop|Hop].
  { apply isa_decode_special_facts; [done|]. revert Hd. unfold isa_decode. by rewrite Hop. }
  unfold isa_decode in Hd. cbv zeta in Hd. rewrite (proj2 (Z.eqb_neq _ _) Hop) in Hd. clear Hop.
  decode_cases Hd; try discriminate; injection Hd as <-; cbn;
    repeat match goal with H : _ ≠ _ |- _ => clear H end;
    repeat match goal with H : GET_OPCODE w = _ |- _ => rewrite !H; clear H end; auto.
Qed.

Lemma INSTRUCTION_ERET_cp0 : (GET_OPCODE INSTRUCTION_ERET =? OPCODE_CP0) = true.
Proof. reflexivity. Qed.

Lemma not_eret w : (GET_OPCODE w =? OPCODE_CP0) = false → (w =? INSTRUCTION_ERET) = false.
Proof. intros H. apply Z.eqb_neq. intros ->. by rewrite INSTRUCTION_ERET_cp0 in H. Qed.

(** The control lines of a decoded instruction, one equation per line. *)
Ltac control_lines Hd :=
  let Hc := fresh "Hc" in
  pose proof (dec_control _ _ _ _ _ _ Hd) as Hc; unfold control_of, control_table in Hc;
  injection Hc as Hreg_dst Halu_op Halu_src Hbeq Hbne Hmem_read Hmem_write Hreg_write
    Hmem_to_reg Hjump.

Lemma decoded_transfer w pc a b i d u tgt :
  decoded w ((pc + 4) mod 2 ^ 32) a b i d → exec i pc a b = Some (u, tgt) → transfer d = tgt.
Proof.
  intros Hd He. pose proof (isa_decode_facts w i (dec_instr _ _ _ _ _ _ Hd)) as Hf.
  pose proof (isa_decode_not_cp0 w i (dec_instr _ _ _ _ _ _ Hd)) as Hcp0.
  unfold transfer. rewrite (dec_inst _ _ _ _ _ _ Hd), (dec_rs_value _ _ _ _ _ _ Hd),
    (dec_rt_value _ _ _ _ _ _ Hd), (not_eret w Hcp0), branch_target_spec,
    (dec_next_pc _ _ _ _ _ _ Hd), (dec_imm _ _ _ _ _ _ Hd).
  destruct i as [op trap rd|op trap imm rt|sz imm rt|sz imm|on_equal imm|t| |]; control_lines Hd;
    rewrite Hjump, ?Hbeq, ?Hbne; cbn [exec andb orb decode_facts] in *.
  - destruct (trap && _); by simplify_eq.
  - destruct (trap && _); by simplify_eq.
  - by simplify_eq.
  - by simplify_eq.
  - injection He as _ <-. rewrite Hf. by destruct (a =? b), on_equal.
  - injection He as _ <-. destruct Hf as [Hop ->]. rewrite Hop. eval_tests. cbn [andb orb].
    f_equal. rewrite (dec_jump_addr _ _ _ _ _ _ Hd _ eq_refl), jump_target_spec;
      rewrite (dec_next_pc _ _ _ _ _ _ Hd); [by rewrite (dec_inst _ _ _ _ _ _ Hd)|].
    apply Z.mod_pos_bound. lia.
  - injection He as _ <-. destruct Hf as [Hop Hfn]. rewrite Hop, Hfn. by eval_tests.
  - done.
Qed.

(** The latched fields with the ALU's result. *)
Definition latched_result (d : id_ex_t) (x : ex_mem_t) (v : Z) : ex_mem_t :=
  set_alu_res ((ex_latch d x) <| exmem_reg_dst :=
    if idex_c_reg_dst d then idex_rd d else idex_rt d |>) v.

(** The ALU on each of the three operation codes in use. *)
Lemma ex_output_add d x :
  idex_c_alu_op d = 0 → sum_fits (idex_rs_value d) (alu_b d) = true →
  ex_output d x = latched_result d x (wrap32 (idex_rs_value d + alu_b d)).
Proof.
  intros Ho Hf. unfold ex_output, alu_stage, interpret_ex_alu. cbv zeta. cbn [id_ex ex_mem].
  rewrite Ho, check_soverflow_fits, Hf, wrap32_add_s32. reflexivity.
Qed.

Lemma ex_output_special d x w op trap rd :
  idex_c_alu_op d = 2 → idex_c_alu_src d = false →
  isa_decode_special w = Some (IAlu op trap rd) →
  idex_funct d = GET_FUNCT w → idex_shamt d = GET_SHAMT w →
  u32 (idex_rs_value d) → u32 (idex_rt_value d) →
  ex_output d x = latched_result d x (alu_value op (idex_rs_value d) (idex_rt_value d)).
Proof.
  intros Ho Hs Hd Hf Hsh Ha Hb. unfold ex_output, alu_stage, interpret_ex_alu, alu_b. cbv zeta.
  cbn [id_ex ex_mem]. rewrite Ho, Hs. cbn [Z.eqb Pos.eqb].
  rewrite (alu_r_type_spec d _ _ _ w op trap rd) by done. reflexivity.
Qed.

Lemma ex_output_imm d x w op trap v rt :
  idex_c_alu_op d = 3 → idex_c_alu_src d = true →
  isa_decode w = Some (IAluImm op trap v rt) → idex_inst d = w →
  idex_sign_ext_imm d = SIGN_EXTEND (GET_IMM w) → u32 (idex_rs_value d) →
  trap && negb (sum_fits (idex_rs_value d) (v mod 2 ^ 32)) = false →
  ex_output d x = latched_result d x (alu_value op (idex_rs_value d) (v mod 2 ^ 32)).
Proof.
  intros Ho Hs Hd Hi Him Ha Ht. unfold ex_output, alu_stage, interpret_ex_alu, alu_b. cbv zeta.
  cbn [id_ex ex_mem]. rewrite Ho, Hs, Him. cbn [Z.eqb Pos.eqb].
  rewrite (alu_i_type_spec d _ _ w op trap v rt), Ht by done. reflexivity.
Qed.

Lemma sum_fits_wrap a v : sum_fits a (wrap32 v) = sum_fits a v.
Proof. unfold sum_fits, wrap32. by rewrite s32_idemp_mod. Qed.

Lemma decoded_carries w pc a b i d x u tgt :
  decoded w ((pc + 4) mod 2 ^ 32) a b i d → u32 a → u32 b →
  exec i pc a b = Some (u, tgt) → quiet i a b = true → carries (ex_output d x) u.
Proof.
  intros Hd Ha Hb He Hq. pose proof (dec_instr _ _ _ _ _ _ Hd) as Hi.
  pose proof (isa_decode_facts w i Hi) as Hf. pose proof (isa_decode_not_cp0 w i Hi) as Hcp0.
  destruct Hd as [_ Hc Hinst _ <- <- _ Hrt Hrd Hsh Hfn Him _ _].
  unfold control_of, control_table in Hc.
  destruct i as [op trap rd|op trap imm rt|sz imm rt|sz imm|on_equal imm|t| |];
    injection Hc as Hreg_dst Halu_op Halu_src Hbeq Hbne Hmem_read Hmem_write Hreg_write
      Hmem_to_reg Hjump; cbn [exec quiet decode_facts] in *.
  - destruct Hf as (Hop & Hs & ->). rewrite (ex_output_special d x w op trap (GET_RD w)) by done.
    destruct (trap && _); [done|]. injection He as <- _.
    unfold carries, latched_result. cbn. rewrite Hinst, Hreg_dst. auto 10.
  - subst rt. destruct (trap && _) eqn:Ht; [done|]. injection He as <- _.
    rewrite (ex_output_imm d x w op trap imm (GET_RT w)) by done.
    unfold carries, latched_result. cbn. rewrite Hinst, Hreg_dst. auto 10.
  - destruct Hf as (Hop & -> & ->). injection He as <- _.
    assert (alu_b d = wrap32 (SIGN_EXTEND (GET_IMM w))) as Hb'
      by (unfold alu_b; by rewrite Halu_src, Him).
    rewrite ex_output_add by (rewrite ?Hb', ?sum_fits_wrap; done).
    unfold carries, latched_result. cbn. rewrite Hinst, Hreg_dst, Hb', wrap32_add_r. auto 10.
  - destruct Hf as (Hop & ->). injection He as <- _.
    assert (alu_b d = wrap32 (SIGN_EXTEND (GET_IMM w))) as Hb'
      by (unfold alu_b; by rewrite Halu_src, Him).
    rewrite ex_output_add by (rewrite ?Hb', ?sum_fits_wrap; done).
    unfold carries, latched_result. cbn. rewrite Hinst, Hb', wrap32_add_r. auto 10.
  - injection He as <- _. assert (alu_b d = idex_rt_value d) as Hb' by (unfold alu_b; by rewrite Halu_src).
    rewrite ex_output_add by (rewrite ?Hb'; done).
    unfold carries, latched_result. cbn. rewrite Hinst. auto 10.
  - injection He as <- _. assert (alu_b d = idex_rt_value d) as Hb' by (unfold alu_b; by rewrite Halu_src).
    rewrite ex_output_add by (rewrite ?Hb'; done).
    unfold carries, latched_result. cbn. rewrite Hinst. auto 10.
  - injection He as <- _. assert (alu_b d = idex_rt_value d) as Hb' by (unfold alu_b; by rewrite Halu_src).
    rewrite ex_output_add by (rewrite ?Hb'; done).
    unfold carries, latched_result. cbn. rewrite Hinst. auto 10.
  - done.
Qed.

Lemma decoded_one_transfer w n a b i d :
  decoded w n a b i d →
  idex_c_jump d = true → idex_c_beq d = false ∧ idex_c_bne d = false.
Proof. intros Hd. destruct i; control_lines Hd; rewrite Hjump; auto; discriminate. Qed.

(** What decode and the register file put in EX is executed as specified. *)
Lemma interpret_ex_decoded c w pc a b i u tgt :
  decoded w ((pc + 4) mod 2 ^ 32) a b i (id_ex c) →
  length (regs c) = Z.to_nat NUM_REGISTERS → u32 a → u32 b →
  exec i pc a b = Some (u, tgt) → quiet i a b = true →
  ex_frame c (interpret_ex c) (default (PC c) tgt) (ex_output (id_ex c) (ex_mem c)) ∧
  carries (ex_output (id_ex c) (ex_mem c)) u.
Proof.
  intros Hd Hl Ha Hb He Hq. split; [|by eapply decoded_carries].
  rewrite <-(decoded_transfer _ _ _ _ _ _ _ _ Hd He).
  apply interpret_ex_spec; [by eapply dec_exception|done|by eapply decoded_one_transfer].
Qed.

(** C11: the execute stage carries out a decoded instruction of the specified subset as
    the specification says: EX/MEM receives its register write, load or store with the
    specified value and address, the PC moves to its target exactly when it transfers
    control, and no other register changes - provided the sum the stage checks does not
    overflow. *)
Theorem interpret_ex_executes c w pc a b i u tgt :
  decoded w ((pc + 4) mod 2 ^ 32) a b i (id_ex c) → core_ok c →
  exec i pc a b = Some (u, tgt) → quiet i a b = true →
  carries (ex_mem (interpret_ex c)) u ∧ PC (interpret_ex c) = default (PC c) tgt ∧
  (∀ r, 0 <= r < REG_PC → aread (regs (interpret_ex c)) r = aread (regs c) r) ∧
  cp0 (interpret_ex c) = cp0 c ∧ mem_wb (interpret_ex c) = mem_wb c.
Proof.
  intros Hd Hc He Hq. pose proof (regs_length _ (core_regs _ Hc)) as Hl.
  assert (u32 a ∧ u32 b) as [Ha Hb].
  { rewrite <-(dec_rs_value _ _ _ _ _ _ Hd), <-(dec_rt_value _ _ _ _ _ _ Hd).
    destruct Hc as [_ _ [] _ _]. split; assumption. }
  destruct (interpret_ex_decoded c w pc a b i u tgt) as [(bd & ja & ->) Hcar]; [done..|].
  split; [exact Hcar|split; [|split; [|split; reflexivity]]].
  - unfold PC. cbn. apply aread_insert_eq. rewrite Hl. unfold REG_PC, NUM_REGISTERS. lia.
  - intros r Hr. cbn. apply aread_insert_ne; unfold REG_PC in *; lia.
Qed.

(** A core about to execute [addiu $t0, $zero, -4] at 0x80000000. *)
Definition addiu_core : core_t :=
  interpret_id (zero_core <| if_id := zero_if_id <| ifid_inst := 0x2408FFFC |>
                                                 <| ifid_next_pc := 0x80000004 |> |>).

Lemma addiu_core_ok : core_ok addiu_core.
Proof.
  apply interpret_id_ok, core_if_id_ok; [exact zero_core_ok|].
  split; cbn; [unfold u32; lia|unfold u32; lia|reflexivity|reflexivity].
Qed.

Lemma interpret_ex_executes_witness :
  carries (ex_mem (interpret_ex addiu_core)) (UWrite 8 0xFFFFFFFC) ∧
  PC (interpret_ex addiu_core) = 0 ∧
  (∀ r, 0 <= r < REG_PC →
     aread (regs (interpret_ex addiu_core)) r = aread (regs addiu_core) r) ∧
  cp0 (interpret_ex addiu_core) = cp0 addiu_core ∧
  mem_wb (interpret_ex addiu_core) = mem_wb addiu_core.
Proof.
  refine (interpret_ex_executes addiu_core 0x2408FFFC 0x80000000 0 0
    (IAluImm AluAdd false (-4) 8) (UWrite 8 0xFFFFFFFC) None _ addiu_core_ok _ _).
  - split; try (vm_compute; reflexivity). intros t Ht. discriminate.
  - vm_compute. reflexivity.
  - reflexivity.
Defined.

Lemma ex_latch_no_exception d x :
  exmem_exception ((ex_latch d x) <| exmem_reg_dst :=
    if idex_c_reg_dst d then idex_rd d else idex_rt d |>) = EXC_None.
Proof. reflexivity. Qed.

Lemma alu_r_type_exception d a b x :
  exmem_exception (alu_r_type d a b x) =
    if idex_funct d =? FUNCT_SYSCALL then EXC_Syscall else exmem_exception x.
Proof.
  unfold alu_r_type. cbv zeta. generalize (idex_funct d) as f. intros f.
  repeat match goal with
  | |- context [if f =? ?k then _ else _] =>
    lazymatch k with
    | FUNCT_SYSCALL => fail
    | _ => destruct (Z.eqb_spec f k) as [->|_]; [eval_tests; reflexivity|]
    end
  end.
  by destruct (f =? FUNCT_SYSCALL).
Qed.

Lemma alu_i_type_exception d a b x :
  exmem_exception (alu_i_type d a b x) =
    if (GET_OPCODE (idex_inst d) =? OPCODE_ADDI) && negb (sum_fits a b)
    then EXC_ArithmeticOverflow else exmem_exception x.
Proof.
  unfold alu_i_type. cbv zeta. generalize (GET_OPCODE (idex_inst d)) as f. intros f.
  destruct (Z.eqb_spec f OPCODE_ADDI) as [->|_]; cbn [andb].
  - rewrite check_soverflow_fits. by destruct (sum_fits a b).
  - repeat match goal with
    | |- context [if f =? ?k then _ else _] => destruct (f =? k); [reflexivity|]
    end. reflexivity.
Qed.

(** C13: the exceptions of the execute stage: an arithmetic overflow exactly when the
    operands of an operation with code 0 - a load, a store, but also a branch, a jump
    or an unknown opcode - or of an ADDI have a signed sum out of range, a system call
    for the SYSCALL function, and nothing otherwise (so never for ADD or SUB). *)
Theorem interpret_ex_exceptions c :
  core_ok c →
  (idex_c_jump (id_ex c) = true → idex_c_beq (id_ex c) = false ∧ idex_c_bne (id_ex c) = false) →
  let d := id_ex c in
  let fits := sum_fits (idex_rs_value d) (alu_b d) in
  exmem_exception (ex_mem (interpret_ex c)) =
    if idex_c_alu_op d =? 0 then if fits then EXC_None else EXC_ArithmeticOverflow
    else if idex_c_alu_op d =? 2 then
      if idex_funct d =? FUNCT_SYSCALL then EXC_Syscall else EXC_None
    else if (idex_c_alu_op d =? 3) && (GET_OPCODE (idex_inst d) =? OPCODE_ADDI) && negb fits
    then EXC_ArithmeticOverflow else EXC_None.
Proof.
  intros Hc Hj. cbv zeta. destruct (interpret_ex_spec c) as (bd & ja & ->);
    [apply (idex_exception_ok _ (core_id_ex _ Hc))|apply (regs_length _ (core_regs _ Hc))|done|].
  cbn [ex_mem]. unfold ex_output.
  generalize (ex_latch_no_exception (id_ex c) (ex_mem c)).
  generalize ((ex_latch (id_ex c) (ex_mem c)) <| exmem_reg_dst :=
    if idex_c_reg_dst (id_ex c) then idex_rd (id_ex c) else idex_rt (id_ex c) |>) as x.
  generalize (id_ex c) as d. intros d x Hx.
  unfold alu_stage, interpret_ex_alu. cbv zeta. cbn [id_ex ex_mem].
  destruct (Z.eqb_spec (idex_c_alu_op d) 0) as [E|E0].
  { rewrite check_soverflow_fits. destruct (sum_fits _ _); [exact Hx|reflexivity]. }
  destruct (Z.eqb_spec (idex_c_alu_op d) 1) as [E|E1]; [rewrite E; exact Hx|].
  destruct (Z.eqb_spec (idex_c_alu_op d) 2) as [E|E2].
  { rewrite E. cbn [Z.eqb Pos.eqb]. change (ex_mem (_ <| ex_mem := ?y |>)) with y.
    rewrite alu_r_type_exception, Hx. reflexivity. }
  destruct (Z.eqb_spec (idex_c_alu_op d) 3) as [E|E3]; [|exact Hx].
  cbn [andb]. change (ex_mem (_ <| ex_mem := ?y |>)) with y.
  rewrite alu_i_type_exception, Hx. reflexivity.
Qed.

(** A core about to execute [beq $t0, $t0, 4] with $t0 = 0x7FFFFFFF. *)
Definition beq_core : core_t :=
  interpret_id (zero_core <| regs := <[Z.to_nat 8 := 0x7FFFFFFF]> (regs zero_core) |>
                          <| if_id := zero_if_id <| ifid_inst := 0x11080004 |> |>).

Lemma beq_core_ok : core_ok beq_core.
Proof.
  apply interpret_id_ok, core_if_id_ok.
  - pose proof zero_core_ok as [Hr Hf Hd Hx Hw]. split; try assumption.
    apply regs_ok_set; [exact Hr|vm_compute; split; congruence|unfold u32; lia|discriminate].
  - split; cbn; [unfold u32; lia|exact u32_0|reflexivity|reflexivity].
Qed.

Lemma interpret_ex_exceptions_witness :
  exmem_exception (ex_mem (interpret_ex beq_core)) = EXC_ArithmeticOverflow.
Proof. exact (interpret_ex_exceptions beq_core beq_core_ok ltac:(discriminate)). Defined.
