(* ===== verification/Refine.v ===== *)
(** * The pipeline refines the instruction-set specification

    The state of the specification is that before the instruction in ID/EX: the two
    older instructions have completed, the younger one is in IF/ID or about to be
    fetched. [inv] relates the two; every step of the specification is one tick of the
    pipeline, or two when a load-use hazard inserts a bubble. *)

From S2P Require Import Prelude Mips32 Tools Cpu Exception Bus Decode Execute Memstage Writeback.
From S2P Require Import Forward Fetch Sim Wellformed Isa Merge DecodeExecute.

#[local] Set Default Proof Using "Type*".

(** Register files are compared on the general-purpose registers. *)
Definition regs_agree (R R' : Z → Z) : Prop := ∀ r, 0 <= r < 32 → R r = R' r.

#[export] Instance regs_agree_equivalence : Equivalence regs_agree.
Proof.
  split; unfold regs_agree.
  - by intros R r _.
  - intros R R' HR r Hr. by rewrite HR.
  - intros R R' R'' H1 H2 r Hr. by rewrite H1, H2.
Qed.

#[export] Instance rset_proper : Proper (regs_agree ==> eq ==> eq ==> regs_agree) rset.
Proof.
  intros R R' HR r ? <- v ? <- x Hx. unfold rset. destruct (x =? r); [done|by apply HR].
Qed.

Definition gpr (c : core_t) : Z → Z := aread (regs c).

(** The register write in MEM/WB takes [R] to [R']. *)
Definition pending (w : mem_wb_t) (R R' : Z → Z) : Prop :=
  memwb_exception w = EXC_None ∧ (GET_OPCODE (memwb_inst w) =? OPCODE_CP0) = false ∧
  ∀ r, 0 <= r < 32 →
    R' r = if memwb_c_reg_write w && negb (memwb_reg_dst w =? 0) && (memwb_reg_dst w =? r)
           then wb_data w else R r.

(** The instruction [d] in ID/EX has effect [u] and control transfer [target]. *)
Definition executes (d : id_ex_t) (u : uop) (target : option Z) : Prop :=
  ∀ c, id_ex c = d → length (regs c) = Z.to_nat NUM_REGISTERS →
    ex_frame c (interpret_ex c) (default (PC c) target) (ex_output d (ex_mem c)) ∧
    carries (ex_output d (ex_mem c)) u.

(** The effect does not load the operands of the following instruction. *)
Definition hazard_free (u : uop) (w : Z) : Prop :=
  match u with
  | ULoad _ r _ => (r ≠ GET_RS w ∨ GET_RS w = 0) ∧ (r ≠ GET_RT w ∨ GET_RT w = 0)
  | _ => True
  end.

(** What fetch leaves: the fetched word, or a bubble with the PC unchanged. *)
Definition fetched (c : core_t) (pc w : Z) : Prop :=
  if load_use_hazard (id_ex c) w then ifid_inst (if_id c) = 0 ∧ PC c = pc
  else ifid_inst (if_id c) = w ∧ ifid_next_pc (if_id c) = (pc + 4) mod 2 ^ 32 ∧
       PC c = (pc + 4) mod 2 ^ 32.

(** ** The back of the pipeline *)

Section Stages.
Context {M : Type} {ok : M → Prop} `{BusSpec M ok}.
Implicit Types (c : core_t) (m : M) (R : Z → Z) (u : uop).

Lemma uop_step_zero u R m R' m' : uop_step u R m R' m' → R 0 = 0 → R' 0 = 0.
Proof. destruct 1; unfold rset; case_Z; try done; by subst. Qed.

Lemma uop_step_agree u R1 m R1' m' R2 :
  uop_step u R1 m R1' m' → regs_agree R1 R2 →
  ∃ R2', uop_step u R2 m R2' m' ∧ regs_agree R1' R2'.
Proof.
  destruct 1 as [| |R m k r a v Hr Hv|]; intros HR; eexists;
    (split; [constructor; rewrite <-?(HR r Hr); done|]); [exact HR|by rewrite HR..|exact HR].
Qed.

(** Write back retires the pending write. *)
Lemma interpret_wb_pending c g R1 :
  core_ok c → pending (mem_wb c) (gpr c) R1 →
  ∃ r1, interpret_wb c g = Ret (c <| regs := r1 |>, g) ∧
    length r1 = Z.to_nat NUM_REGISTERS ∧
    aread r1 REG_PC = PC c ∧ ∀ r, 0 <= r < 32 → aread r1 r = R1 r.
Proof.
  intros Hc (He & Hop & HR). pose proof (core_regs _ Hc) as Hr.
  pose proof (memwb_dst_ok _ (core_mem_wb _ Hc)) as Hdst.
  apply dst_ok_gpr in Hdst; [|done]. unfold REG_RA in Hdst. pose proof (regs_length _ Hr) as Hl.
  unfold interpret_wb. cbv zeta. rewrite (not_eret _ Hop), decide_False by auto.
  unfold wb_write. cbv zeta. rewrite Hop. cbn [andb].
  destruct (memwb_c_reg_write (mem_wb c)) eqn:Ew.
  - rewrite aset_in_range by (rewrite Hl; unfold NUM_REGISTERS; lia). cbn [mbind outcome_bind].
    eexists. split; [reflexivity|]. split; [by rewrite length_insert|]. split.
    + unfold PC, REG_PC. apply aread_insert_ne; lia.
    + intros r Hr'. rewrite HR by done. cbn [andb].
      destruct (Z.eqb_spec (memwb_reg_dst (mem_wb c)) r) as [->|Hne].
      * rewrite aread_insert_eq by (rewrite Hl; unfold NUM_REGISTERS; lia). rewrite andb_true_r.
        destruct (Z.eqb_spec r 0) as [->|]; [|done]. symmetry. apply (regs_zero _ Hr).
      * rewrite andb_false_r, aread_insert_ne by lia. done.
  - exists (regs c). split; [by destruct c|]. split; [done|]. split; [done|].
    intros r Hr'. by rewrite HR by done.
Qed.

(** The write that a load or an ALU instruction leaves pending. *)
Lemma pending_write w R r v :
  memwb_exception w = EXC_None → (GET_OPCODE (memwb_inst w) =? OPCODE_CP0) = false →
  memwb_c_reg_write w = true → memwb_reg_dst w = r → wb_data w = v → R 0 = 0 →
  pending w R (rset R r v).
Proof.
  intros He Hop Hw <- <- Hzero. split; [done|]. split; [done|]. intros x Hx. rewrite Hw. unfold rset.
  cbn [andb]. rewrite (Z.eqb_sym (memwb_reg_dst w) x).
  destruct (Z.eqb_spec x (memwb_reg_dst w)) as [<-|]; [|by rewrite andb_false_r].
  rewrite andb_true_r. destruct (Z.eqb_spec x 0) as [->|]; done.
Qed.

Lemma pending_none w R :
  memwb_exception w = EXC_None → (GET_OPCODE (memwb_inst w) =? OPCODE_CP0) = false →
  memwb_c_reg_write w = false → pending w R R.
Proof. intros He Hop Hw. split; [done|]. split; [done|]. intros r _. by rewrite Hw. Qed.

(** The load of the switch gives the specified value. *)
Lemma mem_read_switch_load c m kind r addr v :
  core_ok c → carries (ex_mem c) (ULoad kind r addr) → 0 <= r < 32 →
  load_value m addr (gpr c r) kind v →
  let w := mem_latch (ex_mem c) (mem_wb c) in
  mem_read_switch c m w (ex_mem c) =
    Ret (w <| memwb_exception := EXC_None |> <| memwb_read_data := v |>).
Proof.
  intros Hc (_ & _ & _ & _ & _ & Hd & Ha & Hop) Hr Hv w.
  pose proof (regs_length _ (core_regs _ Hc)) as Hl.
  assert (u32 addr) as Hu by (rewrite <-Ha; apply (exmem_alu_res_ok _ (core_ex_mem _ Hc))).
  assert (u32 (gpr c r)) as Hold by by apply (regs_read _ r (core_regs _ Hc)).
  assert (aget (regs c) (exmem_reg_dst (ex_mem c)) = Ret (gpr c r)) as Hget.
  { rewrite Hd. apply aget_aread. rewrite Hl. unfold NUM_REGISTERS. lia. }
  unfold mem_read_switch. change (memwb_inst w) with (exmem_inst (ex_mem c)). revert Hop. unfold load_op.
  destruct (_ =? OPCODE_LW); [|destruct (_ =? OPCODE_LBU); [|destruct (_ =? OPCODE_LHU);
    [|destruct (_ =? OPCODE_LWL); [|destruct (_ =? OPCODE_LWR); [|done]]]]]; intros [= <-];
    inversion Hv as [sz v' Hl'|t [Ht Hl']|t [Ht Hl']]; subst v; rewrite <-Ha in *.
  1-3: unfold mem_load; rewrite Hl' by apply (memwb_read_data_ok _ (core_mem_wb _ Hc)); done.
  - unfold mem_lwl. rewrite word_addr_align, Hl' by done. cbn [mbind outcome_bind].
    rewrite Hget. cbn [mbind outcome_bind]. by rewrite lwl_data_merge.
  - unfold mem_lwr. rewrite word_addr_align, Hl' by done. cbn [mbind outcome_bind].
    rewrite Hget. cbn [mbind outcome_bind]. by rewrite lwr_data_merge.
Qed.

(** The memory stage performs the effect: its register write becomes pending. *)
Lemma interpret_mem_carries c m u R m' R' :
  core_ok c → regs_agree (gpr c) R → carries (ex_mem c) u → uop_step u R m R' m' → R 0 = 0 →
  ∃ w, interpret_mem c m = Ret (c <| mem_wb := w |>, m') ∧ pending w R R'.
Proof.
  intros Hc HR (He & Hop & Hu) Hs Hzero. unfold interpret_mem. cbv zeta.
  rewrite decide_False by (rewrite He; auto).
  destruct Hs as [R m|R m r v|R m kind r addr v Hr Hl|R m sz addr v m' Hst]; cbn in Hu.
  - destruct Hu as (Hw & -> & ->). eexists. split; [reflexivity|].
    by apply pending_none.
  - destruct Hu as (Hw & -> & -> & Hmr & Hd & Hv). eexists. split; [reflexivity|].
    apply pending_write; try done. unfold wb_data. cbn. by rewrite Hmr.
  - pose proof Hu as (Hw & -> & Hmr & Hd & _).
    rewrite (mem_read_switch_load c m kind r addr v); [|done|by split|done|by rewrite HR]. cbn [mbind outcome_bind].
    eexists. split; [reflexivity|]. apply pending_write; try done. unfold wb_data. cbn. by rewrite Hmr.
  - destruct Hu as (Hw & -> & -> & Ha & Hv & Hop').
    assert (mem_write_switch c m (mem_latch (ex_mem c) (mem_wb c)) (ex_mem c) =
      mem_store m (mem_latch (ex_mem c) (mem_wb c)) addr v sz) as ->.
    { rewrite <-Ha, <-Hv. unfold mem_write_switch. cbn. revert Hop'. unfold store_op.
      destruct (_ =? OPCODE_SW); [by intros [= <-]|]. destruct (_ =? OPCODE_SB); [by intros [= <-]|].
      destruct (_ =? OPCODE_SH); [by intros [= <-]|done]. }
    unfold mem_store. rewrite Hst. cbn [mbind outcome_bind].
    eexists. split; [reflexivity|]. by apply pending_none.
Qed.

(** ** Forwarding *)

(** The value an operand multiplexer selects is that of the register after the two
    older instructions have completed. *)
Lemma forward_mux_operand c u R1 R2 R3 m2 m3 r :
  0 <= r < 32 → carries (ex_mem c) u → pending (mem_wb c) R1 R2 →
  uop_step u R2 m2 R3 m3 → R2 0 = 0 →
  (GET_OPCODE (idex_inst (id_ex c)) =? OPCODE_CP0) = false →
  (match u with ULoad _ r' _ => r' ≠ r ∨ r = 0 | _ => True end) →
  match forward_mux c r with
  | Keep => R3 r = R1 r
  | Replace v => R3 r = v
  | Illegal => False
  end.
Proof.
  intros Hr (_ & Hop & Hu) (_ & Hopw & HR) Hs Hzero Hid Hl.
  unfold forward_mux, forward_illegal. cbv zeta. rewrite Hop, Hopw, Hid. cbn [andb orb negb].
  specialize (HR r Hr).
  assert (match (if memwb_c_reg_write (mem_wb c) && negb (memwb_reg_dst (mem_wb c) =? 0) &&
                    (memwb_reg_dst (mem_wb c) =? r)
                 then Replace (wb_data (mem_wb c)) else Keep) with
          | Keep => R2 r = R1 r | Replace v => R2 r = v | Illegal => False end) as Hold
    by (rewrite HR; by destruct (_ && _)).
  revert Hold.
  generalize (if memwb_c_reg_write (mem_wb c) && negb (memwb_reg_dst (mem_wb c) =? 0) &&
                    (memwb_reg_dst (mem_wb c) =? r)
                 then Replace (wb_data (mem_wb c)) else Keep) as old. intros old Hold.
  destruct Hs as [R m|R m d v|R m kind d addr v _ _|R m sz addr v m' _]; cbn in Hu.
  - destruct Hu as (-> & _). exact Hold.
  - destruct Hu as (-> & _ & _ & _ & Hd & Hv). subst d v. cbn [andb]. unfold rset.
    rewrite (Z.eqb_sym r). destruct (Z.eqb_spec (exmem_reg_dst (ex_mem c)) r) as [<-|].
    + rewrite andb_true_r. destruct (Z.eqb_spec (exmem_reg_dst (ex_mem c)) 0) as [E|]; [|done].
      cbn [negb]. rewrite E in *. rewrite Hzero in Hold. by destruct old.
    + rewrite andb_false_r. exact Hold.
  - destruct Hu as (-> & _ & _ & Hd & _). subst d. cbn [andb]. unfold rset.
    rewrite (Z.eqb_sym r). destruct (Z.eqb_spec (exmem_reg_dst (ex_mem c)) r) as [E|];
      [|rewrite andb_false_r; exact Hold].
    destruct Hl as [Hl| ->]; [done|]. rewrite E. cbn [negb andb Z.eqb]. rewrite Hzero in Hold.
    by destruct old.
  - destruct Hu as (-> & _). exact Hold.
Qed.

Lemma decoded_set_rs w n a b i d a' :
  decoded w n a b i d → decoded w n a' b i (d <| idex_rs_value := a' |>).
Proof. intros []. split; try assumption; reflexivity. Qed.

Lemma decoded_set_rt w n a b i d b' :
  decoded w n a b i d → decoded w n a b' i (d <| idex_rt_value := b' |>).
Proof. intros []. split; try assumption; reflexivity. Qed.

Lemma decoded_eq w n a b i d a' b' :
  decoded w n a b i d → a = a' → b = b' → decoded w n a' b' i d.
Proof. by intros ? -> ->. Qed.

Lemma forwarding_unit_decoded c u R1 R2 R3 m2 m3 w n i :
  carries (ex_mem c) u → pending (mem_wb c) R1 R2 → uop_step u R2 m2 R3 m3 → R2 0 = 0 →
  hazard_free u w → decoded w n (R1 (GET_RS w)) (R1 (GET_RT w)) i (id_ex c) →
  ∃ d, forwarding_unit c = c <| id_ex := d |> ∧
       decoded w n (R3 (GET_RS w)) (R3 (GET_RT w)) i d.
Proof.
  intros Hcar Hp Hs Hz Hh Hd.
  pose proof (isa_decode_not_cp0 w i (dec_instr _ _ _ _ _ _ Hd)) as Hop.
  pose proof (GET_RS_range w) as Hrs. pose proof (GET_RT_range w) as Hrt.
  assert ((GET_OPCODE (idex_inst (id_ex c)) =? OPCODE_CP0) = false) as Hid
    by by rewrite (dec_inst _ _ _ _ _ _ Hd).
  pose proof (forward_mux_operand c u R1 R2 R3 m2 m3 (GET_RS w) Hrs Hcar Hp Hs Hz Hid) as Ha.
  pose proof (forward_mux_operand c u R1 R2 R3 m2 m3 (GET_RT w) Hrt Hcar Hp Hs Hz Hid) as Hb.
  specialize (Ha ltac:(destruct u; try done; apply Hh)).
  specialize (Hb ltac:(destruct u; try done; apply Hh)).
  unfold forwarding_unit. rewrite (dec_inst _ _ _ _ _ _ Hd), (not_eret w Hop).
  unfold forward_A. rewrite (dec_rs _ _ _ _ _ _ Hd).
  destruct (forward_mux c (GET_RS w)) as [|va|]; [| |done].
  - unfold forward_B. rewrite (dec_rt _ _ _ _ _ _ Hd).
    destruct (forward_mux c (GET_RT w)) as [|vb|]; [| |done].
    + exists (id_ex c). split; [by destruct c|]. by eapply decoded_eq.
    + eexists. split; [reflexivity|]. rewrite Ha, Hb. by eapply decoded_set_rt.
  - unfold forward_B.
    assert (∀ r, forward_mux (c <| id_ex := (id_ex c) <| idex_rs_value := va |> |>) r =
                 forward_mux c r) as -> by done.
    change (idex_rt (id_ex (c <| id_ex := (id_ex c) <| idex_rs_value := va |> |>)))
      with (idex_rt (id_ex c)). rewrite (dec_rt _ _ _ _ _ _ Hd).
    destruct (forward_mux c (GET_RT w)) as [|vb|]; [| |done].
    + eexists. split; [reflexivity|]. rewrite Ha, Hb. by eapply decoded_set_rs.
    + eexists. split; [reflexivity|]. rewrite Ha, Hb. by eapply decoded_set_rt, decoded_set_rs.
Qed.

Lemma decoded_executes w pc a b i d u tgt :
  decoded w ((pc + 4) mod 2 ^ 32) a b i d → u32 a → u32 b →
  exec i pc a b = Some (u, tgt) → quiet i a b = true → executes d u tgt.
Proof. intros Hd Ha Hb He Hq c <- Hl. by apply (interpret_ex_decoded c w pc a b i). Qed.

(** Fetch reads the word at the PC. *)
Lemma interpret_if_fetched c m w :
  length (regs c) = Z.to_nat NUM_REGISTERS →
  bus_read m (PC c) 0 MEM_OP_WORD = Ret (EXC_None, w) →
  ∃ f r, interpret_if c m = Ret (c <| if_id := f |> <| regs := r |>) ∧
    fetched (c <| if_id := f |> <| regs := r |>) (PC c) w ∧
    ∀ x, 0 <= x < 32 → aread r x = aread (regs c) x.
Proof.
  intros Hl Hr. unfold interpret_if. unfold PC in Hr. rewrite Hr. cbn [mbind outcome_bind].
  change (id_ex (c <| if_id := (if_id c) <| ifid_exception := EXC_None |> |>)) with (id_ex c).
  unfold fetched. cbn [id_ex update]. destruct (load_use_hazard (id_ex c) w) eqn:Eh.
  - exists ((if_id c) <| ifid_exception := EXC_None |> <| ifid_inst := 0 |>), (regs c).
    split; [by destruct c|]. split; [split; reflexivity|done].
  - eexists _, _. split; [reflexivity|]. unfold PC. cbn.
    rewrite aread_insert_eq by (rewrite Hl; unfold REG_PC, NUM_REGISTERS; lia).
    split; [done|]. intros x Hx. apply aread_insert_ne; unfold REG_PC; lia.
Qed.

(** ** One tick *)

Lemma pending_agree w R R' R1 : pending w R R' → regs_agree R1 R → pending w R1 R'.
Proof.
  intros (He & Hop & HR) Ha. split; [done|]. split; [done|]. intros r Hr.
  by rewrite HR, Ha.
Qed.

Lemma decoded_hazard w n n' a a' b b' i d d' x :
  decoded w n a b i d → decoded w n' a' b' i d' → load_use_hazard d x = load_use_hazard d' x.
Proof.
  intros Hd Hd'. unfold load_use_hazard. rewrite (dec_rt _ _ _ _ _ _ Hd), (dec_rt _ _ _ _ _ _ Hd').
  assert (idex_c_mem_read d = idex_c_mem_read d') as ->; [|done].
  pose proof (dec_control _ _ _ _ _ _ Hd) as Hc. rewrite <-(dec_control _ _ _ _ _ _ Hd') in Hc.
  unfold control_of in Hc. congruence.
Qed.

Lemma fetched_id_ex c d pc w :
  load_use_hazard d w = load_use_hazard (id_ex c) w → fetched c pc w →
  fetched (c <| id_ex := d |>) pc w.
Proof.
  unfold fetched. change (id_ex (c <| id_ex := d |>)) with d. intros ->.
  by destruct (load_use_hazard (id_ex c) w).
Qed.


(** Decode, fetch and forwarding, after the execute stage. *)
Lemma front_step c m2 u R1 R2 R3 m3 w n i f :
  ifid_exception (if_id c) = EXC_None → ifid_inst (if_id c) = w → ifid_next_pc (if_id c) = n →
  isa_decode w = Some i → length (regs c) = Z.to_nat NUM_REGISTERS →
  regs_agree (gpr c) R1 → carries (ex_mem c) u → pending (mem_wb c) R1 R2 →
  uop_step u R2 m2 R3 m3 → R2 0 = 0 → hazard_free u w →
  bus_read m2 (PC c) 0 MEM_OP_WORD = Ret (EXC_None, f) →
  ∃ c5, interpret_if (interpret_id c) m2 = Ret c5 ∧
    mem_wb (forwarding_unit c5) = mem_wb c ∧ ex_mem (forwarding_unit c5) = ex_mem c ∧
    regs_agree (gpr (forwarding_unit c5)) R1 ∧
    decoded w n (R3 (GET_RS w)) (R3 (GET_RT w)) i (id_ex (forwarding_unit c5)) ∧
    fetched (forwarding_unit c5) (PC c) f.
Proof.
  intros He <- <- Hi Hl HR Hcar Hp Hs Hz Hh Hf. set (w := ifid_inst (if_id c)) in *.
  destruct (interpret_id_decoded c i He Hi) as (d & -> & Hd). fold w in Hd.
  set (c4 := c <| id_ex := d |>).
  destruct (interpret_if_fetched c4 m2 f Hl Hf) as (fd & r & -> & Hfet & Hr).
  eexists. split; [reflexivity|]. set (c5 := c4 <| if_id := fd |> <| regs := r |>) in *.
  assert (decoded w (ifid_next_pc (if_id c)) (R1 (GET_RS w)) (R1 (GET_RT w)) i (id_ex c5)) as Hd5.
  { eapply decoded_eq; [exact Hd|apply HR, GET_RS_range|apply HR, GET_RT_range]. }
  destruct (forwarding_unit_decoded c5 u R1 R2 R3 m2 m3 w _ i Hcar Hp Hs Hz Hh Hd5)
    as (d' & -> & Hd').
  split; [reflexivity|]. split; [reflexivity|]. split; [|split; [exact Hd'|]].
  - intros x Hx. transitivity (aread (regs c) x); [by apply Hr|by apply HR].
  - apply fetched_id_ex; [|exact Hfet]. by eapply decoded_hazard.
Qed.

Lemma tick_core_step c m g R1 u2 R2 m2 u3 tgt R3 m3 w i f :
  core_ok c → pending (mem_wb c) (gpr c) R1 →
  carries (ex_mem c) u2 → uop_step u2 R1 m R2 m2 →
  executes (id_ex c) u3 tgt → uop_step u3 R2 m2 R3 m3 →
  ifid_inst (if_id c) = w → isa_decode w = Some i → hazard_free u3 w →
  (∀ dst, u32 dst → bus_read m2 (default (PC c) tgt) dst MEM_OP_WORD = Ret (EXC_None, f)) →
  ∃ c', tick_core c m g = Ret (c', m2, g) ∧
    pending (mem_wb c') (gpr c') R2 ∧ carries (ex_mem c') u3 ∧
    decoded w (ifid_next_pc (if_id c)) (R3 (GET_RS w)) (R3 (GET_RT w)) i (id_ex c') ∧
    fetched c' (default (PC c) tgt) f.
Proof.
  intros Hc Hp Hcar Hs2 Hex Hs3 Hw Hi Hh Hf.
(** write back *)
  destruct (interpret_wb_pending c g R1 Hc Hp) as (r1 & Hwb & Hl1 & Hpc1 & HR1).
  assert (core_ok (c <| regs := r1 |>)) as Hc1.
  { destruct (interpret_wb_ok c g Hc) as (c' & g' & E & ?). by rewrite Hwb in E; simplify_eq. }
  assert (R1 0 = 0) as Hz1.
  { rewrite <-(HR1 0) by lia. apply (regs_zero _ (core_regs _ Hc1)). }
  assert (R2 0 = 0) as Hz2 by by eapply uop_step_zero.
(** memory access *)
  destruct (interpret_mem_carries (c <| regs := r1 |>) m u2 R1 m2 R2 Hc1 HR1 Hcar Hs2 Hz1)
    as (wb & Hmem & Hp2).
  set (c2 := c <| regs := r1 |> <| mem_wb := wb |>) in Hmem.
  assert (regs c2 = r1 ∧ if_id c2 = if_id c ∧ id_ex c2 = id_ex c ∧ mem_wb c2 = wb)
    as (Er & Ef & Ed & Ew) by done.
  clearbody c2.
(** execute *)
  destruct (Hex c2 Ed ltac:(by rewrite Er)) as [(bd & ja & Hexec) Hcar3].
  assert (PC c2 = PC c) as Epc by (unfold PC at 1; by rewrite Er).
  rewrite Epc in Hexec. set (pc5 := default (PC c) tgt) in *.
  set (c3 := interpret_ex c2) in *.
  assert (if_id c3 = (if_id c) <| ifid_is_branch_delay := bd |> ∧
    ex_mem c3 = ex_output (id_ex c) (ex_mem c2) ∧ mem_wb c3 = wb ∧
    regs c3 = <[Z.to_nat REG_PC := pc5]> r1) as (Ef3 & Ex3 & Ew3 & Er3).
  { rewrite Hexec. cbn [if_id ex_mem mem_wb regs]. by rewrite Ef, Ew, Er. }
  assert (length (regs c3) = Z.to_nat NUM_REGISTERS) as Hl3 by by rewrite Er3, length_insert.
  assert (PC c3 = pc5) as Epc3.
  { unfold PC. rewrite Er3. apply aread_insert_eq. rewrite Hl1. unfold REG_PC, NUM_REGISTERS. lia. }
  assert (regs_agree (gpr c3) R1) as HR3.
  { intros r Hr. unfold gpr. rewrite Er3, aread_insert_ne by (unfold REG_PC; lia). by apply HR1. }
  rewrite <-Ex3 in Hcar3. rewrite <-Ew3 in Hp2. fold c3 in Hexec.
(** decode, fetch, forwarding *)
  destruct (front_step c3 m2 u3 R1 R2 R3 m3 w (ifid_next_pc (if_id c)) i f)
    as (c5 & Hif & Ew5 & Ex5 & HR5 & Hd5 & Hf5); try done; try (rewrite Ef3; try done).
  { apply (ifid_exception_ok _ (core_if_id _ Hc)). }
  { rewrite Epc3. apply Hf, u32_0. }
  exists (forwarding_unit c5). split.
  { unfold tick_core. rewrite Hwb. cbn [mbind outcome_bind]. rewrite Hmem.
    cbn [mbind outcome_bind]. change (interpret_ex c2) with c3. rewrite Hif. reflexivity. }
  rewrite Ew5, Ex5. rewrite Epc3 in Hf5. split; [by eapply pending_agree|]. by split_and!.
Qed.
End Stages.

(** ** The simulation relation *)

Section Refinement.
Context {M : Type} {ok : M → Prop} `{BusSpec M ok}.
Variable code : Z → option Z.
Implicit Types (c : core_t) (m : M) (s : isa_state (M := M)).

(** The instruction after that in ID/EX is in IF/ID, or was held back behind a load. *)
Inductive next_instr (c : core_t) (npc : Z) : Prop :=
  | next_fetched w :
      code npc = Some w → ifid_inst (if_id c) = w →
      ifid_next_pc (if_id c) = (npc + 4) mod 2 ^ 32 → PC c = (npc + 4) mod 2 ^ 32 →
      load_use_hazard (id_ex c) w = false → next_instr c npc
  | next_stalled w :
      code npc = Some w → ifid_inst (if_id c) = 0 → PC c = npc →
      load_use_hazard (id_ex c) w = true → next_instr c npc.

Record inv (c : core_t) (m : M) (s : isa_state) : Prop := {
  inv_core : core_ok c;
  inv_mem : ok m;
  inv_code : code_ok code (isa_mem s);
  inv_back : ∃ R1 u R2,
    pending (mem_wb c) (gpr c) R1 ∧ carries (ex_mem c) u ∧
    uop_step u R1 m R2 (isa_mem s) ∧ regs_agree R2 (isa_regs s);
  inv_id_ex : ∃ w i, code (isa_pc s) = Some w ∧
    decoded w ((isa_pc s + 4) mod 2 ^ 32) (isa_regs s (GET_RS w)) (isa_regs s (GET_RT w)) i
      (id_ex c);
  inv_next : next_instr c (isa_npc s) }.

(** The next instruction is in the subset and the one after it can be fetched. *)
Definition fetchable s : Prop :=
  (∃ w i, code (isa_pc s) = Some w ∧ isa_decode w = Some i) ∧ ∃ w, code (isa_npc s) = Some w.

(** [n] ticks of one core. *)
Fixpoint ticks (n : nat) (c : core_t) (m : M) (g : bool) : outcome (core_t * M * bool) :=
  match n with
  | O => Ret (c, m, g)
  | S n => '(c, m, g) ← tick_core c m g; ticks n c m g
  end.

Lemma tick_core_ok c m g c' m' g' :
  core_ok c → ok m → tick_core c m g = Ret (c', m', g') → core_ok c' ∧ ok m'.
Proof.
  intros Hc Hm Ht. pose proof (tick_core_yields (ok := ok) c m g Hc Hm) as Hy.
  by rewrite Ht in Hy.
Qed.

Lemma code_read m a w :
  code_ok code m → code a = Some w → ∀ dst, u32 dst → bus_read m a dst MEM_OP_WORD = Ret (EXC_None, w).
Proof. intros Hc Ha. by apply Hc. Qed.

(** A no-operation, the word 0. *)
Definition nop : instr := IAlu (AluSll 0) false 0.

Lemma nop_decode : isa_decode 0 = Some nop.
Proof. reflexivity. Qed.

Lemma rset_zero_agree R v : R 0 = 0 → regs_agree (rset R 0 v) R.
Proof. intros Hz r _. unfold rset. by destruct (Z.eqb_spec r 0) as [->|]. Qed.

Lemma hazard_load w n a b i d x :
  decoded w n a b i d → load_use_hazard d x = true → ∃ sz imm rt, i = ILoad sz imm rt.
Proof.
  intros Hd. unfold load_use_hazard. destruct i; control_lines Hd; rewrite Hmem_read; eauto; done.
Qed.

Lemma hazard_false_free w pc a b i d x u tgt :
  decoded w ((pc + 4) mod 2 ^ 32) a b i d → exec i pc a b = Some (u, tgt) →
  load_use_hazard d x = false → hazard_free u x.
Proof.
  intros Hd He. unfold load_use_hazard. rewrite (dec_rt _ _ _ _ _ _ Hd).
  pose proof (isa_decode_facts _ _ (dec_instr _ _ _ _ _ _ Hd)) as Hf.
  destruct i as [op trap rd|op trap imm rt|sz imm rt|sz imm|on_equal imm|t| |]; control_lines Hd;
    rewrite Hmem_read; cbn [exec andb] in *.
  - destruct (trap && _); [done|]. by injection He as <- _.
  - destruct (trap && _); [done|]. by injection He as <- _.
  - injection He as <- _. destruct Hf as (_ & _ & ->).
    intros [H1 H2]%orb_false_iff. split; left; by apply Z.eqb_neq.
  - by injection He as <- _.
  - by injection He as <- _.
  - by injection He as <- _.
  - by injection He as <- _.
  - done.
Qed.

(** What a tick fetches is the next instruction, or a bubble. *)
Lemma fetched_next c npc w :
  code npc = Some w → fetched c npc w → next_instr c npc.
Proof.
  intros Hc. unfold fetched. destruct (load_use_hazard (id_ex c) w) eqn:E.
  - intros (? & ?). by eapply next_stalled.
  - intros (? & ? & ?). by eapply next_fetched.
Qed.

Lemma inv_operands c m s w i :
  inv c m s →
  decoded w ((isa_pc s + 4) mod 2 ^ 32) (isa_regs s (GET_RS w)) (isa_regs s (GET_RT w)) i
    (id_ex c) → u32 (isa_regs s (GET_RS w)) ∧ u32 (isa_regs s (GET_RT w)).
Proof.
  intros [Hc _ _ _ _ _] Hd.
  rewrite <-(dec_rs_value _ _ _ _ _ _ Hd), <-(dec_rt_value _ _ _ _ _ _ Hd).
  destruct Hc as [_ _ [] _ _]. split; assumption.
Qed.

(** The step when the next instruction has been fetched: one tick. *)
Lemma step_fetched c m g R m2 pc npc w i u3 tgt R' m3 w4 i4 f :
  let s := IsaState R m2 pc npc in
  let npc' := default ((npc + 4) mod 2 ^ 32) tgt in
  inv c m s → code_ok code m3 → code pc = Some w → isa_decode w = Some i →
  exec i pc (R (GET_RS w)) (R (GET_RT w)) = Some (u3, tgt) →
  quiet i (R (GET_RS w)) (R (GET_RT w)) = true → uop_step u3 R m2 R' m3 →
  code npc = Some w4 → isa_decode w4 = Some i4 → code npc' = Some f →
  ifid_inst (if_id c) = w4 → ifid_next_pc (if_id c) = (npc + 4) mod 2 ^ 32 →
  PC c = (npc + 4) mod 2 ^ 32 → load_use_hazard (id_ex c) w4 = false →
  ∃ c', tick_core c m g = Ret (c', m2, g) ∧ inv c' m2 (IsaState R' m3 npc npc').
Proof.
  intros s npc' Hinv Hcode Hpc Hi He Hq Hs Hnpc Hi4 Hf Hw4 Hn4 Hpc4 Hh.
  pose proof Hinv as [Hc Hm Hcm (R1 & u2 & R2 & Hp & Hcar & Hs2 & HR2) (w' & i' & Hpc' & Hd) _].
  cbn [isa_regs isa_mem isa_pc s] in *. simplify_eq.
  pose proof (dec_instr _ _ _ _ _ _ Hd) as Hi'. simplify_eq.
  destruct (inv_operands c m s w i Hinv Hd) as [Ha Hb]. cbn [isa_regs s] in Ha, Hb.
  destruct (uop_step_agree u3 R m2 R' m3 R2 Hs) as (R3 & Hs3 & HR3); [by symmetry|].
  destruct (tick_core_step c m g R1 u2 R2 m2 u3 tgt R3 m3 (ifid_inst (if_id c)) i4 f)
    as (c' & Ht & Hp' & Hcar' & Hd' & Hf'); try done.
  { by eapply decoded_executes. }
  { by eapply hazard_false_free. }
  { rewrite Hpc4. by apply code_read. }
  exists c'. split; [exact Ht|]. destruct (tick_core_ok c m g c' m2 g Hc Hm Ht) as [Hc' Hm2].
  rewrite Hn4 in Hd'. rewrite Hpc4 in Hf'.
  split; cbn [isa_regs isa_mem isa_pc isa_npc]; try done.
  - exists R2, u3, R3. by split_and!.
  - exists (ifid_inst (if_id c)), i4. split; [done|].
    eapply decoded_eq; [exact Hd'|symmetry; apply HR3, GET_RS_range|symmetry; apply HR3, GET_RT_range].
  - by eapply fetched_next.
Qed.

(** A decoded no-operation. *)
Lemma nop_executes c n a b :
  u32 n → u32 a → u32 b → decoded 0 n a b nop (id_ex c) →
  ∃ v, executes (id_ex c) (UWrite 0 v) None.
Proof.
  intros Hn Ha Hb Hd. exists (alu_value (AluSll 0) a b).
  apply (decoded_executes 0 (n - 4) a b nop); try done.
  replace ((n - 4 + 4) mod 2 ^ 32) with n; [done|].
  unfold u32 in Hn. rewrite Z.mod_small; lia.
Qed.

Lemma nop_no_hazard n a b d x : decoded 0 n a b nop d → load_use_hazard d x = false.
Proof. intros Hd. unfold load_use_hazard. control_lines Hd. by rewrite Hmem_read. Qed.

(** A load held up the next instruction: a bubble goes down the pipeline while it is
    fetched again. *)
Lemma bubble_tick c m g R1 u2 R2 m2 u3 R3 m3 w4 :
  core_ok c → ok m → code_ok code m2 →
  pending (mem_wb c) (gpr c) R1 → carries (ex_mem c) u2 → uop_step u2 R1 m R2 m2 →
  executes (id_ex c) u3 None → uop_step u3 R2 m2 R3 m3 →
  (∃ sz r a, u3 = ULoad sz r a) → ifid_inst (if_id c) = 0 → code (PC c) = Some w4 →
  ∃ c' n, tick_core c m g = Ret (c', m2, g) ∧
    pending (mem_wb c') (gpr c') R2 ∧ carries (ex_mem c') u3 ∧
    u32 n ∧ decoded 0 n (R3 0) (R3 0) nop (id_ex c') ∧
    ifid_inst (if_id c') = w4 ∧ ifid_next_pc (if_id c') = (PC c + 4) mod 2 ^ 32 ∧
    PC c' = (PC c + 4) mod 2 ^ 32.
Proof.
  intros Hc Hm Hcode Hp Hcar Hs2 Hex Hs3 (sz & r & a & ->) Hw Hpc.
  destruct (tick_core_step c m g R1 u2 R2 m2 (ULoad sz r a) None R3 m3 0 nop w4)
    as (c' & Ht & Hp' & Hcar' & Hd' & Hf'); try done.
  { split; by right. }
  { by apply code_read. }
  exists c', (ifid_next_pc (if_id c)). split; [exact Ht|]. split; [exact Hp'|].
  split; [exact Hcar'|]. split; [apply (ifid_next_pc_ok _ (core_if_id _ Hc))|].
  split; [exact Hd'|]. revert Hf'. unfold fetched. by rewrite (nop_no_hazard _ _ _ _ w4 Hd').
Qed.

(** The tick after a bubble. *)
Lemma after_bubble c m g R2 u R3 m3 w4 i4 npc n f R' :
  core_ok c → ok m → code_ok code m3 → pending (mem_wb c) (gpr c) R2 → carries (ex_mem c) u →
  uop_step u R2 m R3 m3 → u32 n → decoded 0 n (R3 0) (R3 0) nop (id_ex c) →
  code npc = Some w4 → isa_decode w4 = Some i4 → code ((npc + 4) mod 2 ^ 32) = Some f →
  ifid_inst (if_id c) = w4 → ifid_next_pc (if_id c) = (npc + 4) mod 2 ^ 32 →
  PC c = (npc + 4) mod 2 ^ 32 → regs_agree R' R3 →
  ∃ c', tick_core c m g = Ret (c', m3, g) ∧
    inv c' m3 (IsaState R' m3 npc ((npc + 4) mod 2 ^ 32)).
Proof.
  intros Hc Hm Hcode Hp Hcar Hs Hn Hd Hnpc Hi4 Hf Hw4 Hn4 Hpc4 HR3.
  assert (u32 (R3 0)) as Hu.
  { rewrite <-(dec_rs_value _ _ _ _ _ _ Hd). apply (idex_rs_value_ok _ (core_id_ex _ Hc)). }
  destruct (nop_executes c n (R3 0) (R3 0) Hn Hu Hu Hd) as [v Hex].
  assert (R3 0 = 0) as Hz.
  { eapply uop_step_zero; [exact Hs|]. destruct (interpret_wb_pending c g R2 Hc Hp)
      as (r1 & Hwb & _ & _ & HR1).
    destruct (interpret_wb_ok c g Hc) as (c1 & g1 & E & Hok). rewrite Hwb in E. simplify_eq.
    rewrite <-(HR1 0) by lia. apply (regs_zero _ (core_regs _ Hok)). }
  destruct (tick_core_step c m g R2 u R3 m3 (UWrite 0 v) None (rset R3 0 v) m3 w4 i4 f)
    as (c' & Ht & Hp' & Hcar' & Hd' & Hf'); try done; [constructor| |].
  { cbn [default]. rewrite Hpc4. by apply code_read. }
  exists c'. split; [exact Ht|]. destruct (tick_core_ok c m g c' m3 g Hc Hm Ht) as [Hc' Hm3].
  rewrite Hn4 in Hd'. cbn [default] in Hf'. rewrite Hpc4 in Hf'.
  pose proof (rset_zero_agree R3 v Hz) as Hag.
  split; cbn [isa_regs isa_mem isa_pc isa_npc]; try done.
  - exists R3, (UWrite 0 v), (rset R3 0 v). split_and!; [done|done|constructor|].
    by rewrite Hag, HR3.
  - exists w4, i4. split; [done|].
    assert (∀ r, 0 <= r < 32 → rset R3 0 v r = R' r) as Heq
      by (intros r Hr; rewrite Hag by done; symmetry; by apply HR3).
    eapply decoded_eq; [exact Hd'|apply Heq, GET_RS_range|apply Heq, GET_RT_range].
  - by eapply fetched_next.
Qed.

Lemma step_stalled c m g R m2 pc npc w i u3 tgt R' m3 w4 i4 f :
  let s := IsaState R m2 pc npc in
  let npc' := default ((npc + 4) mod 2 ^ 32) tgt in
  inv c m s → code_ok code m3 → code pc = Some w → isa_decode w = Some i →
  exec i pc (R (GET_RS w)) (R (GET_RT w)) = Some (u3, tgt) →
  quiet i (R (GET_RS w)) (R (GET_RT w)) = true → uop_step u3 R m2 R' m3 →
  code npc = Some w4 → isa_decode w4 = Some i4 → code npc' = Some f →
  ifid_inst (if_id c) = 0 → PC c = npc → load_use_hazard (id_ex c) w4 = true →
  ∃ c1 m1 c2, tick_core c m g = Ret (c1, m1, g) ∧ tick_core c1 m1 g = Ret (c2, m3, g) ∧
    PC c1 = (npc + 4) mod 2 ^ 32 ∧ inv c2 m3 (IsaState R' m3 npc npc').
Proof.
  intros s npc' Hinv Hcode Hpc Hi He Hq Hs Hnpc Hi4 Hf Hw4 Hpc4 Hh.
  pose proof Hinv as [Hc Hm Hcm (R1 & u2 & R2 & Hp & Hcar & Hs2 & HR2) (w' & i' & Hpc' & Hd) _].
  cbn [isa_regs isa_mem isa_pc s] in *. simplify_eq.
  pose proof (dec_instr _ _ _ _ _ _ Hd) as Hi'. simplify_eq.
  destruct (inv_operands c m s w i Hinv Hd) as [Ha Hb]. cbn [isa_regs s] in Ha, Hb.
  destruct (uop_step_agree u3 R m2 R' m3 R2 Hs) as (R3 & Hs3 & HR3); [by symmetry|].
  pose proof (decoded_executes _ _ _ _ _ _ _ _ Hd Ha Hb He Hq) as Hex.
  destruct (hazard_load _ _ _ _ _ _ _ Hd Hh) as (sz & imm & rt & ->).
  cbn [exec] in He. injection He as <- <-. cbn [default] in *.
(** the bubble *)
  destruct (bubble_tick c m g R1 u2 R2 m2 _ R3 m3 w4 Hc Hm Hcm Hp Hcar Hs2 Hex Hs3)
    as (c1 & n & Ht & Hp1 & Hcar1 & Hn & Hd1 & Hw1 & Hn1 & Hpc1); [by eauto..|].
  destruct (tick_core_ok c m g c1 m2 g Hc Hm Ht) as [Hc1 Hm2].
  destruct (after_bubble c1 m2 g R2 _ R3 m3 w4 i4 (PC c) n f R' Hc1 Hm2 Hcode Hp1 Hcar1 Hs3 Hn
    Hd1 Hnpc Hi4 Hf Hw1 Hn1 Hpc1 HR3) as (c2 & Ht2 & Hinv2).
  exists c1, m2, c2. by split_and!.
Qed.

(** Ticks made one after the other, each from a PC at or just after an instruction of
    the program. *)
Definition pc_near_code c : Prop :=
  ∃ a w, code a = Some w ∧ (PC c = a ∨ PC c = (a + 4) mod 2 ^ 32).

Inductive runs (g : bool) : nat → core_t → M → core_t → M → Prop :=
  | runs_O c m : runs g O c m c m
  | runs_S n c m c1 m1 c2 m2 :
      pc_near_code c → tick_core c m g = Ret (c1, m1, g) → runs g n c1 m1 c2 m2 →
      runs g (S n) c m c2 m2.

Lemma runs_ticks g n c m c' m' : runs g n c m c' m' → ticks n c m g = Ret (c', m', g).
Proof. induction 1 as [|??????? _ Ht _ IH]; cbn [ticks]; [done|]. by rewrite Ht. Qed.

Lemma runs_trans g n n' c m c1 m1 c2 m2 :
  runs g n c m c1 m1 → runs g n' c1 m1 c2 m2 → runs g (n + n') c m c2 m2.
Proof. induction 1; cbn; [done|]. intros. eapply runs_S; eauto. Qed.

Lemma inv_near_code c m s : inv c m s → pc_near_code c.
Proof.
  intros Hinv. destruct (inv_next _ _ _ Hinv) as [w Hw ? ? Hpc|w Hw ? Hpc];
    exists (isa_npc s), w; auto.
Qed.

(** The next instruction is a load, and the one behind it names its destination as an
    operand: the only case in which the pipeline stalls. *)
Definition load_then_use (s : isa_state (M := M)) : bool :=
  match (w ← code (isa_pc s); i ← isa_decode w; w' ← code (isa_npc s); Some (i, w')) with
  | Some (ILoad _ _ rt, w') => (rt =? GET_RS w') || (rt =? GET_RT w')
  | _ => false
  end.

Definition step_ticks (s : isa_state (M := M)) : nat := if load_then_use s then 2 else 1.

Lemma step_ticks_bounds s : (1 <= step_ticks s <= 2)%nat.
Proof. unfold step_ticks. destruct (load_then_use s); lia. Qed.

Lemma hazard_load_then_use c m s w' :
  inv c m s → code (isa_npc s) = Some w' → load_use_hazard (id_ex c) w' = load_then_use s.
Proof.
  intros [_ _ _ _ (w & i & Hpc & Hd) _] Hw'. unfold load_then_use.
  pose proof (dec_instr _ _ _ _ _ _ Hd) as Hi. rewrite Hpc. cbn [mbind option_bind].
  rewrite Hi, Hw'. cbn [mbind option_bind]. pose proof (isa_decode_facts _ _ Hi) as Hf.
  unfold load_use_hazard. rewrite (dec_rt _ _ _ _ _ _ Hd).
  destruct i; control_lines Hd; rewrite Hmem_read; try done. by destruct Hf as (_ & _ & ->).
Qed.

(** One step of the specification. *)
Lemma step_runs c m g s s' :
  inv c m s → isa_step code s s' → fetchable s' →
  ∃ c' m', runs g (step_ticks s) c m c' m' ∧ inv c' m' s'.
Proof.
  intros Hinv Hs ((w4 & i4 & Hpc4 & Hi4) & f & Hf). pose proof (inv_near_code _ _ _ Hinv) as Hnear.
  destruct Hs as [R m2 pc npc w i u tgt R' m3 Hpc Hi He Hq Hs Hcode].
  cbn [isa_pc isa_npc] in *. unfold step_ticks. rewrite <-(hazard_load_then_use c m _ w4 Hinv Hpc4).
  destruct (inv_next _ _ _ Hinv) as [w' Hw' ? ? ? Hh | w' Hw' ? ? Hh];
    cbn [isa_npc] in *; simplify_eq; rewrite Hh.
  - destruct (step_fetched c m g R m2 pc npc w i u tgt R' m3 (ifid_inst (if_id c)) i4 f)
      as (c' & Ht & Hinv'); [solve [eassumption | reflexivity]..|].
    exists c', m2. split; [|done]. eapply runs_S; [done..|constructor].
  - destruct (step_stalled c m g R m2 pc (PC c) w i u tgt R' m3 w4 i4 f)
      as (c1 & m1 & c2 & Ht1 & Ht2 & Hpc1 & Hinv'); [solve [eassumption | reflexivity]..|].
    exists c2, m3. split; [|done]. eapply runs_S; [done..|]. eapply runs_S; [exists (PC c), w4; auto|done|constructor].
Qed.

(** C3: the pipeline refines the instruction set: from related states, one instruction of
    the specification is exactly one tick, or exactly two when it is a load whose
    destination the next instruction names as an operand, and the states reached are
    related again: the same registers and memory, the same next two instructions (delay
    slot included). *)
Theorem pipeline_refines_isa c m g s s' :
  inv c m s → isa_step code s s' → fetchable s' →
  ∃ c' m', ticks (if load_then_use s then 2 else 1) c m g = Ret (c', m', g) ∧ inv c' m' s'.
Proof.
  intros Hinv Hs Hf. destruct (step_runs c m g s s' Hinv Hs Hf) as (c' & m' & Hr & Hi).
  exists c', m'. split; [by apply runs_ticks|done].
Qed.

Lemma steps_fetchable n s s' : isa_steps code n s s' → fetchable s' → fetchable s.
Proof.
  induction 1 as [|n s1 s2 s3 Hs _ IH]; intros Hf; [done|]. apply IH in Hf as ((w & i & Hpc & _) & _).
  destruct Hs. cbn in *. split; eauto.
Qed.

Lemma steps_run n c m g s s' :
  inv c m s → isa_steps code n s s' → fetchable s' →
  ∃ k c' m', (n <= k <= 2 * n)%nat ∧ runs g k c m c' m' ∧ inv c' m' s'.
Proof.
  intros Hinv Hs Hf. revert c m Hinv. induction Hs as [s|n s1 s2 s3 Hs Hss IH]; intros c m Hinv.
  - exists 0%nat, c, m. split; [lia|]. split; [constructor|done].
  - destruct (step_runs c m g s1 s2 Hinv Hs) as (c1 & m1 & Hr1 & Hi1); [by eapply steps_fetchable|].
    pose proof (step_ticks_bounds s1) as Hk1.
    destruct (IH Hf c1 m1 Hi1) as (k2 & c2 & m2 & Hk2 & Hr2 & Hi2).
    exists (step_ticks s1 + k2)%nat, c2, m2. split; [lia|]. split; [|done]. by eapply runs_trans.
Qed.

(** ** From reset *)

Lemma zero_executes : executes zero_id_ex UNone None.
Proof.
  intros c Hid Hl. rewrite <-Hid. split; [|rewrite Hid; done].
  replace (@None Z) with (transfer (id_ex c)) by (by rewrite Hid).
  apply interpret_ex_spec; rewrite ?Hid; done.
Qed.

(** A core with an empty pipeline. *)
Definition empty_pipeline c : Prop :=
  if_id c = zero_if_id ∧ id_ex c = zero_id_ex ∧ ex_mem c = zero_ex_mem ∧ mem_wb c = zero_mem_wb.

Lemma boot_runs c m g R :
  core_ok c → ok m → code_ok code m → empty_pipeline c → regs_agree R (gpr c) →
  let s := IsaState R m (PC c) ((PC c + 4) mod 2 ^ 32) in
  fetchable s → ∃ c', runs g 2 c m c' m ∧ inv c' m s.
Proof.
  intros Hc Hm Hcode (Ef & Ed & Ex & Ew) HR s ((w & i & Hpc & Hi) & f & Hf). cbn in Hpc, Hf.
  destruct (tick_core_step c m g (gpr c) UNone (gpr c) m UNone None (gpr c) m 0 nop w)
    as (c1 & Ht & Hp1 & Hcar1 & Hd1 & Hf1).
  { done. } { rewrite Ew. by apply pending_none. } { by rewrite Ex. } { constructor. }
  { rewrite Ed. apply zero_executes. } { constructor. } { by rewrite Ef. } { done. } { done. }
  { by apply code_read. }
  rewrite Ef in Hd1. destruct (tick_core_ok c m g c1 m g Hc Hm Ht) as [Hc1 _].
  unfold fetched in Hf1. rewrite (nop_no_hazard _ _ _ _ w Hd1) in Hf1.
  destruct Hf1 as (Hw1 & Hn1 & Hpc1). cbn [default] in Hn1, Hpc1.
  destruct (after_bubble c1 m g (gpr c) UNone (gpr c) m w i (PC c) 0 f R)
    as (c2 & Ht2 & Hinv); [done|done|done|done|done|constructor|exact u32_0|exact Hd1|done..|].
  exists c2. split; [|done]. eapply runs_S; [exists (PC c), w; auto|done|].
  eapply runs_S; [exists (PC c), w; auto|done|constructor].
Qed.

(** C4: from reset to any point of a program: two ticks fill the pipeline, and [n]
    instructions of the specification then take between [n] and [2 * n] ticks, none
    of which fails, leaving the registers and memory the specification gives. *)
Theorem program_runs c m g n s' :
  core_ok c → ok m → code_ok code m → empty_pipeline c →
  isa_steps code n (IsaState (gpr c) m (PC c) ((PC c + 4) mod 2 ^ 32)) s' → fetchable s' →
  ∃ k c' m', (2 + n <= k <= 2 + 2 * n)%nat ∧ ticks k c m g = Ret (c', m', g) ∧ inv c' m' s'.
Proof.
  intros Hc Hm Hcode He Hs Hf. pose proof (steps_fetchable _ _ _ Hs Hf) as Hf0.
  destruct (boot_runs c m g (gpr c) Hc Hm Hcode He (reflexivity _) Hf0) as (c1 & Hr1 & Hi1).
  destruct (steps_run n c1 m g _ s' Hi1 Hs Hf) as (k & c2 & m2 & Hk & Hr2 & Hi2).
  exists (2 + k)%nat, c2, m2. split; [lia|]. split; [|done].
  by eapply runs_ticks, runs_trans.
Qed.
End Refinement.
