(* ===== verification/Program.v ===== *)
(** * Programs from reset to the exit system call (src/sim.c: run)

    A program of the specified subset that ends with the exit system call makes [run]
    return what the instruction-set specification computes in $v1. *)

From S2P Require Import Prelude Mips32 Tools Cpu Exception Io Bus Mem MemProps Decode Execute.
From S2P Require Import Memstage Writeback Forward Fetch Sim Wellformed Machine Isa DecodeExecute.
From S2P Require Import Refine.

#[local] Set Default Proof Using "Type*".

(** ** The exit system call *)

Section Exit.
Context {M : Type} {ok : M → Prop} `{BusSpec M ok}.
Variable code : Z → option Z.
Implicit Types (c : core_t) (m : M) (s : isa_state (M := M)).

Lemma forwarding_any c w n a b i :
  decoded w n a b i (id_ex c) →
  ∃ d a' b', forwarding_unit c = c <| id_ex := d |> ∧ decoded w n a' b' i d.
Proof.
  intros Hd. assert (c = c <| id_ex := id_ex c |>) as Hid by by destruct c.
  unfold forwarding_unit. destruct (_ =? INSTRUCTION_ERET); [by exists (id_ex c), a, b|].
  unfold forward_A. destruct (forward_mux c (idex_rs (id_ex c))) as [|va|];
    [..|by exists (id_ex c), a, b]; unfold forward_B.
  - destruct (forward_mux c _) as [|vb|]; [by exists (id_ex c), a, b| |by exists (id_ex c), a, b].
    exists ((id_ex c) <| idex_rt_value := vb |>), a, vb. split; [done|]. by eapply decoded_set_rt.
  - set (c1 := c <| id_ex := (id_ex c) <| idex_rs_value := va |> |>).
    assert (decoded w n va b i (id_ex c1)) as Hd1 by by eapply decoded_set_rs.
    destruct (forward_mux c1 _) as [|vb|].
    + exists (id_ex c1), va, b. by split.
    + exists ((id_ex c1) <| idex_rt_value := vb |>), va, vb. split; [done|].
      by eapply decoded_set_rt.
    + exists (id_ex c1), va, b. by split.
Qed.

(** One tick, given what its first three stages do. *)
Lemma tick_stages c m g g1 r1 wb m2 pc x w n i f :
  let c1 := c <| regs := r1 |> in
  let c2 := c1 <| mem_wb := wb |> in
  interpret_wb c g = Ret (c1, g1) → length r1 = Z.to_nat NUM_REGISTERS →
  interpret_mem c1 m = Ret (c2, m2) → ex_frame c2 (interpret_ex c2) pc x →
  ifid_exception (if_id c) = EXC_None → ifid_inst (if_id c) = w →
  ifid_next_pc (if_id c) = n → isa_decode w = Some i →
  bus_read m2 pc 0 MEM_OP_WORD = Ret (EXC_None, f) →
  ∃ c' a b, tick_core c m g = Ret (c', m2, g1) ∧ mem_wb c' = wb ∧ ex_mem c' = x ∧
    regs_agree (gpr c') (aread r1) ∧ decoded w n a b i (id_ex c') ∧ fetched c' pc f.
Proof.
  intros c1 c2 Hwb Hl Hmem Hex He Hw Hn Hi Hf. destruct Hex as (bd & ja & Hex).
  set (c3 := interpret_ex c2) in *.
  assert (if_id c3 = (if_id c) <| ifid_is_branch_delay := bd |> ∧ ex_mem c3 = x ∧ mem_wb c3 = wb ∧
    regs c3 = <[Z.to_nat REG_PC := pc]> r1) as (Ef & Ex & Ew & Er) by by rewrite Hex.
  assert (length (regs c3) = Z.to_nat NUM_REGISTERS) as Hl3 by by rewrite Er, length_insert.
  assert (PC c3 = pc) as Epc.
  { unfold PC. rewrite Er. apply aread_insert_eq. rewrite Hl. unfold REG_PC, NUM_REGISTERS. lia. }
  destruct (interpret_id_decoded c3 i) as (d & Hid & Hd); [by rewrite Ef|by rewrite Ef; cbn; rewrite Hw|].
  rewrite Ef in Hd. cbn [update ifid_inst ifid_next_pc] in Hd.
  change (ifid_inst ((if_id c) <| ifid_is_branch_delay := bd |>)) with (ifid_inst (if_id c)) in Hd.
  change (ifid_next_pc ((if_id c) <| ifid_is_branch_delay := bd |>))
    with (ifid_next_pc (if_id c)) in Hd. rewrite Hw, Hn in Hd.
  set (c4 := c3 <| id_ex := d |>) in *. rewrite <-Epc in Hf.
  destruct (interpret_if_fetched c4 m2 f Hl3 Hf) as (fd & r & Hif & Hfet & Hr).
  set (c5 := c4 <| if_id := fd |> <| regs := r |>) in *.
  destruct (forwarding_any c5 w n _ _ i Hd) as (d' & a' & b' & Hfw & Hd').
  exists (c5 <| id_ex := d' |>), a', b'. split.
  { unfold tick_core. rewrite Hwb. cbn [mbind outcome_bind]. rewrite Hmem.
    cbn [mbind outcome_bind]. fold c3. rewrite Hid, Hif. cbn [mbind outcome_bind].
    by rewrite Hfw. }
  split; [exact Ew|]. split; [exact Ex|]. split; [|split; [exact Hd'|]].
  - intros y Hy. unfold gpr. cbn [update regs]. transitivity (aread (regs c3) y); [by apply Hr|].
    rewrite Er. apply aread_insert_ne; unfold REG_PC; lia.
  - rewrite <-Epc. apply fetched_id_ex; [|exact Hfet]. by eapply decoded_hazard.
Qed.

Lemma syscall_output w n a b d x :
  decoded w n a b ISyscall d →
  transfer d = None ∧ exmem_exception (ex_output d x) = EXC_Syscall ∧
  exmem_inst (ex_output d x) = w.
Proof.
  intros Hd. destruct (isa_decode_facts _ _ (dec_instr _ _ _ _ _ _ Hd)) as [Hop Hfn].
  pose proof (dec_inst _ _ _ _ _ _ Hd) as Hi. pose proof (dec_funct _ _ _ _ _ _ Hd) as Hf.
  control_lines Hd. unfold transfer. rewrite Hjump, Hbeq, Hbne. split; [done|].
  unfold ex_output, alu_stage, interpret_ex_alu. cbv zeta. cbn [id_ex ex_mem]. rewrite Halu_op.
  cbn [Z.eqb Pos.eqb]. unfold alu_r_type. cbv zeta. rewrite Hf, Hfn. eval_tests.
  split; [done|exact Hi].
Qed.

(** The memory stage passes an exception on. *)
Lemma interpret_mem_exception c m e :
  exmem_exception (ex_mem c) = e → e ≠ EXC_None →
  ∃ w, interpret_mem c m = Ret (c <| mem_wb := w |>, m) ∧ memwb_exception w = e ∧
    memwb_inst w = exmem_inst (ex_mem c).
Proof.
  intros <- He. unfold interpret_mem. cbv zeta. rewrite decide_True by done.
  eexists. split; [reflexivity|]. done.
Qed.

(** Write back of the exit system call. *)
Lemma interpret_wb_exit c g :
  memwb_exception (mem_wb c) = EXC_Syscall → (memwb_inst (mem_wb c) =? INSTRUCTION_ERET) = false →
  aread (regs c) REG_V0 = 10 → interpret_wb c g = Ret (c <| regs := regs c |>, true).
Proof.
  intros He Hi Hv. unfold interpret_wb. cbv zeta. rewrite Hi, decide_True by (rewrite He; done).
  rewrite bool_decide_eq_true_2 by done. rewrite Hv. by destruct c.
Qed.

Lemma code_fetch m a w : code_ok code m → code a = Some w →
  bus_read m a 0 MEM_OP_WORD = Ret (EXC_None, w).
Proof. intros Hc Ha. destruct (Hc a w Ha) as [_ Hr]. apply Hr, u32_0. Qed.

(** The pending write retires into a well-formed core. *)
Lemma retire c g R1 :
  core_ok c → pending (mem_wb c) (gpr c) R1 →
  ∃ r1, interpret_wb c g = Ret (c <| regs := r1 |>, g) ∧ core_ok (c <| regs := r1 |>) ∧
    length r1 = Z.to_nat NUM_REGISTERS ∧ aread r1 REG_PC = PC c ∧
    (∀ r, 0 <= r < 32 → aread r1 r = R1 r) ∧ R1 0 = 0.
Proof.
  intros Hc Hp. destruct (interpret_wb_pending c g R1 Hc Hp) as (r1 & Hwb & Hl & Hpc & HR).
  assert (core_ok (c <| regs := r1 |>)) as Hc1.
  { destruct (interpret_wb_ok c g Hc) as (c' & g' & E & ?). by rewrite Hwb in E; simplify_eq. }
  exists r1. split_and!; try done. rewrite <-(HR 0) by lia. apply (regs_zero _ (core_regs _ Hc1)).
Qed.

(** First tick: the system call goes through EX. *)
Lemma exit_tick1 c m s w :
  inv (ok := ok) code c m s → code (isa_pc s) = Some w → isa_decode w = Some ISyscall →
  code (isa_npc s) = Some 0 → code ((isa_npc s + 4) mod 2 ^ 32) = Some 0 →
  ∃ c' n a b, tick_core c m false = Ret (c', isa_mem s, false) ∧ core_ok c' ∧
    pending (mem_wb c') (gpr c') (isa_regs s) ∧ exmem_exception (ex_mem c') = EXC_Syscall ∧
    exmem_inst (ex_mem c') = w ∧ decoded 0 n a b nop (id_ex c') ∧
    fetched c' ((isa_npc s + 4) mod 2 ^ 32) 0.
Proof.
  intros [Hc Hm Hcode (R1 & u & R2 & Hp & Hcar & Hs & HR) (w' & i & Hw' & Hd) Hnext] Hw Hi Hn Hn4.
  rewrite Hw in Hw'. apply (inj Some) in Hw' as <-.
  pose proof (dec_instr _ _ _ _ _ _ Hd) as Hi'. rewrite Hi in Hi'. apply (inj Some) in Hi' as <-.
  destruct Hnext as [w0 Hw0 Hf0 Hnp Hpc _|w0 _ _ _ Hh];
    [|destruct (hazard_load _ _ _ _ _ _ _ Hd Hh) as (? & ? & ? & ?); done].
  rewrite Hn in Hw0. apply (inj Some) in Hw0 as <-.
  destruct (retire c false R1 Hc Hp) as (r1 & Hwb & Hc1 & Hl & Hpc1 & HR1 & Hz).
  destruct (interpret_mem_carries (c <| regs := r1 |>) m u R1 _ R2 Hc1 HR1 Hcar Hs Hz)
    as (wb & Hmem & Hp2).
  set (c2 := c <| regs := r1 |> <| mem_wb := wb |>) in *.
  assert (id_ex c2 = id_ex c ∧ regs c2 = r1) as [Ed Er] by done.
  destruct (syscall_output _ _ _ _ _ (ex_mem c2) Hd) as (Htr & Hexc & Hinst).
  pose proof (interpret_ex_spec c2) as Hex. rewrite Ed, Er, Htr in Hex. cbn [default] in Hex.
  assert (PC c2 = (isa_npc s + 4) mod 2 ^ 32) as Epc by (unfold PC at 1; by rewrite Er, Hpc1).
  rewrite Epc in Hex.
  destruct (tick_stages c m false false r1 wb (isa_mem s) _ _ 0 _ nop 0 Hwb Hl Hmem
    (Hex (dec_exception _ _ _ _ _ _ Hd) Hl ltac:(by control_lines Hd; rewrite Hjump))
    (ifid_exception_ok _ (core_if_id _ Hc)) Hf0 eq_refl nop_decode (code_fetch _ _ _ Hcode Hn4))
    as (c' & a & b & Ht & Hwb' & Hx' & HR' & Hd' & Hf').
  exists c', (ifid_next_pc (if_id c)), a, b. split; [exact Ht|].
  split; [exact (proj1 (tick_core_ok c m false c' _ false Hc Hm Ht))|].
  split; [|split; [by rewrite Hx'|split; [by rewrite Hx'|split; [exact Hd'|exact Hf']]]].
  rewrite Hwb'. eapply pending_agree; [|transitivity (aread r1); [exact HR'|exact HR1]].
  destruct Hp2 as (? & ? & Hp2). split; [done|]. split; [done|]. intros r Hr.
  rewrite <-HR by done. by apply Hp2.
Qed.

(** Behind the system call there are only no-operations. *)
Definition nops_behind c (p : Z) : Prop :=
  (∃ n a b, decoded 0 n a b nop (id_ex c)) ∧ fetched c p 0.

Lemma nops_front c p :
  core_ok c → nops_behind c p →
  ifid_inst (if_id c) = 0 ∧ PC c = (p + 4) mod 2 ^ 32 ∧
  ∃ v, executes (id_ex c) (UWrite 0 v) None.
Proof.
  intros Hc ((n & a & b & Hd) & Hf). unfold fetched in Hf.
  rewrite (nop_no_hazard _ _ _ _ 0 Hd) in Hf. destruct Hf as (Hi & _ & Hpc).
  split; [done|]. split; [done|]. destruct (core_id_ex _ Hc) as [].
  apply (nop_executes c n a b); [|..|done].
  - by rewrite <-(dec_next_pc _ _ _ _ _ _ Hd).
  - by rewrite <-(dec_rs_value _ _ _ _ _ _ Hd).
  - by rewrite <-(dec_rt_value _ _ _ _ _ _ Hd).
Qed.

(** A tick with a no-operation in EX. *)
Lemma nop_tick c m g g1 r1 wb p :
  core_ok c → ok m → code_ok code m → nops_behind c p →
  interpret_wb c g = Ret (c <| regs := r1 |>, g1) → length r1 = Z.to_nat NUM_REGISTERS →
  aread r1 REG_PC = PC c →
  interpret_mem (c <| regs := r1 |>) m = Ret (c <| regs := r1 |> <| mem_wb := wb |>, m) →
  code ((p + 4) mod 2 ^ 32) = Some 0 →
  ∃ c' v, tick_core c m g = Ret (c', m, g1) ∧ core_ok c' ∧ mem_wb c' = wb ∧
    regs_agree (gpr c') (aread r1) ∧ carries (ex_mem c') (UWrite 0 v) ∧
    nops_behind c' ((p + 4) mod 2 ^ 32).
Proof.
  intros Hc Hm Hcode Hb Hwb Hl Hpc Hmem Hp.
  destruct (nops_front c p Hc Hb) as (Hi & Epc & v & Hex).
  set (c2 := c <| regs := r1 |> <| mem_wb := wb |>) in *.
  destruct (Hex c2 eq_refl Hl) as [Hfr Hcar]. cbn [default] in Hfr.
  assert (PC c2 = (p + 4) mod 2 ^ 32) as E2 by (by rewrite <-Epc, <-Hpc).
  rewrite E2 in Hfr.
  destruct (tick_stages c m g g1 r1 wb m _ _ 0 _ nop 0 Hwb Hl Hmem Hfr
    (ifid_exception_ok _ (core_if_id _ Hc)) Hi eq_refl nop_decode (code_fetch _ _ _ Hcode Hp))
    as (c' & a & b & Ht & Hwb' & Hx' & HR' & Hd' & Hf').
  exists c', v. split; [exact Ht|].
  split; [exact (proj1 (tick_core_ok c m g c' _ g1 Hc Hm Ht))|].
  split; [exact Hwb'|]. split; [exact HR'|]. split; [by rewrite Hx'|].
  split; [by eexists _, a, b|exact Hf'].
Qed.

(** Second tick: the exception passes MEM. *)
Lemma exit_tick2 c m R w p :
  core_ok c → ok m → code_ok code m → pending (mem_wb c) (gpr c) R →
  exmem_exception (ex_mem c) = EXC_Syscall → exmem_inst (ex_mem c) = w →
  nops_behind c p → code ((p + 4) mod 2 ^ 32) = Some 0 →
  ∃ c' v, tick_core c m false = Ret (c', m, false) ∧ core_ok c' ∧
    memwb_exception (mem_wb c') = EXC_Syscall ∧ memwb_inst (mem_wb c') = w ∧
    regs_agree (gpr c') R ∧ carries (ex_mem c') (UWrite 0 v) ∧
    nops_behind c' ((p + 4) mod 2 ^ 32).
Proof.
  intros Hc Hm Hcode Hp Hx Hw Hb Hf.
  destruct (retire c false R Hc Hp) as (r1 & Hwb & Hc1 & Hl & Hpc & HR & _).
  set (c1 := c <| regs := r1 |>) in *.
  destruct (interpret_mem_exception c1 m EXC_Syscall Hx ltac:(done))
    as (wb & Hmem & Hwx & Hwi).
  destruct (nop_tick c m false false r1 wb p Hc Hm Hcode Hb Hwb Hl Hpc Hmem Hf)
    as (c' & v & Ht & Hc' & Hwb' & HR' & Hcar & Hb').
  exists c', v. rewrite Hwb'. split; [exact Ht|]. split; [exact Hc'|]. split; [exact Hwx|].
  split; [by rewrite Hwi|]. split; [by transitivity (aread r1)|]. by split.
Qed.

(** Third tick: write back finds the exit system call. *)
Lemma exit_tick3 c m R v w p :
  core_ok c → ok m → code_ok code m → memwb_exception (mem_wb c) = EXC_Syscall →
  memwb_inst (mem_wb c) = w → (w =? INSTRUCTION_ERET) = false → regs_agree (gpr c) R →
  R REG_V0 = 10 → carries (ex_mem c) (UWrite 0 v) → nops_behind c p →
  code ((p + 4) mod 2 ^ 32) = Some 0 →
  ∃ c', tick_core c m false = Ret (c', m, true) ∧ core_ok c' ∧ regs_agree (gpr c') R.
Proof.
  intros Hc Hm Hcode Hx Hi Hw HR Hv Hcar Hb Hf. rewrite <-Hi in Hw.
  assert (aread (regs c) REG_V0 = 10) as Hv0 by by (rewrite <-Hv; apply HR).
  pose proof (interpret_wb_exit c false Hx Hw Hv0) as Hwb.
  set (c1 := c <| regs := regs c |>) in *. assert (core_ok c1) as Hc1 by by destruct c.
  destruct (interpret_mem_carries c1 m _ (gpr c) m _ Hc1 ltac:(done) Hcar (step_write _ _ _ _)
    (regs_zero _ (core_regs _ Hc)))
    as (wb & Hmem & _).
  destruct (nop_tick c m false true (regs c) wb p Hc Hm Hcode Hb Hwb
    (regs_length _ (core_regs _ Hc)) eq_refl Hmem Hf) as (c' & v' & Ht & Hc' & _ & HR' & _).
  exists c'. split; [exact Ht|]. split; [exact Hc'|]. by transitivity (gpr c).
Qed.
End Exit.

(** ** Runs of a machine with one core *)

Section Run.
Variable code : Z → option Z.
Variable size : Z.

#[local] Abbreviation ok := (mmu_sized size).

(** The program lies in the first kernel segment, and so does the word behind any of
    its words. *)
Definition code_in_kseg0 : Prop :=
  ∀ a w, code a = Some w →
    KSEG0_VSTART <= a ∧ a + 4 < KSEG0_VSTART + KSEG0_SIZE ∧
    a + 4 - KSEG0_VSTART < wrap32 (size / 8).

Hypothesis in_kseg0 : code_in_kseg0.

Definition one_core (n : Z) (c : core_t) (m : mmu_t) : hardware_t := Hardware (Cpu [c] n) m.

Lemma near_code_reads (c : core_t) (m : mmu_t) :
  ok m → pc_near_code code c → ∃ x, mmu_read m (PC c) 0 MEM_OP_WORD = Ret (EXC_None, x).
Proof.
  intros [Hm Hl] (a & w & Ha & Hpc). apply in_kseg0 in Ha as (H1 & H2 & H3).
  unfold KSEG0_VSTART, KSEG0_SIZE in *. eexists. rewrite <-Hl in H3.
  apply mmu_read_kseg0; [done|..]; destruct Hpc as [-> | ->]; rewrite ?Z.mod_small by lia; lia.
Qed.

(** One iteration of the run loop. *)
Lemma run_step_one_core n c m g c' m' g' :
  ok m → pc_near_code code c → tick_core c m g = Ret (c', m', g') →
  run_step (one_core n c m) g = Ret (one_core n c' m', g').
Proof.
  intros Hm Hn Ht. destruct (near_code_reads c m Hm Hn) as [x Hx]. unfold PC in Hx.
  unfold run_step, one_core. cbn [core cpu mmu]. rewrite Hx. cbn [mbind outcome_bind].
  unfold tick. cbn [core cpu mmu tick_cores]. rewrite Ht. done.
Qed.

Lemma run_loop_runs n k f c m c' m' :
  core_ok c → ok m → runs code false k c m c' m' →
  run_loop (k + f) (one_core n c m) false = run_loop f (one_core n c' m') false.
Proof.
  intros Hc Hm Hr. induction Hr as [|k c m c1 m1 c2 m2 Hn Ht Hr IH]; [done|].
  cbn [Nat.add run_loop]. rewrite (run_step_one_core n c m false c1 m1 false Hm Hn Ht).
  destruct (tick_core_ok (ok := ok) c m false c1 m1 false Hc Hm Ht). by apply IH.
Qed.

(** The machine at the exit system call of a program. *)
Lemma run_loop_exit n c m s w :
  inv (ok := ok) code c m s → code (isa_pc s) = Some w → isa_decode w = Some ISyscall →
  isa_regs s REG_V0 = 10 →
  (∀ k, 0 <= k <= 3 → code ((isa_npc s + 4 * k) mod 2 ^ 32) = Some 0) → u32 (isa_npc s) →
  ∃ c' m', run_loop 3 (one_core n c m) false = Some (Ret (one_core n c' m')) ∧
    regs_agree (gpr c') (isa_regs s).
Proof.
  intros Hinv Hw Hi Hv Hnops Hnpc. set (p := isa_npc s) in *.
  assert (code p = Some 0) as H0.
  { specialize (Hnops 0 ltac:(lia)). rewrite Z.mul_0_r, Z.add_0_r in Hnops.
    by rewrite Z.mod_small in Hnops by exact Hnpc. }
  pose proof (Hnops 1 ltac:(lia)) as H1. pose proof (Hnops 2 ltac:(lia)) as H2.
  pose proof (Hnops 3 ltac:(lia)) as H3. clear Hnops.
  replace (p + 4 * 1) with (p + 4) in H1 by lia.
  assert ((p + 4 * 2) mod 2 ^ 32 = ((p + 4) mod 2 ^ 32 + 4) mod 2 ^ 32) as E2
    by (rewrite Zplus_mod_idemp_l; by replace (p + 4 + 4) with (p + 4 * 2) by lia). rewrite E2 in H2.
  assert ((p + 4 * 3) mod 2 ^ 32 = (((p + 4) mod 2 ^ 32 + 4) mod 2 ^ 32 + 4) mod 2 ^ 32) as E3
    by (rewrite Zplus_mod_idemp_l, <-(Z.add_assoc _ 4 4), Zplus_mod_idemp_l;
        by replace (p + 4 + (4 + 4)) with (p + 4 * 3) by lia). rewrite E3 in H3. clear E2 E3.
  pose proof (inv_near_code _ _ _ _ Hinv) as Hn0. pose proof (inv_mem _ _ _ _ Hinv) as Hm.
  pose proof (inv_code _ _ _ _ Hinv) as Hcode. pose proof (inv_core _ _ _ _ Hinv) as Hc.
  destruct (exit_tick1 code c m s w Hinv Hw Hi H0 H1)
    as (c1 & n1 & a1 & b1 & Ht1 & Hc1 & Hp1 & Hx1 & Hi1 & Hd1 & Hf1).
  destruct (tick_core_ok (ok := ok) c m false c1 _ false Hc Hm Ht1) as [_ Hm1].
  assert (nops_behind c1 ((p + 4) mod 2 ^ 32)) as Hb1 by (split; [by eauto|exact Hf1]).
  destruct (nops_front c1 _ Hc1 Hb1) as (_ & Hpc1 & _).
  destruct (exit_tick2 code c1 (isa_mem s) (isa_regs s) w _ Hc1 Hm1 Hcode Hp1 Hx1 Hi1 Hb1 H2)
    as (c2 & v2 & Ht2 & Hc2 & Hx2 & Hi2 & HR2 & Hcar2 & Hb2).
  destruct (nops_front c2 _ Hc2 Hb2) as (_ & Hpc2 & _).
  pose proof (not_eret _ (isa_decode_not_cp0 w ISyscall Hi)) as He.
  destruct (exit_tick3 code c2 (isa_mem s) (isa_regs s) v2 w _ Hc2 Hm1 Hcode Hx2 Hi2 He HR2 Hv
    Hcar2 Hb2 H3) as (c3 & Ht3 & Hc3 & HR3).
  exists c3, (isa_mem s). split; [|exact HR3]. cbn [run_loop].
  rewrite (run_step_one_core n c m false c1 (isa_mem s) false Hm Hn0 Ht1).
  rewrite (run_step_one_core n c1 (isa_mem s) false c2 (isa_mem s) false Hm1);
    [|by eexists _, _; split; [exact H2|left]|exact Ht2].
  rewrite (run_step_one_core n c2 (isa_mem s) false c3 (isa_mem s) true Hm1);
    [done|by eexists _, _; split; [exact H3|left]|exact Ht3].
Qed.

(** A program run to its exit system call: the loop ends, in a machine with the
    registers of the specification. *)
Lemma run_loop_isa fuel cores c m n s' w :
  core_ok c → mmu_ok m → pmem_len m = size → code_ok code m → empty_pipeline c →
  isa_steps code n (IsaState (gpr c) m (PC c) ((PC c + 4) mod 2 ^ 32)) s' →
  code (isa_pc s') = Some w → isa_decode w = Some ISyscall → isa_regs s' REG_V0 = 10 →
  u32 (isa_npc s') →
  (∀ k, 0 <= k <= 3 → code ((isa_npc s' + 4 * k) mod 2 ^ 32) = Some 0) →
  (5 + 2 * n <= fuel)%nat →
  ∃ c' m', run_loop fuel (one_core cores c m) false = Some (Ret (one_core cores c' m')) ∧
    regs_agree (gpr c') (isa_regs s').
Proof.
  intros Hc Hm Hl Hcode He Hs Hw Hi Hv Hu Hnops Hfuel.
  assert (fetchable code s') as Hf'.
  { split; [by eauto|]. exists 0. specialize (Hnops 0 ltac:(lia)).
    rewrite Z.mul_0_r, Z.add_0_r in Hnops. by rewrite Z.mod_small in Hnops by exact Hu. }
  assert (ok m) as Hok by by split.
  destruct (boot_runs code c m false (gpr c) Hc Hok Hcode He (reflexivity _)
    (steps_fetchable _ _ _ _ Hs Hf'))
    as (c1 & Hr1 & Hi1).
  destruct (steps_run code n c1 m false _ s' Hi1 Hs Hf') as (k & c2 & m2 & Hk & Hr2 & Hi2).
  pose proof (runs_trans _ _ _ _ _ _ _ _ _ _ Hr1 Hr2) as Hr.
  destruct (run_loop_exit cores c2 m2 s' w Hi2 Hw Hi Hv Hnops Hu) as (c' & m' & Hx & HR).
  exists c', m'. split; [|exact HR].
  rewrite (run_loop_mono ((2 + k) + 3) fuel _ _ (Ret (one_core cores c' m'))); [done|lia|].
  by rewrite (run_loop_runs cores (2 + k) 3 c m c2 m2 Hc Hok Hr).
Qed.

Lemma run_of_loop fuel cores c m c' m' :
  run_loop fuel (one_core cores c m) false = Some (Ret (one_core cores c' m')) →
  run fuel (one_core cores c m) = Some (Ret (s32 (gpr c' REG_V1))).
Proof. intros Hr. unfold run. rewrite Hr. reflexivity. Qed.

(** C2: whole programs: on a machine with one core and an empty pipeline, a program of
    the specified subset in the mapped part of the first kernel segment that the
    specification takes in [n] instructions, none of which stores into the program or
    overflows, to a system call with 10 in $v0, with four no-operations behind it, makes
    [run] return - within [5 + 2 * n] ticks, so for every larger bound - the value the
    specification leaves in $v1. The no-operations are needed: what follows the call is
    in the pipeline when it retires. *)
Theorem run_returns_isa_result fuel cores c m n s' w :
  core_ok c → mmu_ok m → pmem_len m = size → code_ok code m → empty_pipeline c →
  isa_steps code n (IsaState (gpr c) m (PC c) ((PC c + 4) mod 2 ^ 32)) s' →
  code (isa_pc s') = Some w → isa_decode w = Some ISyscall → isa_regs s' REG_V0 = 10 →
  u32 (isa_npc s') →
  (∀ k, 0 <= k <= 3 → code ((isa_npc s' + 4 * k) mod 2 ^ 32) = Some 0) →
  (5 + 2 * n <= fuel)%nat →
  run fuel (Hardware (Cpu [c] cores) m) = Some (Ret (s32 (isa_regs s' REG_V1))).
Proof.
  intros Hc Hm Hl Hcode He Hs Hw Hi Hv Hu Hnops Hfuel.
  destruct (run_loop_isa fuel cores c m n s' w Hc Hm Hl Hcode He Hs Hw Hi Hv Hu Hnops Hfuel)
    as (c' & m' & Hr & HR).
  fold (one_core cores c m). rewrite (run_of_loop _ _ _ _ _ _ Hr). do 3 f_equal. by apply HR.
Qed.
End Run.

(** ** Executing the specification

    A program given as the list of its words, and an executable form of the
    specification on the simulator's memory unit, for the concrete instances. *)

Definition code_at (base : Z) (words : list Z) (a : Z) : option Z :=
  if (base <=? a) && ((a - base) mod 4 =? 0) then words !! Z.to_nat ((a - base) / 4) else None.

Definition below_io (a : Z) : bool := (0 <=? a) && (a <? IO_DESCRIPTOR_AREA).

(** The words are in memory. *)
Fixpoint loaded (m : mmu_t) (a : Z) (words : list Z) : bool :=
  match words with
  | [] => true
  | w :: words =>
    (0 <=? w) && (w <? 2 ^ 32) && below_io a &&
    match mmu_read m a 0 MEM_OP_WORD with Ret (_, x) => x =? w | _ => false end &&
    loaded m (a + 4) words
  end.

Definition read_run (m : mmu_t) (addr : Z) (size : mem_op_size_t) : option Z :=
  match mmu_read m addr 0 size with
  | Ret (_, v) => if below_io addr && (0 <=? v) && (v <? 2 ^ 32) then Some v else None
  | _ => None
  end.

Definition load_run (m : mmu_t) (addr old : Z) (kind : load_kind) : option Z :=
  match kind with
  | LoadAll size => read_run m addr size
  | LoadLeft =>
    t ← read_run m (addr - addr mod 4) MEM_OP_WORD; Some (merge_left (addr mod 4) t old)
  | LoadRight =>
    t ← read_run m (addr - addr mod 4) MEM_OP_WORD; Some (merge_right (addr mod 4) t old)
  end.

Definition uop_run (u : uop) (R : Z → Z) (m : mmu_t) : option ((Z → Z) * mmu_t) :=
  match u with
  | UNone => Some (R, m)
  | UWrite r v => Some (rset R r v, m)
  | ULoad kind r a =>
    if (0 <=? r) && (r <? 32)
    then v ← load_run m a (R r) kind; Some (rset R r v, m)
    else None
  | UStore sz a v =>
    match mmu_write m a v sz with
    | Ret (_, m') =>
      if below_io a && (0 <=? v) && (v <? 2 ^ 32) then Some (R, m') else None
    | _ => None
    end
  end.

Definition isa_run1 (base : Z) (words : list Z) (s : isa_state (M := mmu_t))
    : option (isa_state (M := mmu_t)) :=
  let R := isa_regs s in
  w ← code_at base words (isa_pc s);
  i ← isa_decode w;
  '(u, target) ← exec i (isa_pc s) (R (GET_RS w)) (R (GET_RT w));
  '(R', m') ← uop_run u R (isa_mem s);
  if quiet i (R (GET_RS w)) (R (GET_RT w)) && loaded m' base words
  then Some (IsaState R' m' (isa_npc s) (default ((isa_npc s + 4) mod 2 ^ 32) target))
  else None.

Fixpoint isa_run (base : Z) (words : list Z) (n : nat) (s : isa_state (M := mmu_t))
    : option (isa_state (M := mmu_t)) :=
  match n with
  | O => Some s
  | S n => s ← isa_run1 base words s; isa_run base words n s
  end.

Lemma mmu_read_any_dst m a dst sz e v :
  mmu_ok m → below_io a = true → mmu_read m a 0 sz = Ret (e, v) →
  mmu_read m a dst sz = Ret (EXC_None, v).
Proof.
  unfold below_io. intros Hm [?%Z.leb_le ?%Z.ltb_lt]%andb_true_iff.
  rewrite !mmu_read_memory by done. destruct (host_offset m a); [|done]. by intros [= <- <-].
Qed.

Lemma loaded_word m base words a w :
  mmu_ok m → loaded m base words = true → code_at base words a = Some w →
  u32 w ∧ below_io a = true ∧ ∀ dst, mmu_read m a dst MEM_OP_WORD = Ret (EXC_None, w).
Proof.
  intros Hm. revert base. induction words as [|x words IH]; intros base; cbn [loaded].
  - intros _. unfold code_at. destruct (_ && _); [|done]. by rewrite lookup_nil.
  - intros [[[[H1 H2]%andb_true_iff Hb]%andb_true_iff Hr]%andb_true_iff Hl]%andb_true_iff.
    unfold code_at. destruct (Z.leb_spec base a); [|done]. cbn [andb].
    destruct (Z.eqb_spec ((a - base) mod 4) 0) as [Hd|]; [|done].
    destruct (Z.eq_dec a base) as [->|Hne].
    + rewrite Z.sub_diag. cbn. intros [= <-]. split; [unfold u32; lia|]. split; [done|]. intros dst.
      destruct (mmu_read m base 0 MEM_OP_WORD) as [[e y]| |] eqn:Er; [|done..].
      apply Z.eqb_eq in Hr as ->. by eapply mmu_read_any_dst.
    + intros Hx. apply (IH (base + 4) Hl). unfold code_at.
      replace (base + 4 <=? a) with true by (symmetry; apply Z.leb_le; Z.div_mod_to_equations; lia).
      replace ((a - (base + 4)) mod 4 =? 0) with true
        by (symmetry; apply Z.eqb_eq; Z.div_mod_to_equations; lia).
      cbn [andb]. rewrite <-Hx.
      assert ((a - base) / 4 = (a - (base + 4)) / 4 + 1) as -> by (Z.div_mod_to_equations; lia).
      rewrite Z2Nat.inj_add by (Z.div_mod_to_equations; lia). by rewrite Nat.add_1_r.
Qed.

Lemma loaded_code_ok m base words :
  mmu_ok m → loaded m base words = true → code_ok (code_at base words) m.
Proof.
  intros Hm Hl a w Ha. destruct (loaded_word m base words a w Hm Hl Ha) as (Hw & _ & Hr).
  split; [exact Hw|]. intros dst _. apply Hr.
Qed.

Lemma code_at_range base words a w :
  code_at base words a = Some w → base <= a < base + 4 * Z.of_nat (length words).
Proof.
  unfold code_at. destruct (Z.leb_spec base a); [|done]. destruct (Z.eqb_spec ((a - base) mod 4) 0);
    [|done]. cbn [andb]. intros Hl%lookup_lt_Some. Z.div_mod_to_equations. lia.
Qed.

Lemma read_run_spec m a sz v :
  mmu_ok m → read_run m a sz = Some v → u32 v ∧ ∀ dst, mmu_read m a dst sz = Ret (EXC_None, v).
Proof.
  intros Hm. unfold read_run. destruct (mmu_read m a 0 sz) as [[e x]| |] eqn:Er; [|done..].
  destruct (below_io a && (0 <=? x) && (x <? 2 ^ 32)) eqn:Eb; [|done].
  apply andb_true_iff in Eb as [[Eb ?%Z.leb_le]%andb_true_iff ?%Z.ltb_lt].
  intros [= <-]. split; [done|]. intros dst. by eapply mmu_read_any_dst.
Qed.

Lemma load_run_value m a old kind v :
  mmu_ok m → load_run m a old kind = Some v → load_value m a old kind v.
Proof.
  intros Hm. destruct kind as [sz| |]; cbn [load_run].
  - intros Hr. constructor. intros dst _. by apply (read_run_spec m a sz v).
  - intros (t & Hr & [= <-])%bind_Some. destruct (read_run_spec _ _ _ _ Hm Hr). by constructor.
  - intros (t & Hr & [= <-])%bind_Some. destruct (read_run_spec _ _ _ _ Hm Hr). by constructor.
Qed.

Lemma uop_run_step u R m R' m' :
  mmu_ok m → uop_run u R m = Some (R', m') → uop_step u R m R' m' ∧ mmu_ok m'.
Proof.
  intros Hm. destruct u as [|r v|kind r a|sz a v]; cbn [uop_run].
  - intros [= <- <-]. split; [constructor|done].
  - intros [= <- <-]. split; [constructor|done].
  - destruct ((0 <=? r) && (r <? 32)) eqn:Er; [|done].
    apply andb_true_iff in Er as [?%Z.leb_le ?%Z.ltb_lt].
    intros (v & Hv & [= <- <-])%bind_Some. split; [|done]. constructor; [done|].
    by apply load_run_value.
  - destruct (mmu_write m a v sz) as [[e m1]| |] eqn:Ew; [|done..].
    destruct (below_io a && (0 <=? v) && (v <? 2 ^ 32)) eqn:Eb; [|done].
    apply andb_true_iff in Eb as [[Eb ?%Z.leb_le]%andb_true_iff ?%Z.ltb_lt].
    unfold below_io in Eb. apply andb_true_iff in Eb as [?%Z.leb_le ?%Z.ltb_lt].
    assert (0 <= a < IO_DESCRIPTOR_AREA) as Ha by done. assert (u32 v) as Hv by done.
    intros [= <- <-]. revert Ew. rewrite mmu_write_memory by done.
    destruct (host_offset m a) as [off|] eqn:Eo; [|done]. intros [= <- <-]. split.
    + constructor. cbn [bus_write mmu_bus]. rewrite mmu_write_memory by done.
      by rewrite Eo.
    + apply mmu_ok_put; [done|apply be_digits_u8].
Qed.

Lemma isa_run1_step base words s s' :
  mmu_ok (isa_mem s) → isa_run1 base words s = Some s' →
  isa_step (code_at base words) s s' ∧ mmu_ok (isa_mem s').
Proof.
  destruct s as [R m pc npc]. unfold isa_run1. cbn [isa_regs isa_mem isa_pc isa_npc].
  intros Hm E1. apply bind_Some in E1 as (w & Hw & E1). apply bind_Some in E1 as (i & Hi & E1).
  apply bind_Some in E1 as ([u tgt] & He & E1). apply bind_Some in E1 as ([R' m'] & Hu & E1).
  destruct (quiet _ _ _) eqn:Hq; [|done]. destruct (loaded m' base words) eqn:Hl; [|done].
  apply (inj Some) in E1 as <-. destruct (uop_run_step u R m R' m' Hm Hu) as [Hs Hm'].
  split; [|exact Hm']. eapply isa_step_intro; try done. by apply loaded_code_ok.
Qed.

Lemma isa_run_steps base words n s s' :
  mmu_ok (isa_mem s) → isa_run base words n s = Some s' →
  isa_steps (code_at base words) n s s' ∧ mmu_ok (isa_mem s').
Proof.
  revert s. induction n as [|n IH]; intros s Hm; cbn [isa_run].
  - intros [= <-]. split; [constructor|done].
  - intros (s1 & E1 & Hr)%bind_Some. destruct (isa_run1_step base words s s1 Hm E1) as [Hs Hm1].
    apply IH in Hr as [Hss Hms]; [|exact Hm1]. split; [|exact Hms]. by eapply isa_steps_S.
Qed.

(** ** Concrete instances *)

(** The exit program with the no-operations behind it, on a fresh machine. *)
Definition exit_words : list Z := exit_program ++ replicate 4 0.
Definition exit_machine : core_t := set_PC (initial_core (mmu (initial_hardware true 0 4096))) KSEG0_VSTART.
Definition exit_memory : mmu_t := mmu (program_hardware exit_program).
Definition exit_code : Z → option Z := code_at KSEG0_VSTART exit_words.
Definition exit_start : isa_state := IsaState (gpr exit_machine) exit_memory
  (PC exit_machine) ((PC exit_machine + 4) mod 2 ^ 32).

Lemma exit_machine_ok : core_ok exit_machine.
Proof.
  apply core_ok_set_PC; [apply initial_core_ok|]. vm_compute. split; congruence.
Qed.

Lemma program_memory_ok words :
  Forall u8 (words ≫= be_digits 4) → mmu_ok (mmu (program_hardware words)).
Proof.
  intros Hw. apply (mmu_ok_put (mmu (initial_hardware true 0 4096)) 0); [|exact Hw].
  by destruct (mmu_add_device_isolated true 4096 _ ltac:(lia) eq_refl).
Qed.

Lemma exit_memory_ok : mmu_ok exit_memory.
Proof. apply (program_memory_ok exit_program). repeat constructor; vm_compute; congruence. Qed.

Lemma exit_code_ok : code_ok exit_code exit_memory.
Proof. apply loaded_code_ok; [exact exit_memory_ok|]. vm_compute. reflexivity. Qed.

(** The state of the specification at the system call, and after one instruction. *)
Definition exit_state (n : nat) : isa_state :=
  default exit_start (isa_run KSEG0_VSTART exit_words n exit_start).

Lemma exit_run n : (n <= 2)%nat → isa_run KSEG0_VSTART exit_words n exit_start = Some (exit_state n).
Proof. intros Hn. do 3 (destruct n as [|n]; [vm_compute; reflexivity|]). lia. Qed.

Lemma exit_steps n : (n <= 2)%nat → isa_steps exit_code n exit_start (exit_state n).
Proof. intros Hn. by apply (isa_run_steps KSEG0_VSTART exit_words n exit_start _ exit_memory_ok), exit_run. Qed.

Definition fetchable_b (code : Z → option Z) (s : isa_state (M := mmu_t)) : bool :=
  match code (isa_pc s) ≫= isa_decode, code (isa_npc s) with Some _, Some _ => true | _, _ => false end.

Lemma fetchable_b_spec code s : fetchable_b code s = true → fetchable code s.
Proof.
  unfold fetchable_b, fetchable. destruct (code (isa_pc s)) as [w|]; [|done]. cbn [mbind option_bind].
  destruct (isa_decode w) as [i|] eqn:Ei; [|done]. destruct (code (isa_npc s)) as [x|]; [|done].
  intros _. split; [by exists w, i|by exists x].
Qed.

Lemma exit_fetchable n : (n <= 2)%nat → fetchable exit_code (exit_state n).
Proof.
  intros Hn. apply fetchable_b_spec. do 3 (destruct n as [|n]; [vm_compute; reflexivity|]). lia.
Qed.

Lemma exit_inv : ∃ c m, inv (ok := mmu_ok) exit_code c m exit_start.
Proof.
  destruct (boot_runs (ok := mmu_ok) exit_code exit_machine exit_memory false (gpr exit_machine)
    exit_machine_ok exit_memory_ok exit_code_ok) as (c & _ & Hi); [by split_and!|reflexivity|exact (exit_fetchable 0 ltac:(lia))|].
  by exists c, exit_memory.
Qed.

Lemma pipeline_refines_isa_witness :
  ∃ c m c' m', inv (ok := mmu_ok) exit_code c m exit_start ∧
    ticks 1 c m false = Ret (c', m', false) ∧
    inv (ok := mmu_ok) exit_code c' m' (exit_state 1).
Proof.
  destruct exit_inv as (c & m & Hi).
  destruct (pipeline_refines_isa (ok := mmu_ok) exit_code c m false exit_start (exit_state 1) Hi)
    as (c' & m' & Ht & Hi').
  - pose proof (exit_steps 1 ltac:(lia)) as Hs. inversion Hs as [|? ? s ? H1 H2]; subst.
    inversion H2; subst. exact H1.
  - exact (exit_fetchable 1 ltac:(lia)).
  - exists c, m, c', m'. split; [exact Hi|]. split; [exact Ht|exact Hi'].
Defined.

Lemma program_runs_witness :
  ∃ k c' m', (2 + 2 <= k <= 2 + 2 * 2)%nat ∧
    ticks k exit_machine exit_memory false = Ret (c', m', false) ∧
    inv (ok := mmu_ok) exit_code c' m' (exit_state 2).
Proof.
  apply (program_runs (ok := mmu_ok) exit_code exit_machine exit_memory false 2 (exit_state 2)
    exit_machine_ok exit_memory_ok exit_code_ok); [by split_and!| |].
  - exact (exit_steps 2 ltac:(lia)).
  - exact (exit_fetchable 2 ltac:(lia)).
Defined.

(** A loop with a branch and its delay slot, a store, an unaligned load in two halves
    and a use of its result right behind it:
[[
          addiu $t1, $zero, 5
          addu  $v1, $zero, $zero
    loop: addu  $v1, $v1, $t1
          addiu $t1, $t1, -1
          bne   $t1, $zero, loop
          nop
          lui   $t0, 0x8000
          ori   $t0, $t0, 0x100
          sw    $v1, 4($t0)
          lwl   $t2, 5($t0)
          lwr   $t2, 8($t0)
          addu  $v1, $v1, $t2
          addiu $v0, $zero, 10
          syscall
]] *)
Definition loop_program : list Z := [
  0x24090005; 0x00001821; 0x00691821; 0x2529FFFF; 0x1520FFFD; 0; 0x3C088000; 0x35080100;
  0xAD030004; 0x890A0005; 0x990A0008; 0x006A1821; 0x2402000A; 0x0000000C].
Definition loop_words : list Z := loop_program ++ replicate 4 0.
Definition loop_memory : mmu_t := mmu (program_hardware loop_program).
Definition loop_start : isa_state :=
  IsaState (gpr exit_machine) loop_memory (PC exit_machine) ((PC exit_machine + 4) mod 2 ^ 32).
Definition loop_end : isa_state :=
  default loop_start (isa_run KSEG0_VSTART loop_words 29 loop_start).

Lemma run_returns_isa_result_witness :
  run 63 (program_hardware loop_program) = Some (Ret 3855).
Proof.
  change (program_hardware loop_program) with (Hardware (Cpu [exit_machine] 1) loop_memory).
  assert (mmu_ok loop_memory) as Hm
    by (apply program_memory_ok; repeat constructor; vm_compute; congruence).
  replace 3855 with (s32 (isa_regs loop_end REG_V1)) by (vm_compute; reflexivity).
  assert (code_in_kseg0 (code_at KSEG0_VSTART loop_words) 4096) as Hk.
  { intros a w Ha. apply code_at_range in Ha. revert Ha. cbn.
    unfold KSEG0_VSTART, KSEG0_SIZE. change (wrap32 (4096 / 8)) with 512. lia. }
  apply (run_returns_isa_result (code_at KSEG0_VSTART loop_words) 4096 Hk 63 1 exit_machine
    loop_memory 29 loop_end 0x0000000C exit_machine_ok Hm eq_refl).
  - apply loaded_code_ok; [exact Hm|]. vm_compute. reflexivity.
  - by split_and!.
  - apply (isa_run_steps KSEG0_VSTART loop_words 29 loop_start _ Hm).
    vm_compute. reflexivity.
  - vm_compute. reflexivity.
  - vm_compute. reflexivity.
  - vm_compute. reflexivity.
  - vm_compute. split; congruence.
  - intros k Hk'. assert (k = 0 ∨ k = 1 ∨ k = 2 ∨ k = 3) as [->|[->|[->| ->]]] by lia;
      vm_compute; reflexivity.
  - lia.
Defined.
