(* ===== verification/Types.v ===== *)
(** * The C types of the processor's fields (src/cpu.h)

    The model keeps the fields of the pipeline registers as unbounded integers. This file
    gives each field the type its struct declares, bit-fields included, and shows that a
    clock tick never stores a value outside it: no assignment of src/sim.c truncates, and
    the model loses nothing by not writing the conversions. *)

From S2P Require Import Prelude Mips32 Tools Cpu Exception Io Bus Mem MemProps Decode Execute.
From S2P Require Import Memstage Writeback.
From S2P Require Import Forward Fetch Sim Wellformed Machine Isa Refine Program.

#[local] Set Default Proof Using "Type*".

(** ** The declarations *)

(** [UInt n]: an unsigned integer of [n] bits ([uint32_t], [uint8_t], a bit-field);
    [SInt n]: a signed one. *)
Inductive ctype := UInt (n : Z) | SInt (n : Z).

Definition in_type (f : ctype * Z) : Prop :=
  match f.1 with
  | UInt n => 0 <= f.2 < 2 ^ n
  | SInt n => - 2 ^ (n - 1) <= f.2 < 2 ^ (n - 1)
  end.

Definition if_id_fields (f : if_id_t) : list (ctype * Z) := [
  (UInt 32, ifid_inst f); (UInt 32, ifid_next_pc f); (UInt 32, ifid_BadVAddr f)].

Definition id_ex_fields (d : id_ex_t) : list (ctype * Z) := [
  (UInt 2, idex_c_alu_op d); (UInt 5, idex_shamt d); (UInt 6, idex_funct d);
  (UInt 32, idex_next_pc d); (UInt 32, idex_rs_value d); (UInt 32, idex_rt_value d);
  (UInt 32, idex_jump_addr d); (UInt 32, idex_branch_addr d);
  (SInt 32, idex_sign_ext_imm d); (UInt 8, idex_rs d); (UInt 8, idex_rt d); (UInt 8, idex_rd d);
  (UInt 32, idex_inst d); (UInt 32, idex_BadVAddr d)].

Definition ex_mem_fields (x : ex_mem_t) : list (ctype * Z) := [
  (UInt 32, exmem_eff_addr x); (UInt 32, exmem_alu_res x); (UInt 32, exmem_rt_value x);
  (UInt 8, exmem_reg_dst x); (UInt 32, exmem_next_pc x); (UInt 32, exmem_inst x);
  (UInt 32, exmem_BadVAddr x)].

Definition mem_wb_fields (w : mem_wb_t) : list (ctype * Z) := [
  (UInt 32, memwb_alu_res w); (UInt 32, memwb_read_data w); (UInt 8, memwb_reg_dst w);
  (UInt 32, memwb_next_pc w); (UInt 32, memwb_inst w); (UInt 32, memwb_BadVAddr w)].

Definition core_fields (c : core_t) : list (ctype * Z) :=
  map (pair (UInt 32)) (regs c) ++ map (pair (UInt 32)) (cp0 c) ++
  if_id_fields (if_id c) ++ id_ex_fields (id_ex c) ++ ex_mem_fields (ex_mem c) ++
  mem_wb_fields (mem_wb c).

(** Every field of the core, the register arrays included, holds a value of its type. *)
Definition core_typed (c : core_t) : Prop :=
  length (regs c) = Z.to_nat NUM_REGISTERS ∧ length (cp0 c) = Z.to_nat (CP0_NUM_REGS + 1) ∧
  Forall in_type (core_fields c).

(** ** The fields narrower than [core_ok] says *)

Record id_ex_narrow (d : id_ex_t) : Prop := {
  narrow_alu_op : 0 <= idex_c_alu_op d < 4;
  narrow_funct : 0 <= idex_funct d < 64;
  narrow_branch_addr : u32 (idex_branch_addr d);
  narrow_rs : u8 (idex_rs d);
  narrow_rt : u8 (idex_rt d);
  narrow_rd : u8 (idex_rd d) }.

Record narrow (c : core_t) : Prop := {
  narrow_id_ex : id_ex_narrow (id_ex c);
  narrow_eff_addr : u32 (exmem_eff_addr (ex_mem c));
  narrow_ex_dst : u8 (exmem_reg_dst (ex_mem c));
  narrow_wb_dst : u8 (memwb_reg_dst (mem_wb c)) }.

Lemma core_typed_narrow c : core_typed c → narrow c.
Proof.
  intros (_ & _ & Hf). unfold core_fields in Hf. rewrite !Forall_app in Hf.
  destruct Hf as (_ & _ & _ & Hd & Hx & Hw). repeat apply Forall_cons in Hd as [? Hd].
  repeat apply Forall_cons in Hx as [? Hx]. repeat apply Forall_cons in Hw as [? Hw].
  unfold in_type in *. cbn [fst snd] in *. split; [split|..]; assumption.
Qed.

Lemma narrow_core_typed c : core_ok c → narrow c → core_typed c.
Proof.
  intros [[Hl Hl' Hr Hp _] [] [] [] []] [[] ? ? ?]. split; [done|]. split; [done|].
  unfold core_fields. rewrite !Forall_app. split_and!.
  - by apply Forall_map.
  - by apply Forall_map.
  - repeat constructor; cbn [fst snd in_type]; unfold u32 in *; lia.
  - repeat constructor; cbn [fst snd in_type]; unfold u32, u8 in *; lia.
  - repeat constructor; cbn [fst snd in_type]; unfold u32, u8 in *; lia.
  - repeat constructor; cbn [fst snd in_type]; unfold u32, u8 in *; lia.
Qed.

(** ** Every stage keeps them *)

(** The latches of two cores agree on what [narrow] reads. *)
Lemma narrow_same c c' :
  id_ex c' = id_ex c → ex_mem c' = ex_mem c → mem_wb c' = mem_wb c → narrow c → narrow c'.
Proof. intros Hd Hx Hw []. split; by rewrite ?Hd, ?Hx, ?Hw. Qed.

Lemma narrow_zero c :
  id_ex c = zero_id_ex → ex_mem c = zero_ex_mem → mem_wb c = zero_mem_wb → narrow c.
Proof.
  intros Hd Hx Hw. split; rewrite ?Hd, ?Hx, ?Hw; [split|..]; cbn; unfold u32, u8; lia.
Qed.

Lemma handle_exception_latches c :
  id_ex (handle_exception c) = zero_id_ex ∧ ex_mem (handle_exception c) = zero_ex_mem ∧
  mem_wb (handle_exception c) = zero_mem_wb.
Proof. unfold handle_exception. cbv zeta. by case_decide; case_match. Qed.

Lemma interpret_wb_narrow c g c' g' : interpret_wb c g = Ret (c', g') → narrow c → narrow c'.
Proof.
  intros Hi Hn. revert Hi. unfold interpret_wb. case_match.
  { intros [= <- <-]. by apply narrow_zero. }
  case_decide.
  { case_match; intros [= <- <-]; [done|]. destruct (handle_exception_latches c) as (? & ? & ?).
    by apply narrow_zero. }
  intros (c1 & Hw & [= <- <-])%bind_Ret_inv. revert Hw. unfold wb_write.
  case_match; [|by intros [= <-]].
  case_match; intros (l & _ & [= <-])%bind_Ret_inv; by apply (narrow_same c).
Qed.

Section Stages.
Context {M : Type} {ok : M → Prop} `{BusSpec M ok}.
Implicit Types (c : core_t) (m : M) (w : mem_wb_t) (x : ex_mem_t).

(** The memory stage copies the destination; the accesses write other fields. *)
Lemma mem_read_switch_dst c m w x w' :
  mem_read_switch c m w x = Ret w' → memwb_reg_dst w' = memwb_reg_dst w.
Proof.
  unfold mem_read_switch, mem_load, mem_lwl, mem_lwr. cbv zeta.
  repeat case_match; try (by intros [= <-]); intros ([e v] & _ & Hr)%bind_Ret_inv;
    first [by injection Hr as <- | apply bind_Ret_inv in Hr as (? & _ & Hr); by injection Hr as <-].
Qed.

Lemma mem_write_switch_dst c m w x w' m' :
  mem_write_switch c m w x = Ret (w', m') → memwb_reg_dst w' = memwb_reg_dst w.
Proof.
  unfold mem_write_switch, mem_swl, mem_swr, mem_store. cbv zeta.
  repeat case_match; try (by intros [= <- _]); intros ([e v] & _ & Hr)%bind_Ret_inv;
    first [by injection Hr as <- _ | apply bind_Ret_inv in Hr as ([? ?] & _ & Hr); by injection Hr as <- _].
Qed.

Lemma interpret_mem_narrow c m c' m' : interpret_mem c m = Ret (c', m') → narrow c → narrow c'.
Proof.
  intros Hi [Hd He Hx Hw].
  assert (∀ w, memwb_reg_dst w = exmem_reg_dst (ex_mem c) → narrow (c <| mem_wb := w |>)) as Hset.
  { intros w Hdst. split; cbn; [done..|]. by rewrite Hdst. }
  revert Hi. unfold interpret_mem. cbv zeta. case_decide.
  { intros [= <- <-]. by apply Hset. }
  case_match; [|case_match].
  - intros (w' & Hr & [= <- <-])%bind_Ret_inv. apply Hset. by rewrite (mem_read_switch_dst _ _ _ _ _ Hr).
  - intros ([w' m1] & Hr & [= <- <-])%bind_Ret_inv. apply Hset.
    by rewrite (mem_write_switch_dst _ _ _ _ _ _ Hr).
  - intros [= <- <-]. by apply Hset.
Qed.
End Stages.

Section FrontStages.
Implicit Types (c : core_t) (d : id_ex_t) (x : ex_mem_t).

(** The ALU writes the result and the exception only. *)
Definition alu_fields x x' : Prop :=
  exmem_eff_addr x' = exmem_eff_addr x ∧ exmem_reg_dst x' = exmem_reg_dst x.

Lemma alu_r_type_fields d a b x : alu_fields x (alu_r_type d a b x).
Proof. unfold alu_r_type. cbv zeta. repeat case_match; done. Qed.

Lemma alu_i_type_fields d a b x : alu_fields x (alu_i_type d a b x).
Proof. unfold alu_i_type. cbv zeta. repeat case_match; done. Qed.

Lemma interpret_ex_alu_narrow c : narrow c → narrow (interpret_ex_alu c).
Proof.
  intros [Hd He Hx Hw].
  assert (∀ x, alu_fields (ex_mem c) x → narrow (c <| ex_mem := x |>)) as Hset.
  { intros x [Hf Hr]. split; cbn; [done|by rewrite Hf|by rewrite Hr|done]. }
  unfold interpret_ex_alu. cbv zeta. case_match; [|case_match].
  - apply Hset. by case_match.
  - by split.
  - apply Hset. case_match; [|by case_match; [apply alu_r_type_fields|]].
    case_match; [|apply alu_i_type_fields].
    destruct (alu_r_type_fields (id_ex c) (idex_rs_value (id_ex c)) (alu_b (id_ex c)) (ex_mem c)) as [E1 E2].
    destruct (alu_i_type_fields (id_ex c) (idex_rs_value (id_ex c)) (alu_b (id_ex c))
      (alu_r_type (id_ex c) (idex_rs_value (id_ex c)) (alu_b (id_ex c)) (ex_mem c))) as [E3 E4].
    split; congruence.
Qed.

Lemma ex_jump_narrow c : narrow c → narrow (ex_jump c).
Proof.
  intros Hn. unfold ex_jump. cbv zeta. case_match; [|done]. case_match; [|by apply (narrow_same c)].
  destruct Hn as [[] He Hx Hw]. by split; [split|..].
Qed.

Lemma ex_branches_narrow c : narrow c → narrow (ex_bne (ex_beq (ex_jump c))).
Proof.
  intros Hn%ex_jump_narrow. revert Hn. generalize (ex_jump c). clear c. intros c Hn.
  unfold ex_bne, ex_beq. cbv zeta. repeat case_match; by apply (narrow_same c).
Qed.

Lemma interpret_ex_narrow c : narrow c → narrow (interpret_ex c).
Proof.
  intros Hn. unfold interpret_ex. cbv zeta.
  set (c0 := c <| ex_mem := ex_latch (id_ex c) (ex_mem c) |>).
  assert (narrow c0) as H0 by by destruct Hn.
  case_decide; [by destruct Hn|]. apply ex_branches_narrow in H0. revert H0.
  generalize (ex_bne (ex_beq (ex_jump c0))). intros c1 H1. apply interpret_ex_alu_narrow.
  destruct H1 as [[] He Hx Hw]. split; [by split|exact He|cbn; by case_match|exact Hw].
Qed.

Lemma u8_small z : 0 <= z <= 32 → u8 z.
Proof. unfold u8. lia. Qed.

Lemma control_switch_narrow c inst d : id_ex_narrow d → id_ex_narrow (control_switch c inst d).
Proof.
  intros []. pose proof (GET_RD_range inst). pose proof (GET_RT_range inst).
  unfold control_switch, control_cp0. cbv zeta.
  repeat case_match; split; cbn; try assumption; unfold FUNCT_ADD, REG_RA; try lia; apply u8_small; lia.
Qed.

Lemma interpret_id_narrow c : narrow c → narrow (interpret_id c).
Proof.
  intros [[] He Hx Hw]. set (inst := ifid_inst (if_id c)).
  pose proof (GET_RS_range inst). pose proof (GET_RT_range inst). pose proof (GET_RD_range inst).
  pose proof (GET_FUNCT_range inst).
  unfold interpret_id. cbv zeta. case_decide; (split; [|exact He|exact Hx|exact Hw]).
  - split; cbn; first [assumption | fold inst; lia | apply u8_small; fold inst; lia].
  - apply control_switch_narrow. split; cbn; first [assumption | lia | fold inst; lia | apply u8_small; fold inst; lia].
Qed.

Lemma forwarding_unit_narrow c : narrow c → narrow (forwarding_unit c).
Proof.
  intros Hn. unfold forwarding_unit. case_match; [done|]. unfold forward_A, forward_B.
  destruct Hn as [[] ? ? ?]. repeat case_match; simplify_eq; by split; [split|..].
Qed.
End FrontStages.

(** ** The tick *)

Section Clock.
Context {M : Type} {ok : M → Prop} `{BusSpec M ok}.
Implicit Types (c : core_t) (m : M).

Lemma interpret_if_narrow c m c' : interpret_if c m = Ret c' → narrow c → narrow c'.
Proof.
  unfold interpret_if. intros ([e i] & _ & Hr)%bind_Ret_inv. revert Hr. cbv zeta.
  case_match; intros [= <-]; by apply narrow_same.
Qed.

Lemma tick_core_narrow c m g c' m' g' :
  tick_core c m g = Ret (c', m', g') → narrow c → narrow c'.
Proof.
  unfold tick_core. intros ([c1 g1] & Hw & Ht)%bind_Ret_inv Hn.
  apply bind_Ret_inv in Ht as ([c2 m2] & Hm & Ht). apply bind_Ret_inv in Ht as (c3 & Hf & [= <- _ _]).
  eapply forwarding_unit_narrow, interpret_if_narrow; [exact Hf|].
  eapply interpret_id_narrow, interpret_ex_narrow, interpret_mem_narrow; [exact Hm|].
  by eapply interpret_wb_narrow.
Qed.

Lemma tick_cores_typed cs m g cs' m' g' :
  Forall core_ok cs → ok m → Forall core_typed cs → tick_cores cs m g = Ret (cs', m', g') →
  Forall core_typed cs'.
Proof.
  intros Hok. revert m g cs' m' g'. induction Hok as [|c cs Hc Hcs IH]; intros m g cs' m' g' Hm Ht.
  - by intros [= <- _ _].
  - apply Forall_cons in Ht as [Htc Hts]. cbn [tick_cores].
    intros ([[c1 m1] g1] & Hc1 & Hr)%bind_Ret_inv.
    apply bind_Ret_inv in Hr as ([[cs2 m2] g2] & Hcs2 & [= <- _ _]).
    pose proof (tick_core_yields (ok := ok) c m g Hc Hm) as Hy. rewrite Hc1 in Hy.
    destruct Hy as [Hok1 Hm1]. constructor; [|by eapply (IH m1 g1)].
    apply narrow_core_typed; [exact Hok1|]. by eapply tick_core_narrow, core_typed_narrow.
Qed.
End Clock.

(** C8: types are kept: on every machine that satisfies the invariant and holds in every
    register and every field of every pipeline register a value of the type the struct
    declares - words, eight-bit register numbers, the 2-, 5- and 6-bit fields, a signed
    immediate - a clock tick leaves only values of their types, so the integers of the
    model are the ones the C fields hold. *)
Theorem tick_keeps_types hw g hw' g' :
  hardware_ok hw → Forall core_typed (core (cpu hw)) → tick hw g = Ret (hw', g') →
  Forall core_typed (core (cpu hw')).
Proof.
  intros [Hc Hm] Ht Htick. unfold tick in Htick.
  apply bind_Ret_inv in Htick as ([[cs m] g1] & Hcs & [= <- _]). cbn [core cpu update].
  by eapply (tick_cores_typed (ok := mmu_ok)).
Qed.

Lemma program_hardware_typed :
  hardware_ok (program_hardware exit_program) ∧
  Forall core_typed (core (cpu (program_hardware exit_program))).
Proof.
  change (program_hardware exit_program) with (Hardware (Cpu [exit_machine] 1) exit_memory).
  split; [split|]; cbn [core cpu mmu].
  - constructor; [exact exit_machine_ok|constructor].
  - exact exit_memory_ok.
  - constructor; [|constructor]. apply narrow_core_typed; [exact exit_machine_ok|].
    by apply narrow_zero.
Qed.

Lemma tick_keeps_types_witness :
  ∃ hw' g', tick (program_hardware exit_program) false = Ret (hw', g') ∧
    Forall core_typed (core (cpu hw')).
Proof.
  assert (∃ hw' g', tick (program_hardware exit_program) false = Ret (hw', g'))
    as (hw' & g' & Ht) by (vm_compute; do 2 eexists; reflexivity).
  exists hw', g'. split; [exact Ht|]. destruct program_hardware_typed as [Hok Hty].
  exact (tick_keeps_types (program_hardware exit_program) false hw' g' Hok Hty Ht).
Defined.
