(* ===== verification/Interrupts.v ===== *)
(** * Theorems on exceptions (src/sim.c: handle_exception, interpret_wb; src/exception.c)

    What taking an exception does to the core, that it is precise - the clock tick that
    takes one is the first tick of the handler on an emptied pipeline - and that ERET
    undoes it. *)

From S2P Require Import Prelude Mips32 Cpu Exception Bus Decode Execute Memstage Writeback.
From S2P Require Import Forward.
From S2P Require Import Fetch Sim Wellformed Mem MemProps MemTheorems Isa DecodeExecute Refine.
From S2P Require Import Program.

#[local] Set Default Proof Using "Type*".

(** ** The Cause register *)

(** The exception and the delay-slot bit of a Cause value. *)
Definition cause_fields (cause : Z) : exception_t * bool :=
  (match Z.land cause 0xF with
   | 0 => EXC_Interrupt | 4 => EXC_AddressErrorLoad | 5 => EXC_AddressErrorStore
   | 6 => EXC_BusErrorInstructionFetch | 7 => EXC_BusErrorLoadStore | 8 => EXC_Syscall
   | 9 => EXC_Breakpoint | 10 => EXC_Reserved | 11 => EXC_CpUnavailable
   | 12 => EXC_ArithmeticOverflow | 13 => EXC_Trap | 15 => EXC_FloatingPoint
   | _ => EXC_None
   end, Z.testbit cause 31).

Lemma cause_fields_get_cause e b : e ≠ EXC_None → cause_fields (get_cause e b) = (e, b).
Proof. intros He. destruct e; [by destruct He|..]; destruct b; reflexivity. Qed.

(** The Cause register identifies the exception and the delay slot: no two different
    ones have the same value, the lowest four bits hold the exception code of the
    architecture's table and the highest bit tells a delay slot. *)
Theorem get_cause_injective e b e' b' :
  e ≠ EXC_None → e' ≠ EXC_None → get_cause e b = get_cause e' b' → e = e' ∧ b = b'.
Proof.
  intros He He' Hc. pose proof (cause_fields_get_cause e b He) as H1.
  rewrite Hc, (cause_fields_get_cause e' b' He') in H1. by injection H1 as -> ->.
Qed.

Lemma get_cause_injective_witness :
  get_cause EXC_Syscall true = 0x80000008 ∧
  ∀ b, get_cause EXC_Syscall true = get_cause EXC_Syscall b → true = b.
Proof.
  split; [reflexivity|]. intros b Hb.
  exact (proj2 (get_cause_injective EXC_Syscall true EXC_Syscall b
    ltac:(discriminate) ltac:(discriminate) Hb)).
Defined.

(** ** Exception entry *)

(** The exception in MEM/WB is taken: it is not the exit system call. *)
Definition takes_exception (c : core_t) : Prop :=
  memwb_exception (mem_wb c) ≠ EXC_None ∧ memwb_inst (mem_wb c) ≠ INSTRUCTION_ERET ∧
  ¬ (memwb_exception (mem_wb c) = EXC_Syscall ∧ aread (regs c) REG_V0 = 10).

(** Where the handler starts. *)
Definition handler_address (c : core_t) : Z :=
  if Z.testbit (aread (cp0 c) REG_SR) 22 then aread (cp0 c) REG_EBASE else EXCEPTION_HANDLER.

Lemma interpret_wb_takes c g :
  takes_exception c → interpret_wb c g = Ret (handle_exception c, g).
Proof.
  intros (He & Hi & Hs). unfold interpret_wb. cbv zeta.
  rewrite (proj2 (Z.eqb_neq _ _) Hi), decide_True by done.
  replace (bool_decide (memwb_exception (mem_wb c) = EXC_Syscall) && (aread (regs c) REG_V0 =? 10))
    with false; [done|].
  symmetry. apply andb_false_iff. destruct (decide (memwb_exception (mem_wb c) = EXC_Syscall)).
  - right. apply Z.eqb_neq. intros Hv. by apply Hs.
  - left. by apply bool_decide_eq_false_2.
Qed.

(** Reading a register array after writes to other places. *)
Ltac read_array :=
  repeat first [ rewrite aread_insert_eq by (rewrite ?length_insert; lia)
               | rewrite aread_insert_ne by lia ].

Lemma land_bit_nonzero x k : 0 <= k → negb (Z.land x (Z.shiftl 1 k) =? 0) = Z.testbit x k.
Proof.
  intros Hk. destruct (Z.testbit x k) eqn:E.
  - apply negb_true_iff, Z.eqb_neq. intros H0. apply (f_equal (λ z, Z.testbit z k)) in H0.
    rewrite Z.land_spec, Z.shiftl_spec, Z.sub_diag, E, Z.bits_0 in H0 by lia. done.
  - apply negb_false_iff, Z.eqb_eq. apply Z.bits_inj'. intros n Hn.
    rewrite Z.land_spec, Z.shiftl_spec, Z.bits_0 by lia.
    destruct (Z.eq_dec n k) as [->|Hne]; [by rewrite E|].
    replace (Z.testbit 1 (n - k)) with false; [apply andb_false_r|].
    symmetry. destruct (Z.ltb_spec n k).
    + apply Z.testbit_neg_r. lia.
    + replace (n - k) with (Z.succ (n - k - 1)) by lia. change 1 with (2 * 0 + 1).
      rewrite Z.testbit_odd_succ by lia. apply Z.bits_0.
Qed.

(** The registers of coprocessor 0 that exception entry writes. *)
Definition entry_cp0 (c : core_t) (r : Z) : Z :=
  if r =? REG_EPC then memwb_next_pc (mem_wb c)
  else if r =? REG_CAUSE then
    get_cause (memwb_exception (mem_wb c)) (memwb_is_branch_delay (mem_wb c))
  else if r =? REG_SR then Z.lor (aread (cp0 c) REG_SR) SR_EXL
  else if (r =? REG_BADVADDR) && bool_decide (memwb_exception (mem_wb c) = EXC_AddressErrorLoad)
  then memwb_BadVAddr (mem_wb c)
  else aread (cp0 c) r.

Definition entry_cp0_array (c : core_t) : list Z :=
  let w := mem_wb c in
  let p := <[Z.to_nat REG_EPC := memwb_next_pc w]> (cp0 c) in
  let p := <[Z.to_nat REG_CAUSE := get_cause (memwb_exception w) (memwb_is_branch_delay w)]> p in
  let p := if decide (memwb_exception w = EXC_AddressErrorLoad ∨
                      memwb_exception w = EXC_AddressErrorLoad)
           then <[Z.to_nat REG_BADVADDR := memwb_BadVAddr w]> p else p in
  <[Z.to_nat REG_SR := Z.lor (aread p REG_SR) SR_EXL]> p.

Lemma handle_exception_eq c :
  handle_exception c =
    let p := entry_cp0_array c in
    let r := <[Z.to_nat REG_PC := EXCEPTION_HANDLER]> (regs c) in
    Core (if negb (Z.land (aread p REG_SR) SR_BEV =? 0)
          then <[Z.to_nat REG_PC := aread p REG_EBASE]> r else r)
      p zero_if_id zero_id_ex zero_ex_mem zero_mem_wb.
Proof.
  assert (∀ (b : bool) (c1 : core_t) (v : Z), (if b then set_PC c1 v else c1) <| mem_wb := zero_mem_wb |> =
    Core (if b then <[Z.to_nat REG_PC := v]> (regs c1) else regs c1) (cp0 c1) (if_id c1)
      (id_ex c1) (ex_mem c1) zero_mem_wb) as Hpush by (by intros []).
  unfold handle_exception, entry_cp0_array. cbv zeta. rewrite Hpush. clear Hpush.
  change (mem_wb (flush_younger c)) with (mem_wb c).
  by destruct (decide (memwb_exception (mem_wb c) = EXC_AddressErrorLoad ∨
    memwb_exception (mem_wb c) = EXC_AddressErrorLoad)).
Qed.

Lemma entry_cp0_array_spec c r :
  length (cp0 c) = Z.to_nat (CP0_NUM_REGS + 1) → 0 <= r <= CP0_NUM_REGS →
  aread (entry_cp0_array c) r = entry_cp0 c r.
Proof.
  intros Hl Hr. unfold entry_cp0_array, entry_cp0. cbv zeta.
  unfold CP0_NUM_REGS, REG_EPC, REG_CAUSE, REG_BADVADDR, REG_SR in *.
  match goal with |- context [decide (?A ∨ ?B)] => destruct (decide (A ∨ B)) as [He|He] end.
  - rewrite bool_decide_eq_true_2 by by destruct He. rewrite andb_true_r.
    case_Z; subst; read_array; done.
  - rewrite bool_decide_eq_false_2 by auto. rewrite andb_false_r.
    case_Z; subst; read_array; done.
Qed.

Lemma handle_exception_spec c :
  regs_ok c →
  empty_pipeline (handle_exception c) ∧ PC (handle_exception c) = handler_address c ∧
  regs_agree (gpr (handle_exception c)) (gpr c) ∧
  ∀ r, 0 <= r <= CP0_NUM_REGS → aread (cp0 (handle_exception c)) r = entry_cp0 c r.
Proof.
  intros [Hl Hc _ _ _]. rewrite handle_exception_eq. cbv zeta.
  rewrite (entry_cp0_array_spec c REG_SR), (entry_cp0_array_spec c REG_EBASE)
    by (done || unfold CP0_NUM_REGS, REG_SR, REG_EBASE; lia).
  change (entry_cp0 c REG_SR) with (Z.lor (aread (cp0 c) REG_SR) SR_EXL).
  change (entry_cp0 c REG_EBASE) with (aread (cp0 c) REG_EBASE).
  unfold SR_BEV. rewrite land_bit_nonzero, Z.lor_spec by lia.
  change (Z.testbit SR_EXL 22) with false. rewrite orb_false_r.
  assert (length (regs c) = 33%nat) as Hl' by done.
  split; [done|]. split; [|split].
  - unfold PC, handler_address, REG_PC. cbn [regs].
    destruct (Z.testbit (aread (cp0 c) REG_SR) 22); read_array; done.
  - intros r Hr. unfold gpr, REG_PC. cbn [regs].
    destruct (Z.testbit (aread (cp0 c) REG_SR) 22); read_array; done.
  - intros r Hr. by apply entry_cp0_array_spec.
Qed.

(** C19: taking an exception: the pipeline is emptied, the general registers keep their
    values, the PC moves to the handler (0x80000080, or the address in EBase when
    SR(BEV) is set), EPC receives the [next_pc] of the instruction that raised it, Cause
    the exception's value, SR(EXL) is set, BadVAddr is written for a load address error
    only, and every other register of coprocessor 0 keeps its value. *)
Theorem exception_entry c g :
  core_ok c → takes_exception c →
  ∃ c', interpret_wb c g = Ret (c', g) ∧ empty_pipeline c' ∧ PC c' = handler_address c ∧
    regs_agree (gpr c') (gpr c) ∧
    ∀ r, 0 <= r <= CP0_NUM_REGS → aread (cp0 c') r = entry_cp0 c r.
Proof.
  intros Hc Ht. exists (handle_exception c). split; [by apply interpret_wb_takes|].
  apply handle_exception_spec, (core_regs _ Hc).
Qed.

(** A core whose MEM/WB holds an overflow raised in a delay slot. *)
Definition overflow_core : core_t :=
  set_PC (zero_core <| mem_wb := zero_mem_wb <| memwb_exception := EXC_ArithmeticOverflow |>
    <| memwb_is_branch_delay := true |> <| memwb_next_pc := 0x80010010 |> |>) 0x80010018.

Lemma overflow_core_ok : core_ok overflow_core.
Proof.
  apply core_ok_set_PC; [|unfold u32; lia]. apply core_ok_mem_wb; [exact zero_core_ok|].
  destruct zero_mem_wb_ok. split; try assumption. vm_compute. split; congruence.
Qed.

Lemma overflow_takes : takes_exception overflow_core.
Proof. split; [discriminate|]. split; [discriminate|]. by intros [H _]. Qed.

Lemma exception_entry_witness :
  ∃ c', interpret_wb overflow_core false = Ret (c', false) ∧ PC c' = 0x80000080 ∧
    aread (cp0 c') REG_EPC = 0x80010010 ∧ aread (cp0 c') REG_CAUSE = 0x8000000C ∧
    aread (cp0 c') REG_SR = SR_EXL.
Proof.
  destruct (exception_entry overflow_core false overflow_core_ok overflow_takes)
    as (c' & Hw & _ & Hpc & _ & Hcp). exists c'. split; [exact Hw|]. split; [exact Hpc|].
  rewrite !Hcp by (vm_compute; split; congruence). split; [|split]; reflexivity.
Defined.

(** ** ERET *)

Lemma wb_eret_eq c :
  wb_eret c =
    Core (<[Z.to_nat REG_PC := aread (cp0 c) REG_EPC]> (regs c))
      (<[Z.to_nat REG_SR := Z.land (aread (cp0 c) REG_SR) (wrap32 (Z.lnot SR_EXL))]> (cp0 c))
      zero_if_id zero_id_ex zero_ex_mem zero_mem_wb.
Proof. reflexivity. Qed.

Lemma interpret_wb_eret c g :
  memwb_inst (mem_wb c) = INSTRUCTION_ERET → interpret_wb c g = Ret (wb_eret c, g).
Proof. intros Hi. unfold interpret_wb. cbv zeta. by rewrite Hi. Qed.

(** Clearing EXL after setting it. *)
Lemma clear_set_EXL sr :
  u32 sr → Z.land (Z.lor sr SR_EXL) (wrap32 (Z.lnot SR_EXL)) = Z.clearbit sr 1.
Proof.
  unfold u32. intros Hs. apply Z.bits_inj'. intros k Hk.
  change (wrap32 (Z.lnot SR_EXL)) with (Z.clearbit (Z.ones 32) 1). change SR_EXL with (2 ^ 1).
  rewrite Z.land_spec, Z.lor_spec, !Z.clearbit_eqb, Z.pow2_bits_eqb by lia.
  destruct (Z.eqb_spec 1 k) as [<-|]; [by rewrite !andb_false_r|].
  rewrite orb_false_r, !andb_true_r. destruct (Z.ltb_spec k 32).
  - by rewrite Z.ones_spec_low, andb_true_r by lia.
  - by rewrite (bits_above 32 sr k) by lia.
Qed.

(** C20: ERET undoes exception entry: executed on the state that entry leaves, with the
    coprocessor registers unchanged since, it continues at the saved EPC with SR as it
    was before the exception - EXL cleared, hence the same value when no exception was
    being handled -, the general registers and Cause untouched and the pipeline empty. *)
Theorem eret_undoes_entry c :
  core_ok c →
  let c' := wb_eret (handle_exception c) in
  PC c' = memwb_next_pc (mem_wb c) ∧
  aread (cp0 c') REG_SR = Z.clearbit (aread (cp0 c) REG_SR) 1 ∧
  (Z.testbit (aread (cp0 c) REG_SR) 1 = false → aread (cp0 c') REG_SR = aread (cp0 c) REG_SR) ∧
  aread (cp0 c') REG_CAUSE =
    get_cause (memwb_exception (mem_wb c)) (memwb_is_branch_delay (mem_wb c)) ∧
  regs_agree (gpr c') (gpr c) ∧ empty_pipeline c'.
Proof.
  intros Hc c'. pose proof (handle_exception_ok c Hc) as Hh.
  pose proof (regs_length _ (core_regs _ Hh)) as Hl. pose proof (cp0_length _ (core_regs _ Hh)) as Hp.
  destruct (handle_exception_spec c (core_regs _ Hc)) as (_ & _ & HR & Hcp).
  assert (u32 (aread (cp0 c) REG_SR)) as Hu by (apply cp0_read, (core_regs _ Hc)).
  assert (aread (cp0 c') REG_SR = Z.clearbit (aread (cp0 c) REG_SR) 1) as Hsr.
  { unfold c'. rewrite wb_eret_eq. cbn [cp0]. rewrite Hcp by (unfold REG_SR, CP0_NUM_REGS; lia).
    change (entry_cp0 c REG_SR) with (Z.lor (aread (cp0 c) REG_SR) SR_EXL).
    rewrite clear_set_EXL by done. rewrite aread_insert_eq; [done|]. rewrite Hp.
    unfold REG_SR, CP0_NUM_REGS. lia. }
  split; [|split; [exact Hsr|split; [|split; [|split; [|done]]]]].
  - unfold c'. rewrite wb_eret_eq. unfold PC. cbn [regs].
    rewrite aread_insert_eq by (rewrite Hl; unfold REG_PC, NUM_REGISTERS; lia).
    rewrite Hcp by (unfold REG_EPC, CP0_NUM_REGS; lia). reflexivity.
  - intros Hb. rewrite Hsr. apply Z.bits_inj'. intros k Hk. rewrite Z.clearbit_eqb by lia.
    destruct (Z.eqb_spec 1 k) as [<-|]; [by rewrite Hb|by rewrite andb_true_r].
  - unfold c'. rewrite wb_eret_eq. cbn [cp0].
    rewrite aread_insert_ne by (unfold REG_CAUSE, REG_SR; lia).
    rewrite Hcp by (unfold REG_CAUSE, CP0_NUM_REGS; lia). reflexivity.
  - transitivity (gpr (handle_exception c)); [|exact HR]. intros r Hr. unfold c'.
    rewrite wb_eret_eq. unfold gpr. cbn [regs]. apply aread_insert_ne; unfold REG_PC; lia.
Qed.

Lemma eret_undoes_entry_witness :
  PC (wb_eret (handle_exception overflow_core)) = 0x80010010 ∧
  aread (cp0 (wb_eret (handle_exception overflow_core))) REG_SR = 0.
Proof.
  destruct (eret_undoes_entry overflow_core overflow_core_ok) as (Hpc & Hsr & _).
  split; [exact Hpc|]. rewrite Hsr. reflexivity.
Defined.

(** ** Precise exceptions *)

Section Precise.
Context {M : Type} {ok : M → Prop} `{BusSpec M ok}.
Variable code : Z → option Z.
Implicit Types (c : core_t) (m : M) (s : isa_state (M := M)).

(** The tick of a core whose write back empties the pipeline. *)
Lemma tick_core_restart c c' m g :
  interpret_wb c g = Ret (c', g) → empty_pipeline c' → tick_core c m g = tick_core c' m g.
Proof.
  intros Hw (_ & _ & _ & Ew). unfold tick_core at 1. rewrite Hw. unfold tick_core.
  assert (interpret_wb c' g = Ret (c', g)) as ->; [|done].
  unfold interpret_wb, wb_write. cbv zeta. rewrite Ew. reflexivity.
Qed.

(** What stands in MEM/WB empties the pipeline: an exception or an ERET. *)
Inductive redirects c : Z → core_t → Prop :=
  | redirects_exception : takes_exception c → redirects c (handler_address c) (handle_exception c)
  | redirects_eret :
      memwb_inst (mem_wb c) = INSTRUCTION_ERET →
      redirects c (aread (cp0 c) REG_EPC) (wb_eret c).

Lemma redirects_spec c a c' g :
  core_ok c → redirects c a c' →
  interpret_wb c g = Ret (c', g) ∧ core_ok c' ∧ empty_pipeline c' ∧ PC c' = a ∧
  regs_agree (gpr c) (gpr c').
Proof.
  intros Hc [Ht|Hi].
  - destruct (handle_exception_spec c (core_regs _ Hc)) as (He & Hpc & HR & _).
    split_and!; [by apply interpret_wb_takes|by apply handle_exception_ok|apply He..|done|by symmetry].
  - rewrite (interpret_wb_eret c g Hi). pose proof (regs_length _ (core_regs _ Hc)) as Hl.
    split_and!; [done|by apply wb_eret_ok|done..| |].
    + rewrite wb_eret_eq. unfold PC. cbn [regs]. apply aread_insert_eq. rewrite Hl.
      unfold REG_PC, NUM_REGISTERS. lia.
    + intros r Hr. rewrite wb_eret_eq. unfold gpr. cbn [regs]. symmetry.
      apply aread_insert_ne; unfold REG_PC; lia.
Qed.

(** C9: exceptions are precise: when an exception or an ERET retires, the instructions
    behind it are discarded without effect and the program goes on from the handler, or
    from EPC, with the registers and the memory as the older instructions left them:
    [n] instructions of the specification from there take between [2 + n] and
    [2 + 2 * n] ticks, the tick that redirects included. *)
Theorem exceptions_are_precise c m g a c0 n s' :
  core_ok c → ok m → code_ok code m → redirects c a c0 →
  isa_steps code n (IsaState (gpr c) m a ((a + 4) mod 2 ^ 32)) s' → fetchable code s' →
  ∃ k c' m', (2 + n <= k <= 2 + 2 * n)%nat ∧ ticks k c m g = Ret (c', m', g) ∧
    inv (ok := ok) code c' m' s'.
Proof.
  intros Hc Hm Hcode Hd Hs Hf. pose proof (steps_fetchable _ _ _ _ Hs Hf) as Hf0.
  destruct (redirects_spec c a c0 g Hc Hd) as (Hw & Hc0 & He & <- & HR).
  destruct (boot_runs code c0 m g (gpr c) Hc0 Hm Hcode He HR Hf0) as (c1 & Hr1 & Hi1).
  destruct (steps_run code n c1 m g _ s' Hi1 Hs Hf) as (k & c2 & m2 & Hk & Hr2 & Hi2).
  exists (2 + k)%nat, c2, m2. split; [lia|]. split; [|done].
  pose proof (runs_ticks _ _ _ _ _ _ _ (runs_trans _ _ _ _ _ _ _ _ _ _ Hr1 Hr2)) as Ht.
  cbn [Nat.add ticks] in Ht |- *. by rewrite (tick_core_restart c c0 m g Hw He).
Qed.
End Precise.

(** The exit program as the exception handler. *)
Definition handler_memory : mmu_t :=
  small_mmu <| pmem := bytes_put ∅ 0x80 (exit_words ≫= be_digits 4) |>.
Definition handler_code : Z → option Z := code_at EXCEPTION_HANDLER exit_words.
Definition handler_start : isa_state :=
  IsaState (gpr overflow_core) handler_memory EXCEPTION_HANDLER ((EXCEPTION_HANDLER + 4) mod 2 ^ 32).
Definition handler_state : isa_state :=
  default handler_start (isa_run EXCEPTION_HANDLER exit_words 2 handler_start).

Lemma handler_memory_ok : mmu_ok handler_memory.
Proof.
  apply (mmu_ok_put small_mmu 0x80 (exit_words ≫= be_digits 4)); [exact small_mmu_ok|].
  cbn. repeat constructor; vm_compute; congruence.
Qed.

Lemma exceptions_are_precise_witness :
  ∃ k c' m', (2 + 2 <= k <= 2 + 2 * 2)%nat ∧
    ticks k overflow_core handler_memory false = Ret (c', m', false) ∧
    inv (ok := mmu_ok) handler_code c' m' handler_state.
Proof.
  apply (exceptions_are_precise (ok := mmu_ok) handler_code overflow_core handler_memory false
    EXCEPTION_HANDLER (handle_exception overflow_core) 2 handler_state overflow_core_ok
    handler_memory_ok).
  - apply loaded_code_ok; [exact handler_memory_ok|]. vm_compute. reflexivity.
  - exact (redirects_exception overflow_core overflow_takes).
  - apply (isa_run_steps EXCEPTION_HANDLER exit_words 2 handler_start _ handler_memory_ok).
    vm_compute. reflexivity.
  - apply fetchable_b_spec. vm_compute. reflexivity.
Defined.
