(* ===== verification/DisasmTheorems.v ===== *)
(** * Theorems on the disassembler (src/disasm.c)

    No instruction overflows or truncates the buffer, the instructions whose text is read
    from outside a table, and the word read back from the text. *)

From Stdlib Require Import Ascii.
From S2P Require Import Prelude Mips32 Cpu Disasm Wellformed Encoding.

#[local] Open Scope string_scope.
#[local] Open Scope Z_scope.

(** ** Strings *)

Lemma length_append s t : String.length (s ++ t) = (String.length s + String.length t)%nat.
Proof. induction s as [|a s IH]; [reflexivity|]. exact (f_equal S IH). Qed.

Lemma append_assoc s t u : (s ++ t) ++ u = s ++ (t ++ u).
Proof. induction s as [|a s IH]; [reflexivity|]. exact (f_equal (String a) IH). Qed.

Lemma substring_0_all n s : (String.length s <= n)%nat → String.substring 0 n s = s.
Proof.
  revert n. induction s as [|a s IH]; intros [|n] Hn; cbn in *; try done; [lia|].
  by rewrite IH by lia.
Qed.

Lemma snprintf_fits size s :
  Z.of_nat (String.length s) < size → snprintf size s = (s, Z.of_nat (String.length s)).
Proof. intros Hs. unfold snprintf. by rewrite substring_0_all by lia. Qed.

Lemma hex_length n z : String.length (hex n z) = n.
Proof. induction n; cbn; auto. Qed.

(** Reading a hexadecimal numeral. *)
Definition digit_value (c : ascii) : Z :=
  let n := Z.of_nat (nat_of_ascii c) in if n <? 58 then n - 48 else n - 55.

Fixpoint read_hex (s : string) (acc : Z) : Z :=
  match s with
  | "" => acc
  | String c s => read_hex s (16 * acc + digit_value c)
  end.

Lemma digit_value_hex_digit d : 0 <= d < 16 → digit_value (hex_digit d) = d.
Proof.
  intros Hd. assert (∃ n : nat, (n < 16)%nat ∧ d = Z.of_nat n) as (n & Hn & ->).
  { exists (Z.to_nat d). lia. }
  clear Hd. do 16 (destruct n as [|n]; [reflexivity|]). lia.
Qed.

Lemma read_hex_hex n z acc :
  0 <= z → read_hex (hex n z) acc = 16 ^ Z.of_nat n * acc + z mod 16 ^ Z.of_nat n.
Proof.
  intros Hz. revert acc. induction n as [|n IH]; intros acc; cbn [hex read_hex].
  - rewrite Z.mod_1_r. lia.
  - rewrite digit_value_hex_digit by (apply Z.mod_pos_bound; lia). rewrite IH.
    rewrite Nat2Z.inj_succ, Z.pow_succ_r by lia. rewrite (Z.mul_comm 16 (16 ^ _)).
    rewrite (Z.rem_mul_r z) by lia. lia.
Qed.

Lemma read_hex32 z : u32 z → read_hex (hex32 z) 0 = z.
Proof.
  intros Hz. unfold hex32, u32 in *. rewrite read_hex_hex by lia.
  change (16 ^ Z.of_nat 8) with (2 ^ 32). rewrite Z.mod_small by lia. lia.
Qed.

(** ** The tables *)

Lemma aget_member {A} (a : list A) i :
  0 <= i < Z.of_nat (length a) → ∃ x, aget a i = Ret x ∧ x ∈ a.
Proof.
  intros Hi. unfold aget. rewrite (proj2 (Z.ltb_ge _ _)) by lia.
  destruct (lookup_lt_is_Some_2 a (Z.to_nat i)) as [x Hx]; [lia|].
  rewrite Hx. exists x. split; [done|]. by eapply list_elem_of_lookup_2.
Qed.

Lemma aget_beyond {A} (a : list A) i : Z.of_nat (length a) <= i → aget a i = Crash OutOfBounds.
Proof.
  intros Hi. unfold aget. rewrite (proj2 (Z.ltb_ge _ _)) by lia.
  by rewrite lookup_ge_None_2 by lia.
Qed.

(** Every name of a table has at most 32 characters. *)
Definition short_names (table : list string) : bool :=
  forallb (λ s, Nat.leb (String.length s) 32) table.

Lemma aget_name table i :
  short_names table = true → 0 <= i < Z.of_nat (length table) →
  ∃ s, aget table i = Ret s ∧ (String.length s <= 32)%nat.
Proof.
  intros Ht Hi. destruct (aget_member table i Hi) as (s & Hs & Hin). exists s. split; [exact Hs|].
  unfold short_names in Ht. rewrite forallb_forall in Ht. apply Nat.leb_le, Ht.
  by apply list_elem_of_In.
Qed.

(** ** The body of the text *)

(** A text of fewer than [n] characters, if there is one. *)
Definition text_below (n : nat) (o : outcome string) : Prop :=
  ∃ s, o = Ret s ∧ (String.length s < n)%nat.

(** The lengths of the pieces of a text. *)
Ltac text_length :=
  rewrite !length_append; unfold hex32; rewrite ?hex_length; cbn [String.length tab newline];
  lia.

Section Body.
Context (c : core_t) (c_ok : core_ok c).

Lemma reg_field_text label r :
  0 <= r < 32 → String.length label = 2%nat → text_below 64 (reg_field label c r).
Proof using c_ok.
  intros Hr Hl. unfold reg_field.
  destruct (aget_name reg_names r eq_refl) as (name & -> & Hn).
  { change (length reg_names) with 33%nat. lia. }
  destruct (aget_member (regs c) r) as (v & -> & _).
  { rewrite (regs_length _ (core_regs _ c_ok)). unfold NUM_REGISTERS. lia. }
  cbn [mbind outcome_bind]. eexists. split; [reflexivity|].
  rewrite !length_append. unfold hex32. rewrite hex_length. cbn. lia.
Qed.

Lemma op_name instr :
  u32 instr → ∃ s, aget op_codes (GET_OPCODE instr) = Ret s ∧ (String.length s <= 32)%nat.
Proof using Type.
  intros Hi. apply (aget_name op_codes); [reflexivity|]. pose proof (GET_OPCODE_range instr Hi).
  change (length op_codes) with 64%nat. lia.
Qed.

Lemma r_type_text instr : GET_OPCODE instr = OPCODE_R → text_below 512 (instruction_body instr c).
Proof using c_ok.
  intros Ho. unfold instruction_body. rewrite Ho. cbv zeta. cbn [Z.eqb OPCODE_R].
  destruct (aget_name funct_codes (GET_FUNCT instr) eq_refl) as (name & -> & Hn).
  { pose proof (GET_FUNCT_range instr). change (length funct_codes) with 64%nat. lia. }
  destruct (reg_field_text "rs" (GET_RS instr) (GET_RS_range instr) eq_refl) as (s & -> & Hs).
  destruct (reg_field_text "rt" (GET_RT instr) (GET_RT_range instr) eq_refl) as (t & -> & Ht).
  destruct (reg_field_text "rd" (GET_RD instr) (GET_RD_range instr) eq_refl) as (d & -> & Hd).
  cbn [mbind outcome_bind]. eexists. split; [reflexivity|]. text_length.
Qed.

Lemma j_type_text instr :
  u32 instr → one_of (GET_OPCODE instr) [OPCODE_J; OPCODE_JAL] = true →
  text_below 512 (instruction_body instr c).
Proof using Type.
  intros Hi Ho. destruct (op_name instr Hi) as (name & Hname & Hn). unfold instruction_body. cbv zeta.
  destruct (Z.eqb_spec (GET_OPCODE instr) OPCODE_R) as [E|_]; [by rewrite E in Ho|].
  rewrite Ho, Hname. cbn [mbind outcome_bind]. eexists. split; [reflexivity|]. text_length.
Qed.

Lemma i_type_text instr :
  u32 instr → one_of (GET_OPCODE instr) disasm_i_type = true →
  text_below 512 (instruction_body instr c).
Proof using c_ok.
  intros Hi Ho. destruct (op_name instr Hi) as (name & Hname & Hn). unfold instruction_body. cbv zeta.
  destruct (Z.eqb_spec (GET_OPCODE instr) OPCODE_R) as [E|_]; [by rewrite E in Ho|].
  destruct (one_of (GET_OPCODE instr) [OPCODE_J; OPCODE_JAL]) eqn:Ej.
  { pose proof (j_type_text instr Hi Ej) as Hj. unfold instruction_body in Hj. cbv zeta in Hj.
    rewrite Ej in Hj. destruct (Z.eqb_spec (GET_OPCODE instr) OPCODE_R) as [E|_]; [by rewrite E in Ho|].
    exact Hj. }
  rewrite Ho, Hname.
  destruct (reg_field_text "rs" (GET_RS instr) (GET_RS_range instr) eq_refl) as (s & -> & Hs).
  destruct (reg_field_text "rt" (GET_RT instr) (GET_RT_range instr) eq_refl) as (t & -> & Ht).
  cbn [mbind outcome_bind]. eexists. split; [reflexivity|]. text_length.
Qed.

Lemma cp0_text instr :
  u32 instr → GET_OPCODE instr = OPCODE_CP0 →
  if 4 <? GET_RS instr then instruction_body instr c = Crash OutOfBounds
  else text_below 512 (instruction_body instr c).
Proof using c_ok.
  intros Hi Ho. destruct (op_name instr Hi) as (name & Hname & Hn). unfold instruction_body. cbv zeta.
  rewrite Hname. rewrite Ho.
  change (OPCODE_CP0 =? OPCODE_R) with false. change (one_of OPCODE_CP0 [OPCODE_J; OPCODE_JAL]) with false.
  change (one_of OPCODE_CP0 disasm_i_type) with false. rewrite Z.eqb_refl.
  cbn [mbind outcome_bind]. pose proof (GET_RS_range instr). destruct (Z.ltb_spec 4 (GET_RS instr)).
  - rewrite (aget_beyond cp0_codes (GET_RS instr)); [done|]. change (length cp0_codes) with 5%nat. lia.
  - destruct (aget_name cp0_codes (GET_RS instr) eq_refl) as (cn & -> & Hc).
    { change (length cp0_codes) with 5%nat. lia. }
    destruct (reg_field_text "rt" (GET_RT instr) (GET_RT_range instr) eq_refl) as (t & -> & Ht).
    pose proof (GET_RD_range instr).
    destruct (aget_name cp0_reg_names (GET_RD instr) eq_refl) as (rn & -> & Hr).
    { change (length cp0_reg_names) with 40%nat. lia. }
    destruct (aget_member (cp0 c) (GET_RD instr)) as (v & -> & _).
    { rewrite (cp0_length _ (core_regs _ c_ok)). unfold CP0_NUM_REGS. lia. }
    cbn [mbind outcome_bind]. eexists. split; [reflexivity|]. text_length.
Qed.

(** The instructions whose text is read from outside the table [cp0_codes]. *)
Definition unprintable (instr : Z) : bool :=
  (GET_OPCODE instr =? OPCODE_CP0) && (4 <? GET_RS instr).

Lemma instruction_body_cases instr :
  u32 instr →
  if unprintable instr then instruction_body instr c = Crash OutOfBounds
  else text_below 512 (instruction_body instr c).
Proof using c_ok.
  intros Hi. unfold unprintable.
  destruct (Z.eqb_spec (GET_OPCODE instr) OPCODE_CP0) as [E|Ncp]; [by apply cp0_text|]. cbn [andb].
  destruct (Z.eqb_spec (GET_OPCODE instr) OPCODE_R) as [E|Nr]; [by apply r_type_text|].
  destruct (one_of (GET_OPCODE instr) [OPCODE_J; OPCODE_JAL]) eqn:Ej; [by apply j_type_text|].
  destruct (one_of (GET_OPCODE instr) disasm_i_type) eqn:Ei; [by apply i_type_text|].
  unfold instruction_body. cbv zeta. rewrite Ej, Ei, (proj2 (Z.eqb_neq _ _) Nr), (proj2 (Z.eqb_neq _ _) Ncp).
  eexists. split; [reflexivity|]. text_length.
Qed.
End Body.

(** The text of a printable instruction. *)
Lemma instruction_string_text instr c :
  core_ok c → u32 instr → unprintable instr = false →
  ∃ body, instruction_body instr c = Ret body ∧ (String.length body < 512)%nat ∧
    instruction_string instr c INSTRUCTION_BUFFER_SIZE =
      Ret ("0x" ++ hex32 instr ++ tab ++ body, Z.of_nat (11 + String.length body)).
Proof.
  intros Hc Hi Hu. pose proof (instruction_body_cases c Hc instr Hi) as Hb. rewrite Hu in Hb.
  destruct Hb as (body & Hb & Hl). exists body. split; [exact Hb|]. split; [exact Hl|].
  unfold instruction_string, INSTRUCTION_BUFFER_SIZE.
  rewrite (snprintf_fits 1024) by text_length. rewrite Hb. cbn [mbind outcome_bind].
  rewrite snprintf_fits by text_length. rewrite !append_assoc. do 2 f_equal. text_length.
Qed.

(** C28: the answer to the question in disasm.h whether the buffer can overflow: for every
    instruction word and every register contents the text, at most 522 characters,
    fits the buffer of 1024 untruncated, the value returned is its length, and the
    instruction word can be read back from it - except for the coprocessor instructions
    whose rs field is greater than 4, ERET among them: their name is read from outside
    the table. *)
Theorem instruction_string_fits instr c :
  core_ok c → u32 instr →
  if unprintable instr
  then instruction_string instr c INSTRUCTION_BUFFER_SIZE = Crash OutOfBounds
  else ∃ text n, instruction_string instr c INSTRUCTION_BUFFER_SIZE = Ret (text, n) ∧
    n = Z.of_nat (String.length text) ∧ n <= 522 ∧ read_hex (String.substring 2 8 text) 0 = instr.
Proof.
  intros Hc Hi. destruct (unprintable instr) eqn:Hu.
  - unfold instruction_string. pose proof (instruction_body_cases c Hc instr Hi) as Hb.
    rewrite Hu in Hb. by rewrite Hb.
  - destruct (instruction_string_text instr c Hc Hi Hu) as (body & _ & Hl & ->).
    do 2 eexists. split; [reflexivity|]. split; [text_length|]. split; [lia|].
    rewrite <-(read_hex32 instr Hi) at 2. reflexivity.
Qed.

Lemma instruction_string_fits_witness :
  instruction_string INSTRUCTION_ERET zero_core INSTRUCTION_BUFFER_SIZE = Crash OutOfBounds ∧
  ∃ text n, instruction_string 0x2403002A zero_core INSTRUCTION_BUFFER_SIZE = Ret (text, n) ∧
    n = Z.of_nat (String.length text) ∧ n <= 522 ∧
    read_hex (String.substring 2 8 text) 0 = 0x2403002A.
Proof.
  split.
  - exact (instruction_string_fits INSTRUCTION_ERET zero_core zero_core_ok
      ltac:(vm_compute; split; congruence)).
  - exact (instruction_string_fits 0x2403002A zero_core zero_core_ok
      ltac:(vm_compute; split; congruence)).
Defined.
