(* ===== verification/DebugTheorems.v ===== *)
(** * Theorems on the debugger and the complete run loop (src/debug.c, src/sim.c: run)

    Single-stepping and logging do not change what a program computes; a specification of
    the debugger's commands, and how every stop of the debugger ends. *)

From Stdlib Require Import Ascii.
From S2P Require Import Prelude Mips32 Cpu Io Bus Mem MemProps Sim Disasm Debug.
From S2P Require Import Wellformed Machine DisasmTheorems Program.

(** ** The debugger does not disturb the run *)

(** The states between two iterations of the run loop, and the word fetched there. *)
Inductive reaches : hardware_t → hardware_t → Prop :=
  | reaches_refl h : reaches h h
  | reaches_step h h1 h2 : run_step h false = Ret (h1, false) → reaches h1 h2 → reaches h h2.

Definition fetches (h : hardware_t) (w : Z) : Prop :=
  ∃ c e, first_core h = Ret c ∧ mmu_read (mmu h) (PC c) 0 MEM_OP_WORD = Ret (e, w).

(** The machine at the end of a run. *)
Definition final_hardware (r : option (outcome (simulator_t * list Z))) : option (outcome hardware_t) :=
  match r with
  | None => None
  | Some o => Some ('(sim, _) ← o; Ret (hw sim))
  end.

(** The run met an instruction that cannot be printed. *)
Definition printed_outside_table (sim : simulator_t) (r : option (outcome (simulator_t * list Z))) : Prop :=
  debug_flag sim || logging sim = true ∧ r = Some (Crash OutOfBounds) ∧
  ∃ h w, reaches (hw sim) h ∧ fetches h w ∧ unprintable w = true.

Lemma print_instruction_cases w c :
  core_ok c → u32 w → unprintable w = false → ∃ s, print_instruction w c = Ret s.
Proof.
  intros Hc Hw Hu. destruct (instruction_string_text w c Hc Hw Hu) as (body & _ & _ & Hs).
  unfold print_instruction. rewrite Hs. by eexists.
Qed.

Lemma print_instruction_unprintable w c :
  core_ok c → u32 w → unprintable w = true → print_instruction w c = Crash OutOfBounds.
Proof.
  intros Hc Hw Hu. pose proof (instruction_body_cases c Hc w Hw) as Hb. rewrite Hu in Hb.
  unfold print_instruction, instruction_string. by rewrite Hb.
Qed.

(** A newline or the end of the input: the debugger returns at once. *)
Lemma debug_loop_newline fuel seekable w sim stdin c :
  first_core (hw sim) = Ret c → Forall (λ b, b = 10) stdin →
  ∃ stdin', debug_loop (S fuel) seekable w sim [] stdin = Some (Ret (sim, stdin')) ∧
    Forall (λ b, b = 10) stdin'.
Proof.
  intros Hc Hs. cbn [debug_loop]. destruct Hs as [|b rest -> Hs].
  - unfold fgets, debug_command. rewrite Hc. exists []. by split.
  - unfold fgets, debug_command. cbn [Z.eqb Pos.eqb]. rewrite Hc. exists rest. by split.
Qed.

Lemma first_core_ok h :
  core (cpu h) ≠ [] → hardware_ok h → ∃ c cs, core (cpu h) = c :: cs ∧ first_core h = Ret c ∧ core_ok c.
Proof.
  intros Hne [Hc _]. unfold first_core. destruct (core (cpu h)) as [|c cs]; [done|].
  apply Forall_cons in Hc as [Hc _]. by exists c, cs.
Qed.

(** One iteration without debugger and log. *)
Lemma run_step_first h c cs g :
  core (cpu h) = c :: cs →
  run_step h g = (r ← mmu_read (mmu h) (PC c) 0 MEM_OP_WORD; tick h g).
Proof. intros Hc. unfold run_step. by rewrite Hc. Qed.

Lemma tick_keeps h g h' g' :
  hardware_ok h → core (cpu h) ≠ [] → tick h g = Ret (h', g') → hardware_ok h' ∧ core (cpu h') ≠ [].
Proof.
  intros [Hc Hm] Hne Ht. pose proof (tick_yields mmu_ok h g Hc Hm) as Hy. rewrite Ht in Hy.
  destruct Hy as (Hc' & Hm' & Hl). cbn [fst] in *. split; [by split|].
  intros E. rewrite E in Hl. by destruct (core (cpu h)).
Qed.

Lemma printed_outside_step sim h1 r :
  run_step (hw sim) false = Ret (h1, false) →
  printed_outside_table (sim <| hw := h1 |>) r → printed_outside_table sim r.
Proof.
  intros Hs (Hf & Hr & h & w & Hre & Hw & Hu). split; [exact Hf|]. split; [exact Hr|].
  exists h, w. split; [|done]. by eapply reaches_step.
Qed.

(** What the two printing points of an iteration do. *)
Lemma debug_stop fuel seekable w sim stdin c :
  first_core (hw sim) = Ret c → core_ok c → u32 w → Forall (λ b, b = 10) stdin →
  let d := if debug_flag sim then debug (S fuel) seekable w sim stdin else Some (Ret (sim, stdin)) in
  if debug_flag sim && unprintable w then d = Some (Crash OutOfBounds)
  else ∃ stdin', d = Some (Ret (sim, stdin')) ∧ Forall (λ b, b = 10) stdin'.
Proof.
  intros Hc Hok Hw Hin. cbn zeta. destruct (debug_flag sim); [|by exists stdin]. cbn [andb].
  unfold debug. rewrite Hc. cbn [mbind outcome_bind]. destruct (unprintable w) eqn:Hu.
  - by rewrite (print_instruction_unprintable w c Hok Hw Hu).
  - destruct (print_instruction_cases w c Hok Hw Hu) as [s ->].
    exact (debug_loop_newline fuel seekable w sim stdin c Hc Hin).
Qed.

Lemma tick_and_log_cases w sim :
  hardware_ok (hw sim) → core (cpu (hw sim)) ≠ [] → u32 w →
  tick_and_log w sim false =
    '(h, g) ← tick (hw sim) false;
    if logging sim && unprintable w then Crash OutOfBounds else Ret (sim <| hw := h |>, g).
Proof.
  intros Hok Hne Hw. unfold tick_and_log.
  destruct (tick (hw sim) false) as [[h g]| |] eqn:Ht; [|done..]. cbn [mbind outcome_bind].
  change (logging (sim <| hw := h |>)) with (logging sim). destruct (logging sim); [|done].
  destruct (tick_keeps _ _ _ _ Hok Hne Ht) as [Hok' Hne'].
  destruct (first_core_ok h Hne' Hok') as (c & _ & _ & -> & Hc). cbn [mbind outcome_bind andb].
  destruct (unprintable w) eqn:Hu.
  - by rewrite (print_instruction_unprintable w c Hc Hw Hu).
  - by destruct (print_instruction_cases w c Hc Hw Hu) as [s ->].
Qed.

Lemma run_simulator_done fuel seekable sim stdin :
  run_simulator fuel seekable sim stdin true = Some (Ret (sim, stdin)).
Proof. by destruct fuel. Qed.

Lemma run_loop_done fuel h : run_loop fuel h true = Some (Ret h).
Proof. by destruct fuel. Qed.

(** C25: the debugger and the log are transparent: with any setting of the two flags and a
    user who only steps (newlines, or no input), the loop of [run] ends when the loop
    without debugger and log ends, with the same machine or the same failure - unless
    one of them prints an instruction whose name lies outside the table. *)
Theorem debugger_transparent fuel seekable sim stdin :
  hardware_ok (hw sim) → core (cpu (hw sim)) ≠ [] → finished sim = false →
  Forall (λ b, b = 10) stdin →
  let r := run_simulator fuel seekable sim stdin false in
  final_hardware r = run_loop fuel (hw sim) false ∨ printed_outside_table sim r.
Proof.
  revert sim stdin. induction fuel as [|fuel IH]; intros sim stdin Hok Hne Hfin Hin; cbn zeta;
    cbn [run_simulator run_loop]; rewrite Hfin; cbn [orb]; [by left|].
  destruct (first_core_ok (hw sim) Hne Hok) as (c & cs & Ecs & Hc & Hcok).
  rewrite Hc, (run_step_first _ c cs) by done. cbn [mbind outcome_bind].
  destruct (mmu_read (mmu (hw sim)) (PC c) 0 MEM_OP_WORD) as [[e w]| |] eqn:Hrd;
    [|by left|by left]. cbn [mbind outcome_bind].
  assert (u32 w) as Hw.
  { destruct Hok as [_ Hm]. eapply (mmu_read_ok (mmu (hw sim)) (PC c)); [done| |apply u32_0|exact Hrd].
    apply (core_regs_read c REG_PC Hcok). }
  assert (fetches (hw sim) w) as Hfetch by (by exists c, e).
  pose proof (debug_stop fuel seekable w sim stdin c Hc Hcok Hw Hin) as Hd. cbn zeta in Hd.
  pose proof (tick_and_log_cases w sim Hok Hne Hw) as Ht.
  destruct (debug_flag sim && unprintable w) eqn:Hu.
  { rewrite Hd. right. apply andb_true_iff in Hu as [Hf Hu]. split; [by rewrite Hf|].
    split; [done|]. exists (hw sim), w. by split; [constructor|]. }
  destruct Hd as (stdin' & -> & Hin'). rewrite Ht. destruct (tick (hw sim) false) as [[h g]| |] eqn:Etick;
    [|by left|by left]. cbn [mbind outcome_bind].
  destruct (logging sim && unprintable w) eqn:Hl.
  { right. apply andb_true_iff in Hl as [Hf Hl]. split; [by rewrite Hf, orb_true_r|].
    split; [done|]. exists (hw sim), w. by split; [constructor|]. }
  destruct g; [rewrite run_simulator_done, run_loop_done; by left|].
  destruct (tick_keeps _ _ _ _ Hok Hne Etick) as [Hok' Hne'].
  set (sim1 := sim <| hw := h |>).
  destruct (IH sim1 stdin' Hok' Hne' Hfin Hin') as [Hr|Hr]; [by left|].
  right. apply (printed_outside_step sim h); [|exact Hr].
  rewrite (run_step_first _ c cs) by done. by rewrite Hrd.
Qed.

(** Without debugger and log, the complete loop is the plain one. *)
Lemma run_simulator_plain fuel seekable sim stdin g :
  finished sim = false → debug_flag sim = false → logging sim = false →
  final_hardware (run_simulator fuel seekable sim stdin g) = run_loop fuel (hw sim) g.
Proof.
  revert sim g. induction fuel as [|fuel IH]; intros sim g Hf Hd Hl; cbn [run_simulator run_loop];
    rewrite Hf, orb_false_r; [by destruct g|]. destruct g; [done|]. rewrite Hd.
  unfold run_step, first_core. destruct (core (cpu (hw sim))) as [|c cs] eqn:Ec; [done|].
  change (aget (c :: cs) 0) with (Ret c). cbn [mbind outcome_bind]. fold (PC c).
  destruct (mmu_read (mmu (hw sim)) (PC c) 0 MEM_OP_WORD) as [[e w]| |]; [|done..].
  cbn [mbind outcome_bind]. unfold tick_and_log.
  destruct (tick (hw sim) false) as [[h g]| |]; [|done..]. cbn [mbind outcome_bind].
  set (sim1 := sim <| hw := h |>). change (logging sim1) with (logging sim). rewrite Hl.
  exact (IH sim1 g Hf Hd Hl).
Qed.

Lemma run_debug_plain fuel alloc_buf seekable sim stdin :
  finished sim = false → debug_flag sim = false → logging sim = false →
  run_debug fuel alloc_buf seekable sim stdin = run fuel (hw sim).
Proof.
  intros Hf Hd Hl. unfold run_debug, run.
  assert (∀ sim1, finished sim1 = false → debug_flag sim1 = false → logging sim1 = false →
    hw sim1 = hw sim →
    match run_simulator fuel seekable sim1 stdin false with
    | None => None
    | Some r => Some ('(sim, _) ← r; run_result (hw sim))
    end = match run_loop fuel (hw sim) false with
          | None => None
          | Some r => Some (hw ← r; run_result hw)
          end) as H.
  { intros sim1 H1 H2 H3 <-. rewrite <-(run_simulator_plain fuel seekable sim1 stdin false) by done.
    by destruct (run_simulator fuel seekable sim1 stdin false) as [[[]| |]|]. }
  destruct alloc_buf; by apply H.
Qed.

(** The exit program under the debugger, three steps and then no more input. *)
Definition stepped (log : bool) : simulator_t :=
  Simulator log false true (one_core 1 exit_machine exit_memory).

Lemma debugger_transparent_witness :
  final_hardware (run_simulator 9 false (stepped true) [10; 10; 10] false) =
    run_loop 9 (one_core 1 exit_machine exit_memory) false.
Proof.
  destruct (debugger_transparent 9 false (stepped true) [10; 10; 10]) as [Hr|(_ & Hr & _)].
  - split; [by apply Forall_singleton; exact exit_machine_ok|exact exit_memory_ok].
  - done.
  - done.
  - repeat constructor.
  - exact Hr.
  - exfalso. apply (f_equal (λ r, match r with Some (Crash _) => true | _ => false end)) in Hr.
    vm_compute in Hr. discriminate.
Defined.

(** ** What a stop of the debugger does *)

Lemma skip_space_length l : (length (skip_space l) <= length l)%nat.
Proof. induction l as [|a l IH]; cbn; [lia|]. destruct (isspace a); cbn; lia. Qed.

Lemma scan_xdigits_length acc l : (length (scan_xdigits acc l).2 <= length l)%nat.
Proof.
  revert acc. induction l as [|a l IH]; intros acc; cbn; [lia|].
  destruct (xdigit a); cbn; [|lia]. specialize (IH (Some (16 * default 0 acc + z))). lia.
Qed.

Lemma scanf_X_length l : (length (scanf_X l).2 <= length l)%nat.
Proof.
  unfold scanf_X. pose proof (skip_space_length l) as Hs. revert Hs. generalize (skip_space l).
  intros l1 Hs.
  set (sign := match l1 with [] => _ | a :: rest => _ end).
  assert (length sign.2 <= length l)%nat as Hl.
  { unfold sign. destruct l1 as [|a rest]; [done|]. cbn [length] in Hs.
    repeat match goal with |- context [if ?b then _ else _] => destruct b end; cbn; lia. }
  clearbody sign. destruct sign as [neg l2]. cbn [snd] in Hl.
  set (num := match l2 with [] => _ | a :: _ => _ end).
  assert (length num.2 <= length l)%nat as Hn.
  { unfold num. pose proof (scan_xdigits_length None l2).
    destruct l2 as [|a [|x rest]]; [lia..|]. destruct (_ && _); [|lia].
    pose proof (scan_xdigits_length (Some 0) rest). cbn [length] in *. lia. }
  clearbody num. destruct num as [[v|] l3]; exact Hn.
Qed.

Lemma fgets_length c a l : (length (fgets c (a :: l)).2 <= length l)%nat.
Proof. cbn. destruct (a =? 10); [done|]. destruct l; cbn; lia. Qed.

Lemma register_search_range str names i :
  0 <= i → register_search str names i = 0 ∨ i <= register_search str names i < i + Z.of_nat (length names).
Proof.
  revert i. induction names as [|name names IH]; intros i Hi; cbn [register_search]; [by left|].
  destruct (_ =? _)%string; [right; cbn; lia|]. destruct (IH (i + 1)) as [H|H]; [lia|by left|].
  right. cbn [length]. lia.
Qed.

Lemma register_to_number_range str : 0 <= register_to_number str < NUM_REGISTERS.
Proof.
  unfold register_to_number, NUM_REGISTERS. pose proof (register_search_range str reg_names 0 ltac:(lia)) as H.
  change (Z.of_nat (length reg_names)) with 33 in H. lia.
Qed.

Lemma named_register_total c str : core_ok c → ∃ v, aget (regs c) (register_to_number str) = Ret v.
Proof.
  intros Hc. apply aget_in_range. rewrite (regs_length _ (core_regs _ Hc)).
  pose proof (register_to_number_range str). unfold NUM_REGISTERS in *. lia.
Qed.

(** The specification of one command, of which [c0] is the first character: whether the
    user stays at the prompt, *)
Definition stays (c0 : Z) : bool :=
  one_of c0 [chr "h"; chr "r"; chr "i"; chr "m"; chr "p"; chr "0"; chr "v"; chr "s"; chr "t"; chr "c"; chr "d"].

(** the read of the memory it makes, [rest] being the input behind the command, *)
Definition typed_read (m : mmu_t) (c0 : Z) (rest : list Z) : outcome unit :=
  match (scanf_X rest).1 with
  | Some a => if c0 =? chr "m" then _ ← mmu_read m a 0 MEM_OP_WORD; Ret () else Ret ()
  | None => Ret ()
  end.

(** the flags it sets, *)
Definition flagged (c0 : Z) (sim : simulator_t) : simulator_t :=
  sim <| finished := (c0 =? chr "q") || finished sim |> <| debug_flag := negb (c0 =? chr "c") && debug_flag sim |>.

(** and what it leaves of the input. *)
Definition unread (seekable : bool) (c0 : Z) (rest : list Z) : list Z :=
  if c0 =? chr "m" then fseek_end seekable (scanf_X rest).2 else rest.

(** The prompts of a stop, from one on: the simulator, the characters of the last command
    and the input at each. *)
Inductive prompts (seekable : bool)
    : simulator_t → list Z → list Z → simulator_t → list Z → list Z → Prop :=
  | prompts_here sim c stdin : prompts seekable sim c stdin sim c stdin
  | prompts_next sim c stdin c1 rest sim' c' stdin' :
      fgets c stdin = (c1, rest) → stays (hd 0 c1) = true →
      typed_read (mmu (hw sim)) (hd 0 c1) rest = Ret () →
      prompts seekable (flagged (hd 0 c1) sim) c1 (unread seekable (hd 0 c1) rest) sim' c' stdin' →
      prompts seekable sim c stdin sim' c' stdin'.

(** [debug_command] meets the specification, when the instruction can be printed. *)
Lemma debug_command_meaning seekable inst sim core line c rest :
  first_core (hw sim) = Ret core → core_ok core → print_instruction inst core = Ret line →
  debug_command seekable inst sim c rest =
    (_ ← typed_read (mmu (hw sim)) (hd 0 c) rest;
     Ret (negb (stays (hd 0 c)), flagged (hd 0 c) sim, unread seekable (hd 0 c) rest)).
Proof.
  intros Hf Hc Hl. unfold debug_command. rewrite Hf. cbn [mbind outcome_bind]. rewrite Hl.
  destruct (named_register_total core (c_string c) Hc) as [v ->]. clear Hf Hc Hl.
  unfold typed_read, unread, flagged, stays. generalize (hd 0 c). intros c0. destruct sim as [lg fin dbg h].
  cbn [hw logging finished debug_flag]. unfold one_of. cbn [existsb].
  change (chr "h") with 104. change (chr "r") with 114. change (chr "p") with 112.
  change (chr "d") with 100. change (chr "i") with 105. change (chr "m") with 109.
  change (chr "0") with 48. change (chr "v") with 118. change (chr "s") with 115.
  change (chr "t") with 116. change (chr "c") with 99. change (chr "q") with 113.
  destruct (scanf_X rest) as [addr l]. cbn [fst snd].
  destruct (decide (c0 ∈ [104; 114; 105; 109; 112; 48; 118; 115; 116; 100; 99; 113])) as [Hin|Hout].
  - rewrite !elem_of_cons, elem_of_nil in Hin.
    destruct Hin as [->|[->|[->|[->|[->|[->|[->|[->|[->|[->|[->|[->|[]]]]]]]]]]]]];
      cbn [Z.eqb Pos.eqb orb andb negb mbind outcome_bind]; destruct addr as [a|];
      cbn [mbind outcome_bind]; try done.
    by destruct (mmu_read (mmu h) a 0 MEM_OP_WORD) as [[e w]| |].
  - rewrite !not_elem_of_cons in Hout.
    destruct Hout as (N1 & N2 & N3 & N4 & N5 & N6 & N7 & N8 & N9 & N10 & N11 & N12 & _).
    apply Z.eqb_neq in N1 as ->, N2 as ->, N3 as ->, N4 as ->, N5 as ->, N6 as ->, N7 as ->, N8 as ->,
      N9 as ->, N10 as ->, N11 as ->, N12 as ->.
    by destruct addr.
Qed.

Lemma unread_length seekable c0 rest : (length (unread seekable c0 rest) <= length rest)%nat.
Proof.
  unfold unread. destruct (_ =? _); [|lia]. pose proof (scanf_X_length rest).
  unfold fseek_end. destruct seekable; cbn; lia.
Qed.

Lemma flagged_hw c0 sim : hw (flagged c0 sim) = hw sim.
Proof. done. Qed.

(** At the end of the input the last command is in the buffer still. *)
Lemma debug_loop_eof fuel seekable inst sim core line c :
  first_core (hw sim) = Ret core → core_ok core → print_instruction inst core = Ret line →
  stays (hd 0 c) = true → typed_read (mmu (hw sim)) (hd 0 c) [] = Ret () →
  debug_loop fuel seekable inst sim c [] = None.
Proof.
  intros Hf Hc Hl Hs Ht. revert sim Hf Ht. induction fuel as [|fuel IH]; intros sim Hf Ht; [done|].
  cbn [debug_loop fgets]. rewrite (debug_command_meaning _ _ _ core line) by done.
  rewrite Ht, Hs. cbn [mbind outcome_bind negb].
  assert (unread seekable (hd 0 c) [] = []) as ->.
  { pose proof (unread_length seekable (hd 0 c) []). by destruct (unread _ _ _); [|cbn in *; lia]. }
  by apply IH; rewrite flagged_hw.
Qed.

(** How the loop [stop] ends that comes to a prompt, with more fuel than [n]. *)
Definition stop_ends (seekable : bool) (sim : simulator_t) (c stdin : list Z) (n : nat)
    (stop : nat → option (outcome (simulator_t * list Z))) : Prop :=
  let '(c1, rest) := fgets c stdin in
  match typed_read (mmu (hw sim)) (hd 0 c1) rest with
  | Ret _ =>
    if stays (hd 0 c1) then stdin = [] ∧ ∀ fuel, stop fuel = None
    else ∀ fuel, (n < fuel)%nat →
      stop fuel = Some (Ret (flagged (hd 0 c1) sim, unread seekable (hd 0 c1) rest))
  | Exit code => ∀ fuel, (n < fuel)%nat → stop fuel = Some (Exit code)
  | Crash f => ∀ fuel, (n < fuel)%nat → stop fuel = Some (Crash f)
  end.

Lemma stop_ends_step seekable sim c stdin n n' stop stop' :
  stop O = None → (∀ fuel, stop (S fuel) = stop' fuel) → (n' < n)%nat →
  stop_ends seekable sim c stdin n' stop' → stop_ends seekable sim c stdin n stop.
Proof.
  intros H0 Hs Hn. unfold stop_ends. destruct (fgets c stdin) as [c1 rest].
  destruct (typed_read _ _ _); [destruct (stays _)|..].
  - intros [-> He]. split; [done|]. intros [|fuel]; [done|]. by rewrite Hs.
  - intros He [|fuel] Hf; [lia|]. rewrite Hs. apply He. lia.
  - intros He [|fuel] Hf; [lia|]. rewrite Hs. apply He. lia.
  - intros He [|fuel] Hf; [lia|]. rewrite Hs. apply He. lia.
Qed.

Lemma debug_loop_ends seekable inst sim core line c stdin :
  first_core (hw sim) = Ret core → core_ok core → print_instruction inst core = Ret line →
  ∃ sim' c' stdin', prompts seekable sim c stdin sim' c' stdin' ∧
    stop_ends seekable sim' c' stdin' (length stdin) (λ fuel, debug_loop fuel seekable inst sim c stdin).
Proof.
  intros Hf Hc Hl. remember (length stdin) as n eqn:Hn. revert sim c stdin Hf Hn.
  induction (lt_wf n) as [n _ IH]. intros sim c stdin Hf ->.
  destruct (fgets c stdin) as [c1 rest] eqn:Eg.
  assert (∀ fuel, debug_loop (S fuel) seekable inst sim c stdin =
    match typed_read (mmu (hw sim)) (hd 0 c1) rest with
    | Ret _ =>
      if stays (hd 0 c1)
      then debug_loop fuel seekable inst (flagged (hd 0 c1) sim) c1 (unread seekable (hd 0 c1) rest)
      else Some (Ret (flagged (hd 0 c1) sim, unread seekable (hd 0 c1) rest))
    | Exit n => Some (Exit n)
    | Crash f => Some (Crash f)
    end) as Hloop.
  { intros fuel. cbn [debug_loop]. rewrite Eg, (debug_command_meaning _ _ _ core line) by done.
    destruct (typed_read _ _ _); [|done..]. cbn [mbind outcome_bind]. by destruct (stays _). }
  destruct (typed_read (mmu (hw sim)) (hd 0 c1) rest) as [[]|code|f] eqn:Ht;
    [destruct (stays (hd 0 c1)) eqn:Hs|..].
  - destruct stdin as [|a l].
    + injection Eg as <- <-. exists sim, c, []. split; [constructor|]. unfold stop_ends. cbn [fgets].
      rewrite Ht, Hs. split; [done|]. intros fuel. by apply (debug_loop_eof _ _ _ _ core line).
    + pose proof (fgets_length c a l) as Hg. rewrite Eg in Hg. cbn [snd] in Hg.
      pose proof (unread_length seekable (hd 0 c1) rest) as Hu.
      destruct (IH (length (unread seekable (hd 0 c1) rest)) ltac:(cbn; lia) (flagged (hd 0 c1) sim) c1
        (unread seekable (hd 0 c1) rest) Hf eq_refl) as (sim' & c' & stdin' & Hp & He).
      exists sim', c', stdin'. split; [by eapply prompts_next|].
      eapply stop_ends_step; [..|exact He]; [done| |cbn; lia].
      intros fuel. by rewrite Hloop.
  - exists sim, c, stdin. split; [constructor|]. unfold stop_ends. rewrite Eg, Ht, Hs.
    intros [|fuel] Hlt; [lia|by rewrite Hloop].
  - exists sim, c, stdin. split; [constructor|]. unfold stop_ends. rewrite Eg, Ht.
    intros [|fuel] Hlt; [lia|by rewrite Hloop].
  - exists sim, c, stdin. split; [constructor|]. unfold stop_ends. rewrite Eg, Ht.
    intros [|fuel] Hlt; [lia|by rewrite Hloop].
Qed.

(** C29: every stop of the debugger at a printable instruction comes, by commands that leave
    the user at the prompt (h, r, i, m, p, 0, v, s, t, c and d), to a prompt where it
    ends: with a command that returns (the newline, q and every character without a
    meaning), only c and q having set their flags; in the failure of the memory unit on
    the address typed behind m; or, when the input is used up there, never: [fgets]
    leaves the last command in the buffer, and it is repeated forever. One command more
    than the input has bytes is enough. *)
Theorem debug_returns_or_hangs seekable inst sim stdin :
  hardware_ok (hw sim) → core (cpu (hw sim)) ≠ [] → u32 inst → unprintable inst = false →
  ∃ sim' c stdin', prompts seekable sim [] stdin sim' c stdin' ∧
    stop_ends seekable sim' c stdin' (length stdin) (λ fuel, debug fuel seekable inst sim stdin).
Proof.
  intros Hok Hne Hi Hu. destruct (first_core_ok (hw sim) Hne Hok) as (co & _ & _ & Hf & Hc).
  destruct (print_instruction_cases inst co Hc Hi Hu) as [line Hl].
  unfold debug. rewrite Hf. cbn [mbind outcome_bind]. rewrite Hl.
  exact (debug_loop_ends seekable inst sim co line [] stdin Hf Hc Hl).
Qed.

(** The command h, and no more input. *)
Lemma debug_returns_or_hangs_witness :
  ∃ sim' c stdin', prompts false (stepped false) [] [104; 10] sim' c stdin' ∧
    stop_ends false sim' c stdin' 2 (λ fuel, debug fuel false 0x2403002A (stepped false) [104; 10]).
Proof.
  apply (debug_returns_or_hangs false 0x2403002A (stepped false) [104; 10]).
  - split; [by apply Forall_singleton; exact exit_machine_ok|exact exit_memory_ok].
  - discriminate.
  - vm_compute. split; congruence.
  - reflexivity.
Defined.
