(* ===== verification/DebugTextTheorems.v ===== *)
(** * Theorems on what the debugger prints (src/debug.c, src/cp0.c)

    The numerals of [printf] read back, the dump of the registers is a faithful record of
    them, no printing function reads outside a table, and what naming a register at the
    prompt does. *)

From Stdlib Require Import Ascii.
From S2P Require Import Prelude Mips32 Cpu Exception Io Bus Mem MemProps Sim Disasm Debug.
From S2P Require Import DebugText.
From S2P Require Import Wellformed Machine DisasmTheorems Program DebugTheorems.

#[local] Open Scope string_scope.
#[local] Open Scope Z_scope.

(** ** Numerals *)

(** A reader of lines of signed decimal numbers, as a test script would have it. *)
Definition newline_char : ascii := ascii_of_nat 10.

Fixpoint read_numbers (neg : bool) (acc : Z) (s : string) : list Z :=
  match s with
  | "" => []
  | String c rest =>
    if (c =? newline_char)%char then (if neg then - acc else acc) :: read_numbers false 0 rest
    else if (c =? "-")%char then read_numbers true acc rest
    else read_numbers neg (10 * acc + (Z.of_nat (nat_of_ascii c) - 48)) rest
  end.

Lemma read_numbers_digit neg acc d s :
  0 <= d < 10 → read_numbers neg acc (String (digit_char d) s) = read_numbers neg (10 * acc + d) s.
Proof.
  intros Hd. assert (∃ n : nat, (n < 10)%nat ∧ d = Z.of_nat n) as (n & Hn & ->).
  { exists (Z.to_nat d). lia. }
  clear Hd. do 10 (destruct n as [|n]; [reflexivity|]). lia.
Qed.

Lemma read_numbers_digits fuel neg z s :
  0 <= z < 10 ^ Z.of_nat fuel → read_numbers neg 0 (digits fuel 10 z ++ s) = read_numbers neg z s.
Proof.
  revert z s. induction fuel as [|fuel IH]; intros z s Hz.
  { replace z with 0 by (cbn in Hz; lia). done. }
  rewrite Nat2Z.inj_succ, Z.pow_succ_r in Hz by lia. cbn [digits]. rewrite append_assoc.
  change (String ?a "" ++ s) with (String a s). destruct (Z.ltb_spec z 10).
  - change ("" ++ ?t) with t. rewrite read_numbers_digit by (Z.div_mod_to_equations; lia).
    rewrite Z.mod_small by lia. done.
  - rewrite IH by (Z.div_mod_to_equations; lia).
    rewrite read_numbers_digit by (Z.div_mod_to_equations; lia). f_equal. Z.div_mod_to_equations. lia.
Qed.

Lemma ten_digits z : 0 <= z < 2 ^ 32 → 0 <= z < 10 ^ Z.of_nat 32.
Proof. intros Hz. assert (2 ^ 32 < 10 ^ Z.of_nat 32) by reflexivity. split; [|etransitivity]; by destruct Hz. Qed.

(** A line of the dump. *)
Lemma read_numbers_line v s :
  u32 v → read_numbers false 0 (printf "%d\n" [AInt v] ++ s) = s32 v :: read_numbers false 0 s.
Proof.
  intros Hv. pose proof (s32_range v) as Hs.
  change (printf "%d\n" [AInt v]) with
    ((if s32 (wrap32 v) <? 0 then String "-" (digits 32 10 (- s32 (wrap32 v)))
      else digits 32 10 (s32 (wrap32 v))) ++ String newline_char "").
  rewrite (wrap32_small v Hv).
  rewrite append_assoc.
  destruct (Z.ltb_spec (s32 v) 0).
  - change (read_numbers false 0 (String "-" ?t ++ ?u)) with (read_numbers true 0 (t ++ u)).
    rewrite read_numbers_digits by (apply ten_digits; lia).
    change (read_numbers true ?a (String newline_char "" ++ s)) with (- a :: read_numbers false 0 s).
    f_equal. lia.
  - by rewrite read_numbers_digits by (apply ten_digits; lia).
Qed.

(** ** The loops over the registers *)

(** A loop whose body always prints. *)
Lemma print_loop_total body n i :
  (∀ k, i <= k < i + Z.of_nat n → ∃ t, body k = Ret t) → ∃ t, print_loop body n i = Ret t.
Proof.
  revert i. induction n as [|n IH]; intros i Hb; cbn [print_loop]; [by exists ""|].
  destruct (Hb i) as [t ->]; [lia|]. destruct (IH (i + 1)) as [u ->]; [intros k Hk; apply Hb; lia|].
  by exists (t ++ u).
Qed.

(** A loop that prints the elements of a list one after the other. *)
Lemma print_loop_list {A} (a : list A) (print : A → string) (body : Z → outcome string) n i :
  (∀ k x, aget a k = Ret x → body k = Ret (print x)) →
  0 <= i → (Z.to_nat i + n <= length a)%nat →
  print_loop body n i = Ret (foldr (λ x s, print x ++ s) "" (take n (drop (Z.to_nat i) a))).
Proof.
  intros Hb. revert i. induction n as [|n IH]; intros i Hi Hn; cbn [print_loop]; [done|].
  destruct (lookup_lt_is_Some_2 a (Z.to_nat i)) as [x Hx]; [lia|].
  rewrite (Hb i x) by by apply aget_Ret. cbn [mbind outcome_bind]. rewrite IH by lia.
  rewrite (drop_S a x _ Hx). cbn [mbind outcome_bind take foldr].
  by replace (Z.to_nat (i + 1)) with (S (Z.to_nat i)) by lia.
Qed.

Lemma read_numbers_lines vs :
  Forall u32 vs →
  read_numbers false 0 (foldr (λ v s, printf "%d\n" [AInt v] ++ s) "" vs) = s32 <$> vs.
Proof.
  induction 1 as [|v vs Hv _ IH]; [done|]. cbn [foldr fmap list_fmap].
  rewrite read_numbers_line by done. by rewrite IH.
Qed.

(** C30: the dump of the registers is faithful: it never fails, and reading its lines back
    as signed decimal numbers gives the general-purpose registers, $zero to $ra, in
    order. *)
Theorem dump_registers_roundtrip c :
  core_ok c →
  ∃ text, dump_registers c = Ret text ∧ read_numbers false 0 text = s32 <$> take 32 (regs c).
Proof.
  intros Hc. pose proof (core_regs _ Hc) as Hr. unfold dump_registers.
  rewrite (print_loop_list (regs c) (λ v, printf "%d\n" [AInt v])).
  - eexists. split; [done|]. change (drop (Z.to_nat 0) (regs c)) with (regs c).
    apply read_numbers_lines. apply Forall_take, (regs_u32 _ Hr).
  - by intros k x ->.
  - done.
  - rewrite (regs_length _ Hr). vm_compute. lia.
Qed.

Lemma dump_registers_roundtrip_witness :
  ∃ text, dump_registers exit_machine = Ret text ∧
    read_numbers false 0 text = s32 <$> take 32 (regs exit_machine).
Proof. exact (dump_registers_roundtrip exit_machine exit_machine_ok). Defined.

(** ** No printing function reads outside a table *)

Lemma print_registers_total c : core_ok c → ∃ t, print_registers c = Ret t.
Proof.
  intros Hc. apply print_loop_total. intros k Hk. change (Z.of_nat _) with 33 in Hk.
  destruct (aget_in_range reg_names k) as [name ->]; [change (length reg_names) with 33%nat; lia|].
  destruct (aget_in_range (regs c) k) as [v ->].
  { rewrite (regs_length _ (core_regs _ Hc)). unfold NUM_REGISTERS. lia. }
  by eexists.
Qed.

Lemma cp0_dump_registers_total c : core_ok c → ∃ t, cp0_dump_registers (cp0 c) = Ret t.
Proof.
  intros Hc. apply print_loop_total. intros k Hk. change (Z.of_nat _) with 40 in Hk.
  destruct (aget_in_range cp0_reg_names k) as [name ->]; [change (length cp0_reg_names) with 40%nat; lia|].
  destruct (aget_in_range (cp0 c) k) as [v ->].
  { rewrite (cp0_length _ (core_regs _ Hc)). unfold CP0_NUM_REGS. lia. }
  by eexists.
Qed.

Lemma INST_STR_total w : u32 w → ∃ t, INST_STR w = Ret t.
Proof.
  intros Hw. unfold INST_STR. pose proof (GET_OPCODE_range w Hw). pose proof (GET_FUNCT_range w).
  destruct (_ =? 0); apply aget_in_range.
  - change (length funct_codes) with 64%nat. lia.
  - change (length op_codes) with 64%nat. lia.
Qed.

Lemma exc_name_total e : ∃ t, exc_name e = Ret t.
Proof. destruct e; by eexists. Qed.

Lemma print_pipeline_registers_total c : core_ok c → ∃ t, print_pipeline_registers c = Ret t.
Proof.
  intros [_ [] [] [] []]. unfold print_pipeline_registers.
  repeat match goal with
  | Hw : u32 (ifid_inst _) |- _ => destruct (INST_STR_total _ Hw) as [? ->]; clear Hw
  | Hw : u32 (idex_inst _) |- _ => destruct (INST_STR_total _ Hw) as [? ->]; clear Hw
  | Hw : u32 (exmem_inst _) |- _ => destruct (INST_STR_total _ Hw) as [? ->]; clear Hw
  | Hw : u32 (memwb_inst _) |- _ => destruct (INST_STR_total _ Hw) as [? ->]; clear Hw
  end.
  destruct (exc_name_total (ifid_exception (if_id c))) as [? ->].
  destruct (exc_name_total (idex_exception (id_ex c))) as [? ->].
  destruct (exc_name_total (exmem_exception (ex_mem c))) as [? ->].
  destruct (exc_name_total (memwb_exception (mem_wb c))) as [? ->].
  by eexists.
Qed.

(** The two results fail in the same way, or both are results. *)
Definition same_failure {A B} (o : outcome A) (o' : outcome B) : Prop :=
  match o, o' with
  | Ret _, Ret _ => True
  | Exit n, Exit n' => n = n'
  | Crash f, Crash f' => f = f'
  | _, _ => False
  end.

Definition same_end {A B} (r : option (outcome A)) (r' : option (outcome B)) : Prop :=
  match r, r' with
  | None, None => True
  | Some o, Some o' => same_failure o o'
  | _, _ => False
  end.

Lemma command_text_end seekable inst sim core c stdin :
  first_core (hw sim) = Ret core → core_ok core →
  same_failure (command_text inst sim c stdin) (debug_command seekable inst sim c stdin).
Proof.
  intros Hf Hc. unfold command_text, debug_command. rewrite Hf. cbn [mbind outcome_bind].
  destruct (print_registers_total core Hc) as [tr Hr]. destruct (print_pipeline_registers_total core Hc) as [tp Hp].
  destruct (cp0_dump_registers_total core Hc) as [t0 H0].
  destruct (named_register_total core (c_string c) Hc) as [v Hv]. rewrite Hr, Hp, H0, Hv.
  generalize (hd 0 c). intros c0. unfold one_of. cbn [existsb].
  change (chr "h") with 104. change (chr "r") with 114. change (chr "p") with 112.
  change (chr "d") with 100. change (chr "i") with 105. change (chr "m") with 109.
  change (chr "0") with 48. change (chr "v") with 118. change (chr "s") with 115.
  change (chr "t") with 116. change (chr "c") with 99. change (chr "q") with 113.
  destruct (scanf_X stdin) as [addr l]. generalize (print_instruction inst core) as line. intros line.
  destruct (decide (c0 ∈ [104; 114; 105; 109; 112; 48; 118; 115; 116; 100])) as [Hin|Hout].
  - rewrite !elem_of_cons, elem_of_nil in Hin.
    destruct Hin as [->|[->|[->|[->|[->|[->|[->|[->|[->|[->|[]]]]]]]]]]];
      cbn [Z.eqb Pos.eqb orb mbind outcome_bind same_failure];
      lazymatch goal with |- True => exact I | |- _ => idtac end.
    + by destruct line.
    + destruct addr as [a|]; [|by cbn].
      by destruct (mmu_read (mmu (hw sim)) a 0 MEM_OP_WORD) as [[e w]| |]; cbn.
  - rewrite !not_elem_of_cons in Hout. destruct Hout as (N1 & N2 & N3 & N4 & N5 & N6 & N7 & N8 & N9 & N10 & _).
    apply Z.eqb_neq in N1 as ->, N2 as ->, N3 as ->, N4 as ->, N5 as ->, N6 as ->, N7 as ->, N8 as ->,
      N9 as ->, N10 as ->.
    cbn [orb mbind outcome_bind]. by destruct (c0 =? 99), (c0 =? 113); cbn [same_failure].
Qed.

(** The output of the loop ends as its control flow does. *)
Lemma debug_loop_text_end fuel seekable inst sim core line c stdin :
  first_core (hw sim) = Ret core → core_ok core → print_instruction inst core = Ret line →
  same_end (debug_loop_text fuel seekable inst sim c stdin) (debug_loop fuel seekable inst sim c stdin).
Proof.
  intros Hf Hc Hl. revert sim c stdin Hf. induction fuel as [|fuel IH]; intros sim c stdin Hf; [done|].
  cbn [debug_loop_text debug_loop]. destruct (fgets c stdin) as [c1 l1].
  pose proof (command_text_end seekable inst sim core c1 l1 Hf Hc) as He. revert He.
  rewrite (debug_command_meaning _ _ _ core line) by done.
  destruct (typed_read _ _ _) as [[]|n|f]; cbn [mbind outcome_bind];
    destruct (command_text inst sim c1 l1) as [t|n'|f']; cbn [same_failure]; intros He; try done; try by subst.
  destruct (stays _); cbn [negb]; [|done].
  specialize (IH (flagged (hd 0 c1) sim) c1 (unread seekable (hd 0 c1) l1) Hf). revert IH.
  by destruct (debug_loop_text fuel seekable inst _ c1 _) as [[t1| |]|].
Qed.

(** A failure is one of the memory unit, on the address [a] the user typed behind the
    command m at one of the prompts. *)
Definition typed_address_fails {A} (seekable : bool) (sim : simulator_t) (c stdin : list Z)
    (r : option (outcome A)) : Prop :=
  match r with
  | None | Some (Ret _) => True
  | Some o =>
    ∃ sim' c' stdin' c1 rest a,
      prompts seekable sim c stdin sim' c' stdin' ∧ fgets c' stdin' = (c1, rest) ∧
      hd 0 c1 = chr "m" ∧ (scanf_X rest).1 = Some a ∧
      same_failure o (mmu_read (mmu (hw sim)) a 0 MEM_OP_WORD)
  end.

Lemma typed_read_fails m c0 rest :
  typed_read m c0 rest = Ret () ∨
  ∃ a, c0 = chr "m" ∧ (scanf_X rest).1 = Some a ∧
    same_failure (typed_read m c0 rest) (mmu_read m a 0 MEM_OP_WORD).
Proof.
  unfold typed_read. destruct (scanf_X rest).1 as [a|]; [|by left].
  destruct (Z.eqb_spec c0 (chr "m")); [|by left].
  destruct (mmu_read m a 0 MEM_OP_WORD) eqn:Er; [by left|right; exists a; by rewrite Er..].
Qed.

Lemma debug_loop_typed fuel seekable inst sim core line c stdin :
  first_core (hw sim) = Ret core → core_ok core → print_instruction inst core = Ret line →
  typed_address_fails seekable sim c stdin (debug_loop fuel seekable inst sim c stdin).
Proof.
  intros Hf Hc Hl. revert sim c stdin Hf. induction fuel as [|fuel IH]; intros sim c stdin Hf; [done|].
  cbn [debug_loop]. destruct (fgets c stdin) as [c1 rest] eqn:Eg.
  rewrite (debug_command_meaning _ _ _ core line) by done.
  pose proof (typed_read_fails (mmu (hw sim)) (hd 0 c1) rest) as Ht. revert Ht.
  destruct (typed_read (mmu (hw sim)) (hd 0 c1) rest) as [[]|code|f] eqn:Er; cbn [mbind outcome_bind].
  2, 3: intros [?|(a & Hm & Ha & Hs)]; [done|]; exists sim, c, stdin, c1, rest, a;
    split_and!; [constructor|done..].
  intros _. destruct (stays _) eqn:Es; cbn [negb]; [|done].
  specialize (IH (flagged (hd 0 c1) sim) c1 (unread seekable (hd 0 c1) rest) Hf). revert IH.
  destruct (debug_loop fuel _ _ _ _ _) as [[x|code|f]|]; [done| | |done];
    intros (sim' & c' & l' & c2 & r2 & a & Hp & H); exists sim', c', l', c2, r2, a;
    (split; [by eapply prompts_next|exact H]).
Qed.

Lemma typed_address_fails_same {A B} seekable sim c stdin (r : option (outcome A)) (r' : option (outcome B)) :
  same_end r r' → typed_address_fails seekable sim c stdin r' → typed_address_fails seekable sim c stdin r.
Proof. destruct r as [[]|], r' as [[]|]; cbn; try done; by intros ->. Qed.

(** C31: the debugger's output: when the current instruction has no name in its table, the
    stop fails at once, with a read outside the table; otherwise it prints its whole text,
    registers, pipeline registers, coprocessor registers and devices included, exactly
    when its control flow comes to its end, hangs exactly when that does, and fails only
    in the memory unit's read of an address the user typed behind m at one of its
    prompts: no other access of the printing functions leaves a table. *)
Theorem debugger_prints_safely fuel seekable inst sim stdin :
  hardware_ok (hw sim) → core (cpu (hw sim)) ≠ [] → u32 inst →
  let text := debug_text fuel seekable inst sim stdin in
  let control := debug fuel seekable inst sim stdin in
  if unprintable inst then text = Some (Crash OutOfBounds) ∧ control = Some (Crash OutOfBounds)
  else same_end text control ∧ typed_address_fails seekable sim [] stdin text.
Proof.
  intros Hok Hne Hi. cbv zeta. destruct (first_core_ok (hw sim) Hne Hok) as (core & _ & _ & Hf & Hc).
  unfold debug_text, debug. rewrite Hf. cbn [mbind outcome_bind]. destruct (unprintable inst) eqn:Hu.
  { by rewrite (print_instruction_unprintable inst core Hc Hi Hu). }
  destruct (print_instruction_cases inst core Hc Hi Hu) as [line Hl]. rewrite Hl.
  cbn [mbind outcome_bind].
  pose proof (debug_loop_text_end fuel seekable inst sim core line [] stdin Hf Hc Hl) as Hs.
  pose proof (debug_loop_typed fuel seekable inst sim core line [] stdin Hf Hc Hl) as Ht.
  pose proof (typed_address_fails_same _ _ _ _ _ _ Hs Ht) as Hty. revert Hs Hty.
  by destruct (debug_loop_text fuel seekable inst sim [] stdin) as [[t| |]|].
Qed.

(** The commands p, r, 0 and d, and a step. *)
Lemma debugger_prints_safely_witness :
  let text := debug_text 9 false 0x2403002A (stepped false) [112; 10; 114; 10; 48; 10; 100; 10; 10] in
  let control := debug 9 false 0x2403002A (stepped false) [112; 10; 114; 10; 48; 10; 100; 10; 10] in
  same_end text control ∧
  typed_address_fails false (stepped false) [] [112; 10; 114; 10; 48; 10; 100; 10; 10] text.
Proof.
  apply (debugger_prints_safely 9 false 0x2403002A (stepped false) [112; 10; 114; 10; 48; 10; 100; 10; 10]).
  - split; [by apply Forall_singleton; exact exit_machine_ok|exact exit_memory_ok].
  - discriminate.
  - vm_compute. split; congruence.
Defined.

(** ** Naming a register *)

Definition string_bytes (s : string) : list Z := map chr (String.list_ascii_of_string s).

(** The names of the registers, by their characters: those that start like a command that
    stays at the prompt start with v, s, t, r or p, and have two characters. *)
Lemma register_name_bytes r name a b l :
  reg_names !! r = Some name → string_bytes name = a :: b :: l →
  register_to_number name = Z.of_nat r ∧ a ≠ 10 ∧ a ≠ chr "q" ∧ a ≠ chr "c" ∧ a ≠ chr "m" ∧
  stays a = one_of a [chr "v"; chr "s"; chr "t"; chr "r"; chr "p"] ∧
  (stays a = true → l = [] ∧ c_string [a; b] = name).
Proof.
  do 33 (destruct r as [|r];
    [intros [= <-]; (discriminate || (intros [= <- <- <-]; vm_compute; by split_and!))|]).
  done.
Qed.

Lemma command_text_default inst sim core c rest :
  first_core (hw sim) = Ret core → stays (hd 0 c) = false → command_text inst sim c rest = Ret "> ".
Proof.
  intros Hf. unfold command_text. rewrite Hf. cbn [mbind outcome_bind]. generalize (hd 0 c). intros c0.
  unfold stays, one_of. cbn [existsb]. rewrite !orb_false_iff.
  by intros (-> & -> & -> & -> & -> & -> & -> & -> & -> & _ & -> & _).
Qed.

(** A command that stays at the prompt, and the newline behind it. *)
Lemma debug_two_commands fuel seekable inst sim core line a b rest body :
  first_core (hw sim) = Ret core → core_ok core → print_instruction inst core = Ret line →
  a ≠ 10 → a ≠ chr "c" → a ≠ chr "q" → a ≠ chr "m" → stays a = true →
  command_text inst sim [a; b] (10 :: rest) = Ret body →
  debug (S (S fuel)) seekable inst sim (a :: b :: 10 :: rest) = Some (Ret (sim, rest)) ∧
  debug_text (S (S fuel)) seekable inst sim (a :: b :: 10 :: rest) =
    Some (Ret ((printf "PC: 0x%08X\n" [AInt (PC core)] ++ line) ++ body ++ "> ")).
Proof.
  intros Hf Hc Hl Hn Hcc Hq Hm Hs Hb. unfold debug, debug_text. rewrite Hf. cbn [mbind outcome_bind].
  rewrite Hl. cbn [mbind outcome_bind debug_loop debug_loop_text fgets].
  rewrite (proj2 (Z.eqb_neq a 10) Hn). change (fgets [a; b] (10 :: rest)) with ([10], rest).
  assert (debug_command seekable inst sim [a; b] (10 :: rest) = Ret (false, sim, 10 :: rest)) as ->.
  { rewrite (debug_command_meaning _ _ _ core line) by done. cbn [hd].
    unfold typed_read, flagged, unread. rewrite Hs, (proj2 (Z.eqb_neq _ _) Hcc), (proj2 (Z.eqb_neq _ _) Hq),
      (proj2 (Z.eqb_neq _ _) Hm). by destruct (scanf_X _).1, sim. }
  rewrite Hb. change (fgets [a; b] (10 :: rest)) with ([10], rest). cbv beta iota.
  rewrite (command_text_default inst sim core [10] rest Hf eq_refl).
  assert (debug_command seekable inst sim [10] rest = Ret (true, sim, rest)) as ->
    by (unfold debug_command; by rewrite Hf).
  by split.
Qed.

(** C32: what naming a register at the prompt does, for each of the 33 names. Those of the registers v, s and t print the name and the unsigned value -
    and then return, so that the machine makes a step: [fgets] reads two characters, and
    the newline typed behind them is taken as the next command. The names ra and pc are
    taken for the commands r and p, which print all registers and the pipeline registers,
    and make a step too. Every other name returns at its first character, without output:
    the machine makes a step, and what is typed behind two characters, the newline at
    least, is left for the next stop. *)
Theorem debugger_names_register fuel seekable inst sim core line r name a b l rest :
  first_core (hw sim) = Ret core → core_ok core → print_instruction inst core = Ret line →
  reg_names !! r = Some name → string_bytes name = a :: b :: l →
  let stdin := a :: b :: l ++ 10 :: rest in
  let result := debug (S (S fuel)) seekable inst sim stdin in
  let text := debug_text (S (S fuel)) seekable inst sim stdin in
  let first := printf "PC: 0x%08X\n" [AInt (PC core)] ++ line in
  if one_of a [chr "v"; chr "s"; chr "t"] then
    result = Some (Ret (sim, rest)) ∧
    text = Some (Ret (first ++
      ("> " ++ name ++ " = " ++ digits 32 10 (aread (regs core) (Z.of_nat r)) ++ String newline_char "") ++
      "> "))
  else if a =? chr "r" then
    result = Some (Ret (sim, rest)) ∧
    ∃ table, print_registers core = Ret table ∧ text = Some (Ret (first ++ ("> " ++ table) ++ "> "))
  else if a =? chr "p" then
    result = Some (Ret (sim, rest)) ∧
    ∃ table, print_pipeline_registers core = Ret table ∧ text = Some (Ret (first ++ ("> " ++ table) ++ "> "))
  else
    result = Some (Ret (sim, (l ++ 10 :: rest)%list)) ∧ text = Some (Ret (first ++ "> ")).
Proof.
  intros Hf Hc Hl Hn Hb. cbv zeta.
  destruct (register_name_bytes r name a b l Hn Hb) as (Hr & Ha & Hq & Hcc & Hm & Hs & Hshort).
  destruct (one_of a [chr "v"; chr "s"; chr "t"]) eqn:Hvst; [|destruct (Z.eqb_spec a (chr "r")) as [->|Har];
    [|destruct (Z.eqb_spec a (chr "p")) as [->|Hap]]].
  - assert (stays a = true) as Hst.
    { rewrite Hs. revert Hvst. unfold one_of. cbn [existsb]. rewrite !orb_true_iff. tauto. }
    destruct (Hshort Hst) as [-> Hname]. cbn [app].
    apply debug_two_commands; [done..|].
    assert (aget (regs core) (Z.of_nat r) = Ret (aread (regs core) (Z.of_nat r))) as Hv.
    { destruct (named_register_total core name Hc) as [v Hv]. rewrite Hr in Hv. rewrite Hv.
      apply aget_Ret in Hv as [_ Hv]. unfold aread. by rewrite (nth_lookup_Some _ _ _ _ Hv). }
    pose proof (core_regs_read core (Z.of_nat r) Hc) as Hu. apply wrap32_small in Hu.
    unfold command_text. rewrite Hf. cbn [mbind outcome_bind hd]. rewrite Hname, Hr, Hv.
    rewrite <-Hu at 2. revert Hvst. unfold one_of. cbn [existsb]. rewrite !orb_true_iff.
    by intros [->%Z.eqb_eq|[->%Z.eqb_eq|[->%Z.eqb_eq|]]].
  - destruct (Hshort eq_refl) as [-> _]. destruct (print_registers_total core Hc) as [table Ht].
    destruct (debug_two_commands fuel seekable inst sim core line (chr "r") b rest ("> " ++ table))
      as [H1 H2]; [done..| |].
    { unfold command_text. rewrite Hf. cbn [mbind outcome_bind hd Z.eqb Pos.eqb]. by rewrite Ht. }
    split; [exact H1|]. by exists table.
  - destruct (Hshort eq_refl) as [-> _]. destruct (print_pipeline_registers_total core Hc) as [table Ht].
    destruct (debug_two_commands fuel seekable inst sim core line (chr "p") b rest ("> " ++ table))
      as [H1 H2]; [done..| |].
    { unfold command_text. rewrite Hf. cbn [mbind outcome_bind hd Z.eqb Pos.eqb]. by rewrite Ht. }
    split; [exact H1|]. by exists table.
  - assert (stays a = false) as Hst.
    { rewrite Hs. revert Hvst. unfold one_of. cbn [existsb]. rewrite !orb_false_iff.
      apply Z.eqb_neq in Har, Hap. tauto. }
    unfold debug, debug_text. rewrite Hf. cbn [mbind outcome_bind]. rewrite Hl.
    cbn [mbind outcome_bind debug_loop debug_loop_text fgets]. rewrite (proj2 (Z.eqb_neq a 10) Ha).
    rewrite (command_text_default inst sim core [a; b] (l ++ 10 :: rest)%list Hf Hst).
    rewrite (debug_command_meaning _ _ _ core line) by done. cbn [hd].
    unfold typed_read, flagged, unread. rewrite Hst, (proj2 (Z.eqb_neq _ _) Hcc), (proj2 (Z.eqb_neq _ _) Hq),
      (proj2 (Z.eqb_neq _ _) Hm). by destruct (scanf_X _).1, sim.
Qed.

(** The register sp, at the first stop in the exit program. *)
Lemma debugger_names_register_witness :
  ∃ line, print_instruction 0x2403002A exit_machine = Ret line ∧
    debug 2 false 0x2403002A (stepped false) [115; 112; 10; 99] = Some (Ret (stepped false, [99])) ∧
    debug_text 2 false 0x2403002A (stepped false) [115; 112; 10; 99] =
      Some (Ret ((printf "PC: 0x%08X\n" [AInt (PC exit_machine)] ++ line) ++
        ("> sp = " ++ digits 32 10 (aread (regs exit_machine) REG_SP) ++ String newline_char "") ++ "> ")).
Proof.
  destruct (print_instruction_cases 0x2403002A exit_machine exit_machine_ok) as [line Hl];
    [vm_compute; split; congruence|reflexivity|].
  exists line. split; [exact Hl|].
  exact (debugger_names_register 0 false 0x2403002A (stepped false) exit_machine line 29 "sp" 115 112 [] [99]
    eq_refl exit_machine_ok Hl eq_refl eq_refl).
Defined.
