(* ===== verification/SimulateTheorems.v ===== *)
(** * Theorems on loading and running an executable (src/sim.c: simulate)

    The end-to-end theorem, from the bytes of an ELF file to the value the simulator
    returns, and the programs that cannot be loaded. *)

From S2P Require Import Prelude Mips32 Cpu Io Bus Mem MemProps MemTheorems Sim Elf ElfTheorems.
From S2P Require Import Wellformed Machine Isa DecodeExecute Refine Program Debug DebugTheorems.
From S2P Require Import Simulate.

(** The memory and the first core before the program is loaded, and the state in which
    the program starts. *)
Definition boot_memory (alloc_dev : bool) (memsz : Z) : mmu_t :=
  mmu (initial_hardware alloc_dev 0 memsz).
Definition boot_core (memsz entry : Z) : core_t :=
  set_PC (initial_core (default (boot_memory true memsz) (mmu_init true memsz))) entry.
Definition start_state (c : core_t) (m : mmu_t) : isa_state :=
  IsaState (gpr c) m (PC c) ((PC c + 4) mod 2 ^ 32).

(** The words lie in the part of the first kernel segment that is mapped, the word
    behind them included. *)
Definition fits_kseg0 (memsz base : Z) (words : list Z) : Prop :=
  KSEG0_VSTART <= base ∧
  base + 4 * Z.of_nat (length words) + 4 <= KSEG0_VSTART + Z.min KSEG0_SIZE (wrap32 (memsz / 8)).

Lemma fits_kseg0_code memsz base words :
  fits_kseg0 memsz base words → code_in_kseg0 (code_at base words) memsz.
Proof. intros [H1 H2] a w Ha%code_at_range. unfold KSEG0_VSTART, KSEG0_SIZE in *. lia. Qed.

(** Loading segments of a file of bytes. *)
Lemma boot_memory_ok alloc_dev memsz : 0 <= memsz → mmu_ok (boot_memory alloc_dev memsz).
Proof. intros Hs. by apply (mmu_add_device_isolated alloc_dev memsz). Qed.

Lemma mmu_add_device_len m dev : pmem_len (mmu_add_device m dev) = pmem_len m.
Proof.
  unfold mmu_add_device, device_descriptor_add. destruct dev; [|done].
  by destruct (get_free_descriptor _).
Qed.

Lemma boot_memory_len alloc_dev memsz : pmem_len (boot_memory alloc_dev memsz) = memsz.
Proof. unfold boot_memory, initial_hardware. cbn [mmu]. by rewrite mmu_add_device_len. Qed.

Lemma load_segment_ok file m ph : Forall u8 file → mmu_ok m → mmu_ok (load_segment file m ph).
Proof.
  intros Hf Hm. unfold load_segment. destruct (segment_start m ph); [|done].
  destruct (_ =? _); [|done].
  assert (Forall u8 (segment_bytes file ph)) as Hb by (by apply Forall_take, Forall_drop).
  destruct Hm as [Hs [] Hp Ha Hd]. split; cbn; try done.
  apply bytes_put_u8; [|done]. intros k b Hk. apply map_lookup_filter_Some in Hk as [Hk _].
  exact (Hp k b Hk).
Qed.

Lemma load_segments_ok file m phs :
  Forall u8 file → mmu_ok m →
  mmu_ok (foldl (load_segment file) m phs) ∧ pmem_len (foldl (load_segment file) m phs) = pmem_len m.
Proof.
  intros Hf. revert m. induction phs as [|ph phs IH]; intros m Hm; [done|]. cbn [foldl].
  destruct (IH (load_segment file m ph) (load_segment_ok file m ph Hf Hm)) as [H1 ->].
  split; [done|]. by destruct (load_segment_geometry file m ph) as [p ->].
Qed.

(** A host on which everything the simulator asks for succeeds, and settings for one core
    without debugger and log. *)
Definition host_ok (host : host_t) : Prop :=
  alloc_hw host = true ∧ alloc_mmu host = true ∧ alloc_cpu host = true ∧ fclose_ok host = true.
Definition plain_settings (s : settings_t) : Prop :=
  cores s = 1 ∧ log_wanted s = false ∧ debug_wanted s = false.

Lemma hw_init_initial dev n size :
  1 <= s32 n → hw_init true true true dev n size = Ret (initial_hardware dev (Z.to_nat (s32 n) - 1) size).
Proof.
  intros Hn. unfold hw_init, mmu_init, cpu_init. cbn [negb orb].
  rewrite (proj2 (Z.ltb_ge _ _)) by lia. unfold initial_hardware. cbn [mmu_init negb default].
  assert (s32 n = Z.of_nat (S (Z.to_nat (s32 n) - 1))) as E by lia.
  set (k := (Z.to_nat (s32 n) - 1)%nat) in *. by rewrite E, Nat2Z.id.
Qed.

(** The machine [simulate] starts: the first core at the entry point, the other ones as
    [cpu_init] leaves them. *)
Definition booted (n : Z) (c : core_t) (m : mmu_t) : hardware_t :=
  Hardware (Cpu (c :: replicate (Z.to_nat n - 1) zero_core) (Z.of_nat (S (Z.to_nat n - 1)))) m.

(** Loading a file into the machine [hw_init] builds. *)
Lemma boot_loaded host s file h phs :
  let m0 := boot_memory (alloc_dev host) (memsz s) in
  host_ok host → 1 <= s32 (cores s) → program s ≫= files host = Some file →
  ehdr_ok h → holds file 0 (ehdr_bytes h) → phdr_table file h phs →
  Forall (loadable file m0) phs →
  boot host s =
    Ret (booted (s32 (cores s)) (boot_core (memsz s) (e_entry h)) (foldl (load_segment file) m0 phs)).
Proof.
  intros m0 (Ha & Hb & Hc & Hd) Hcores Hfile Hok Hh Ht Hl. unfold boot.
  rewrite Ha, Hb, Hc, Hd, Hfile, hw_init_initial by done.
  set (n := (Z.to_nat (s32 (cores s)) - 1)%nat).
  set (c0 := initial_core (default (boot_memory true (memsz s)) (mmu_init true (memsz s)))).
  set (hw := initial_hardware (alloc_dev host) n (memsz s)).
  assert (core (cpu hw) = c0 :: replicate n zero_core) as Ec by done.
  assert (mmu hw = m0) as Em by done.
  cbn [mbind outcome_bind]. unfold first_core. rewrite Ec, Em.
  change (aget (c0 :: replicate n zero_core) 0) with (Ret c0).
  cbn [mbind outcome_bind]. unfold elf_dump.
  destruct (elf_open_roundtrip file h Hok Hh) as (st & -> & Hst).
  destruct (copy_all_segments_loads file h phs m0 st Hok Hst Ht Hl) as [st' ->].
  cbn [mbind outcome_bind Z.eqb elf_close]. unfold set_entry, set_core0. rewrite Ec.
  reflexivity.
Qed.

(** C1: end to end: the simulator started on an ELF file returns what the instruction set
    architecture says its program computes. With one core, neither debugger nor log, and a
    host whose calls succeed: for every file with an accepted header and loadable
    segments, if the loaded memory holds [words] in the mapped part of the first kernel
    segment, the specification, started at the entry point, runs [n] of them, none of which
    stores into the program or overflows, to the exit system call (10 in $v0), and the
    four instructions behind that call are no-operations, then
    [simulate] returns the value left in $v1, for every tick bound of at least
    [5 + 2 * n]. The no-operations are needed: the instructions behind the call are in the
    pipeline when it retires, and a load of an unmapped address among them fails. *)
Theorem simulate_returns_isa_result fuel host s file h phs base words n st w :
  let m0 := boot_memory (alloc_dev host) (memsz s) in
  let m := foldl (load_segment file) m0 phs in
  host_ok host → plain_settings s → 0 <= memsz s →
  program s ≫= files host = Some file → Forall u8 file →
  ehdr_ok h → holds file 0 (ehdr_bytes h) → phdr_table file h phs →
  Forall (loadable file m0) phs →
  loaded m base words = true → fits_kseg0 (memsz s) base words →
  isa_run base words n (start_state (boot_core (memsz s) (e_entry h)) m) = Some st →
  code_at base words (isa_pc st) = Some w → isa_decode w = Some ISyscall →
  isa_regs st REG_V0 = 10 → u32 (isa_npc st) →
  (∀ k, 0 <= k <= 3 → code_at base words ((isa_npc st + 4 * k) mod 2 ^ 32) = Some 0) →
  (5 + 2 * n <= fuel)%nat →
  simulate fuel host s = Some (Ret (s32 (isa_regs st REG_V1))).
Proof.
  intros m0 m Hhost (Hcores & Hlog & Hdebug) Hs Hfile Hf Hok Hh Ht Hl Hld Hfit Hrun Hw Hi Hv Hu
    Hnops Hfuel.
  unfold simulate. rewrite (boot_loaded host s file h phs) by (done || by rewrite Hcores).
  rewrite Hcores. fold m0 m.
  change (booted (s32 1) ?c m) with (one_core 1 c m).
  rewrite Hlog, Hdebug, run_debug_plain by done. cbn [hw].
  destruct (load_segments_ok file m0 phs Hf (boot_memory_ok _ _ Hs)) as [Hm Hlen]. fold m in Hm, Hlen.
  assert (u32 (e_entry h)) as He.
  { pose proof (ehdr_words _ Hok) as Hws. apply Forall_cons in Hws as [_ [He _]%Forall_cons]. exact He. }
  destruct (isa_run_steps base words n (start_state (boot_core (memsz s) (e_entry h)) m) st Hm Hrun)
    as [Hsteps _].
  destruct (run_loop_isa (code_at base words) (memsz s) (fits_kseg0_code _ base words Hfit) fuel 1
    (boot_core (memsz s) (e_entry h)) m n st w) as (c' & m' & Hr & HR); try done.
  - apply core_ok_set_PC; [apply initial_core_ok|exact He].
  - rewrite Hlen. apply boot_memory_len.
  - by apply loaded_code_ok.
  - rewrite (run_of_loop _ _ _ _ _ _ Hr). do 3 f_equal. by apply HR.
Qed.

(** The exit program and the no-operations behind it, as an executable. *)
Definition exit_file : list Z := example_file (exit_words ≫= be_digits 4) 28.
Definition exit_phdr : p_header := example_phdr 28 28.
Definition exit_boot_memory : mmu_t := load_segment exit_file (boot_memory true 4096) exit_phdr.
Definition exit_end : isa_state :=
  default exit_start
    (isa_run KSEG0_VSTART exit_words 2 (start_state (boot_core 4096 0x80000000) exit_boot_memory)).

Lemma exit_loadable : loadable exit_file (boot_memory true 4096) exit_phdr.
Proof.
  split; [repeat constructor; vm_compute; congruence|].
  right. split; [done|]. split; [vm_compute; split; congruence|].
  split; [vm_compute; congruence|]. exists 0. repeat split; vm_compute; congruence.
Qed.

(** A host with that file, and the default settings with 4096 bytes of memory. *)
Definition exit_host (file : list Z) : host_t :=
  Host true true true true true (λ name, if decide (name = "exit"%string) then Some file else None)
    (λ _, true) true [] false.
Definition exit_settings : settings_t := Settings 1 4096 (Some "exit"%string) false None false.

Lemma simulate_returns_isa_result_witness :
  simulate 9 (exit_host exit_file) exit_settings = Some (Ret 42).
Proof.
  change 42 with (s32 42). replace 42 with (isa_regs exit_end REG_V1) by (vm_compute; reflexivity).
  apply (simulate_returns_isa_result 9 (exit_host exit_file) exit_settings exit_file example_ehdr
    [exit_phdr] 0x80000000 exit_words 2 exit_end 0x0000000C).
  - by split_and!.
  - by split_and!.
  - cbn [memsz exit_settings]. lia.
  - vm_compute. reflexivity.
  - apply (bool_decide_unpack _). vm_compute. exact I.
  - exact example_ehdr_ok.
  - exact (holds_prefix _ _).
  - split; [reflexivity|]. intros [|i] ph; [|done]. intros [= <-]. split; [done|]. vm_compute. reflexivity.
  - constructor; [exact exit_loadable|constructor].
  - vm_compute. reflexivity.
  - vm_compute. split; congruence.
  - unfold exit_end. vm_compute. reflexivity.
  - vm_compute. reflexivity.
  - vm_compute. reflexivity.
  - vm_compute. reflexivity.
  - vm_compute. split; congruence.
  - intros k Hk. assert (k = 0 ∨ k = 1 ∨ k = 2 ∨ k = 3) as [->|[->|[->| ->]]] by lia;
      vm_compute; reflexivity.
  - lia.
Defined.


