(* ===== verification/Multicore.v ===== *)
(** * Several cores over one memory (src/sim.c: tick)

    [tick] advances every core by one clock, in order, on the same memory unit. The
    specification is an interleaving: at each step one of the cores executes one
    instruction of Isa.v on the common memory. The file shows that the pipelined cores
    run in lock step behave as some such interleaving (the simulated machine is
    sequentially consistent), that no core starves, and what happens to a machine of
    several cores as [simulate] sets it up. *)

From S2P Require Import Prelude Mips32 Tools Cpu Exception Io Bus Mem MemProps MemTheorems Decode.
From S2P Require Import Execute Memstage Writeback.
From S2P Require Import Forward Fetch Sim Elf ElfTheorems Wellformed Machine Isa DecodeExecute.
From S2P Require Import Refine Program.
From S2P Require Import Debug DebugTheorems Simulate SimulateTheorems.

#[local] Set Default Proof Using "Type*".

(** A core of the specification: its registers, the address of the next instruction and
    of the one after it. *)
Record hart := Hart { h_regs : Z → Z; h_pc : Z; h_npc : Z }.

Section Interleaving.
Context {M : Type} {ok : M → Prop} `{BusSpec M ok}.
Variable code : Z → option Z.
Implicit Types (c : core_t) (m : M) (h : hart) (u : uop).

Definition at_mem h m : isa_state := IsaState (h_regs h) m (h_pc h) (h_npc h).

(** ** The specification *)

(** Core [i] executes one instruction on the common memory. *)
Inductive mc_step (i : nat) : list hart → M → list hart → M → Prop :=
  | mc_step_intro hs m h h' m' :
      hs !! i = Some h → isa_step code (at_mem h m) (at_mem h' m') →
      mc_step i hs m (<[i := h']> hs) m'.

(** The cores take turns as the schedule says. *)
Inductive mc_steps : list nat → list hart → M → list hart → M → Prop :=
  | mc_steps_nil hs m : mc_steps [] hs m hs m
  | mc_steps_cons i l hs m hs1 m1 hs2 m2 :
      mc_step i hs m hs1 m1 → mc_steps l hs1 m1 hs2 m2 → mc_steps (i :: l) hs m hs2 m2.

(** Whatever the schedule, for [n] instructions in all: every core finds an instruction
    of the subset, executes it without a trap, and the next ones can be fetched. *)
Fixpoint safe (n : nat) (hs : list hart) (m : M) : Prop :=
  match n with
  | O => True
  | S n =>
    ∀ i h, hs !! i = Some h →
      fetchable code (at_mem h m) ∧
      (∃ h' m', isa_step code (at_mem h m) (at_mem h' m')) ∧
      ∀ h' m', isa_step code (at_mem h m) (at_mem h' m') → safe n (<[i := h']> hs) m'
  end.

Lemma safe_le n n' hs m : (n' <= n)%nat → safe n hs m → safe n' hs m.
Proof.
  revert n' hs m. induction n as [|n IH]; intros n' hs m Hn; destruct n' as [|n']; try done; [lia|].
  cbn [safe]. intros Hs i h Hi. destruct (Hs i h Hi) as (Hf & He & Hn'). split_and!; [done|done|].
  intros h' m' Hst. apply IH; [lia|]. by apply Hn'.
Qed.

(** An invariant under which every core can step makes every bound safe. *)
Lemma safe_invariant (P : list hart → M → Prop) n hs m :
  (∀ hs m i h, P hs m → hs !! i = Some h →
     fetchable code (at_mem h m) ∧ (∃ h' m', isa_step code (at_mem h m) (at_mem h' m')) ∧
     ∀ h' m', isa_step code (at_mem h m) (at_mem h' m') → P (<[i := h']> hs) m') →
  P hs m → safe n hs m.
Proof.
  intros Hp. revert hs m. induction n as [|n IH]; intros hs m HP; [done|]. intros i h Hi.
  destruct (Hp hs m i h HP Hi) as (Hf & He & Hn). split_and!; [done|done|]. eauto.
Qed.

Lemma safe_step i n hs m hs' m' : mc_step i hs m hs' m' → safe (S n) hs m → safe n hs' m'.
Proof. intros [? ? h h' ? Hi Hs] Hsafe. destruct (Hsafe i h Hi) as (_ & _ & Hn). by apply Hn. Qed.

Lemma mc_steps_app l l' hs m hs1 m1 hs2 m2 :
  mc_steps l hs m hs1 m1 → mc_steps l' hs1 m1 hs2 m2 → mc_steps (l ++ l') hs m hs2 m2.
Proof. induction 1; cbn [app]; [done|]. intros. econstructor; eauto. Qed.

Lemma mc_steps_length l hs m hs' m' : mc_steps l hs m hs' m' → length hs' = length hs.
Proof.
  induction 1 as [|i l hs m hs1 m1 hs2 m2 Hst _ IH]; [done|]. rewrite IH.
  destruct Hst. by rewrite length_insert.
Qed.

Lemma safe_steps l n hs m hs' m' :
  mc_steps l hs m hs' m' → safe (length l + n) hs m → safe n hs' m'.
Proof.
  induction 1 as [|i l hs m hs1 m1 hs2 m2 Hst _ IH]; [done|]. intros Hs. by eapply IH, safe_step.
Qed.

(** What the pipeline of one core relies on: it can execute the next instruction, and
    fetch the one behind the one after it. *)
Definition looks_ahead h m : Prop :=
  fetchable code (at_mem h m) ∧
  ∃ h' m', isa_step code (at_mem h m) (at_mem h' m') ∧ fetchable code (at_mem h' m').

Lemma safe_looks_ahead n hs m i h : safe (S (S n)) hs m → hs !! i = Some h → looks_ahead h m.
Proof.
  intros Hs Hi. destruct (Hs i h Hi) as (Hf & (h' & m' & Hst) & Hn). split; [done|].
  exists h', m'. split; [done|]. destruct (Hn h' m' Hst i h') as [? _]; [|done].
  apply list_lookup_insert_eq. by eapply lookup_lt_Some.
Qed.

(** ** One core *)

(** The effect of the instruction [h] is about to execute and its transfer of control,
    and the core it leaves. *)
Inductive next_uop h : uop → option Z → Prop :=
  | next_uop_intro w i u target :
      code (h_pc h) = Some w → isa_decode w = Some i →
      exec i (h_pc h) (h_regs h (GET_RS w)) (h_regs h (GET_RT w)) = Some (u, target) →
      quiet i (h_regs h (GET_RS w)) (h_regs h (GET_RT w)) = true → next_uop h u target.

Definition after h (R' : Z → Z) (target : option Z) : hart :=
  Hart R' (h_npc h) (default ((h_npc h + 4) mod 2 ^ 32) target).

(** What follows the instruction in EX/MEM, which leaves the core at [h]: the next
    instruction is in ID/EX, or in IF/ID behind a bubble, or still to be fetched. The
    index is the number of ticks until an instruction of [h] is in EX/MEM. *)
Inductive front c h : nat → Prop :=
  | front_instr w i :
      code (h_pc h) = Some w →
      decoded w ((h_pc h + 4) mod 2 ^ 32) (h_regs h (GET_RS w)) (h_regs h (GET_RT w)) i (id_ex c) →
      next_instr code c (h_npc h) → front c h 1
  | front_bubble n a b :
      code (h_pc h) = Some (ifid_inst (if_id c)) → decoded 0 n a b nop (id_ex c) →
      ifid_next_pc (if_id c) = (h_pc h + 4) mod 2 ^ 32 →
      PC c = (h_pc h + 4) mod 2 ^ 32 → h_npc h = (h_pc h + 4) mod 2 ^ 32 → front c h 2
  | front_empty :
      id_ex c = zero_id_ex → if_id c = zero_if_id → PC c = h_pc h →
      h_npc h = (h_pc h + 4) mod 2 ^ 32 → front c h 3.

(** An effect on nothing. *)
Definition idle u : Prop := u = UNone ∨ ∃ v, u = UWrite 0 v.

(** The back of the pipeline: EX/MEM holds the instruction [h] is about to execute, its
    access to memory still to come, or a bubble. *)
Inductive back c h : nat → Prop :=
  | back_ready u target :
      carries (ex_mem c) u → next_uop h u target →
      (∀ m R' m', uop_step u (h_regs h) m R' m' →
         ∃ d, (d <= 2)%nat ∧ front c (after h R' target) d) → back c h 0
  | back_idle u d : carries (ex_mem c) u → idle u → front c h d → back c h d.

(** The pipelined core [c] stands for the core [h] of the specification: exactly the
    instructions up to that in MEM/WB have been executed. The index counts the ticks
    until the next instruction of [h] is in EX/MEM. *)
Record lag (d : nat) c h : Prop := {
  lag_core : core_ok c;
  lag_regs : ∃ R1, pending (mem_wb c) (gpr c) R1 ∧ regs_agree R1 (h_regs h);
  lag_back : back c h d }.

Lemma isa_step_uop h m u target R' m' :
  next_uop h u target → uop_step u (h_regs h) m R' m' → code_ok code m' →
  isa_step code (at_mem h m) (at_mem (after h R' target) m').
Proof. destruct 1. intros. by eapply isa_step_intro. Qed.

Lemma uop_isa_step h m h' m' :
  isa_step code (at_mem h m) (at_mem h' m') →
  ∃ u target R', next_uop h u target ∧ uop_step u (h_regs h) m R' m' ∧ code_ok code m' ∧
    h' = after h R' target.
Proof.
  destruct h as [R pc npc], h' as [R' pc' npc']. intros Hs. unfold at_mem in Hs. cbn in Hs.
  inversion Hs; subst. eexists _, _, _. split; [by econstructor|]. by split_and!.
Qed.

Lemma next_uop_inv h u target w i :
  next_uop h u target → code (h_pc h) = Some w → isa_decode w = Some i →
  exec i (h_pc h) (h_regs h (GET_RS w)) (h_regs h (GET_RT w)) = Some (u, target) ∧
  quiet i (h_regs h (GET_RS w)) (h_regs h (GET_RT w)) = true.
Proof.
  destruct 1 as [w' i' u target Hw' Hi' He Hq]. intros Hw Hi.
  rewrite Hw in Hw'. apply (inj Some) in Hw' as <-. rewrite Hi in Hi'. by apply (inj Some) in Hi' as <-.
Qed.

Lemma next_uop_det h u target u' target' :
  next_uop h u target → next_uop h u' target' → u = u' ∧ target = target'.
Proof.
  destruct 1 as [w i u target Hw Hi He _]. intros Hu'.
  destruct (next_uop_inv _ _ _ w i Hu' Hw Hi) as [He' _]. rewrite He in He'. by injection He'.
Qed.

(** Whatever a load that is not used by the next instruction reads, its operands are the
    same. *)
Lemma uop_step_operands u R1 m1 R1' m1' R2 m2 R2' m2' w :
  hazard_free u w → regs_agree R1 R2 → uop_step u R1 m1 R1' m1' → uop_step u R2 m2 R2' m2' →
  R1' (GET_RS w) = R2' (GET_RS w) ∧ R1' (GET_RT w) = R2' (GET_RT w).
Proof.
  intros Hh HR H1 H2. pose proof (HR _ (GET_RS_range w)) as Hs. pose proof (HR _ (GET_RT_range w)) as Ht.
  destruct H1; inversion H2; subst; unfold rset; try done.
  - by rewrite Hs, Ht.
  - cbn [hazard_free] in Hh. split; case_Z; lia || done.
Qed.

Lemma decoded_nop_executes c n a b :
  core_ok c → decoded 0 n a b nop (id_ex c) → ∃ v, executes (id_ex c) (UWrite 0 v) None.
Proof.
  intros Hc Hd. destruct (core_id_ex _ Hc) as []. apply (nop_executes c n a b); [..|done].
  - by rewrite <-(dec_next_pc _ _ _ _ _ _ Hd).
  - by rewrite <-(dec_rs_value _ _ _ _ _ _ Hd).
  - by rewrite <-(dec_rt_value _ _ _ _ _ _ Hd).
Qed.

Lemma pending_zero c R1 : core_ok c → pending (mem_wb c) (gpr c) R1 → R1 0 = 0.
Proof. intros Hc Hp. by destruct (retire c false R1 Hc Hp) as (? & _ & _ & _ & _ & _ & ?). Qed.

Section Tick.
Variables (c : core_t) (m : M) (g : bool) (u : uop) (R1 R2 : Z → Z) (m2 : M) (h : hart).
Hypotheses (Hc : core_ok c) (Hm : ok m) (Hcode : code_ok code m2).
Hypotheses (Hp : pending (mem_wb c) (gpr c) R1) (Hcar : carries (ex_mem c) u).
Hypotheses (Hs : uop_step u R1 m R2 m2) (HR : regs_agree R2 (h_regs h)).

(** The next instruction enters EX/MEM. *)
Lemma instr_tick w i :
  code (h_pc h) = Some w →
  decoded w ((h_pc h + 4) mod 2 ^ 32) (h_regs h (GET_RS w)) (h_regs h (GET_RT w)) i (id_ex c) →
  next_instr code c (h_npc h) → looks_ahead h m2 →
  ∃ c', tick_core c m g = Ret (c', m2, g) ∧ lag 0 c' h.
Proof.
  intros Hw Hd Hnext (Hf & h' & m' & Hst & ((w4 & i4 & Hw4 & Hi4) & f & Hf4)).
  destruct (uop_isa_step h m2 h' m' Hst) as (u3 & tgt & R' & Hnu & Hs3 & _ & ->).
  cbn [at_mem after isa_pc isa_npc h_pc h_npc] in Hw4, Hf4.
  destruct (uop_step_agree u3 (h_regs h) m2 R' m' R2 Hs3) as (R3 & Hs3' & HR3); [by symmetry|].
  destruct (next_uop_inv _ _ _ w i Hnu Hw (dec_instr _ _ _ _ _ _ Hd)) as [He Hq].
  assert (executes (id_ex c) u3 tgt) as Hex.
  { eapply decoded_executes; [exact Hd|..|exact He|exact Hq].
    - rewrite <-(dec_rs_value _ _ _ _ _ _ Hd). apply (idex_rs_value_ok _ (core_id_ex _ Hc)).
    - rewrite <-(dec_rt_value _ _ _ _ _ _ Hd). apply (idex_rt_value_ok _ (core_id_ex _ Hc)). }
  destruct Hnext as [w' Hw' Hin Hnp Hpc Hh|w' Hw' Hin Hpc Hh]; rewrite Hw4 in Hw';
    apply (inj Some) in Hw' as <-.
  - assert (hazard_free u3 w4) as Hfree by by eapply hazard_false_free.
    destruct (tick_core_step c m g R1 u R2 m2 u3 tgt R3 m' w4 i4 f) as (c' & Ht & Hp' & Hcar' & Hd' & Hf');
      try done.
    { rewrite Hpc. by apply (code_read code). }
    exists c'. split; [exact Ht|]. split.
    + exact (proj1 (tick_core_ok c m g c' m2 g Hc Hm Ht)).
    + by exists R2.
    + eapply back_ready; [exact Hcar'|exact Hnu|]. intros mx Rx mx' Hx. exists 1%nat. split; [lia|].
      destruct (uop_step_operands u3 R2 m2 R3 m' (h_regs h) mx Rx mx' w4) as [Hrs Hrt]; try done.
      eapply front_instr; cbn [after h_pc h_npc h_regs]; [exact Hw4| |].
      * rewrite Hnp in Hd'. by rewrite <-Hrs, <-Hrt.
      * rewrite Hpc in Hf'. by eapply fetched_next.
  - destruct (hazard_load _ _ _ _ _ _ _ Hd Hh) as (sz & imm & rt & ->).
    cbn [exec] in He. injection He as <- <-.
    rewrite <-Hpc in Hw4.
    destruct (bubble_tick code c m g R1 u R2 m2 _ R3 m' w4 Hc Hm Hcode Hp Hcar Hs Hex Hs3')
      as (c' & n & Ht & Hp' & Hcar' & Hn & Hd' & Hw1 & Hn1 & Hpc1); [by eauto..|].
    exists c'. split; [exact Ht|]. split.
    + exact (proj1 (tick_core_ok c m g c' m2 g Hc Hm Ht)).
    + by exists R2.
    + eapply back_ready; [exact Hcar'|exact Hnu|]. intros mx Rx mx' Hx. exists 2%nat. split; [lia|].
      rewrite Hpc in *. eapply front_bubble; cbn [after h_pc h_npc default]; try done.
      by rewrite Hw1.
Qed.

(** The bubble in ID/EX enters EX/MEM, the next instruction ID/EX. *)
Lemma bubble_front_tick n a b :
  code (h_pc h) = Some (ifid_inst (if_id c)) → decoded 0 n a b nop (id_ex c) →
  ifid_next_pc (if_id c) = (h_pc h + 4) mod 2 ^ 32 →
  PC c = (h_pc h + 4) mod 2 ^ 32 → h_npc h = (h_pc h + 4) mod 2 ^ 32 → looks_ahead h m2 →
  ∃ c', tick_core c m g = Ret (c', m2, g) ∧ lag 1 c' h.
Proof.
  intros Hw Hd Hnp Hpc Hnpc (((w & i & Hw' & Hi) & f & Hf) & _).
  cbn [at_mem isa_pc isa_npc] in Hw', Hf.
  rewrite Hw in Hw'. apply (inj Some) in Hw'.
  assert (R2 0 = 0) as Hz by (eapply uop_step_zero; [exact Hs|by eapply pending_zero]).
  destruct (decoded_nop_executes c n a b Hc Hd) as [v Hex].
  destruct (tick_core_step c m g R1 u R2 m2 (UWrite 0 v) None (rset R2 0 v) m2 w i f)
    as (c' & Ht & Hp' & Hcar' & Hd' & Hf'); try done; [constructor| |].
  { cbn [default]. rewrite Hpc, <-Hnpc. by apply (code_read code). }
  pose proof (rset_zero_agree R2 v Hz) as Hag.
  exists c'. split; [exact Ht|]. split.
  - exact (proj1 (tick_core_ok c m g c' m2 g Hc Hm Ht)).
  - by exists R2.
  - eapply back_idle; [exact Hcar'|right; by exists v|].
    assert (∀ r, 0 <= r < 32 → rset R2 0 v r = h_regs h r) as Heq
      by (intros r Hr; rewrite Hag by done; by apply HR).
    eapply front_instr; [by rewrite Hw, Hw'| |].
    + rewrite Hnp in Hd'. eapply decoded_eq; [exact Hd'|apply Heq, GET_RS_range|apply Heq, GET_RT_range].
    + cbn [default] in Hf'. rewrite Hpc, <-Hnpc in Hf'. by eapply fetched_next.
Qed.

(** The first tick of an empty pipeline. *)
Lemma empty_front_tick :
  id_ex c = zero_id_ex → if_id c = zero_if_id → PC c = h_pc h →
  h_npc h = (h_pc h + 4) mod 2 ^ 32 → looks_ahead h m2 →
  ∃ c', tick_core c m g = Ret (c', m2, g) ∧ lag 2 c' h.
Proof.
  intros Ed Ef Hpc Hnpc (((w & i & Hw & Hi) & _) & _). cbn [at_mem isa_pc] in Hw.
  destruct (tick_core_step c m g R1 u R2 m2 UNone None R2 m2 0 nop w)
    as (c' & Ht & Hp' & Hcar' & Hd' & Hf'); try done.
  { rewrite Ed. apply zero_executes. } { constructor. } { by rewrite Ef. }
  { cbn [default]. rewrite Hpc. by apply (code_read code). }
  unfold fetched in Hf'. rewrite (nop_no_hazard _ _ _ _ w Hd') in Hf'. cbn [default] in Hf'.
  destruct Hf' as (Hw1 & Hn1 & Hpc1). exists c'. split; [exact Ht|]. split.
  - exact (proj1 (tick_core_ok c m g c' m2 g Hc Hm Ht)).
  - by exists R2.
  - rewrite Hpc in *. eapply back_idle; [exact Hcar'|by left|].
    eapply front_bubble; [by rewrite Hw1|exact Hd'|done..].
Qed.

Lemma front_tick d :
  front c h d → looks_ahead h m2 →
  ∃ c', tick_core c m g = Ret (c', m2, g) ∧ lag (d - 1) c' h.
Proof.
  intros [w i|n a b|]; intros.
  - by eapply instr_tick.
  - by eapply bubble_front_tick.
  - by eapply empty_front_tick.
Qed.
End Tick.

(** ** One tick of one core *)

(** The turns of core [i] in a schedule. *)
Definition turns (i : nat) (l : list nat) : nat := length (filter (λ j, j = i) l).

Lemma turns_app i l l' : turns i (l ++ l') = (turns i l + turns i l')%nat.
Proof. unfold turns. by rewrite filter_app, length_app. Qed.

Lemma turns_cons i j l : turns i (j :: l) = ((if decide (j = i) then 1 else 0) + turns i l)%nat.
Proof. unfold turns. rewrite filter_cons. by case_decide. Qed.

(** A tick of a core executes its next instruction, or brings it nearer. *)
Lemma lag_tick n d c m g hs i h :
  ok m → code_ok code m → lag d c h → hs !! i = Some h → safe (3 + n) hs m →
  ∃ c' m' h' d' (step : bool), tick_core c m g = Ret (c', m', g) ∧ lag d' c' h' ∧
    ok m' ∧ code_ok code m' ∧
    mc_steps (if step then [i] else []) hs m (<[i := h']> hs) m' ∧
    (1 + d' <= (if step then 2 else 0) + d)%nat.
Proof.
  intros Hm Hcode [Hc (R1 & Hp & HR1) Hb] Hi Hsafe. destruct Hb as [u tgt Hcar Hnu Hfr|u d Hcar Hu Hfr].
  - destruct (Hsafe i h Hi) as (_ & (h' & m' & Hst) & _).
    destruct (uop_isa_step h m h' m' Hst) as (u0 & tgt0 & R' & Hnu0 & Hs & Hcode' & ->).
    destruct (next_uop_det _ _ _ _ _ Hnu Hnu0) as [<- <-].
    destruct (Hfr m R' m' Hs) as (d & Hd & Hf).
    destruct (uop_step_agree u _ m R' m' R1 Hs) as (R2 & Hs' & HR2); [by symmetry|].
    assert (mc_step i hs m (<[i := after h R' tgt]> hs) m') as Hmc by by econstructor.
    destruct (front_tick c m g u R1 R2 m' (after h R' tgt) Hc Hm Hcode' Hp Hcar Hs' (symmetry HR2)
      d Hf) as (c' & Ht & Hl).
    { eapply (safe_looks_ahead n); [by eapply safe_step|].
      apply list_lookup_insert_eq. by eapply lookup_lt_Some. }
    exists c', m', (after h R' tgt), (d - 1)%nat, true. split_and!; [exact Ht|exact Hl| |exact Hcode'| |lia].
    + exact (proj2 (tick_core_ok c m g c' m' g Hc Hm Ht)).
    + econstructor; [exact Hmc|constructor].
  - assert (∃ R2, uop_step u R1 m R2 m ∧ regs_agree R2 (h_regs h)) as (R2 & Hs & HR2).
    { destruct Hu as [->|[v ->]]; eexists; (split; [constructor|done||idtac]).
      rewrite rset_zero_agree; [exact HR1|by eapply pending_zero]. }
    destruct (front_tick c m g u R1 R2 m h Hc Hm Hcode Hp Hcar Hs HR2 d Hfr) as (c' & Ht & Hl).
    { eapply (safe_looks_ahead (S n)); done. }
    exists c', m, h, (d - 1)%nat, false. split_and!; [exact Ht|exact Hl|exact Hm|exact Hcode| |].
    + rewrite list_insert_id by done. constructor.
    + destruct Hfr; lia.
Qed.

(** ** One tick of all cores *)

Lemma tick_cores_lag n ds cs hs pre m g :
  Forall3 lag ds cs hs → ok m → code_ok code m → safe (length cs + 2 + n) (pre ++ hs) m →
  ∃ cs' m' hs' ds' l, tick_cores cs m g = Ret (cs', m', g) ∧ Forall3 lag ds' cs' hs' ∧
    ok m' ∧ code_ok code m' ∧ mc_steps l (pre ++ hs) m (pre ++ hs') m' ∧
    (length l <= length cs)%nat ∧ length ds' = length ds ∧
    (∀ i, (i < length pre)%nat → turns i l = 0%nat) ∧
    ∀ i d d', ds !! i = Some d → ds' !! i = Some d' →
      (1 + d' <= 2 * turns (length pre + i) l + d)%nat ∧ (turns (length pre + i) l <= 1)%nat.
Proof.
  intros HF. revert pre m. induction HF as [|d c h ds cs hs Hl HF IH]; intros pre m Hm Hcode Hsafe.
  { exists [], m, [], [], []. split_and!; try done; [constructor..]. }
  cbn [length Nat.add] in Hsafe.
  assert ((pre ++ h :: hs) !! length pre = Some h) as Hi by by apply list_lookup_middle.
  destruct (lag_tick (length cs + n) d c m g (pre ++ h :: hs) (length pre) h Hm Hcode Hl Hi)
    as (c' & m1 & h' & d' & step & Ht & Hl' & Hm1 & Hcode1 & Hst & Hd').
  { replace (3 + (length cs + n))%nat with (S (length cs + 2 + n)) by lia. exact Hsafe. }
  assert (<[length pre := h']> (pre ++ h :: hs) = (pre ++ [h']) ++ hs) as Eins.
  { rewrite <-app_assoc. cbn [app]. rewrite <-(Nat.add_0_r (length pre)) at 1. by rewrite insert_app_r. }
  rewrite Eins in Hst.
  destruct (IH (pre ++ [h']) m1 Hm1 Hcode1) as (cs' & m' & hs' & ds' & l & Htc & HF' & Hm' & Hcode' &
    Hsts & Hlen & Hds & Hz & Hcnt).
  { eapply (safe_steps (if step then [length pre] else [])); [exact Hst|].
    eapply safe_le; [|exact Hsafe]. destruct step; cbn [length]; lia. }
  exists (c' :: cs'), m', (h' :: hs'), (d' :: ds'), ((if step then [length pre] else []) ++ l).
  rewrite length_app in Hz. cbn [length] in Hz.
  assert (∀ i, turns i (if step then [length pre] else []) =
    (if decide (i = length pre) then if step then 1 else 0 else 0)%nat) as Hown.
  { intros i. destruct step; rewrite ?turns_cons; cbn; repeat case_decide; lia. }
  split_and!; try done.
  - cbn [tick_cores]. rewrite Ht. cbn [mbind outcome_bind]. by rewrite Htc.
  - by constructor.
  - replace (pre ++ h' :: hs') with ((pre ++ [h']) ++ hs') by by rewrite <-app_assoc.
    by eapply mc_steps_app.
  - rewrite length_app. destruct step; cbn [length]; lia.
  - cbn [length]. lia.
  - intros i Hip. rewrite turns_app, Hown, decide_False, Hz by lia. done.
  - intros [|i] e e'; cbn [lookup list_lookup].
    + intros [= <-] [= <-]. rewrite Nat.add_0_r, turns_app, Hown, decide_True, Hz by lia.
      destruct step; lia.
    + intros He He'. specialize (Hcnt i e e' He He'). rewrite length_app in Hcnt. cbn [length] in Hcnt.
      rewrite turns_app, Hown, decide_False by lia.
      replace (length pre + S i)%nat with (length pre + 1 + i)%nat by lia. lia.
Qed.

(** ** Any number of ticks *)

Fixpoint ticks_all (k : nat) (cs : list core_t) (m : M) (g : bool)
    : outcome (list core_t * M * bool) :=
  match k with
  | O => Ret (cs, m, g)
  | S k => '(cs, m, g) ← tick_cores cs m g; ticks_all k cs m g
  end.

Lemma ticks_all_lag k n ds cs hs m g :
  Forall3 lag ds cs hs → ok m → code_ok code m → safe (k * length cs + 2 + n) hs m →
  ∃ cs' m' hs' ds' l, ticks_all k cs m g = Ret (cs', m', g) ∧ Forall3 lag ds' cs' hs' ∧
    mc_steps l hs m hs' m' ∧ length ds' = length ds ∧
    ∀ i d d', ds !! i = Some d → ds' !! i = Some d' →
      (k + d' <= 2 * turns i l + d)%nat ∧ (turns i l <= k)%nat.
Proof.
  revert ds cs hs m. induction k as [|k IH]; intros ds cs hs m HF Hm Hcode Hsafe.
  { exists cs, m, hs, ds, []. split_and!; try done; [constructor|]. intros i d d' Hd Hd'.
    rewrite Hd in Hd'. injection Hd' as <-. cbn. lia. }
  destruct (tick_cores_lag (k * length cs + n) ds cs hs [] m g HF Hm Hcode)
    as (cs1 & m1 & hs1 & ds1 & l1 & Ht & HF1 & Hm1 & Hcode1 & Hst & Hlen & Hds & _ & Hcnt).
  { eapply safe_le; [|exact Hsafe]. lia. }
  cbn [app] in Hst.
  assert (length cs1 = length cs) as Hcs.
  { pose proof (Forall3_length_lm _ _ _ _ HF). pose proof (Forall3_length_lm _ _ _ _ HF1). lia. }
  destruct (IH ds1 cs1 hs1 m1 HF1 Hm1 Hcode1) as (cs' & m' & hs' & ds' & l & Hts & HF' & Hsts & Hds' & Hcnt').
  { eapply safe_steps; [exact Hst|]. eapply safe_le; [|exact Hsafe]. rewrite Hcs. cbn. lia. }
  exists cs', m', hs', ds', (l1 ++ l). split_and!; try done.
  - cbn [ticks_all]. rewrite Ht. cbn [mbind outcome_bind]. exact Hts.
  - by eapply mc_steps_app.
  - lia.
  - intros i d d' Hd Hd'. assert (∃ d1, ds1 !! i = Some d1) as [d1 Hd1].
    { apply lookup_lt_is_Some. rewrite Hds. by eapply lookup_lt_Some. }
    specialize (Hcnt i d d1 Hd Hd1). specialize (Hcnt' i d1 d' Hd1 Hd'). cbn [length Nat.add] in Hcnt.
    rewrite turns_app. lia.
Qed.

(** A core with an empty pipeline, as a core of the specification. *)
Definition boot_hart c : hart := Hart (gpr c) (PC c) ((PC c + 4) mod 2 ^ 32).

Lemma boot_lag c : core_ok c → empty_pipeline c → lag 3 c (boot_hart c).
Proof.
  intros Hc (Ef & Ed & Ex & Ew). split; [exact Hc| |].
  - exists (gpr c). split; [|done]. rewrite Ew. by apply pending_none.
  - eapply (back_idle _ _ UNone); [by rewrite Ex|by left|]. by apply front_empty.
Qed.

Lemma boot_lags cs :
  Forall core_ok cs → Forall empty_pipeline cs →
  Forall3 lag (replicate (length cs) 3%nat) cs (boot_hart <$> cs).
Proof.
  intros Hc He. induction cs as [|c cs IH]; [constructor|].
  apply Forall_cons in Hc as [Hc Hcs]. apply Forall_cons in He as [He Hes].
  constructor; [by apply boot_lag|by apply IH].
Qed.

(** Once the instruction in write-back has retired, the registers of the core are those
    of the specification. *)
Definition same_registers (g : bool) c h : Prop :=
  ∃ c', interpret_wb c g = Ret (c', g) ∧ regs_agree (gpr c') (h_regs h).

Lemma lag_same_registers g d c h : lag d c h → same_registers g c h.
Proof.
  intros [Hc (R1 & Hp & HR) _]. destruct (retire c g R1 Hc Hp) as (r1 & Hwb & _ & _ & _ & Hr & _).
  exists (c <| regs := r1 |>). split; [exact Hwb|]. by transitivity R1.
Qed.

Lemma boot_ticks_all k cs m g :
  Forall core_ok cs → Forall empty_pipeline cs → ok m → code_ok code m →
  safe (k * length cs + 2) (boot_hart <$> cs) m →
  ∃ cs' m' hs' l, ticks_all k cs m g = Ret (cs', m', g) ∧
    mc_steps l (boot_hart <$> cs) m hs' m' ∧ Forall2 (same_registers g) cs' hs' ∧
    ∀ i, (i < length cs)%nat → (k <= 2 * turns i l + 3)%nat ∧ (turns i l <= k)%nat.
Proof.
  intros Hcs Hes Hm Hcode Hsafe.
  destruct (ticks_all_lag k 0 _ cs _ m g (boot_lags cs Hcs Hes) Hm Hcode)
    as (cs' & m' & hs' & ds' & l & Ht & HF & Hst & Hds & Hcnt); [by rewrite Nat.add_0_r|].
  exists cs', m', hs', l. split_and!; [exact Ht|exact Hst| |].
  - clear -HF H0. induction HF; [constructor|]. constructor; [by eapply lag_same_registers|done].
  - intros i Hi. rewrite length_replicate in Hds.
    destruct (lookup_lt_is_Some_2 ds' i) as [d' Hd']; [lia|].
    specialize (Hcnt i 3%nat d' (lookup_replicate_2 _ _ _ Hi) Hd'). lia.
Qed.

(** C5: several cores are sequentially consistent: when every core starts with an empty
    pipeline and no interleaving of the instructions goes wrong, [k] ticks of all cores
    do not fail, and there is an interleaving of single instructions of the
    specification, executed one after the other on the common memory, that ends with
    exactly the memory of the machine and, once write-back is done, the registers of
    every core. *)
Theorem multicore_sequentially_consistent k cs m g :
  Forall core_ok cs → Forall empty_pipeline cs → ok m → code_ok code m →
  safe (k * length cs + 2) (boot_hart <$> cs) m →
  ∃ cs' m' hs' l, ticks_all k cs m g = Ret (cs', m', g) ∧
    mc_steps l (boot_hart <$> cs) m hs' m' ∧ Forall2 (same_registers g) cs' hs'.
Proof.
  intros Hcs Hes Hm Hcode Hsafe.
  destruct (boot_ticks_all k cs m g Hcs Hes Hm Hcode Hsafe) as (cs' & m' & hs' & l & ? & ? & ? & _).
  by exists cs', m', hs', l.
Qed.

(** C6: no core starves: after [2 * n + 2] ticks each core has executed at least [n]
    instructions of the interleaving, whatever the others do to the memory, and at most
    one a tick. *)
Theorem multicore_progress n cs m g :
  Forall core_ok cs → Forall empty_pipeline cs → ok m → code_ok code m →
  safe ((2 * n + 2) * length cs + 2) (boot_hart <$> cs) m →
  ∃ cs' m' hs' l, ticks_all (2 * n + 2) cs m g = Ret (cs', m', g) ∧
    mc_steps l (boot_hart <$> cs) m hs' m' ∧
    ∀ i, (i < length cs)%nat → (n <= turns i l <= 2 * n + 2)%nat.
Proof.
  intros Hcs Hes Hm Hcode Hsafe.
  destruct (boot_ticks_all (2 * n + 2) cs m g Hcs Hes Hm Hcode Hsafe)
    as (cs' & m' & hs' & l & Ht & Hst & _ & Hcnt).
  exists cs', m', hs', l. split_and!; [done|done|]. intros i Hi. specialize (Hcnt i Hi). lia.
Qed.
End Interleaving.

(** ** The specification, executed *)

(** The specification is deterministic. *)
Lemma load_value_det {M} `{Bus M} (m : M) a old kind v v' :
  load_value m a old kind v → load_value m a old kind v' → v = v'.
Proof.
  destruct 1 as [sz v Hv|t [_ Ht]|t [_ Ht]]; inversion 1 as [? ? Hv'|t' [_ Ht']|t' [_ Ht']]; subst.
  - pose proof (Hv 0 u32_0) as E. rewrite (Hv' 0 u32_0) in E. by injection E.
  - rewrite Ht in Ht'. by injection Ht' as ->.
  - rewrite Ht in Ht'. by injection Ht' as ->.
Qed.

Lemma uop_step_det {M} `{Bus M} u R (m : M) R1 m1 R2 m2 :
  uop_step u R m R1 m1 → uop_step u R m R2 m2 → R1 = R2 ∧ m1 = m2.
Proof.
  destruct 1 as [| |R m kind r a v _ Hv|R m sz a v m1 Hw];
    inversion 1 as [| |? ? ? ? ? v' _ Hv'|? ? ? ? ? ? Hw']; subst; try done.
  - by rewrite (load_value_det _ _ _ _ _ _ Hv Hv').
  - rewrite Hw in Hw'. by injection Hw' as ->.
Qed.

Lemma isa_step_det {M} `{Bus M} code (s s1 s2 : isa_state (M := M)) :
  isa_step code s s1 → isa_step code s s2 → s1 = s2.
Proof.
  destruct 1 as [R m pc npc w i u tgt R' m' Hw Hi He _ Hs _].
  inversion 1 as [? ? ? ? w' i' u' tgt' ? ? Hw' Hi' He' _ Hs' _]; subst.
  rewrite Hw in Hw'. apply (inj Some) in Hw' as <-. rewrite Hi in Hi'. apply (inj Some) in Hi' as <-.
  rewrite He in He'. injection He' as <- <-. by destruct (uop_step_det _ _ _ _ _ _ _ Hs Hs') as [<- <-].
Qed.

(** All schedules of [n] instructions tried out, on the simulator's memory. *)
Fixpoint safe_b (base : Z) (words : list Z) (n : nat) (hs : list hart) (m : mmu_t) : bool :=
  match n with
  | O => true
  | S n =>
    forallb (λ i,
      match hs !! i with
      | None => true
      | Some h =>
        fetchable_b (code_at base words) (at_mem h m) &&
        match isa_run1 base words (at_mem h m) with
        | None => false
        | Some (IsaState R' m' pc' npc') => safe_b base words n (<[i := Hart R' pc' npc']> hs) m'
        end
      end) (seq 0 (length hs))
  end.

Lemma safe_b_spec base words n hs m :
  mmu_ok m → safe_b base words n hs m = true → safe (code_at base words) n hs m.
Proof.
  revert hs m. induction n as [|n IH]; intros hs m Hm; [done|]. cbn [safe_b safe].
  rewrite forallb_forall. intros Hall i h Hi.
  assert (In i (seq 0 (length hs))) as Hin.
  { apply in_seq. apply lookup_lt_Some in Hi. lia. }
  specialize (Hall i Hin). rewrite Hi in Hall. apply andb_true_iff in Hall as [Hf Hall].
  destruct (isa_run1 base words (at_mem h m)) as [[R1 m1 pc1 npc1]|] eqn:E1; [|done].
  destruct (isa_run1_step base words (at_mem h m) _ Hm E1) as [Hs Hm1].
  split_and!.
  - by apply fetchable_b_spec.
  - by exists (Hart R1 pc1 npc1), m1.
  - intros h' m' Hs'. pose proof (isa_step_det _ _ _ _ Hs Hs') as E. destruct h' as [R2 pc2 npc2].
    injection E as <- <- <- <-. by apply IH.
Qed.

(** Two cores that write their own value to the same word, read it and double it:
    [loop: sw $a0, 0x100($t1); lw $v0, 0x100($t1); addu $v1, $v0, $v0; j loop; nop]. *)
Definition race_words : list Z := [0xAD240100; 0x8D220100; 0x00421821; 0x08000000; 0].
Definition set_reg (c : core_t) (r v : Z) : core_t := c <| regs := <[Z.to_nat r := v]> (regs c) |>.
Definition race_core (a0 : Z) : core_t :=
  set_PC (set_reg (set_reg zero_core REG_T1 0x80000000) REG_A0 a0) KSEG0_VSTART.
Definition race_memory : mmu_t := mmu (program_hardware race_words).
Definition race_code : Z → option Z := code_at KSEG0_VSTART race_words.
Definition race_cores : list core_t := [race_core 1; race_core 2].

Lemma race_core_ok a0 : u32 a0 → core_ok (race_core a0).
Proof.
  intros Ha. apply core_ok_set_PC; [|vm_compute; split; congruence].
  destruct zero_core_ok as [Hr Hf Hd Hx Hw]. split; try assumption.
  apply (regs_ok_set (set_reg zero_core REG_T1 0x80000000) REG_A0); [..|exact Ha|done];
    [|unfold NUM_REGISTERS, REG_A0; lia].
  apply (regs_ok_set zero_core REG_T1); [exact Hr|..|done]; vm_compute; split; congruence.
Qed.

Lemma race_cores_ok : Forall core_ok race_cores.
Proof. constructor; [|constructor; [|constructor]]; apply race_core_ok; unfold u32; lia. Qed.

Lemma race_cores_empty : Forall empty_pipeline race_cores.
Proof. constructor; [|constructor; [|constructor]]; by split_and!. Qed.

Lemma race_memory_ok : mmu_ok race_memory.
Proof.
  apply (mmu_ok_put (mmu (initial_hardware true 0 4096)) 0 (race_words ≫= be_digits 4)).
  - by destruct (mmu_add_device_isolated true 4096 _ ltac:(lia) eq_refl).
  - cbn. repeat constructor; vm_compute; congruence.
Qed.

Lemma race_code_ok : code_ok race_code race_memory.
Proof. apply loaded_code_ok; [exact race_memory_ok|]. vm_compute. reflexivity. Qed.

Lemma race_safe : safe race_code 10 (boot_hart <$> race_cores) race_memory.
Proof. apply safe_b_spec; [exact race_memory_ok|]. vm_compute. reflexivity. Qed.

Lemma multicore_sequentially_consistent_witness :
  ∃ cs' m' hs' l, ticks_all 4 race_cores race_memory false = Ret (cs', m', false) ∧
    mc_steps race_code l (boot_hart <$> race_cores) race_memory hs' m' ∧
    Forall2 (same_registers false) cs' hs'.
Proof.
  exact (multicore_sequentially_consistent (ok := mmu_ok) race_code 4 race_cores race_memory false
    race_cores_ok race_cores_empty race_memory_ok race_code_ok race_safe).
Defined.

Lemma multicore_progress_witness :
  ∃ cs' m' hs' l, ticks_all 4 race_cores race_memory false = Ret (cs', m', false) ∧
    mc_steps race_code l (boot_hart <$> race_cores) race_memory hs' m' ∧
    ∀ i, (i < 2)%nat → (1 <= turns i l <= 4)%nat.
Proof.
  exact (multicore_progress (ok := mmu_ok) race_code 1 race_cores race_memory false
    race_cores_ok race_cores_empty race_memory_ok race_code_ok race_safe).
Defined.

(** ** Several cores as [simulate] sets them up *)

(** The first tick of a core with an empty pipeline, whose PC can be read. *)
Lemma first_tick c m g w :
  core_ok c → empty_pipeline c →
  (∀ dst, u32 dst → mmu_read m (PC c) dst MEM_OP_WORD = Ret (EXC_None, w)) →
  ∃ c', tick_core c m g = Ret (c', m, g).
Proof.
  intros Hc (Ef & Ed & Ex & Ew) Hr.
  destruct (tick_core_step (ok := mmu_ok) c m g (gpr c) UNone (gpr c) m UNone None (gpr c) m 0 nop w)
    as (c' & Ht & _); try done; [..|by exists c'].
  - rewrite Ew. by apply pending_none.
  - by rewrite Ex.
  - constructor.
  - rewrite Ed. apply zero_executes.
  - constructor.
  - by rewrite Ef.
Qed.

(** A core as [cpu_init] leaves it fetches its first instruction from address 0. *)
Lemma zero_core_tick m g f :
  mmu_read m 0 0 MEM_OP_WORD = Crash f → tick_core zero_core m g = Crash f.
Proof.
  intros Hr. unfold tick_core. change (interpret_wb zero_core g) with (Ret (zero_core, g)).
  cbn [mbind outcome_bind].
  change (interpret_mem zero_core m) with (Ret (zero_core, m)).
  cbn [mbind outcome_bind]. unfold interpret_if.
  replace (aread (regs (interpret_id (interpret_ex zero_core))) REG_PC) with 0
    by (vm_compute; reflexivity).
  cbn [bus_read mmu_bus]. by rewrite Hr.
Qed.

(** C7: a machine of several cores does not run: with at most 512 MiB of memory (the default
    size), neither debugger nor log and a host whose calls succeed, for every loadable file
    whose entry point is in the mapped part of the first kernel segment and every core
    count above one, [simulate] reads through a null pointer in the first tick -
    [cpu_init] leaves the PC of every core but the first at 0, an address that no memory
    of this size maps. *)
Theorem multicore_crashes fuel host s file h phs :
  let m0 := boot_memory (alloc_dev host) (memsz s) in
  host_ok host → 1 < s32 (cores s) → log_wanted s = false → debug_wanted s = false →
  0 <= memsz s <= 0x20000000 → program s ≫= files host = Some file → Forall u8 file →
  ehdr_ok h → holds file 0 (ehdr_bytes h) → phdr_table file h phs →
  Forall (loadable file m0) phs →
  KSEG0_VSTART <= e_entry h < KSEG0_VSTART + wrap32 (memsz s / 8) → (0 < fuel)%nat →
  simulate fuel host s = Some (Crash NullDeref).
Proof.
  intros m0 Hhost Hcores Hlog Hdebug Hs Hfile Hf Hok Hh Ht Hl Hentry Hfuel.
  unfold simulate. rewrite (boot_loaded host s file h phs) by (done || lia). fold m0.
  destruct (load_segments_ok file m0 phs Hf) as [Hm Hlen]; [apply boot_memory_ok; lia|].
  set (m := foldl (load_segment file) m0 phs) in *.
  assert (pmem_len m = memsz s) as Hsize by (rewrite Hlen; apply boot_memory_len).
  rewrite Hlog, Hdebug, run_debug_plain by done. cbn [hw]. unfold booted.
  replace (Z.to_nat (s32 (cores s)) - 1)%nat with (S (Z.to_nat (s32 (cores s)) - 2)) by lia.
  cbn [replicate]. set (c := boot_core (memsz s) (e_entry h)).
  assert (PC c = e_entry h) as Epc.
  { unfold PC, c, boot_core, set_PC. cbn [update regs]. by apply aread_insert_eq. }
  assert (wrap32 (memsz s / 8) <= 0x20000000) as Hw.
  { unfold wrap32. rewrite Z.mod_small; Z.div_mod_to_equations; lia. }
  assert (∀ dst, mmu_read m (PC c) dst MEM_OP_WORD =
    Ret (EXC_None, be_value (bytes_at (pmem m) (e_entry h - 0x80000000) 4))) as Hr.
  { intros dst. rewrite Epc. unfold KSEG0_VSTART in Hentry. apply (mmu_read_kseg0 m (e_entry h) dst MEM_OP_WORD Hm).
    - lia.
    - rewrite Hsize. lia. }
  assert (core_ok c) as Hc.
  { apply core_ok_set_PC; [apply initial_core_ok|]. unfold u32, KSEG0_VSTART in *. lia. }
  edestruct (first_tick c m false) as [c' Htick]; [exact Hc|by split_and!|by intros; apply Hr|].
  destruct fuel as [|fuel]; [lia|]. unfold run. cbn [run_loop]. unfold run_step. cbn [core cpu mmu].
  unfold PC in Hr. rewrite Hr. cbn [mbind outcome_bind]. unfold tick. cbn [core cpu mmu tick_cores].
  rewrite Htick. cbn [mbind outcome_bind].
  by rewrite (zero_core_tick m false NullDeref) by (apply mmu_read_low_user; [done|lia..]).
Qed.

Lemma multicore_crashes_witness :
  simulate 9 (exit_host exit_file) (exit_settings <| cores := 2 |>) = Some (Crash NullDeref).
Proof.
  apply (multicore_crashes 9 (exit_host exit_file) (exit_settings <| cores := 2 |>) exit_file example_ehdr
    [exit_phdr]).
  - by split_and!.
  - vm_compute. reflexivity.
  - reflexivity.
  - reflexivity.
  - vm_compute. split; congruence.
  - vm_compute. reflexivity.
  - apply (bool_decide_unpack _). vm_compute. exact I.
  - exact example_ehdr_ok.
  - exact (holds_prefix _ _).
  - split; [reflexivity|]. intros [|i] ph; [|done]. intros [= <-]. split; [done|]. vm_compute. reflexivity.
  - constructor; [exact exit_loadable|constructor].
  - vm_compute. split; congruence.
  - lia.
Defined.
