(* ===== verification/MainTheorems.v ===== *)
(** * Theorems on the command line (src/main.c)

    What every command line means ([settings_of], the specification of the loop over the
    options and of the checks behind it), the documented options that do not work, and the
    settings read back from a command line that spells them. *)

From Stdlib Require Import Ascii.
From S2P Require Import Prelude Simulate Main.

#[local] Open Scope Z_scope.

(** ** The loop over the options ends *)

Definition args_size (l : list string) : nat := sum_list_with (λ a, S (String.length a)) l.
#[local] Arguments args_size _ : simpl never.
#[local] Arguments option_argument _ _ _ _ : simpl never.

Lemma args_size_cons a l : args_size (a :: l) = (S (String.length a) + args_size l)%nat.
Proof. done. Qed.

Definition getopt_size (g : getopt_t) : nat := String.length (nextchar g) + args_size (arguments g).

Lemma option_argument_size c k inline rest :
  (args_size (option_argument c k inline rest).2 <= args_size rest)%nat.
Proof. unfold option_argument. destruct k, inline, rest; cbn; rewrite ?args_size_cons; lia. Qed.

Lemma getopt_short_size c group rest :
  (getopt_size (getopt_short c group rest).2 <= String.length group + args_size rest)%nat.
Proof.
  unfold getopt_short, getopt_size. destruct (short_option c) as [[]|]; cbn; [lia| |lia].
  pose proof (option_argument_size c required_argument
    match group with EmptyString => None | _ => Some group end rest) as Hs.
  destruct (option_argument _ _ _ _) as [r rest']. cbn in *. lia.
Qed.

Lemma getopt_name_size text rest :
  (getopt_size (getopt_name text rest).2 <= args_size rest)%nat.
Proof.
  unfold getopt_name, getopt_size. destruct (split_equals text) as [name inline].
  destruct (long_option name) as [[k c]|]; [|cbn; lia].
  pose proof (option_argument_size c k inline rest) as Hs.
  destruct (option_argument _ _ _ _) as [r rest']. cbn in *. lia.
Qed.

Lemma getopt_long_size g r g' :
  getopt_long g = (Some r, g') → (getopt_size g' < getopt_size g)%nat.
Proof.
  destruct g as [n args]. unfold getopt_long. cbn [nextchar arguments].
  destruct n as [|c group].
  2: { pose proof (getopt_short_size c group args) as Hs. destruct (getopt_short c group args).
       intros [= <- <-]. unfold getopt_size in *. cbn in *. rewrite ?args_size_cons. cbn. lia. }
  destruct args as [|a rest]; [done|].
  assert (∀ c group, (getopt_size (getopt_short c group rest).2 <= String.length group + args_size rest)%nat)
    as Hshort by (intros; apply getopt_short_size).
  assert (∀ text, (getopt_size (getopt_name text rest).2 <= args_size rest)%nat)
    as Hname by (intros; apply getopt_name_size).
  destruct a as [|[[] [] [] [] [] [] [] []] a]; try done.
  destruct a as [|d a]; [done|].
  assert (∀ r0, (let '(r, g0) := getopt_short d a rest in (Some r, g0)) = (Some r0, g') →
    (getopt_size g' < getopt_size (Getopt EmptyString (String "-" (String d a) :: rest)))%nat) as Hd.
  { intros r0. specialize (Hshort d a). destruct (getopt_short d a rest) as [r1 g1].
    intros [= <- <-]. unfold getopt_size in *. cbn in *. rewrite ?args_size_cons. cbn. lia. }
  destruct d as [[] [] [] [] [] [] [] []]; try exact (Hd r).
  destruct a as [|e a]; [done|].
  specialize (Hname (String e a)). destruct (getopt_name (String e a) rest) as [r1 g1].
  intros [= <- <-]. unfold getopt_size in *. cbn in *. rewrite ?args_size_cons. cbn. lia.
Qed.

Lemma main_options_mono fuel fuel' g s r :
  main_options fuel g s = Some r → (fuel <= fuel')%nat → main_options fuel' g s = Some r.
Proof.
  revert fuel' g s. induction fuel as [|fuel IH]; intros [|fuel'] g s; try done; [lia|].
  cbn [main_options]. destruct (getopt_long g) as [[[c optarg]|] g']; [|done].
  destruct (main_switch c optarg s); [|done..]. intros Hr Hf. apply IH; [done|lia].
Qed.

(** ** What a command line means *)

(** The options [getopt_long] delivers, to the last, and the arguments behind them. *)
Inductive delivers : getopt_t → list (ascii * option string) → list string → Prop :=
  | delivers_end g g' : getopt_long g = (None, g') → delivers g [] (arguments g')
  | delivers_option g o g' os rest :
      getopt_long g = (Some o, g') → delivers g' os rest → delivers g (o :: os) rest.

Lemma delivers_total g : ∃ os rest, delivers g os rest ∧ (length os <= getopt_size g)%nat.
Proof.
  remember (getopt_size g) as n eqn:Hn. revert g Hn. induction (lt_wf n) as [n _ IH]. intros g ->.
  destruct (getopt_long g) as [[o|] g'] eqn:E.
  - pose proof (getopt_long_size _ _ _ E) as Hs.
    destruct (IH _ Hs g' eq_refl) as (os & rest & Hd & Hl).
    exists (o :: os), rest. split; [by eapply delivers_option|]. cbn. lia.
  - exists [], (arguments g'). split; [by apply delivers_end|]. cbn. lia.
Qed.

Lemma delivers_det g os rest os' rest' :
  delivers g os rest → delivers g os' rest' → os = os' ∧ rest = rest'.
Proof.
  intros Hd. revert os' rest'. induction Hd as [g g' E|g o g' os rest E _ IH]; intros os' rest' Hd';
    destruct Hd' as [g g1 E'|g o' g1 os' rest' E' Hd']; rewrite E in E'; simplify_eq; [done|].
  by destruct (IH os' rest' Hd') as [-> ->].
Qed.

(** What one option says. A number is a decimal numeral, possibly behind white space and a
    sign, with a value of 64 bits. *)
Inductive meaning :=
  | MDebug | MCores (n : Z) | MMemory (n : Z) | MProgram (path : option string)
  | MLog (file : option string) | MHelp | MRefused | MNoArgument.

#[export] Instance meaning_eq_dec : EqDecision meaning.
Proof. solve_decision. Defined.

Definition number_meaning (k : Z → meaning) (optarg : option string) : meaning :=
  match optarg with
  | None => MNoArgument
  | Some a => match strtoul a with Some (n, false) => k n | _ => MRefused end
  end.

Definition option_meaning (o : ascii * option string) : meaning :=
  let c := o.1 in
  if decide (c = "c"%char) then number_meaning MCores o.2
  else if decide (c = "d"%char) then MDebug
  else if decide (c = "h"%char) then MHelp
  else if decide (c = "l"%char) then MLog o.2
  else if decide (c = "m"%char) then number_meaning MMemory o.2
  else if decide (c = "p"%char) then MProgram o.2
  else MRefused.

(** The options that end the process, and those that set something. *)
Definition stop_of (x : meaning) : option (outcome settings_t) :=
  match x with
  | MHelp => Some (Exit EXIT_SUCCESS)
  | MRefused => Some (Exit EXIT_FAILURE)
  | MNoArgument => Some (Crash NullDeref)
  | _ => None
  end.
Definition cores_of (x : meaning) : option Z := match x with MCores n => Some n | _ => None end.
Definition memory_of (x : meaning) : option Z := match x with MMemory n => Some n | _ => None end.
Definition program_of (x : meaning) : option (option string) :=
  match x with MProgram path => Some path | _ => None end.
Definition log_of (x : meaning) : option (option string) :=
  match x with MLog file => Some file | _ => None end.

(** The specification: the first option that ends the process does; otherwise the last
    setting of each kind counts, the operand is the program before any -p, without a
    program nothing is simulated, and a log that cannot be opened is not written. *)
Definition settings_of (l : list meaning) (rest : list string) (opens : string → bool)
    : outcome settings_t :=
  match head (omap stop_of l) with
  | Some stop => stop
  | None =>
    let log := last (omap log_of l) in
    match match rest with path :: _ => Some path | [] => mjoin (last (omap program_of l)) end with
    | None => Exit EXIT_SUCCESS
    | Some path => Ret {|
        cores := default 1 (last (omap cores_of l));
        memsz := default MEMORY_SIZE (last (omap memory_of l));
        program := Some path;
        log_wanted := from_option opens false (mjoin log);
        log_file := mjoin log;
        debug_wanted := bool_decide (MDebug ∈ l) |}
    end
  end.

(** The effect of an option on the settings. *)
Definition apply_meaning (s : settings_t) (x : meaning) : settings_t :=
  match x with
  | MDebug => s <| debug_wanted := true |>
  | MCores n => s <| cores := n |>
  | MMemory n => s <| memsz := n |>
  | MProgram path => s <| program := path |>
  | MLog file => s <| log_wanted := true |> <| log_file := file |>
  | _ => s
  end.

Lemma parse_size_t_number a :
  parse_size_t (Some a) = match strtoul a with Some (n, false) => Ret n | _ => Exit EXIT_FAILURE end.
Proof.
  unfold parse_size_t, strtoul. destruct (match skip_spaces a with EmptyString => _ | _ => _ end) as [neg s].
  destruct (scan_digits None s) as [v|]; cbn [mbind option_bind]; [|done].
  destruct (ULONG_MAX <? v); [done|]. by rewrite andb_false_r.
Qed.

(** The switch of [main] does what the option says. *)
Lemma main_switch_meaning o s :
  main_switch o.1 o.2 s =
    match stop_of (option_meaning o) with
    | Some stop => stop
    | None => Ret (apply_meaning s (option_meaning o))
    end.
Proof.
  destruct o as [c optarg]. unfold main_switch, option_meaning. cbn [fst snd].
  destruct (decide (c = "c"%char)) as [->|Hc].
  { cbn. destruct optarg as [a|]; [|done]. cbn [number_meaning]. rewrite parse_size_t_number.
    by destruct (strtoul a) as [[? []]|]. }
  destruct (decide (c = "d"%char)); [done|].
  destruct (decide (c = "h"%char)) as [->|Hh]; [done|].
  destruct (decide (c = "l"%char)) as [->|Hl]; [done|].
  destruct (decide (c = "m"%char)) as [->|Hm].
  { cbn. destruct optarg as [a|]; [|done]. cbn [number_meaning]. rewrite parse_size_t_number.
    by destruct (strtoul a) as [[? []]|]. }
  by destruct (decide (c = "p"%char)).
Qed.

(** The loop over the options. *)
Lemma main_options_meaning fuel g s os rest :
  delivers g os rest → (length os < fuel)%nat →
  main_options fuel g s = Some (
    match head (omap stop_of (option_meaning <$> os)) with
    | Some stop => r ← stop; Ret (r, rest)
    | None => Ret (foldl apply_meaning s (option_meaning <$> os), rest)
    end).
Proof.
  intros Hd. revert fuel s. induction Hd as [g g' E|g [c optarg] g' os rest E Hd IH]; intros [|fuel] s Hf;
    cbn [length] in Hf; try lia; cbn [main_options]; rewrite E; [done|].
  change (main_switch c optarg s) with (main_switch (c, optarg).1 (c, optarg).2 s).
  rewrite main_switch_meaning. cbn [fmap list_fmap omap list_omap].
  destruct (option_meaning (c, optarg)); cbn [stop_of head]; try done.
  all: rewrite IH by lia; done.
Qed.

(** The settings of a fold are the last of each kind. *)
Lemma foldl_last {A} (get : settings_t → A) (f : meaning → option A) l s :
  (∀ s x, get (apply_meaning s x) = default (get s) (f x)) →
  get (foldl apply_meaning s l) = default (get s) (last (omap f l)).
Proof.
  intros Hx. revert s. induction l as [|x l IH]; intros s; [done|]. cbn [foldl]. rewrite IH, Hx.
  cbn [omap list_omap]. destruct (f x) as [a|]; [|done]. rewrite last_cons.
  by destruct (last (omap f l)).
Qed.

Lemma last_log_wanted l :
  default false (last (omap (λ x, (λ _, true) <$> log_of x) l))
  = bool_decide (is_Some (last (omap log_of l))).
Proof.
  assert (omap (λ x, (λ _, true) <$> log_of x) l = (λ _, true) <$> omap log_of l) as ->.
  { induction l as [|x l IH]; [done|]. cbn [omap list_omap]. rewrite IH. by destruct (log_of x). }
  rewrite fmap_last. destruct (last (omap log_of l)); [by rewrite bool_decide_true|done].
Qed.

Lemma last_debug_wanted l :
  default false (last (omap (λ x, if decide (x = MDebug) then Some true else None) l))
  = bool_decide (MDebug ∈ l).
Proof.
  induction l as [|x l IH]; [by rewrite bool_decide_false by apply not_elem_of_nil|].
  cbn [omap list_omap]. rewrite (bool_decide_ext (MDebug ∈ x :: l) (MDebug = x ∨ MDebug ∈ l))
    by apply elem_of_cons.
  destruct (decide (x = MDebug)) as [->|Hx].
  - rewrite last_cons. rewrite bool_decide_true by (by left).
    destruct (last _) as [b|] eqn:E; [|done]. apply last_Some_elem_of, list_elem_of_omap in E.
    destruct E as (y & _ & E). by destruct (decide (y = MDebug)); simplify_eq.
  - rewrite IH. apply bool_decide_ext. split; [by right|intros [E|?]; [by destruct Hx|done]].
Qed.

Lemma foldl_settings l :
  foldl apply_meaning default_settings l = {|
    cores := default 1 (last (omap cores_of l));
    memsz := default MEMORY_SIZE (last (omap memory_of l));
    program := mjoin (last (omap program_of l));
    log_wanted := bool_decide (is_Some (last (omap log_of l)));
    log_file := mjoin (last (omap log_of l));
    debug_wanted := bool_decide (MDebug ∈ l) |}.
Proof.
  pose proof (foldl_last cores cores_of l default_settings ltac:(by intros ? [])) as Hc.
  pose proof (foldl_last memsz memory_of l default_settings ltac:(by intros ? [])) as Hm.
  pose proof (foldl_last program program_of l default_settings ltac:(by intros ? [])) as Hp.
  pose proof (foldl_last log_file log_of l default_settings ltac:(by intros ? [])) as Hf.
  pose proof (foldl_last log_wanted (λ x, (λ _, true) <$> log_of x) l default_settings
    ltac:(by intros ? [])) as Hl.
  pose proof (foldl_last debug_wanted (λ x, if decide (x = MDebug) then Some true else None) l
    default_settings ltac:(by intros ? [])) as Hd.
  revert Hc Hm Hp Hf Hl Hd. generalize (foldl apply_meaning default_settings l) as s. intros [c m p lw lf d].
  cbn [cores memsz program log_wanted log_file debug_wanted default_settings].
  intros -> -> -> -> -> ->. f_equal.
  - apply last_log_wanted.
  - apply last_debug_wanted.
Qed.

Lemma stop_of_ends l stop :
  head (omap stop_of l) = Some stop → (∃ code, stop = Exit code) ∨ stop = Crash NullDeref.
Proof.
  intros Hh. assert (stop ∈ omap stop_of l) as Hs.
  { destruct (omap stop_of l); simplify_eq/=. apply elem_of_cons. by left. }
  apply list_elem_of_omap in Hs as ([] & _ & [= <-]); eauto.
Qed.

(** C27: on every command line the options are read to their end, and what they say is what
    [main] does: the first option that cannot be honoured ends the process, with status 0
    for the help and 1 for an unknown option and for a number that is not a decimal numeral
    of 64 bits, or reads through a null pointer when a number has no text; otherwise the
    last core count, memory size and log file count, or the defaults, any -d asks for the
    debugger, the first operand is the program before any -p, without a program the status
    is 0, and a log that cannot be opened is not written. *)
Theorem main_settings_read argv opens :
  ∃ os rest,
    (∀ os' rest', delivers (Getopt EmptyString argv) os' rest' ↔ os' = os ∧ rest' = rest) ∧
    main_settings argv opens = Some (settings_of (option_meaning <$> os) rest opens).
Proof.
  destruct (delivers_total (Getopt EmptyString argv)) as (os & rest & Hd & Hl).
  exists os, rest. split.
  { intros os' rest'. split; [intros Hd'; by eapply delivers_det|by intros [-> ->]]. }
  unfold main_settings.
  rewrite (main_options_meaning (option_fuel argv) _ default_settings os rest Hd)
    by (unfold option_fuel, getopt_size in *; cbn in Hl; unfold args_size in Hl; lia).
  f_equal. unfold settings_of. destruct (head _) as [stop|] eqn:Eh.
  - by apply stop_of_ends in Eh as [[code ->]| ->].
  - rewrite foldl_settings. cbn [mbind outcome_bind]. generalize (option_meaning <$> os) as l. intros l.
    destruct rest as [|path rest]; cbn [program].
    + destruct (mjoin (last (omap program_of l))) as [path|]; [|done].
      by destruct (last (omap log_of l)) as [[file|]|]; cbn; [destruct (opens file)| |].
    + by destruct (last (omap log_of l)) as [[file|]|]; cbn; [destruct (opens file)| |].
Qed.

(** ** Documented options that do not work *)

(** Two options of the help text do not work, whatever follows them: --debug is
    declared with the value of -c and without an argument, so that its handler reads a
    number through a null pointer; -l is missing from the option string and refused. *)
Theorem broken_options rest opens :
  main_settings ("--debug"%string :: rest) opens = Some (Crash NullDeref) ∧
  ∀ file, main_settings ("-l"%string :: file :: rest) opens = Some (Exit EXIT_FAILURE).
Proof. by split. Qed.

(** ** Numbers *)

(** The last [k] decimal digits of a number. *)
Definition decimal_digit (d : Z) : ascii := ascii_of_nat (Z.to_nat (48 + d)).
Fixpoint decimal (k : nat) (z : Z) : string :=
  match k with
  | O => EmptyString
  | S k => String (decimal_digit ((z / 10 ^ Z.of_nat k) mod 10)) (decimal k z)
  end.

Lemma decimal_digit_cases d (P : ascii → Prop) :
  0 <= d < 10 →
  Forall P ["0"; "1"; "2"; "3"; "4"; "5"; "6"; "7"; "8"; "9"]%char → P (decimal_digit d).
Proof.
  intros Hd Hp. assert (∃ n : nat, (n < 10)%nat ∧ d = Z.of_nat n) as (n & Hn & ->).
  { exists (Z.to_nat d). lia. }
  clear Hd. rewrite Forall_lookup in Hp.
  do 10 (destruct n as [|n];
    [match goal with |- P (decimal_digit (Z.of_nat ?k)) => exact (Hp k _ eq_refl) end|]). lia.
Qed.

Lemma digit_decimal_digit d : 0 <= d < 10 → digit (decimal_digit d) = Some d.
Proof.
  intros Hd. assert (∃ n : nat, (n < 10)%nat ∧ d = Z.of_nat n) as (n & Hn & ->).
  { exists (Z.to_nat d). lia. }
  clear Hd. do 10 (destruct n as [|n]; [reflexivity|]). lia.
Qed.

Lemma scan_digits_decimal k z acc :
  0 <= z →
  scan_digits acc (decimal (S k) z) =
    Some (10 ^ Z.of_nat (S k) * default 0 acc + z mod 10 ^ Z.of_nat (S k)).
Proof.
  intros Hz. revert acc. induction k as [|k IH]; intros acc.
  - cbn [decimal scan_digits]. rewrite digit_decimal_digit by (apply Z.mod_pos_bound; lia).
    change (10 ^ Z.of_nat 0) with 1. change (10 ^ Z.of_nat 1) with 10. by rewrite Z.div_1_r.
  - change (decimal (S (S k)) z) with
      (String (decimal_digit ((z / 10 ^ Z.of_nat (S k)) mod 10)) (decimal (S k) z)).
    cbn [scan_digits]. rewrite digit_decimal_digit by (apply Z.mod_pos_bound; lia). rewrite IH.
    cbn [default]. f_equal. rewrite (Nat2Z.inj_succ (S k)), Z.pow_succ_r by lia.
    rewrite (Z.mul_comm 10 (10 ^ _)), (Z.rem_mul_r z) by lia. cbn. lia.
Qed.

Lemma strtoul_decimal k z :
  0 <= z → z < 10 ^ Z.of_nat (S k) → z <= ULONG_MAX → strtoul (decimal (S k) z) = Some (z, false).
Proof.
  intros Hz Hk Hu. unfold strtoul.
  pose proof (scan_digits_decimal k z None Hz) as Hs.
  rewrite (Z.mod_small z) in Hs by lia. cbn [default] in Hs. rewrite Z.mul_0_r in Hs.
  assert ((match skip_spaces (decimal (S k) z) with
           | String "-" rest => (true, rest)
           | String "+" rest => (false, rest)
           | s => (false, s)
           end) = (false, decimal (S k) z)) as ->.
  { cbn [decimal]. generalize (decimal k z). intros rest.
    apply (decimal_digit_cases ((z / 10 ^ Z.of_nat k) mod 10)
      (λ c, match skip_spaces (String c rest) with
            | String "-" rest => (true, rest)
            | String "+" rest => (false, rest)
            | s => (false, s)
            end = (false, String c rest))); [apply Z.mod_pos_bound; lia|].
    repeat constructor. }
  rewrite Hs. cbn [mbind option_bind]. rewrite (proj2 (Z.ltb_ge _ _)) by lia. done.
Qed.

Lemma parse_size_t_decimal z : 0 <= z <= ULONG_MAX → parse_size_t (Some (decimal 20 z)) = Ret z.
Proof.
  intros Hz. unfold parse_size_t.
  rewrite strtoul_decimal by (unfold ULONG_MAX in *; lia).
  by rewrite andb_false_r.
Qed.

(** ** Settings on a command line *)

(** The path of the program is not taken for an option. *)
Definition not_option (path : string) : bool :=
  match path with String "-" (String _ _) => false | _ => true end.

Lemma getopt_long_path path rest :
  not_option path = true →
  getopt_long (Getopt EmptyString (path :: rest)) = (None, Getopt EmptyString (path :: rest)).
Proof.
  destruct path as [|[[] [] [] [] [] [] [] []] [|d path]]; try done.
Qed.

(** A command line that spells the settings. *)
Definition command_line (s : settings_t) (path : string) : list string :=
  ["--cores"%string; decimal 20 (cores s); "-m"%string; decimal 20 (memsz s)] ++
  (if debug_wanted s then ["-d"%string] else []) ++
  match log_file s with Some file => [("--log=" +:+ file)%string] | None => [] end ++ [path].

Lemma main_options_step fuel g c optarg g' s s' :
  getopt_long g = (Some (c, optarg), g') → main_switch c optarg s = Ret s' →
  main_options (S fuel) g s = main_options fuel g' s'.
Proof. intros Hg Hs. cbn [main_options]. by rewrite Hg, Hs. Qed.

Lemma main_options_path fuel path s :
  not_option path = true →
  main_options (S fuel) (Getopt EmptyString [path]) s = Some (Ret (s, [path])).
Proof. intros Hn. cbn [main_options]. by rewrite getopt_long_path. Qed.

Lemma getopt_cores d rest :
  getopt_long (Getopt EmptyString ("--cores"%string :: d :: rest)) =
    (Some ("c"%char, Some d), Getopt EmptyString rest).
Proof. reflexivity. Qed.

Lemma getopt_memory d rest :
  getopt_long (Getopt EmptyString ("-m"%string :: d :: rest)) =
    (Some ("m"%char, Some d), Getopt EmptyString rest).
Proof. reflexivity. Qed.

Lemma main_switch_cores c s :
  0 <= c <= ULONG_MAX → main_switch "c" (Some (decimal 20 c)) s = Ret (s <| cores := c |>).
Proof. intros Hc. unfold main_switch. rewrite parse_size_t_decimal by done. reflexivity. Qed.

Lemma main_switch_memory m s :
  0 <= m <= ULONG_MAX → main_switch "m" (Some (decimal 20 m)) s = Ret (s <| memsz := m |>).
Proof. intros Hm. unfold main_switch. rewrite parse_size_t_decimal by done. reflexivity. Qed.

(** The options behind the two numbers. *)
Lemma main_options_flags c m f d path :
  not_option path = true →
  main_options 3 (Getopt EmptyString ((if d : bool then ["-d"%string] else []) ++
    match f with Some file => [("--log=" +:+ file)%string] | None => [] end ++ [path]))
    (Settings c m None false None false) =
  Some (Ret (Settings c m None (bool_decide (is_Some f)) f d, [path])).
Proof.
  intros Hn. destruct d, f as [f|]; cbn [app];
    rewrite ?(main_options_step _ (Getopt EmptyString ("-d"%string :: _)) _ _ _ _ _ eq_refl eq_refl),
      ?(main_options_step _ (Getopt EmptyString (("--log=" +:+ _)%string :: _)) _ _ _ _ _ eq_refl eq_refl),
      main_options_path by exact Hn; done.
Qed.

(** C26: settings are read back from a command line that spells them, a core count and a
    memory size of 64 bits included; a log that cannot be opened is not written. *)
Theorem command_line_roundtrip s path opens :
  0 <= cores s <= ULONG_MAX → 0 <= memsz s <= ULONG_MAX → program s = Some path →
  not_option path = true → log_wanted s = bool_decide (is_Some (log_file s)) →
  main_settings (command_line s path) opens =
    Some (Ret (s <| log_wanted := from_option opens false (log_file s) |>)).
Proof.
  intros Hc Hm Hp Hn Hl. unfold main_settings.
  assert (main_options (option_fuel (command_line s path)) (Getopt EmptyString (command_line s path))
    default_settings = Some (Ret (s <| program := None |>, [path]))) as ->.
  { apply (main_options_mono 5); [|unfold option_fuel, command_line; cbn; lia].
    destruct s as [c m p l f d]. cbn [cores memsz program log_wanted log_file debug_wanted] in *.
    unfold command_line. cbn [cores memsz program log_wanted log_file debug_wanted app].
    erewrite main_options_step; [|apply getopt_cores|exact (main_switch_cores c default_settings Hc)].
    erewrite main_options_step; [|apply getopt_memory|
      exact (main_switch_memory m (default_settings <| cores := c |>) Hm)].
    change (default_settings <| cores := c |> <| memsz := m |>) with (Settings c m None false None false).
    rewrite main_options_flags by done. subst l. done. }
  cbn [mbind outcome_bind]. destruct s as [c m p l f d]. cbn in *. subst p.
  destruct f as [f|]; cbn in *; subst l; [|done]. cbn. by destruct (opens f).
Qed.

Lemma command_line_roundtrip_witness :
  main_settings (command_line (Settings 2 4096 (Some "exit"%string) true (Some "log"%string) true) "exit")
    (λ _, true) = Some (Ret (Settings 2 4096 (Some "exit"%string) true (Some "log"%string) true)).
Proof.
  apply (command_line_roundtrip (Settings 2 4096 (Some "exit"%string) true (Some "log"%string) true)
    "exit" (λ _, true)).
  - vm_compute. split; congruence.
  - vm_compute. split; congruence.
  - reflexivity.
  - reflexivity.
  - reflexivity.
Defined.
