(* ===== verification/HelpText.v ===== *)
(** * The messages of the command line (src/main.c: showUsage, showHelp)

    The help text, and the options it documents against those [main] accepts. *)

From Stdlib Require Import Ascii.
From S2P Require Import Prelude Simulate Main DebugText.

#[local] Open Scope string_scope.
#[local] Open Scope Z_scope.

Definition showUsage (progname : string) : string :=
  printf "Usage: %s [options] <program>\n" [AStr progname].

(** The lines on the options. *)
Definition help_options : string :=
  printf "  -p, --program=PATH     path to the program to execute (MIPS32 ELF)\n" [] ++
  printf "  -c, --cores=NUMBER     the number of CPU cores to simulate\n" [] ++
  printf "  -m, --memory=NUMBER    the number of memory bytes to simulate\n" [] ++
  printf "  -d, --debug            print debug information during simulation\n" [] ++
  printf "  -l, --log=FILE             log executed instructions in instruction_log.txt during simulation\n" [].

Definition showHelp (progname : string) : string :=
  showUsage progname ++ printf "\n" [] ++ help_options.

(** ** The documented options *)

(** The name of a long option: up to an equals sign or a space. *)
Fixpoint option_name (s : string) : string :=
  match s with
  | "" => ""
  | String c rest => if (c =? "=")%char || (c =? " ")%char then "" else String c (option_name rest)
  end.

(** The option a line documents, if its text starts like [  -p, --program]. *)
Definition line_option (s : string) : option (ascii * string) :=
  match s with
  | String " " (String " " (String "-" (String c (String "," (String " " (String "-" (String "-" rest))))))) =>
    Some (c, option_name rest)
  | _ => None
  end.

(** The options of the lines that start in a text, the text itself included. *)
Fixpoint documented (at_start : bool) (s : string) : list (ascii * string) :=
  match s with
  | "" => []
  | String c rest =>
    (if at_start then match line_option s with Some o => [o] | None => [] end else []) ++
    documented (c =? ascii_of_nat 10)%char rest
  end.

#[local] Instance has_arg_eq_dec : EqDecision has_arg_t.
Proof. solve_decision. Defined.

(** The program accepts the two spellings of an option, and takes them for the same. *)
Definition accepted (o : ascii * string) : bool :=
  match short_option o.1, long_option o.2 with
  | Some k, Some (k', c) => (o.1 =? c)%char && bool_decide (k = k')
  | _, _ => false
  end.

(** Of the five options of the help text, [main] accepts -p, -c and -m as documented; the
    long form of -d is taken for -c without its argument, and -l has no short form. *)
Lemma help_options_accepted :
  documented true help_options =
    [("p"%char, "program"); ("c"%char, "cores"); ("m"%char, "memory"); ("d"%char, "debug"); ("l"%char, "log")] ∧
  map accepted (documented true help_options) = [true; true; true; false; false] ∧
  long_option "debug" = Some (no_argument, "c"%char) ∧ short_option "l" = None.
Proof. split_and!; vm_compute; reflexivity. Qed.
