(* ===== verification/Validation.v ===== *)
(** * The project's own tests (src/tests)

    The programs of the repository's test suite, assembled, with the exit status its
    .test files expect. The model, run on them from the machine [hw_init] builds with the
    default memory of 512 MiB, returns every one of these values: a validation of the
    definitions against the tests their authors wrote. *)

From S2P Require Import Prelude Mips32 Cpu Io Bus Mem Sim Main.

#[local] Open Scope Z_scope.

(** A test: its name, its entry point, the words of its segments and the expected exit
    status. *)
Record test := Test {
  test_name : string; test_entry : Z; test_segments : list (Z * list Z); test_status : Z }.

Definition repository_tests : list test := [
  Test "demo"%string 0x80010000 [(0x80010000, [
      0x2008000A; 0x2009000C; 0x01284824; 0x00094842; 0x31230005; 0x3C088000; 0x35080000;
      0x3C09AAAA; 0x3529BBBB; 0xAD090000; 0x40899000; 0x2002000A; 0x0000000C])] 4;
  Test "eret"%string 0x80010000 [(0x80000080, [
      0x401A7000; 0x275A0004; 0x409A7000; 0x20630001; 0x42000018]); (0x80010000, [
      0x20030001; 0x0000000C; 0; 0x20630001; 0x2002000A; 0x0000000C; 0])] 3;
  Test "ex-hazard"%string 0x80010000 [(0x80010000, [
      0x20080002; 0x01084820; 0x01291820; 0; 0; 0; 0; 0x2002000A; 0x0000000C; 0; 0; 0; 0])] 8;
  Test "exception_handler_fetch"%string 0x80010000 [(0x80000080, [
      0x20630001; 0x2002000A; 0x0000000C]); (0x80010000, [
      0x20030001; 0x0000000C])] 2;
  Test "lw-use-hazard"%string 0x80010000 [(0x80010000, [
      0x2008000A; 0xAFA8FFFC; 0x8FA9FFFC; 0x01291820; 0; 0; 0; 0; 0x2002000A; 0x0000000C; 0;
      0; 0; 0])] 20;
  Test "mem_alu_res-hazard"%string 0x80010000 [(0x80010000, [
      0x20080005; 0x01084820; 0; 0x01291820; 0; 0; 0; 0; 0x2002000A; 0x0000000C; 0; 0; 0; 0])] 20;
  Test "mem_read_data-hazard"%string 0x80010000 [(0x80010000, [
      0x2008000A; 0xAFA8FFFC; 0x8FA9FFFC; 0; 0x01291820; 0; 0; 0; 0; 0x2002000A; 0x0000000C;
      0; 0; 0; 0])] 20;
  Test "mem_rs+ex_rt-hazard"%string 0x80010000 [(0x80010000, [
      0x20080002; 0x20090003; 0x01085020; 0x01295820; 0x014B1820; 0; 0; 0; 0; 0x2002000A;
      0x0000000C; 0; 0; 0; 0])] 10;
  Test "mem_rt+ex_rs-hazard"%string 0x80010000 [(0x80010000, [
      0x20080002; 0x20090003; 0x01085020; 0x01295820; 0x016A1820; 0; 0; 0; 0; 0x2002000A;
      0x0000000C; 0; 0; 0; 0])] 10;
  Test "mft0_mfc0"%string 0x80010000 [(0x80010000, [
      0x20080001; 0x40880000; 0x40090000; 0x00691820; 0x2002000A; 0x0000000C])] 1;
  Test "mft0_mfc0_2"%string 0x80010000 [(0x80010000, [
      0x40080000; 0x21080003; 0x40880000; 0; 0; 0; 0; 0x40080000; 0x00681820; 0x2002000A;
      0x0000000C])] 3;
  Test "mft0_mfc0_3"%string 0x80010000 [(0x80010000, [
      0x20080002; 0x40880000; 0x40090000; 0x00691820; 0x2002000A; 0x0000000C])] 2;
  Test "mft0_mfc0_4"%string 0x80010000 [(0x80010000, [
      0x2008000A; 0x40880000; 0x40030000; 0x2002000A; 0x0000000C])] 10;
  Test "order"%string 0x80010000 [(0x80010000, [
      0x3C091234; 0x35295678; 0x3C018001; 0xAC290060; 0x3C018001; 0x8C280060; 0x310300FF;
      0x2002000A; 0x0000000C]); (0x80010060, [
      0])] 120;
  Test "test_add_addiu"%string 0x80010000 [(0x80010000, [
      0x2408000A; 0x01084820; 0x01285020; 0x01494820; 0x25230014; 0x2129FFC4; 0x00691820;
      0x2002000A; 0x0000000C])] 60;
  Test "test_and_andi"%string 0x80010000 [(0x80010000, [
      0x3008000A; 0x2009000A; 0x200A000C; 0x012A5824; 0x316300FF; 0x2002000A; 0x0000000C])] 8;
  Test "test_beq"%string 0x80010000 [(0x80010000, [
      0x20080008; 0x01007020; 0; 0; 0x110E0004; 0; 0x2002000A; 0x0000000C; 0; 0x20030001;
      0x2002000A; 0x0000000C; 0])] 1;
  Test "test_beq2"%string 0x80010000 [(0x80010000, [
      0x10000002; 0; 0x0000000C; 0x20030001; 0x2002000A; 0x0000000C])] 1;
  Test "test_beq_bne"%string 0x80010000 [(0x80010000, [
      0x2008000E; 0x00084820; 0x200A000C; 0x11090003; 0; 0x08004012; 0; 0x20030001;
      0x150A0004; 0; 0x08004012; 0; 0; 0x20630001; 0x2002000A; 0x0000000C; 0; 0; 0x20030000;
      0x2002000A; 0x0000000C; 0; 0])] 2;
  Test "test_j"%string 0x80010000 [(0x80010000, [
      0x08004005; 0; 0; 0x0000000C; 0; 0x20030001; 0x2002000A; 0x0000000C])] 1;
  Test "test_j_jal_jr"%string 0x80010000 [(0x80010000, [
      0x2002000A; 0x00001820; 0x0C004012; 0; 0; 0; 0; 0x3C1F8001; 0x27FF0038; 0x3C088001;
      0x25080048; 0x01000008; 0; 0; 0x0000000C; 0; 0; 0; 0x20630001; 0x03E00008; 0; 0; 0; 0;
      0x0000000C; 0; 0])] 2;
  Test "test_jal"%string 0x80010000 [(0x80010000, [
      0x2002000A; 0x0C004009; 0x20630001; 0x20630001; 0x0000000C; 0; 0; 0; 0; 0x20630001;
      0x03E00008; 0; 0])] 3;
  Test "test_ll_sc"%string 0x80010000 [(0x80010000, [
      0x20080012; 0x2002000A; 0x3C098001; 0x25290094; 0xC12A0000; 0xE1280000; 0x24010001;
      0x11010002; 0x20030001; 0x0000000C; 0x3C098001; 0x25290090; 0xC12A0000; 0x3C088001;
      0x25080094; 0xE1090000; 0x24010000; 0x11210002; 0x20030000; 0x0000000C; 0x20030001;
      0x0000000C]); (0x80010090, [
      0x00000020; 0x00000011])] 1;
  Test "test_lui"%string 0x80010000 [(0x80010000, [
      0x2009000F; 0x3C080001; 0x2108FFFF; 0x01281824; 0x2002000A; 0x0000000C])] 15;
  Test "test_lw"%string 0x80010000 [(0x80010000, [
      0x3C018001; 0x8C280050; 0x3C018001; 0x8C290054; 0x01091824; 0x2002000A; 0x0000000C]); (0x80010050, [
      0x0000000C; 0x00000006])] 4;
  Test "test_lw_sw"%string 0x80010000 [(0x80010000, [
      0x2002000A; 0x00001820; 0x3C018001; 0x90280070; 0x3C018001; 0x94290072; 0x3C018001;
      0x8C2A0074; 0x01094020; 0x110A0002; 0; 0x0000000C; 0x20030001; 0x0000000C]); (0x80010070, [
      0x10000020; 0x00000030])] 1;
  Test "test_or_ori_nor"%string 0x80010000 [(0x80010000, [
      0x24080018; 0x00084825; 0x352A0001; 0x00005827; 0x00006027; 0x000B5A00; 0x000C6100;
      0x016C5827; 0x014B1820; 0x2002000A; 0x0000000C])] 40;
  Test "test_p_add_addiu"%string 0x80010000 [(0x80010000, [
      0x2408000A; 0; 0; 0; 0; 0x01084820; 0; 0; 0; 0; 0x01285020; 0; 0; 0; 0; 0x01494820; 0;
      0; 0; 0; 0x25230014; 0; 0; 0; 0; 0x2002000A; 0x0000000C])] 70;
  Test "test_sll_srl"%string 0x80010000 [(0x80010000, [
      0x24080010; 0x00084840; 0x00085102; 0x012A1820; 0x2002000A; 0x0000000C])] 33;
  Test "test_sw"%string 0x80010000 [(0x80010000, [
      0x3C018001; 0xAC200050; 0x3C018001; 0x8C230050; 0x2002000A; 0x0000000C]); (0x80010050, [
      0x000004D2])] 0;
  Test "test_sw_sh_sb"%string 0x80010000 [(0x80010000, [
      0x2008000A; 0x2009000C; 0x200A0018; 0x3C018001; 0xA0280080; 0x3C018001; 0xA4290082;
      0x3C018001; 0xAC2A0084; 0x3C018001; 0x90280080; 0x3C018001; 0x94290082; 0x3C018001;
      0x8C2A0084; 0x01281820; 0x006A1820; 0x2002000A; 0x0000000C]); (0x80010080, [
      0; 0])] 46;
  Test "test_zero"%string 0x80010000 [(0x80010000, [
      0x20080005; 0x2000000A; 0; 0; 0; 0; 0x01001820; 0x2002000A; 0x0000000C])] 5;
  Test "zero_reg"%string 0x80010000 [(0x80010000, [
      0x2000000A; 0x00001820; 0x2002000A; 0x0000000C])] 0].

(** The segments stored in memory, word by word. *)
Fixpoint store_words (m : mmu_t) (a : Z) (words : list Z) : outcome mmu_t :=
  match words with
  | [] => Ret m
  | w :: words => '(_, m) ← mmu_write m a w MEM_OP_WORD; store_words m (a + 4) words
  end.

Fixpoint store_segments (m : mmu_t) (segs : list (Z * list Z)) : outcome mmu_t :=
  match segs with
  | [] => Ret m
  | (a, words) :: segs => m ← store_words m a words; store_segments m segs
  end.

(** The machine with the test loaded, run for at most 100 ticks. *)
Definition test_hardware (t : test) : outcome hardware_t :=
  hw ← hw_init true true true true 1 MEMORY_SIZE;
  m ← store_segments (mmu hw) (test_segments t);
  cpu ← set_core0 (cpu hw) (λ c, set_PC c (test_entry t));
  Ret (Hardware cpu m).

Definition test_passes (t : test) : bool :=
  match test_hardware t with
  | Ret hw => match run 100 hw with Some (Ret v) => v =? test_status t | _ => false end
  | _ => false
  end.

Lemma repository_tests_pass : forallb test_passes repository_tests = true.
Proof. vm_compute. reflexivity. Qed.
