(* ===== verification/Deviations.v ===== *)
(** * Instructions the pipeline executes differently from the architecture (src/sim.c)

    JAL, SUB, LL and SC, decoded and executed with the operands the decode stage reads.
    They are outside the subset of the instruction-set specification. *)

From S2P Require Import Prelude Mips32 Tools Cpu Bus Decode Execute Memstage Wellformed Isa.
From S2P Require Import Exception Writeback Forward Mem MemProps MemTheorems DecodeExecute Refine Program.

#[local] Set Default Proof Using "Type*".

Section Deviations.
Context (c : core_t) (w : Z).
Hypothesis c_ok : core_ok c.
Hypothesis fetched_word : ifid_inst (if_id c) = w.
Hypothesis no_exception : ifid_exception (if_id c) = EXC_None.

(** The ID/EX register that decoding leaves. *)
Definition decoded_word : id_ex_t :=
  control_switch c w (clear_control ((id_latch c (id_ex c)) <| idex_exception := EXC_None |>)).

Lemma interpret_id_quiet : interpret_id c = c <| id_ex := decoded_word |>.
Proof.
  unfold interpret_id. rewrite no_exception. unfold interpret_id_control, decoded_word.
  by rewrite <-fetched_word.
Qed.

(** The operands after forwarding: [r] and [r'] are the numbers the two multiplexers look
    at; one that must not forward leaves the function before the other. *)
Definition operand_A (r v : Z) : Z :=
  match forward_mux (interpret_id c) r with Replace v' => v' | _ => v end.

Definition operand_B (r r' v : Z) : Z :=
  match forward_mux (interpret_id c) r, forward_mux (interpret_id c) r' with
  | Illegal, _ => v
  | _, Replace v' => v'
  | _, _ => v
  end.

(** [decoded_word] with other operand values. *)
Definition with_operands (a b : Z) : id_ex_t :=
  decoded_word <| idex_rs_value := a |> <| idex_rt_value := b |>.

Lemma forwarding_unit_quiet :
  idex_inst decoded_word = w → (w =? INSTRUCTION_ERET) = false →
  forwarding_unit (interpret_id c) = c <| id_ex := with_operands
    (operand_A (idex_rs decoded_word) (idex_rs_value decoded_word))
    (operand_B (idex_rs decoded_word) (idex_rt decoded_word) (idex_rt_value decoded_word)) |>.
Proof.
  intros Hi He. unfold operand_A, operand_B, with_operands. rewrite interpret_id_quiet.
  set (d := decoded_word) in *. clearbody d. unfold forwarding_unit, forward_A.
  change (id_ex (c <| id_ex := d |>)) with d. rewrite Hi, He.
  assert (∀ v, d <| idex_rs_value := v |> <| idex_rt_value := idex_rt_value d |> =
               d <| idex_rs_value := v |>) as Hb by by destruct d.
  assert (d <| idex_rs_value := idex_rs_value d |> = d) as Ha by by destruct d.
  destruct (forward_mux (c <| id_ex := d |>) (idex_rs d)) as [|va|]; [| |cbv iota; by rewrite Hb, Ha];
    cbv iota; unfold forward_B.
  - change (id_ex (c <| id_ex := d |>)) with d. destruct (forward_mux _ (idex_rt d)) as [|vb|]; cbv iota;
      [by rewrite Hb, Ha|by rewrite Ha|by rewrite Hb, Ha].
  - change (forward_mux _ (idex_rt _)) with (forward_mux (c <| id_ex := d |>) (idex_rt d)).
    destruct (forward_mux _ (idex_rt d)) as [|vb|]; cbv iota; [by rewrite Hb|done|by rewrite Hb].
Qed.

(** Executing it. *)
Lemma executed_spec d :
  idex_exception d = EXC_None →
  (idex_c_jump d = true → idex_c_beq d = false ∧ idex_c_bne d = false) →
  ex_mem (interpret_ex (c <| id_ex := d |>)) = ex_output d (ex_mem c).
Proof.
  intros He Hj. pose proof (regs_length _ (core_regs _ c_ok)) as Hl.
  set (c1 := c <| id_ex := d |>).
  destruct (interpret_ex_spec c1 He Hl Hj) as (bd & ja & ->). done.
Qed.

(** Opens [decoded_word] for the opcode [Ho] gives, forwards and executes it. *)
Ltac execute_word Ho :=
  let Hd := fresh "Hd" in let Hi := fresh "Hi" in let He := fresh "He" in
  assert (decoded_word = decoded_word) as Hd by done;
  unfold decoded_word at 2, control_switch in Hd; cbv zeta in Hd; rewrite ?Ho in Hd;
  cbn in Hd; rewrite fetched_word in Hd;
  try match goal with Hf : GET_FUNCT w = _ |- _ => rewrite !Hf in Hd; cbn in Hd end;
  assert (idex_inst decoded_word = w) as Hi by (rewrite Hd; done);
  assert ((w =? INSTRUCTION_ERET) = false) as He by (apply not_eret; rewrite Ho; done);
  rewrite (forwarding_unit_quiet Hi He); clear Hi He;
  rewrite executed_spec; unfold with_operands; rewrite Hd; [|done..];
  unfold ex_output, alu_stage, interpret_ex_alu, alu_i_type; cbn; rewrite ?Ho; cbn.

(** The signed addition of the ALU, and its exception. *)
Definition overflow (a b : Z) : exception_t := if sum_fits a b then EXC_None else EXC_ArithmeticOverflow.

Lemma jal_executed :
  GET_OPCODE w = OPCODE_JAL →
  let x := ex_mem (interpret_ex (forwarding_unit (interpret_id c))) in
  let a := operand_A (GET_RS w) (wrap32 (ifid_next_pc (if_id c) + 4)) in
  let b := operand_B (GET_RS w) REG_RA (gpr c (GET_RT w)) in
  exmem_c_reg_write x = true ∧ exmem_reg_dst x = REG_RA ∧ exmem_alu_res x = wrap32 (a + b) ∧
  exmem_exception x = overflow a b.
Proof.
  intros Ho. cbv zeta. execute_word Ho. rewrite wrap32_add_s32, check_soverflow_fits.
  unfold overflow, gpr. by destruct (sum_fits _ _).
Qed.

Lemma sub_executed :
  GET_OPCODE w = OPCODE_R → GET_FUNCT w = FUNCT_SUB →
  let x := ex_mem (interpret_ex (forwarding_unit (interpret_id c))) in
  let a := operand_A (GET_RS w) (gpr c (GET_RS w)) in
  let b := operand_B (GET_RS w) (GET_RT w) (gpr c (GET_RT w)) in
  exmem_c_reg_write x = true ∧ exmem_reg_dst x = GET_RD w ∧ exmem_alu_res x = wrap32 (a + b) ∧
  exmem_exception x = EXC_None.
Proof. intros Ho Hf. cbv zeta. execute_word Ho. split_and!; try done. apply wrap32_add_s32. Qed.

Lemma ll_executed :
  GET_OPCODE w = OPCODE_LL →
  let x := ex_mem (interpret_ex (forwarding_unit (interpret_id c))) in
  exmem_c_reg_write x = true ∧ exmem_reg_dst x = GET_RT w ∧ exmem_c_mem_read x = false ∧
  exmem_c_mem_to_reg x = false ∧ exmem_alu_res x = exmem_alu_res (ex_mem c) ∧
  exmem_exception x = EXC_None.
Proof. intros Ho. cbv zeta. execute_word Ho. done. Qed.

Lemma sc_executed :
  GET_OPCODE w = OPCODE_SC →
  let x := ex_mem (interpret_ex (forwarding_unit (interpret_id c))) in
  let a := operand_A (GET_RS w) (gpr c (GET_RS w)) in
  exmem_c_reg_write x = false ∧ exmem_c_mem_read x = false ∧ exmem_inst x = w ∧
  exmem_exception x = overflow a (SIGN_EXTEND (GET_IMM w)).
Proof.
  intros Ho. cbv zeta. execute_word Ho. rewrite check_soverflow_fits, sum_fits_wrap.
  unfold overflow, gpr. by destruct (sum_fits _ _).
Qed.
End Deviations.

(** The memory stage on a store it does not know. *)
Lemma sc_memory c (m : mmu_t) :
  exmem_c_reg_write (ex_mem c) = false → exmem_c_mem_read (ex_mem c) = false →
  GET_OPCODE (exmem_inst (ex_mem c)) = OPCODE_SC →
  ∃ wb, interpret_mem c m = Ret (c <| mem_wb := wb |>, m) ∧ memwb_c_reg_write wb = false.
Proof.
  intros Hw Hr Ho. unfold interpret_mem. cbv zeta. rewrite Hr. unfold mem_write_switch.
  change (memwb_inst (mem_latch (ex_mem c) (mem_wb c))) with (exmem_inst (ex_mem c)). rewrite Ho.
  destruct (decide _); [|destruct (exmem_c_mem_write (ex_mem c))];
    eexists; (split; [reflexivity|exact Hw]).
Qed.

(** C14: where the pipeline leaves the architecture, exactly, from the fetched word through
    decode, forwarding and EX: JAL computes for $ra the sum of two operands - the return
    address, or what the instructions in flight forward to the register that bits 21 to
    25 of its target name; and the register that bits 16 to 20 name, or what they forward
    to $ra - and raises an overflow exception when the signed sum overflows. SUB adds its
    operands, without an exception. LL leaves for its register the ALU result of the
    instruction before it, and neither reads memory nor raises an exception. SC raises
    the overflow of its address sum and writes neither memory nor a register. *)
Theorem deviating_instructions c w :
  core_ok c → ifid_inst (if_id c) = w → ifid_exception (if_id c) = EXC_None →
  let c' := interpret_ex (forwarding_unit (interpret_id c)) in
  let x := ex_mem c' in
  let R := gpr c in
  let A := operand_A c (GET_RS w) in
  let B := operand_B c (GET_RS w) in
  (GET_OPCODE w = OPCODE_JAL →
     let a := A (wrap32 (ifid_next_pc (if_id c) + 4)) in
     let b := B REG_RA (R (GET_RT w)) in
     exmem_c_reg_write x = true ∧ exmem_reg_dst x = REG_RA ∧ exmem_alu_res x = wrap32 (a + b) ∧
     exmem_exception x = overflow a b) ∧
  (GET_OPCODE w = OPCODE_R → GET_FUNCT w = FUNCT_SUB →
     let a := A (R (GET_RS w)) in
     let b := B (GET_RT w) (R (GET_RT w)) in
     exmem_c_reg_write x = true ∧ exmem_reg_dst x = GET_RD w ∧ exmem_alu_res x = wrap32 (a + b) ∧
     exmem_exception x = EXC_None) ∧
  (GET_OPCODE w = OPCODE_LL →
     exmem_c_reg_write x = true ∧ exmem_reg_dst x = GET_RT w ∧ exmem_c_mem_read x = false ∧
     exmem_c_mem_to_reg x = false ∧ exmem_alu_res x = exmem_alu_res (ex_mem c) ∧
     exmem_exception x = EXC_None) ∧
  (GET_OPCODE w = OPCODE_SC →
     exmem_c_reg_write x = false ∧
     exmem_exception x = overflow (A (R (GET_RS w))) (SIGN_EXTEND (GET_IMM w)) ∧
     ∀ m : mmu_t, ∃ wb, interpret_mem c' m = Ret (c' <| mem_wb := wb |>, m) ∧
       memwb_c_reg_write wb = false).
Proof.
  intros Hc Hw He c' x R A B. split_and!.
  - exact (jal_executed c w Hc Hw He).
  - exact (sub_executed c w Hc Hw He).
  - exact (ll_executed c w Hc Hw He).
  - intros Ho. destruct (sc_executed c w Hc Hw He Ho) as (H1 & H2 & H3 & H4).
    split; [exact H1|]. split; [exact H4|].
    intros m. apply sc_memory; [exact H1|exact H2|]. unfold c' in *. by rewrite H3.
Qed.

(** JAL with a target whose bits name $sp and $s0, no instruction in flight, and the same
    behind [addiu $s0, $zero, 8], still in EX/MEM: the link is off by the stack pointer and
    raises an overflow in the first case, and is not the return address at all in the
    second. *)
Definition jal_core (ahead : ex_mem_t) : core_t :=
  exit_machine <| if_id := zero_if_id <| ifid_inst := 0x0E1D0000 |> <| ifid_next_pc := 0x80000004 |> |>
    <| ex_mem := ahead |>.

Definition addiu_ahead : ex_mem_t :=
  zero_ex_mem <| exmem_c_reg_write := true |> <| exmem_reg_dst := 16 |> <| exmem_alu_res := 8 |>
    <| exmem_inst := 0x24100008 |>.

Lemma jal_core_ok : core_ok (jal_core zero_ex_mem) ∧ core_ok (jal_core addiu_ahead).
Proof.
  destruct exit_machine_ok as [Hr _ Hd Hx Hw].
  split; (split; [|split; vm_compute; try done; split; congruence|done|..|done]);
    try (eapply regs_ok_same; [..|exact Hr]; done); [exact Hx|].
  split; vm_compute; try done; split; congruence.
Qed.

Lemma deviating_instructions_witness :
  let link c := ex_mem (interpret_ex (forwarding_unit (interpret_id c))) in
  exmem_alu_res (link (jal_core zero_ex_mem)) = wrap32 (0x80000008 + gpr exit_machine REG_SP) ∧
  exmem_exception (link (jal_core zero_ex_mem)) = EXC_ArithmeticOverflow ∧
  exmem_alu_res (link (jal_core addiu_ahead)) = wrap32 (8 + gpr exit_machine REG_SP) ∧
  exmem_exception (link (jal_core addiu_ahead)) = EXC_None.
Proof.
  destruct jal_core_ok as [H0 H1].
  destruct (deviating_instructions _ 0x0E1D0000 H0 eq_refl eq_refl) as (Hj & _).
  destruct (deviating_instructions _ 0x0E1D0000 H1 eq_refl eq_refl) as (Hj' & _).
  destruct (Hj eq_refl) as (_ & _ & Ha & He). destruct (Hj' eq_refl) as (_ & _ & Ha' & He').
  split; [etransitivity; [exact Ha|]|split; [etransitivity; [exact He|]|split;
    [etransitivity; [exact Ha'|]|etransitivity; [exact He'|]]]]; vm_compute; reflexivity.
Defined.
